(* ===== verification/_CoqProject ===== *)
-Q . S2P
Prelude.v
CMonad.v
ChainedTable.v
ChainSpec.v
ChainHeap.v
ChainRefine.v
ChainOps.v
ChainIter.v
ChainLife.v
TableSpec.v
Listing.v
ChainView.v
Murmur.v
Murmur128.v
Flow.v
CFloat.v
HashTableFlow.v
FlowTables.v
TableProps.v
FlowProps.v
FixSizeTable.v
FixSizeSpec.v
FixSizeProps.v
FixSizeIface.v
PktListTable.v
PktListSpec.v
PktListProps.v
Settings.v
ObjStore.v
Sample.v
Warehouse.v
WarehouseSpec.v
WarehouseIter.v
WarehouseRecords.v
Bytes.v
VlanTag.v
ConditionSender.v
Config.v
WarehouseProps.v
VlanProps.v
CText.v
TaskManager.v
TaskProps.v
SendPacket.v
FrameSpec.v
SendProps.v
SendPackets.v
SendPacketsSpec.v
ConditionSpec.v
ConditionWire.v
ConditionProps.v
TimeLibrary.v
TimeProps.v
IntervalRotator.v
RotatorSpec.v
RotatorProps.v
Fifo.v
Receiver.v
FlowInforUpdator.v
Testbed.v
TestbedSpec.v
LossSpec.v
FateSpec.v
TestbedProps.v
LossProps.v
ReceiverProps.v
SettingsFile.v
SettingsProps.v
Generator.v
GeneratorSpec.v
GeneratorProps.v
System.v
SystemSpec.v
WireSpec.v
TraceSpec.v
ReplayProps.v
SystemSteps.v
SystemProps.v
