(* ===== verification/Prelude.v ===== *)
(** * Verification of the continuous-measurement testbed

    ** The program

    The testbed emulates a network of hosts and switches that find the flows
    losing the most packets.  A _sender_ host replays a trace (a patched
    tcpreplay), marks in the VLAN header of its packets which switches measure
    them and whether they are sampled, and keeps for every flow what it sent,
    what was lost and whether the flow is selected.  A _receiver_ host reports
    every TCP packet that reaches it to the sender, through a FIFO.  Two more
    threads of the sender tell the switches which flows are selected (the
    _condition sender_) and write the target flows of each interval to a file
    (the _interval rotator_).  The traces come from a generator.

    The tables all of them share are in src/public_lib/, the sender's files in
    src/tcpreplay/src/, the receiver in src/receiverSendReceFlowSeqid/, the
    generator in src/pcapFileGenerator/.

    ** How the code is modelled

    [CMonad.v]: an operation is a command, a function from a state to a result
    and a new state or to a fault (a NULL or dangling access, an access out of
    bounds, a mutex taken twice, a signed overflow, a failed assertion, a loop
    that outruns its fuel).  Memory is an arena of blocks addressed by
    positives, with the outcomes of the coming [malloc]s and the mutexes held.
    [wp c Q s] is total correctness: [c] returns from [s], without a fault,
    and [Q] holds of the result.  Every theorem below that says what an
    operation does is of this kind, or an equation with [Ok].  Integers are [Z]
    with the wrap-around written out (this file); floating point ([CFloat.v])
    is the Standard Library's executable IEEE 754 arithmetic; text ([CText.v])
    is a list of character codes; packets ([Bytes.v]) are lists of bytes.

    A loop over a table runs on fuel; its theorem holds from one more unit of
    fuel than the table has entries.  In the theorems on the whole system the
    fuel is at least 2^31: every update of an interval is of at least one byte
    and together they fit an [int], so that no table has as many entries.  The loop over VLAN headers has the length
    of the packet as fuel, since each header is four bytes.  The two waits for
    the clock have the number of readings as fuel; the theorem says how many
    readings they need.

    ** The files

    Tables.  [ChainedTable.v] has the code the four chained multi-thread tables
    share (mt_hashtable_kFlowSrc_vInt.c, mt_hashtable_kFlowSrc_vFloat.c,
    mt_hashtable_kFlow_vInt.c, mt_hashtable_kFlow_vFloat.c), [FlowTables.v] their
    entry points.  [ChainSpec.v] to [ChainView.v] prove it: the chain of a bin is
    a sorted list ([ChainSpec.v], [ChainHeap.v]), each operation refines one on
    lists ([ChainRefine.v] to [ChainLife.v]), and a table is a map with an
    iterator ([TableSpec.v], [ChainView.v]).  [TableSpec.v] has the interface
    [FlowTable] and its laws, against which all clients are proved; [Listing.v]
    has what clients need of listings of a map.  [TableProps.v] has the theorems.
    [FixSizeTable.v], [FixSizeSpec.v], [FixSizeIface.v], [FixSizeProps.v]:
    mt_hashtable_kFlowSrc_fixsize.c, its specification as decisions on one slot,
    its interface [FixedTable] and its theorems.  [PktListTable.v],
    [PktListSpec.v], [PktListProps.v]: mt_hashtable_kFlow_vLinklist.c, the packets
    of each flow sent and not accounted for.  [HashTableFlow.v]: hashTableFlow.c.
    [Murmur.v], [Murmur128.v], [Flow.v], [FlowProps.v]: murmur3.c, flow.c and the
    key types of flow.h, in the builds FLOW_SRC and FLOW_SRC_DST.

    Sender.  [Settings.v], [SettingsFile.v], [SettingsProps.v]:
    cm_experiment_setting.c and sample_model.c.
    [Sample.v]: sample_packet.c.  [ObjStore.v]: objects behind pointers that are
    kept in fields.  [Warehouse.v], [WarehouseSpec.v], [WarehouseIter.v],
    [WarehouseRecords.v], [WarehouseProps.v]: data_warehouse.c, which keeps two
    buffers of tables, records into the active one and reports from the other;
    [WarehouseRecords.v] says what a buffer holds after a list of updates, with
    the unbounded loss map and with the fixed-size one.  [VlanTag.v],
    [VlanProps.v]: vlan_tag.c.  [TaskManager.v], [TaskProps.v]: task_manager.c,
    get_mininet_host_name.c.  [SendPacket.v], [FrameSpec.v], [SendProps.v]:
    cm_handle_ipv4_packet of send_packets.c.  [SendPackets.v], [SendPacketsSpec.v],
    [ReplayProps.v]: its main loop send_packets.  [ConditionSender.v],
    [ConditionSpec.v], [ConditionWire.v], [ConditionProps.v]: condition_sender.c.
    [TimeLibrary.v], [TimeProps.v]: time_library.c.  [IntervalRotator.v],
    [RotatorSpec.v], [RotatorProps.v]: interval_rotator.c.  [Config.v] has the
    instances the sender is built with and the settings the witnesses use.

    Receiver and test bed.  [Fifo.v]: multi_write_one_read_fifo.c,
    senderFIFOsManager.c.  [Receiver.v], [ReceiverProps.v]:
    receiverSendReceFlowSeqid.c, over what libpcap answers and the packets it
    captures.
    [FlowInforUpdator.v]: flow_infor_updator.c, the thread of the sender that
    reads the reports.  [Testbed.v], [TestbedSpec.v], [TestbedProps.v],
    [LossSpec.v], [FateSpec.v], [LossProps.v]: a sender and a receiver composed,
    with the network between them; [FateSpec.v] says what becomes of each packet.

    Generator.  [Generator.v], [GeneratorSpec.v], [GeneratorProps.v]: main.c,
    srcip_dstip_to_b4_srcip_dstip.c and writePacketToPcapFile.c of
    src/pcapFileGenerator/.

    System.  [System.v]: the start of the sender in [main] of
    tcpreplay/src/tcpreplay.c, from the settings file and the task file to the
    threads, and all threads running together; a turn of a thread is a step.  Its
    abstract machine keeps accounts of packets and updates, interval by
    interval.  [SystemSpec.v] is the reasoning on that machine, [SystemSteps.v]
    the simulation: the invariant [sys_inv] relates the system to the machine and
    every step preserves it.  [WireSpec.v] says what the sender's interface is
    offered, the packets of the replay and the conditions.  [TraceSpec.v] says
    what playing a generated trace over a network gives.  [SystemProps.v] has the
    theorems.

    ** What is proved

    End to end, from the files the program reads to those it writes.
    [SystemProps.system_reports]: in any interleaving of the threads and the
    network nothing faults, and the file of target flows says of each interval
    what the updates of that interval say.  [SystemProps.true_losses_reported]: if
    packets of a flow keep their order, its last packet arrives and the reports
    are read before the rotation, with the infinite loss map the file lists,
    interval by interval, exactly the flows whose true losses are over the
    thresholds; [SystemProps.trace_losses_reported]: so for the
    traces the generator makes, from the recorded packets on.
    [SystemProps.no_false_alarms]: in the same intervals, also with the fixed-size
    loss map, which forgets losses, every flow listed is over the thresholds.
    [SystemProps.conditions_tell_levels]: what the switches are told gives every
    flow its level.  [SystemProps.packets_on_wire]: the packets of the replay are
    on the wire, tagged and with their length, and the receiver reads them as the
    sender does.  [SystemProps.late_losses_dropped]: without the assumption on
    the reports, losses appear in no interval.
    [SystemProps.random_ports_hide_losses]: nor do they if no two packets have the
    same addresses and ports, and the generator draws the ports of every packet
    at random.

    The parts of it that stand alone.  [LossProps.losses_detected]: the warehouse
    ends with exactly the volume that never arrived as the loss of each flow.
    [TestbedProps.losses_accounted]: over any network nothing faults and the loss
    recorded is that of the packets a later one of their flow has overtaken,
    which is too much if they arrive late.
    [WarehouseProps.interval_reports], [RotatorProps.target_flows_file],
    [ConditionProps.switches_follow]: a warehouse, its rotator and its condition
    sender through the updates of any intervals.
    [GeneratorProps.generated_traces]: the traces are what the sender and the
    receiver expect.  [ReplayProps.replay_sends]: the loop over a trace takes the
    steps that the system is made of, up to its limit.  [TestbedProps.parsers_agree]: sender and receiver read a
    packet alike.  [ReceiverProps.receiver_reports]: the receiver reports each
    packet it captures to its sender, and condition packets to nobody.

    Components.  The tables refine dictionaries ([kfs_vi_dictionary],
    [other_dictionaries], [vl_refines], [fixSize_refines]), their iterators list
    every entry once, their destruction frees every block once.  The warehouse
    refines maps ([warehouse_refines]).  Tags, conditions and tasks read back
    what was written ([tags_roundtrip], [condition_reads_back],
    [tasks_read_back]), the settings are those the file assigns
    ([settings_read], [settings_typed]).  The waits for the clock end
    ([next_interval_start]).

    Defects.  Some theorems state what goes wrong where the code is wrong: use
    after free when an update is overtaken by the rotation
    ([update_races_reset]) or when memory runs out ([reset_without_memory],
    [tbl_set_without_memory], [turn_without_memory]), signed overflow of a volume
    ([volume_overflow]), switches the tag has no bit for ([switch_tag_bounds]), an
    interval that never starts ([interval_of_one_ms_never_starts]), a sleep of 50
    days after a late rotation ([rotation_sleep]), conditions that are lost for
    good ([lost_conditions_not_resent]), a receiver that cannot open its device
    ([receiver_without_device]), losses that are reported late and dropped
    ([late_losses_dropped]), losses that random ports hide
    ([random_ports_hide_losses]), packets that arrive late and count as lost
    ([losses_accounted]), packets that overrun the buffer of the replay
    ([oversized_packet_overflows]) or end before their TCP header
    ([cut_off_packet_misread]).

    ** Not modelled

    The threads are modelled one turn at a time; the system interleaves turns of
    the sender, the receiver, the updator, the rotator and the condition sender,
    not their instructions, and any turn can come at any time, whatever the
    threads sleep.  Of the replay, the options, the timing of packets, the second
    interface, the loop for two files and the printed statistics, which are
    tcpreplay's, are left out.  The two races found are theorems on explicit
    interleavings of an operation's steps.
    Libpcap, the rest of tcpreplay and the operating system are not modelled:
    what they return (whether a FIFO opens, the bytes a send puts on the wire,
    the readings of the clock, random numbers of the generator) is a parameter.
    What only prints is left out. *)
From Stdlib Require Export ZArith Lia Bool.
From stdpp Require Export sorting functions numbers sets gmap.
From stdpp Require Export base tactics list list_basics list_relations.
#[export] Set Warnings "-clear-no-such-hyp".
Open Scope Z_scope.

Declare Scope cm_scope.
Delimit Scope cm_scope with cm.

(** ** Machine integers

    A [w]-bit unsigned integer is a [Z] in [0, 2^w); conversions reduce
    modulo [2^w], conversions to a signed type re-centre. *)
Definition wrap (w x : Z) : Z := x mod 2 ^ w.
Abbreviation u8 := (wrap 8).
Abbreviation u16 := (wrap 16).
Abbreviation u32 := (wrap 32).
Abbreviation u64 := (wrap 64).
Definition swrap (w x : Z) : Z := (x + 2 ^ (w - 1)) mod 2 ^ w - 2 ^ (w - 1).
Abbreviation i32 := (swrap 32).

Definition in_u (w x : Z) : Prop := 0 <= x < 2 ^ w.
Definition in_s (w x : Z) : Prop := - 2 ^ (w - 1) <= x < 2 ^ (w - 1).
#[export] Instance in_u_dec w x : Decision (in_u w x).
Proof. unfold in_u. apply _. Defined.
#[export] Instance in_s_dec w x : Decision (in_s w x).
Proof. unfold in_s. apply _. Defined.

Create HintDb word discriminated.

Lemma wrap_in_u w x : 0 <= w -> in_u w (wrap w x).
Proof. intros. apply Z.mod_pos_bound. lia. Qed.

Lemma wrap_small w x : in_u w x -> wrap w x = x.
Proof. intros H. apply Z.mod_small, H. Qed.

Lemma wrap_idemp w x : wrap w (wrap w x) = wrap w x.
Proof. apply Zmod_mod. Qed.

Lemma swrap_in_s w x : 0 < w -> in_s w (swrap w x).
Proof.
  intros. unfold swrap, in_s.
  assert (2 ^ w = 2 * 2 ^ (w - 1)) as E
    by (rewrite <- Z.pow_succ_r by lia; f_equal; lia).
  pose proof (Z.mod_pos_bound (x + 2 ^ (w - 1)) (2 ^ w)). lia.
Qed.

Lemma swrap_small w x : 0 < w -> in_s w x -> swrap w x = x.
Proof.
  intros ? H. unfold swrap. unfold in_s in H.
  assert (2 ^ w = 2 * 2 ^ (w - 1)) as E
    by (rewrite <- Z.pow_succ_r by lia; f_equal; lia).
  rewrite Z.mod_small; lia.
Qed.

(** Reading an unsigned value through a signed return type: what survives. *)
Lemma i32_of_u32_low x : 0 <= x < 2 ^ 31 -> i32 x = x.
Proof. intros. apply swrap_small; unfold in_s; simpl; lia. Qed.

Lemma i32_of_u32_high x : 2 ^ 31 <= x < 2 ^ 32 -> i32 x = x - 2 ^ 32.
Proof.
  intros H. unfold swrap. change (2 ^ (32 - 1)) with (2 ^ 31).
  replace (x + 2 ^ 31) with ((x - 2 ^ 31) + 1 * 2 ^ 32) by lia.
  rewrite Z.mod_add, Z.mod_small; lia.
Qed.

Lemma i32_nonneg_iff x : in_u 32 x -> 0 <= i32 x <-> x < 2 ^ 31.
Proof.
  intros H. unfold in_u in H. destruct (decide (x < 2 ^ 31)).
  - rewrite i32_of_u32_low; lia.
  - rewrite i32_of_u32_high; lia.
Qed.

(** Bitwise operations stay in range. *)
Lemma in_u_testbit w x :
  0 <= w -> 0 <= x -> (forall i, w <= i -> Z.testbit x i = false) -> in_u w x.
Proof.
  intros Hw Hx H. split; [done|].
  destruct (decide (x < 2 ^ w)) as [|Hge]; [done|exfalso].
  assert (x <> 0) by (intros ->; pose proof (Z.pow_pos_nonneg 2 w); lia).
  assert (w <= Z.log2 x).
  { apply Z.log2_le_pow2; lia. }
  pose proof (Z.bit_log2 x ltac:(lia)) as Hb.
  rewrite H in Hb by done. discriminate.
Qed.

Lemma testbit_high w x i : in_u w x -> 0 <= w <= i -> Z.testbit x i = false.
Proof.
  intros [H0 H1] Hi. destruct (decide (x = 0)) as [->|].
  - apply Z.bits_0.
  - apply Z.bits_above_log2; [lia|].
    apply Z.log2_lt_pow2; [lia|].
    eapply Z.lt_le_trans; [exact H1|]. apply Z.pow_le_mono_r; lia.
Qed.

Lemma lxor_in_u w x y : 0 <= w -> in_u w x -> in_u w y -> in_u w (Z.lxor x y).
Proof.
  intros Hw Hx Hy. apply in_u_testbit; [done| |].
  - apply Z.lxor_nonneg. unfold in_u in *. lia.
  - intros i Hi. rewrite Z.lxor_spec, !(testbit_high w) by done. done.
Qed.

Lemma lor_in_u w x y : 0 <= w -> in_u w x -> in_u w y -> in_u w (Z.lor x y).
Proof.
  intros Hw Hx Hy. apply in_u_testbit; [done| |].
  - apply Z.lor_nonneg. unfold in_u in *. lia.
  - intros i Hi. rewrite Z.lor_spec, !(testbit_high w) by done. done.
Qed.

Lemma shiftr_in_u w x n : 0 <= n -> in_u w x -> in_u w (Z.shiftr x n).
Proof.
  intros Hn [H0 H1]. rewrite Z.shiftr_div_pow2 by done.
  pose proof (Z.pow_pos_nonneg 2 n ltac:(lia) ltac:(lia)).
  split; [apply Z.div_pos; lia|].
  eapply Z.le_lt_trans; [|exact H1]. apply Z.div_le_upper_bound; nia.
Qed.

Lemma in_u_mono w w' x : 0 <= w <= w' -> in_u w x -> in_u w' x.
Proof.
  intros ? [? H]. split; [done|].
  eapply Z.lt_le_trans; [exact H|]. apply Z.pow_le_mono_r; lia.
Qed.

#[export] Hint Resolve wrap_in_u lxor_in_u lor_in_u shiftr_in_u : word.
#[export] Hint Extern 1 (0 <= _) => lia : word.

(** Closes side conditions about word ranges. *)
Ltac word := solve [eauto with word | unfold in_u, in_s in *; simpl in *; lia].

Lemma lxor_cancel_r x y z : Z.lxor x z = Z.lxor y z -> x = y.
Proof.
  intros H. assert (Z.lxor (Z.lxor x z) z = Z.lxor (Z.lxor y z) z) as E by (by rewrite H).
  by rewrite !Z.lxor_assoc, !Z.lxor_nilpotent, !Z.lxor_0_r in E.
Qed.

(** Multiplying by an odd constant loses nothing modulo [2^w]: the inverse
    [d] of [c] is the certificate. *)
Lemma mul_odd_inj w c d x y :
  0 <= w -> wrap w (c * d) = 1 -> in_u w x -> in_u w y ->
  wrap w (x * c) = wrap w (y * c) -> x = y.
Proof.
  intros Hw Hcd Hx Hy H.
  rewrite <- (wrap_small w x Hx), <- (wrap_small w y Hy).
  assert (forall z, wrap w (wrap w (z * c) * d) = wrap w z) as E.
  { intros z. unfold wrap in *. rewrite Z.mul_mod_idemp_l, <- Z.mul_assoc by lia.
    rewrite Z.mul_mod by lia. rewrite Hcd.
    rewrite Z.mul_1_r, Z.mod_mod by lia. done. }
  by rewrite <- (E x), <- (E y), H.
Qed.

Lemma add_const_inj w c x y :
  0 <= w -> in_u w x -> in_u w y -> wrap w (x + c) = wrap w (y + c) -> x = y.
Proof.
  intros Hw Hx Hy H. rewrite <- (wrap_small w x Hx), <- (wrap_small w y Hy).
  assert (forall z, wrap w (wrap w (z + c) - c) = wrap w z) as E.
  { intros z. unfold wrap. rewrite Zminus_mod_idemp_l. f_equal. lia. }
  by rewrite <- (E x), <- (E y), H.
Qed.
