(* ===== verification/CMonad.v ===== *)
(** * The execution model: commands over a C-like store

    A command reads and rewrites a state and either returns a value or stops
    with a fault (an access the C code must not make).  The store of a
    component is an arena of heap nodes addressed by positives, together with
    the outcomes [malloc] will give and the mutexes currently held.  [wp] is
    total correctness: a command whose [wp] holds returns, without a fault and
    without running out of fuel. *)
From S2P Require Import Prelude.

(** ** Results *)

Inductive fault :=
| NullDeref        (** dereference of a NULL pointer *)
| Dangling         (** access to or [free] of a block that is not live *)
| OutOfBounds      (** array access outside the array *)
| Uninit           (** read of an array slot that was never written *)
| LockBusy         (** [pthread_mutex_lock] of a mutex that is held: self-deadlock *)
| LockNotHeld      (** [pthread_mutex_unlock] of a mutex that is not held *)
| OutOfFuel        (** a loop of the model ran longer than its bound *)
| AssertFail       (** a failed [assert] *)
| SignedOverflow   (** an [int] operation whose result is out of range *)
| DivByZero.       (** an integer division by zero *)

#[export] Instance fault_eq_dec : EqDecision fault.
Proof. solve_decision. Defined.

Inductive res (A : Type) :=
| Ok (a : A)
| Fault (e : fault).
Arguments Ok {A} a.
Arguments Fault {A} e.

Definition cmd (S A : Type) : Type := S → res (A * S).

Section monad.
Context {S : Type}.

#[export] Instance cmd_ret : MRet (cmd S) := λ A a s, Ok (a, s).
#[export] Instance cmd_bind : MBind (cmd S) := λ A B f c s,
  match c s with
  | Ok (a, s') => f a s'
  | Fault e => Fault e
  end.

Definition throw {A} (e : fault) : cmd S A := λ _, Fault e.
Definition get_state : cmd S S := λ s, Ok (s, s).
Definition gets {A} (f : S → A) : cmd S A := λ s, Ok (f s, s).
Definition modify (f : S → S) : cmd S unit := λ s, Ok (tt, f s).
Definition lift {A} (r : res A) : cmd S A := λ s,
  match r with Ok a => Ok (a, s) | Fault e => Fault e end.
Definition assert_ (b : bool) : cmd S unit :=
  if b then mret tt else throw AssertFail.

(** ** Weakest preconditions *)
Definition wp {A} (c : cmd S A) (Q : A → S → Prop) (s : S) : Prop :=
  match c s with Ok (a, s') => Q a s' | Fault _ => False end.

Lemma wp_ret {A} (a : A) Q s : Q a s → wp (mret a) Q s.
Proof. done. Qed.

Lemma wp_bind {A B} (c : cmd S A) (f : A → cmd S B) Q s :
  wp c (λ a s', wp (f a) Q s') s → wp (c ≫= f) Q s.
Proof. unfold wp, mbind, cmd_bind. by destruct (c s) as [[]|]. Qed.

Lemma wp_mono {A} (c : cmd S A) (Q R : A → S → Prop) s :
  wp c Q s → (∀ a s', Q a s' → R a s') → wp c R s.
Proof. unfold wp. destruct (c s) as [[]|]; naive_solver. Qed.

Lemma wp_gets {A} (f : S → A) Q s : Q (f s) s → wp (gets f) Q s.
Proof. done. Qed.

Lemma wp_modify f Q s : Q tt (f s) → wp (modify f) Q s.
Proof. done. Qed.

(** Evaluating a sequence from the result of its first command *)
Lemma bind_ok {A B} (c : cmd S A) (f : A → cmd S B) s a s' :
  c s = Ok (a, s') → (c ≫= f) s = f a s'.
Proof. intros E. unfold mbind, cmd_bind. by rewrite E. Qed.

Lemma bind_fault {A B} (c : cmd S A) (f : A → cmd S B) s e :
  c s = Fault e → (c ≫= f) s = Fault e.
Proof. intros E. unfold mbind, cmd_bind. by rewrite E. Qed.

Lemma wp_exact {A} (c : cmd S A) s a s' :
  wp c (λ b s'', b = a ∧ s'' = s') s → c s = Ok (a, s').
Proof. unfold wp. destruct (c s) as [[]|]; [by intros [-> ->]|done]. Qed.

Lemma wp_run {A} (c : cmd S A) Q s :
  wp c Q s ↔ ∃ a s', c s = Ok (a, s') ∧ Q a s'.
Proof.
  unfold wp. split.
  - destruct (c s) as [[a s']|] eqn:E; [eauto|done].
  - intros (a & s' & -> & H). done.
Qed.
End monad.


(** ** Counting loops *)
Section loops.
Context {S : Type}.

(** [for (i = from; i < from + n; i++) body(i)] *)
Fixpoint for_range (n : nat) (from : Z) (body : Z → cmd S unit) : cmd S unit :=
  match n with
  | O => mret tt
  | Datatypes.S n => body from;; for_range n (from + 1) body
  end.

(** Rule: an invariant indexed by the counter *)
Lemma wp_for_range n from body (I : Z → S → Prop) (Q : unit → S → Prop) t :
  I from t →
  (∀ i s, from <= i < from + Z.of_nat n → I i s → wp (body i) (λ _ s', I (i + 1) s') s) →
  (∀ s, I (from + Z.of_nat n) s → Q tt s) →
  wp (for_range n from body) Q t.
Proof.
  revert from t. induction n as [|n IH]; intros from t HI Hb HQ.
  - apply HQ. by replace (from + Z.of_nat 0) with from by lia.
  - simpl. apply wp_bind. eapply wp_mono; [apply Hb; [lia|done]|]. intros [] s Hs.
    apply IH; [done| |].
    + intros i s' Hi. apply Hb. lia.
    + intros s' Hs'. apply HQ.
      by replace (from + Z.of_nat (Datatypes.S n)) with (from + 1 + Z.of_nat n) by lia.
Qed.
End loops.

(** Running a command on a part of a larger state. *)
Section zoom.
Context {W S : Type} (proj : W → S) (upd : S → W → W).
Definition zoom {A} (c : cmd S A) : cmd W A := λ w,
  match c (proj w) with
  | Ok (a, s) => Ok (a, upd s w)
  | Fault e => Fault e
  end.
Lemma wp_zoom {A} (c : cmd S A) Q w :
  wp c (λ a s, Q a (upd s w)) (proj w) → wp (zoom c) Q w.
Proof. unfold wp, zoom. by destruct (c (proj w)) as [[]|]. Qed.
End zoom.

(** ** Handles: what a C pointer to a component can be *)
Inductive ptr (T : Type) :=
| PNull            (** NULL *)
| PFreed           (** a pointer whose block was freed *)
| PLive (t : T).   (** a pointer to a live object *)
Arguments PNull {T}.
Arguments PFreed {T}.
Arguments PLive {T} t.

Section handle.
Context {T : Type}.
(** Access through a pointer the code has not tested for NULL. *)
Definition deref {A} (c : cmd T A) : cmd (ptr T) A := λ p,
  match p with
  | PNull => Fault NullDeref
  | PFreed => Fault Dangling
  | PLive t =>
      match c t with Ok (a, t') => Ok (a, PLive t') | Fault e => Fault e end
  end.
(** [if (NULL == hashtable) return dflt;] and then the body. *)
Definition unless_null {A} (dflt : A) (c : cmd T A) : cmd (ptr T) A := λ p,
  match p with
  | PNull => Ok (dflt, PNull)
  | _ => deref c p
  end.

Lemma wp_deref {A} (c : cmd T A) Q t :
  wp c (λ a t', Q a (PLive t')) t → wp (deref c) Q (PLive t).
Proof. unfold wp, deref. by destruct (c t) as [[]|]. Qed.
Lemma wp_unless_null {A} (d : A) (c : cmd T A) Q t :
  wp c (λ a t', Q a (PLive t')) t → wp (unless_null d c) Q (PLive t).
Proof. apply wp_deref. Qed.
End handle.

(** ** The arena of a component *)
Abbreviation loc := positive.

(** A mutex is destroyed or live; a live one is free or held. *)
Record arena (N : Type) := Arena {
  heap : gmap loc N;       (** the live blocks *)
  brk : loc;               (** every address below it was handed out *)
  mallocs : list bool;     (** what the coming [malloc]s give; [[]]: all succeed *)
  held : gset Z            (** the mutexes held *)
}.
Arguments Arena {N} _ _ _ _.
Arguments heap {N} _.
Arguments brk {N} _.
Arguments mallocs {N} _.
Arguments held {N} _.

Section arena.
Context {N : Type}.
Implicit Types (m : arena N) (a : loc) (p : option loc).

Definition set_heap (h : gmap loc N) m : arena N :=
  Arena h (brk m) (mallocs m) (held m).
Definition set_held (l : gset Z) m : arena N :=
  Arena (heap m) (brk m) (mallocs m) l.

(** [*p] *)
Definition load p : cmd (arena N) N := λ m,
  match p with
  | None => Fault NullDeref
  | Some a => match heap m !! a with
              | Some n => Ok (n, m)
              | None => Fault Dangling
              end
  end.
(** [*p = f( *p )]: an assignment to some fields of the node *)
Definition update p (f : N → N) : cmd (arena N) unit := λ m,
  match p with
  | None => Fault NullDeref
  | Some a => match heap m !! a with
              | Some n => Ok (tt, set_heap (<[a := f n]> (heap m)) m)
              | None => Fault Dangling
              end
  end.
(** [malloc] followed by the initialisation of every field; NULL when the
    allocation fails. *)
Definition malloc (n : N) : cmd (arena N) (option loc) := λ m,
  match mallocs m with
  | false :: sched => Ok (None, Arena (heap m) (brk m) sched (held m))
  | sched => Ok (Some (brk m),
                 Arena (<[brk m := n]> (heap m)) (Pos.succ (brk m)) (tail sched) (held m))
  end.
(** [free(p)]; [free(NULL)] does nothing *)
Definition free p : cmd (arena N) unit := λ m,
  match p with
  | None => Ok (tt, m)
  | Some a => match heap m !! a with
              | Some _ => Ok (tt, set_heap (delete a (heap m)) m)
              | None => Fault Dangling
              end
  end.
(** [pthread_mutex_lock] and [pthread_mutex_unlock] of the [i]-th mutex of an
    array of [n]. *)
Definition lock (n i : Z) : cmd (arena N) unit := λ m,
  if decide (0 <= i < n) then
    if decide (i ∈ held m) then Fault LockBusy
    else Ok (tt, set_held ({[i]} ∪ held m) m)
  else Fault OutOfBounds.
Definition unlock (n i : Z) : cmd (arena N) unit := λ m,
  if decide (0 <= i < n) then
    if decide (i ∈ held m) then Ok (tt, set_held (held m ∖ {[i]}) m)
    else Fault LockNotHeld
  else Fault OutOfBounds.

Lemma wp_load a n m (Q : N → arena N → Prop) :
  heap m !! a = Some n → Q n m → wp (load (Some a)) Q m.
Proof. intros H HQ. unfold wp, load. by rewrite H. Qed.

Lemma wp_update a n f m (Q : unit → arena N → Prop) :
  heap m !! a = Some n → Q tt (set_heap (<[a := f n]> (heap m)) m) →
  wp (update (Some a) f) Q m.
Proof. intros H HQ. unfold wp, update. by rewrite H. Qed.

Lemma update_ext a n f g m :
  heap m !! a = Some n → f n = g n → update (Some a) f m = update (Some a) g m.
Proof. intros H E. unfold update. by rewrite H, E. Qed.

Lemma wp_free a n m (Q : unit → arena N → Prop) :
  heap m !! a = Some n → Q tt (set_heap (delete a (heap m)) m) →
  wp (free (Some a)) Q m.
Proof. intros H HQ. unfold wp, free. by rewrite H. Qed.

Lemma wp_malloc n m (Q : option loc → arena N → Prop) :
  mallocs m = [] →
  Q (Some (brk m)) (Arena (<[brk m := n]> (heap m)) (Pos.succ (brk m)) [] (held m)) →
  wp (malloc n) Q m.
Proof. intros H HQ. unfold wp, malloc. by rewrite H. Qed.

Lemma wp_lock n i m (Q : unit → arena N → Prop) :
  0 <= i < n → i ∉ held m → Q tt (set_held ({[i]} ∪ held m) m) →
  wp (lock n i) Q m.
Proof. intros ?? HQ. unfold wp, lock. by rewrite decide_True, decide_False. Qed.

Lemma wp_unlock n i m (Q : unit → arena N → Prop) :
  0 <= i < n → i ∈ held m → Q tt (set_held (held m ∖ {[i]}) m) →
  wp (unlock n i) Q m.
Proof. intros ?? HQ. unfold wp, unlock. by rewrite !decide_True. Qed.
End arena.

(** Releasing the mutex just taken restores the lock state. *)
Lemma unlock_lock (l : gset Z) i : i ∉ l → ({[i]} ∪ l) ∖ {[i]} = l.
Proof. intros. set_solver. Qed.

(** Unfolds the sequencing of a command in front of a [wp]. *)
Ltac wp_step :=
  lazymatch goal with
  | |- wp (mbind _ _) _ _ => apply wp_bind
  | |- wp (mret _) _ _ => apply wp_ret
  | |- wp (gets _) _ _ => apply wp_gets
  | |- wp (modify _) _ _ => apply wp_modify
  | |- wp (zoom _ _ _) _ _ => apply wp_zoom
  end.
Ltac wp_steps := repeat (wp_step; cbn beta iota).
