(* ===== verification/ChainedTable.v ===== *)
(** * Chained hash tables

    The code shared, up to the key and value types, by the four
    multi-thread tables of public_lib
    ([mt_hashtable_kFlow_vInt.c], [mt_hashtable_kFlow_vFloat.c],
    [mt_hashtable_kFlowSrc_vInt.c], [mt_hashtable_kFlowSrc_vFloat.c]):
    an array of bins, each the head of a singly linked list sorted by the key
    comparison, one mutex per bin, and an iterator kept in the table
    ([next_current_bin], [next_last_visit_entry]).  The tables are modelled at
    the level of heap nodes and pointers.  [rep] relates a table to the list of
    cells each bin chains, and every operation is proved to refine the list
    function it stands for. *)
From S2P Require Import Prelude CMonad.

(** ** Interface of keys: the comparison and the bin of a key *)
Class KeyOps (K : Type) := {
  key_compare : K → K → Z;
  key_bin : K → Z → Z
}.

(** What the tables need of it: the sign of the comparison is a total preorder
    and the bin is in range and the same for keys that compare equal. *)
Class KeyLaws (K : Type) `{KeyOps K} := {
  compare_refl k : key_compare k k = 0;
  compare_anti a b : key_compare a b = - key_compare b a;
  compare_trans a b c : 0 < key_compare a b → 0 < key_compare b c → 0 < key_compare a c;
  compare_eq_l a b c : key_compare a b = 0 → key_compare a c = key_compare b c;
  bin_range k n : 0 < n → 0 <= key_bin k n < n;
  bin_eq a b n : key_compare a b = 0 → key_bin a n = key_bin b n
}.

Section table.
Context {K V : Type} `{KeyOps K}.

(** [struct entry_*_s] *)
Record node := Node { nkey : K; nvalue : V; nnext : option loc }.

(** [struct hashtable_*_s], without the mutexes, which are in the arena; a
    slot of [bins] that is absent was never written *)
Record table := Table {
  tsize : Z;
  bins : gmap Z (option loc);
  next_current_bin : Z;
  next_last_visit_entry : option loc
}.

(** A table together with the nodes its chains are made of *)
Record tstate := TState { tarena : arena node; ttable : table }.

Definition set_nvalue (v : V) (n : node) : node := Node (nkey n) v (nnext n).
Definition set_nnext (p : option loc) (n : node) : node := Node (nkey n) (nvalue n) p.

Definition on_arena {A} (c : cmd (arena node) A) : cmd tstate A :=
  zoom tarena (λ m t, TState m (ttable t)) c.
Definition on_table (f : table → table) : cmd tstate unit :=
  modify (λ t, TState (tarena t) (f (ttable t))).

Definition read_bin (b : Z) : cmd tstate (option loc) := λ t,
  if decide (0 <= b < tsize (ttable t)) then
    match bins (ttable t) !! b with
    | Some p => Ok (p, t)
    | None => Fault Uninit
    end
  else Fault OutOfBounds.
Definition write_bin (b : Z) (p : option loc) : cmd tstate unit := λ t,
  if decide (0 <= b < tsize (ttable t)) then
    on_table (λ tb, Table (tsize tb) (<[b := p]> (bins tb))
                      (next_current_bin tb) (next_last_visit_entry tb)) t
  else Fault OutOfBounds.
Definition set_cursor (b : Z) (p : option loc) : cmd tstate unit :=
  on_table (λ tb, Table (tsize tb) (bins tb) b p).
Definition set_last_visit (p : option loc) : cmd tstate unit :=
  on_table (λ tb, Table (tsize tb) (bins tb) (next_current_bin tb) p).

Definition mutex_lock (b : Z) : cmd tstate unit :=
  n ← gets (tsize ∘ ttable); on_arena (lock n b).
Definition mutex_unlock (b : Z) : cmd tstate unit :=
  n ← gets (tsize ∘ ttable); on_arena (unlock n b).

(** A chain visits a live node at most once. *)
Definition chain_fuel (t : tstate) : nat := S (size (heap (tarena t))).

(** [while (next != NULL && compare(key, &next->key) > 0)
       { last = next; next = next->next; }] *)
Fixpoint walk (fuel : nat) (key : K) (last next : option loc)
    : cmd tstate (option loc * option loc) :=
  match next, fuel with
  | None, _ => mret (last, next)
  | Some _, O => throw OutOfFuel
  | Some _, S fuel =>
      n ← on_arena (load next);
      if decide (0 < key_compare key (nkey n))
      then walk fuel key next (nnext n)
      else mret (last, next)
  end.

(** [next != NULL && compare(key, &next->key) == 0] *)
Definition hit (key : K) (next : option loc) : cmd tstate bool :=
  match next with
  | None => mret false
  | Some _ =>
      n ← on_arena (load next);
      mret (bool_decide (key_compare key (nkey n) = 0))
  end.

(** [ht_*_create] for an array of [map_size] bins: NULL when the allocation
    of the table fails, otherwise every slot is set to NULL in turn *)
Definition tbl_create (map_size : Z) (sched : list bool) : ptr tstate :=
  match sched with
  | false :: _ => PNull
  | _ =>
      let null_bins := foldl (λ bs i, <[i := None]> bs) ∅ (seqZ 0 map_size) in
      PLive (TState (Arena ∅ 1%positive (tail sched) ∅)
                    (Table map_size null_bins (-1) None))
  end.

(** [ht_*_newpair] *)
Definition tbl_newpair (key : K) (value : V) : cmd tstate (option loc) :=
  on_arena (malloc (Node key value None)).

(** The critical section of [ht_*_get]: the entry found, or NULL *)
Definition tbl_find (key : K) : cmd tstate (option loc) :=
  bin ← gets (key_bin key ∘ tsize ∘ ttable);
  mutex_lock bin;;
  head ← read_bin bin;
  fuel ← gets chain_fuel;
  '(_, entry) ← walk fuel key None head;
  found ← hit key entry;
  mutex_unlock bin;;
  mret (if (found : bool) then entry else None).

(** [pair->value] of an entry found; [None] is the return of -1 *)
Definition read_value (entry : option loc) : cmd tstate (option V) :=
  match entry with
  | None => mret None
  | Some _ => n ← on_arena (load entry); mret (Some (nvalue n))
  end.

(** [ht_*_get], for a table that is not NULL: the value is read after the
    mutex is released *)
Definition tbl_get (key : K) : cmd tstate (option V) :=
  entry ← tbl_find key; read_value entry.

(** [ht_kfs_vf_get], for a table that is not NULL: the value is read before
    the mutex is released *)
Definition tbl_get_locked (key : K) : cmd tstate (option V) :=
  bin ← gets (key_bin key ∘ tsize ∘ ttable);
  mutex_lock bin;;
  head ← read_bin bin;
  fuel ← gets chain_fuel;
  '(_, entry) ← walk fuel key None head;
  found ← hit key entry;
  value ← read_value (if (found : bool) then entry else None);
  mutex_unlock bin;;
  mret value.

(** The insertion of a new pair between [last] and [next] *)
Definition tbl_link (key : K) (value : V) (bin : Z) (last next : option loc) : cmd tstate unit :=
  newpair ← tbl_newpair key value;
  head ← read_bin bin;
  if decide (next = head) then
    on_arena (update newpair (set_nnext next));;
    write_bin bin newpair
  else if decide (next = None) then
    on_arena (update last (set_nnext newpair))
  else
    on_arena (update newpair (set_nnext next));;
    on_arena (update last (set_nnext newpair)).

(** [ht_*_set], for a table that is not NULL *)
Definition tbl_set (key : K) (value : V) : cmd tstate unit :=
  bin ← gets (key_bin key ∘ tsize ∘ ttable);
  mutex_lock bin;;
  head ← read_bin bin;
  fuel ← gets chain_fuel;
  '(last, next) ← walk fuel key None head;
  found ← hit key next;
  (if (found : bool)
   then on_arena (update next (set_nvalue value))
   else tbl_link key value bin last next);;
  mutex_unlock bin.

(** The removal of the entry [next] that follows [last] *)
Definition tbl_unlink (bin : Z) (last next : option loc) : cmd tstate unit :=
  n ← on_arena (load next);
  head ← read_bin bin;
  (if decide (next = head)
   then write_bin bin (nnext n)
   else on_arena (update last (set_nnext (nnext n))));;
  lv ← gets (next_last_visit_entry ∘ ttable);
  (if decide (next = lv) then set_last_visit (nnext n) else mret tt);;
  on_arena (free next).

(** [ht_*_del], for a table that is not NULL *)
Definition tbl_del (key : K) : cmd tstate unit :=
  bin ← gets (key_bin key ∘ tsize ∘ ttable);
  mutex_lock bin;;
  head ← read_bin bin;
  fuel ← gets chain_fuel;
  '(last, next) ← walk fuel key None head;
  found ← hit key next;
  (if (found : bool) then tbl_unlink bin last next else mret tt);;
  mutex_unlock bin.

(** The [while (1)] loop of [ht_*_next]: go to the next bin that is not
    empty; past the last bin, reset the iterator. *)
Fixpoint scan (fuel : nat) : cmd tstate (option (K * V)) :=
  match fuel with
  | O => throw OutOfFuel
  | S fuel =>
      tb ← gets ttable;
      let cur := next_current_bin tb + 1 in
      set_cursor cur (next_last_visit_entry tb);;
      if decide (tsize tb <= cur) then
        set_cursor (-1) None;;
        mret None
      else
        mutex_lock cur;;
        iterator ← read_bin cur;
        if decide (iterator = None) then
          mutex_unlock cur;;
          scan fuel
        else
          n ← on_arena (load iterator);
          set_last_visit iterator;;
          mutex_unlock cur;;
          mret (Some (nkey n, nvalue n))
  end.

(** [ht_*_next], for a table that is not NULL: [Some (key, value)] is the
    return of 0 with the entry copied out, [None] the return of -1 *)
Definition tbl_next : cmd tstate (option (K * V)) :=
  tb ← gets ttable;
  let cur := next_current_bin tb in
  if decide (tsize tb <= cur) then mret None else
  let search := scan (Z.to_nat (tsize tb + 2)) in
  if decide (0 <= cur) then
    mutex_lock cur;;
    lv ← gets (next_last_visit_entry ∘ ttable);
    match lv with
    | None => mutex_unlock cur;; search
    | Some _ =>
        last ← on_arena (load lv);
        match nnext last with
        | None => mutex_unlock cur;; search
        | Some a =>
            n ← on_arena (load (Some a));
            set_last_visit (Some a);;
            mutex_unlock cur;;
            mret (Some (nkey n, nvalue n))
        end
    end
  else search.

(** [while (p_node) { next = p_node->next; free(p_node); p_node = next; }] *)
Fixpoint free_chain (fuel : nat) (p_node : option loc) : cmd tstate unit :=
  match p_node, fuel with
  | None, _ => mret tt
  | Some _, O => throw OutOfFuel
  | Some _, S fuel =>
      n ← on_arena (load p_node);
      on_arena (free p_node);;
      free_chain fuel (nnext n)
  end.

Definition free_bin (i : Z) : cmd tstate unit :=
  p_node ← read_bin i;
  fuel ← gets chain_fuel;
  free_chain fuel p_node.

(** The loop of [ht_*_destory] that frees the nodes *)
Definition tbl_free_nodes : cmd tstate unit :=
  n ← gets (tsize ∘ ttable);
  for_range (Z.to_nat n) 0 free_bin.

(** [ht_*_destory]: the nodes, the mutexes (none may be held), the table *)
Definition tbl_destory : cmd (ptr tstate) unit := λ p,
  match p with
  | PNull => Ok (tt, PNull)
  | PFreed => Fault Dangling
  | PLive t =>
      match tbl_free_nodes t with
      | Ok (_, t) => if decide (held (tarena t) = ∅) then Ok (tt, PFreed) else Fault LockBusy
      | Fault e => Fault e
      end
  end.

(** [ht_kfs_vi_refresh], for a table that is not NULL *)
Definition tbl_refresh : cmd tstate unit :=
  n ← gets (tsize ∘ ttable);
  for_range (Z.to_nat n) 0 (λ i,
    mutex_lock i;;
    free_bin i;;
    write_bin i None;;
    mutex_unlock i);;
  set_cursor (-1) None.

(** A loop [while (next(table, &entry) == 0) body(entry)] that only reads the
    table: the entries it yields, with [fuel] bounding their number. *)
Fixpoint collect (fuel : nat) : cmd tstate (list (K * V)) :=
  match fuel with
  | O => throw OutOfFuel
  | S fuel =>
      r ← tbl_next;
      match r with
      | None => mret []
      | Some e => es ← collect fuel; mret (e :: es)
      end
  end.
End table.

Arguments node K V : clear implicits.
Arguments tstate K V : clear implicits.
