(* ===== verification/ChainSpec.v ===== *)
(** * Reference functions on a bin: sorted lists of cells

    What the pointer code of [ChainedTable.v] does to the chain of one bin,
    as functions on lists, with their laws; and the heap predicate [seg] that
    says a chain of nodes holds a list of cells. *)
From S2P Require Import Prelude CMonad ChainedTable.

(** A node of a chain: its address, key and value *)
Record cell (K V : Type) := Cell { caddr : loc; ckey : K; cval : V }.
Arguments Cell {K V} _ _ _.
Arguments caddr {K V} _.
Arguments ckey {K V} _.
Arguments cval {K V} _.

Section lists.
Context {K V : Type} `{KeyOps K}.
Implicit Types (k : K) (v : V) (c : cell K V) (l : list (cell K V)).

Definition addrs l : list loc := caddr <$> l.
Definition pairs l : list (K * V) := (λ c, (ckey c, cval c)) <$> l.

(** The cells the search for [k] passes, and the rest *)
Fixpoint before k l : list (cell K V) :=
  match l with
  | [] => []
  | c :: l => if decide (0 < key_compare k (ckey c)) then c :: before k l else []
  end.
Fixpoint after k l : list (cell K V) :=
  match l with
  | [] => []
  | c :: l' => if decide (0 < key_compare k (ckey c)) then after k l' else l
  end.

Definition l_find k l : option (cell K V) :=
  match after k l with
  | c :: _ => if decide (key_compare k (ckey c) = 0) then Some c else None
  | [] => None
  end.

(** [a] is the address a new node would get. *)
Definition l_set (a : loc) k v l : list (cell K V) :=
  match after k l with
  | c :: r =>
      if decide (key_compare k (ckey c) = 0)
      then before k l ++ Cell (caddr c) (ckey c) v :: r
      else before k l ++ Cell a k v :: c :: r
  | [] => before k l ++ [Cell a k v]
  end.

Definition l_del k l : list (cell K V) :=
  match after k l with
  | c :: r => if decide (key_compare k (ckey c) = 0) then before k l ++ r else l
  | [] => l
  end.

Definition key_lt k1 k2 : Prop := 0 < key_compare k2 k1.
Definition cell_lt c1 c2 : Prop := key_lt (ckey c1) (ckey c2).
Definition sorted l : Prop := StronglySorted cell_lt l.

Lemma before_after k l : before k l ++ after k l = l.
Proof. induction l as [|c l IH]; simpl; [done|]. case_decide; simpl; [by rewrite IH|done]. Qed.

Lemma before_Forall k l : Forall (λ c, 0 < key_compare k (ckey c)) (before k l).
Proof. induction l as [|c l IH]; simpl; [done|]. case_decide; by constructor. Qed.

Lemma after_head k l c r : after k l = c :: r → key_compare k (ckey c) <= 0.
Proof.
  induction l as [|d l IH]; simpl; [done|]. case_decide; [done|].
  intros [= -> ->]. lia.
Qed.

(** Lookup by value, as the callers see it *)
Definition l_get k l : option V := cval <$> l_find k l.
End lists.

Section laws.
Context {K V : Type} `{KeyLaws K}.
Implicit Types (k : K) (v : V) (c : cell K V) (l : list (cell K V)).

Lemma compare_eq_sym k1 k2 : key_compare k1 k2 = 0 → key_compare k2 k1 = 0.
Proof. rewrite (compare_anti k2 k1). lia. Qed.

Lemma compare_eq_r k1 k2 k3 :
  key_compare k2 k3 = 0 → key_compare k1 k2 = key_compare k1 k3.
Proof.
  intros E. rewrite (compare_anti k1 k2), (compare_anti k1 k3).
  by rewrite (compare_eq_l k2 k3 k1 E).
Qed.

#[export] Instance key_lt_trans : Transitive (@key_lt K _).
Proof. intros a b c Hab Hbc. unfold key_lt in *. eapply compare_trans; eauto. Qed.

Lemma key_lt_irrefl k : ¬ key_lt k k.
Proof. unfold key_lt. rewrite compare_refl. lia. Qed.

#[export] Instance cell_lt_trans : Transitive (@cell_lt K V _).
Proof. intros c d e. exact (key_lt_trans (ckey c) (ckey d) (ckey e)). Qed.

(** Sorted lists, split at a position *)
Lemma sorted_app l1 l2 :
  sorted (l1 ++ l2) ↔
  sorted l1 ∧ sorted l2 ∧ (∀ c d, c ∈ l1 → d ∈ l2 → cell_lt c d).
Proof.
  unfold sorted. induction l1 as [|c l1 IH]; simpl.
  - split; [intros ?; split_and!; [constructor|done|]|naive_solver].
    intros c d Hc. by apply not_elem_of_nil in Hc.
  - split.
    + intros HS. apply StronglySorted_inv in HS as [HS HF].
      apply IH in HS as (?&?&?). rewrite Forall_app in HF. destruct HF as [HF1 HF2].
      rewrite Forall_forall in HF2.
      split_and!; [by constructor|done|]. intros c' d Hc' Hd.
      apply elem_of_cons in Hc' as [->|]; [by apply HF2|auto].
    + intros (HS1 & HS2 & HX). apply StronglySorted_inv in HS1 as [HS1 HF].
      constructor.
      { apply IH. split_and!; [done|done|]; intros c' d Hc' Hd; apply HX; set_solver. }
      apply Forall_app. split; [done|]. apply Forall_forall. set_solver.
Qed.

Lemma sorted_cons c l : sorted (c :: l) ↔ sorted l ∧ (∀ d, d ∈ l → cell_lt c d).
Proof.
  unfold sorted. split.
  - intros HS. apply StronglySorted_inv in HS as [? HF]. by rewrite Forall_forall in HF.
  - intros [??]. constructor; [done|]. by apply Forall_forall.
Qed.

(** In a sorted list the search stops at the only cell that can match. *)
Lemma after_gt k l c r :
  sorted l → after k l = c :: r → ∀ d, d ∈ r → key_compare k (ckey d) < 0.
Proof.
  intros HS E d Hd. pose proof (after_head _ _ _ _ E) as Hh.
  rewrite <- (before_after k l), E in HS.
  apply sorted_app in HS as (_ & HS & _). apply sorted_cons in HS as [_ HS].
  specialize (HS d Hd). unfold cell_lt, key_lt in HS.
  destruct (decide (key_compare k (ckey c) = 0)) as [E0|].
  - rewrite (compare_eq_l k (ckey c)) by done. rewrite compare_anti. lia.
  - assert (0 < key_compare (ckey c) k) by (rewrite compare_anti; lia).
    assert (0 < key_compare (ckey d) k) by (eapply compare_trans; eauto).
    rewrite compare_anti. lia.
Qed.

Lemma l_find_Some k l c :
  sorted l → l_find k l = Some c ↔ c ∈ l ∧ key_compare k (ckey c) = 0.
Proof.
  intros HS. unfold l_find. split.
  - destruct (after k l) as [|d r] eqn:E; [done|]. case_decide; [|done].
    intros [= <-]. split; [|done]. rewrite <- (before_after k l), E. set_solver.
  - intros [Hin Hk0]. rewrite <- (before_after k l) in Hin.
    apply elem_of_app in Hin as [Hin|Hin].
    { pose proof (before_Forall k l) as HF. rewrite Forall_forall in HF.
      apply HF in Hin. lia. }
    destruct (after k l) as [|d r] eqn:E; [set_solver|].
    apply elem_of_cons in Hin as [->|Hin]; [by rewrite decide_True|].
    pose proof (after_gt _ _ _ _ HS E _ Hin). lia.
Qed.

Lemma l_find_None k l :
  sorted l → l_find k l = None ↔ ∀ c, c ∈ l → key_compare k (ckey c) ≠ 0.
Proof.
  intros HS. split.
  - intros HN c Hc E. assert (l_find k l = Some c) by (by apply l_find_Some). congruence.
  - intros HN. destruct (l_find k l) as [c|] eqn:E; [|done].
    apply l_find_Some in E as [??]; [|done]. by destruct (HN c).
Qed.

Lemma sorted_unique l c d :
  sorted l → c ∈ l → d ∈ l → key_compare (ckey c) (ckey d) = 0 → c = d.
Proof.
  intros HS Hc Hd E.
  assert (l_find (ckey c) l = Some c) as E1
    by (apply l_find_Some; [done|]; split; [done|apply compare_refl]).
  assert (l_find (ckey c) l = Some d) as E2 by (by apply l_find_Some).
  congruence.
Qed.

Lemma l_find_eq k1 k2 l : key_compare k1 k2 = 0 → l_find k1 l = l_find k2 l.
Proof.
  intros E. assert (after k1 l = after k2 l) as Ea.
  { induction l as [|c l IH]; simpl; [done|].
    by rewrite (compare_eq_l k1 k2), IH. }
  unfold l_find. rewrite Ea. destruct (after k2 l) as [|c r]; [done|].
  by rewrite (compare_eq_l k1 k2).
Qed.

(** [sorted] is kept by [l_set] and [l_del]. *)
Lemma l_set_sorted a k v l : sorted l → sorted (l_set a k v l).
Proof.
  intros HS. pose proof HS as HS'.
  unfold l_set. rewrite <- (before_after k l) in HS'.
  apply sorted_app in HS' as (HS1 & HS2 & HX).
  pose proof (before_Forall k l) as HF. rewrite Forall_forall in HF.
  destruct (after k l) as [|c r] eqn:E.
  - apply sorted_app. split_and!; [done|repeat constructor|].
    intros d e Hd He. apply list_elem_of_singleton in He as ->. by apply HF.
  - pose proof (after_head _ _ _ _ E) as Hh.
    apply sorted_cons in HS2 as [HS2 HX2].
    case_decide as E0.
    + apply sorted_app. split_and!; [done| |].
      * apply sorted_cons. split; [done|]. intros d Hd. by apply HX2.
      * intros d e Hd He. apply elem_of_cons in He as [->|He].
        -- apply (HX d c Hd). set_solver.
        -- apply HX; set_solver.
    + apply sorted_app. split_and!; [done| |].
      * assert (cell_lt (Cell a k v) c) as Hlt.
        { unfold cell_lt, key_lt. simpl. rewrite compare_anti. lia. }
        apply sorted_cons. split; [by apply sorted_cons|].
        intros d Hd. apply elem_of_cons in Hd as [->|Hd]; [done|].
        etrans; [exact Hlt|by apply HX2].
      * intros d e Hd He. apply elem_of_cons in He as [->|He]; [by apply HF|].
        by apply HX.
Qed.

Lemma l_del_sublist k l : l_del k l `sublist_of` l.
Proof.
  unfold l_del. destruct (after k l) as [|c r] eqn:E; [done|].
  case_decide; [|done].
  rewrite <- (before_after k l) at 2. rewrite E.
  apply sublist_app; [done|]. by constructor.
Qed.

Lemma sorted_sublist l1 l2 : l1 `sublist_of` l2 → sorted l2 → sorted l1.
Proof.
  unfold sorted. induction 1 as [|c l1 l2 Hs IH|c l1 l2 Hs IH]; intros HS; [constructor| |].
  - apply StronglySorted_inv in HS as [HS HF]. constructor; [auto|].
    rewrite Forall_forall in *. intros d Hd. apply HF.
    by eapply elem_of_submseteq, sublist_submseteq.
  - apply StronglySorted_inv in HS as [HS HF]. auto.
Qed.

Lemma l_del_sorted k l : sorted l → sorted (l_del k l).
Proof. apply sorted_sublist, l_del_sublist. Qed.

(** The cells of [l_set] and [l_del] *)
Lemma elem_of_l_set a k v l c :
  sorted l →
  c ∈ l_set a k v l ↔
    (c ∈ l ∧ key_compare k (ckey c) ≠ 0) ∨
    c = match l_find k l with
        | Some d => Cell (caddr d) (ckey d) v
        | None => Cell a k v
        end.
Proof.
  intros HS. pose proof (before_Forall k l) as HF. rewrite Forall_forall in HF.
  assert (∀ d, d ∈ l ↔ d ∈ before k l ∨ d ∈ after k l) as Hl.
  { intros d. rewrite <- (before_after k l) at 1. apply elem_of_app. }
  unfold l_set, l_find.
  destruct (after k l) as [|d r] eqn:E.
  - rewrite elem_of_app, list_elem_of_singleton, Hl, elem_of_nil.
    split; [intros [Hc|Hc]; [left; split; [auto|specialize (HF _ Hc); lia]|auto]|naive_solver].
  - pose proof (after_gt _ _ _ _ HS E) as HG. pose proof (after_head _ _ _ _ E) as Hh.
    case_decide; rewrite elem_of_app, !elem_of_cons, Hl, !elem_of_cons;
      (split; [intros Hc|intros [[Hc Hn]|Hc]]).
    + destruct Hc as [Hc|[Hc|Hc]]; [left|auto|left];
        (split; [tauto|]); [specialize (HF _ Hc)|specialize (HG _ Hc)]; lia.
    + destruct Hc as [Hc|[->|Hc]]; [auto|done|auto].
    + auto.
    + destruct Hc as [Hc|[Hc|[->|Hc]]]; [left|auto|left|left];
        (split; [tauto|]); [specialize (HF _ Hc); lia|done|specialize (HG _ Hc); lia].
    + tauto.
    + tauto.
Qed.

Lemma elem_of_l_del k l c :
  sorted l → c ∈ l_del k l ↔ c ∈ l ∧ key_compare k (ckey c) ≠ 0.
Proof.
  intros HS. pose proof (before_Forall k l) as HF. rewrite Forall_forall in HF.
  unfold l_del. destruct (after k l) as [|d r] eqn:E.
  - split; [|tauto]. intros Hc. split; [done|].
    rewrite <- (before_after k l), E, app_nil_r in Hc. specialize (HF _ Hc). lia.
  - pose proof (after_gt _ _ _ _ HS E) as HG. pose proof (after_head _ _ _ _ E) as Hh.
    assert (c ∈ l ↔ c ∈ before k l ∨ c = d ∨ c ∈ r) as Hl.
    { rewrite <- (before_after k l) at 1. rewrite E, elem_of_app, elem_of_cons. done. }
    case_decide.
    + rewrite elem_of_app, Hl. split.
      * intros [Hc|Hc]; (split; [tauto|]); [specialize (HF _ Hc)|specialize (HG _ Hc)]; lia.
      * intros [[Hc|[->|Hc]] Hn]; [auto|done|auto].
    + split; [|tauto]. intros Hc. split; [done|]. apply Hl in Hc as [Hc|[->|Hc]];
        [specialize (HF _ Hc)| |specialize (HG _ Hc)]; lia.
Qed.

(** The cell a [set] leaves for its key *)
Definition l_target (a : loc) k v l : cell K V :=
  match l_find k l with Some d => Cell (caddr d) (ckey d) v | None => Cell a k v end.

Lemma l_find_set a k v l k' :
  sorted l →
  l_find k' (l_set a k v l) =
  if decide (key_compare k' k = 0) then Some (l_target a k v l) else l_find k' l.
Proof.
  intros HS. pose proof (l_set_sorted a k v l HS) as HS'.
  case_decide as E.
  - rewrite (l_find_eq k' k) by done.
    apply l_find_Some; [done|]. split; [apply elem_of_l_set; auto|].
    unfold l_target. destruct (l_find k l) as [d|] eqn:Ed; simpl; [|apply compare_refl].
    by apply l_find_Some in Ed as [??].
  - destruct (l_find k' l) as [d|] eqn:Ed.
    + apply l_find_Some in Ed as [Hd E0]; [|done].
      apply l_find_Some; [done|]. split; [|done].
      apply elem_of_l_set; [done|]. left. split; [done|]. intros E1.
      apply E. rewrite (compare_eq_l k' (ckey d)) by done.
      by apply compare_eq_sym.
    + pose proof (proj1 (l_find_None _ _ HS) Ed) as Hn.
      apply l_find_None; [done|]. intros c Hc.
      apply elem_of_l_set in Hc as [[? _]| ->]; [auto| |done].
      destruct (l_find k l) as [d|] eqn:Edd; simpl; [|done].
      apply l_find_Some in Edd as [??]; [|done]. auto.
Qed.

(** Dictionary laws of one bin *)
Lemma l_get_set a k v l k' :
  sorted l →
  l_get k' (l_set a k v l) = if decide (key_compare k' k = 0) then Some v else l_get k' l.
Proof.
  intros HS. unfold l_get. rewrite l_find_set by done. case_decide; [|done].
  unfold l_target. simpl. by destruct (l_find k l).
Qed.

Lemma l_get_del k l k' :
  sorted l →
  l_get k' (l_del k l) = if decide (key_compare k' k = 0) then None else l_get k' l.
Proof.
  intros HS. pose proof (l_del_sorted k l HS) as HS'. unfold l_get.
  assert (l_find k' (l_del k l)
          = if decide (key_compare k' k = 0) then None else l_find k' l) as ->.
  { case_decide as E.
    - apply l_find_None; [done|]. intros c Hc. apply elem_of_l_del in Hc as [_ Hn]; [|done].
      by rewrite (compare_eq_l k' k).
    - destruct (l_find k' l) as [d|] eqn:Ed.
      + apply l_find_Some in Ed as [Hd E0]; [|done].
        apply l_find_Some; [done|]. split; [|done]. apply elem_of_l_del; [done|].
        split; [done|]. intros E1. apply E.
        rewrite (compare_eq_l k' (ckey d)) by done. by apply compare_eq_sym.
      + pose proof (proj1 (l_find_None _ _ HS) Ed) as Hn.
        apply l_find_None; [done|]. intros c Hc.
        apply elem_of_l_del in Hc as [??]; auto. }
  by case_decide.
Qed.

(** The search for the key of a cell stops there. *)
Lemma before_after_mid l1 c l2 :
  sorted (l1 ++ c :: l2) →
  before (ckey c) (l1 ++ c :: l2) = l1 ∧ after (ckey c) (l1 ++ c :: l2) = c :: l2.
Proof.
  induction l1 as [|e l1 IH]; simpl; intros HS.
  - rewrite !decide_False by (rewrite compare_refl; lia). done.
  - apply sorted_cons in HS as [HS Hlt]. destruct (IH HS) as [-> ->].
    rewrite !decide_True; [done|..]; apply (Hlt c); set_solver.
Qed.

Lemma l_del_mid l1 c l2 :
  sorted (l1 ++ c :: l2) → l_del (ckey c) (l1 ++ c :: l2) = l1 ++ l2.
Proof.
  intros HS. destruct (before_after_mid l1 c l2 HS) as [Eb Ea].
  unfold l_del. rewrite Ea, Eb. by rewrite decide_True by apply compare_refl.
Qed.
End laws.
