(* ===== verification/ChainHeap.v ===== *)
(** * Chains in the heap

    The heap predicate of a chain of nodes and how it changes when a node is
    linked in, linked out or overwritten: the pointer-level counterparts of
    [l_set] and [l_del]. *)
From S2P Require Import Prelude CMonad ChainedTable ChainSpec.

Section seg.
Context {K V : Type}.
Implicit Types (h : gmap loc (node K V)) (l : list (cell K V)) (p q : option loc).

(** From [p], following [nnext], the nodes hold the cells [l] and then the
    pointer [q] is reached. *)
Fixpoint seg h p l q : Prop :=
  match l with
  | [] => p = q
  | c :: l => p = Some (caddr c) ∧
      ∃ r, h !! caddr c = Some (Node (ckey c) (cval c) r) ∧ seg h r l q
  end.

Definition headp l : option loc := caddr <$> head l.
Definition lastp (d : option loc) l : option loc :=
  match last l with Some c => Some (caddr c) | None => d end.

Lemma seg_head h p l : seg h p l None → p = headp l.
Proof. destruct l; simpl; naive_solver. Qed.

Lemma seg_app h p l1 l2 q :
  seg h p (l1 ++ l2) q ↔ ∃ r, seg h p l1 r ∧ seg h r l2 q.
Proof.
  revert p. induction l1 as [|c l1 IH]; intros p; simpl.
  - naive_solver.
  - split.
    + intros (-> & r & Hc & Hs). apply IH in Hs as (r' & ? & ?). eauto 10.
    + intros (r' & (-> & r & ? & ?) & ?). split; [done|]. exists r. split; [done|].
      apply IH. eauto.
Qed.

Lemma seg_split h p l1 l2 :
  seg h p (l1 ++ l2) None ↔ seg h p l1 (headp l2) ∧ seg h (headp l2) l2 None.
Proof.
  rewrite seg_app. split.
  - intros (r & H1 & H2). pose proof (seg_head _ _ _ H2) as ->. done.
  - intros [??]. eauto.
Qed.

Lemma seg_frame h h' p l q :
  (∀ a, a ∈ addrs l → h' !! a = h !! a) → seg h p l q → seg h' p l q.
Proof.
  revert p. induction l as [|c l IH]; intros p Hf; simpl; [done|].
  intros (-> & r & Hc & Hs). split; [done|]. exists r. split.
  - rewrite Hf; [done|]. apply list_elem_of_here.
  - apply IH; [|done]. intros a Ha. apply Hf. by apply list_elem_of_further.
Qed.

Lemma seg_lookup h p l q c :
  seg h p l q → c ∈ l → ∃ r, h !! caddr c = Some (Node (ckey c) (cval c) r).
Proof.
  revert p. induction l as [|d l IH]; intros p; simpl.
  - intros _ Hc. by apply not_elem_of_nil in Hc.
  - intros (-> & r & Hd & Hs) Hc. apply elem_of_cons in Hc as [->|Hc]; eauto.
Qed.

Lemma elem_of_addrs a l : a ∈ addrs l ↔ ∃ c, c ∈ l ∧ caddr c = a.
Proof. unfold addrs. rewrite list_elem_of_fmap. naive_solver. Qed.

Lemma addrs_app l1 l2 : addrs (l1 ++ l2) = addrs l1 ++ addrs l2.
Proof. apply fmap_app. Qed.

Lemma seg_live h p l q a : seg h p l q → a ∈ addrs l → is_Some (h !! a).
Proof.
  intros Hs Ha. apply elem_of_addrs in Ha as (c & Hc & <-).
  destruct (seg_lookup _ _ _ _ _ Hs Hc) as [r ->]. eauto.
Qed.

Lemma chain_length h l :
  NoDup (addrs l) → (∀ a, a ∈ addrs l → is_Some (h !! a)) → (length l <= size h)%nat.
Proof.
  intros Hnd Hl. rewrite <- (length_fmap caddr).
  change (caddr <$> l) with (addrs l).
  rewrite <- size_dom. rewrite <- (size_list_to_set (C:=gset loc) (addrs l)) by done.
  apply subseteq_size. intros a Ha. apply elem_of_list_to_set in Ha.
  by apply elem_of_dom, Hl.
Qed.

(** A chain that stops at a node it does not contain begins elsewhere. *)
Lemma seg_head_ne h p l1 l2 :
  seg h p l1 (headp l2) → NoDup (addrs (l1 ++ l2)) → p = headp l2 ↔ l1 = [].
Proof.
  intros Hs Hnd. split; [|intros ->; done].
  destruct l1 as [|c l1]; [done|]. simpl in Hs. destruct Hs as [-> _].
  destruct l2 as [|d l2]; [done|]. simpl. intros [= E].
  rewrite addrs_app in Hnd. apply NoDup_app in Hnd as (_ & Hd & _).
  destruct (Hd (caddr c)); [apply list_elem_of_here|]. rewrite E. apply list_elem_of_here.
Qed.

(** Redirecting the last node of a segment *)
Lemma seg_relink h p l c q q' :
  seg h p (l ++ [c]) q → NoDup (addrs (l ++ [c])) →
  seg (<[caddr c := Node (ckey c) (cval c) q']> h) p (l ++ [c]) q'.
Proof.
  intros Hs Hnd. apply seg_app in Hs as (r & H1 & H2).
  apply seg_app. exists r. rewrite addrs_app in Hnd.
  apply NoDup_app in Hnd as (_ & Hd & _). split.
  - eapply seg_frame; [|exact H1]. intros a Ha. rewrite lookup_insert_ne; [done|].
    intros <-. by destruct (Hd (caddr c)); [|apply list_elem_of_here].
  - simpl in H2 |- *. destruct H2 as (-> & r' & Hc & _).
    split; [done|]. exists q'. by rewrite lookup_insert_eq.
Qed.

(** A fresh node in front of a chain *)
Lemma seg_cons_fresh h l a k v :
  h !! a = None → seg h (headp l) l None →
  seg (<[a := Node k v (headp l)]> h) (Some a) (Cell a k v :: l) None.
Proof.
  intros Ha Hs. simpl. split; [done|]. exists (headp l). rewrite lookup_insert_eq.
  split; [done|]. eapply seg_frame; [|exact Hs]. intros b Hb.
  rewrite lookup_insert_ne; [done|]. intros <-.
  destruct (seg_live _ _ _ _ _ Hs Hb). congruence.
Qed.

(** A fresh node between two parts of a chain: the node is written first and
    then the last node of the first part is redirected to it. *)
Lemma seg_insert h p l c l2 a k v :
  h !! a = None → NoDup (addrs ((l ++ [c]) ++ l2)) →
  seg h p ((l ++ [c]) ++ l2) None →
  seg (<[caddr c := Node (ckey c) (cval c) (Some a)]> (<[a := Node k v (headp l2)]> h))
    p ((l ++ [c]) ++ Cell a k v :: l2) None.
Proof.
  intros Ha Hnd Hs. apply seg_split in Hs as [H1 H2].
  assert (∀ b, b ∈ addrs ((l ++ [c]) ++ l2) → b ≠ a) as Hne.
  { intros b Hb ->. rewrite addrs_app in Hb. apply elem_of_app in Hb as [Hb|Hb].
    - destruct (seg_live _ _ _ _ _ H1 Hb). congruence.
    - destruct (seg_live _ _ _ _ _ H2 Hb). congruence. }
  rewrite addrs_app in Hnd, Hne. pose proof Hnd as Hnd'.
  apply NoDup_app in Hnd' as (Hnd1 & Hd & _).
  assert (caddr c ∈ addrs (l ++ [c])) as Hcin.
  { rewrite addrs_app. apply elem_of_app. right. apply list_elem_of_here. }
  apply seg_split. split.
  - eapply seg_relink; [|done]. eapply seg_frame; [|exact H1].
    intros b Hb. rewrite lookup_insert_ne; [done|].
    apply not_eq_sym, Hne, elem_of_app. auto.
  - eapply seg_frame; [|eapply (seg_cons_fresh h l2 a k v); done].
    intros b Hb. rewrite lookup_insert_ne; [done|]. intros <-.
    apply list_elem_of_fmap in Hb as (d & E & Hd'). apply elem_of_cons in Hd' as [->|Hd'].
    + simpl in E. apply (Hne (caddr c)); [apply elem_of_app; auto|done].
    + apply (Hd _ Hcin). rewrite E. by apply list_elem_of_fmap_2.
Qed.

(** Linking out the node after [c] *)
Lemma seg_unlink h p l c d l2 :
  NoDup (addrs ((l ++ [c]) ++ d :: l2)) →
  seg h p ((l ++ [c]) ++ d :: l2) None →
  seg (delete (caddr d) (<[caddr c := Node (ckey c) (cval c) (headp l2)]> h))
    p ((l ++ [c]) ++ l2) None.
Proof.
  intros Hnd Hs. apply seg_split in Hs as [H1 H2].
  simpl in H2. destruct H2 as (_ & r & _ & H2). pose proof (seg_head _ _ _ H2) as ->.
  rewrite addrs_app in Hnd. pose proof Hnd as Hnd'.
  apply NoDup_app in Hnd' as (Hnd1 & Hdis & Hnd2).
  apply NoDup_cons in Hnd2 as [Hd2 Hnd2].
  assert (caddr c ∈ addrs (l ++ [c])) as Hcin.
  { rewrite addrs_app. apply elem_of_app. right. apply list_elem_of_here. }
  apply seg_split. split.
  - eapply seg_frame; [|by eapply seg_relink].
    intros b Hb. rewrite lookup_delete_ne; [done|]. intros <-.
    by destruct (Hdis _ Hb); apply list_elem_of_here.
  - eapply seg_frame; [|exact H2]. intros b Hb.
    rewrite lookup_delete_ne by (intros <-; done).
    rewrite lookup_insert_ne; [done|]. intros <-.
    destruct (Hdis _ Hcin). by apply list_elem_of_further.
Qed.

(** Linking out the first node *)
Lemma seg_unlink_head h d l2 :
  NoDup (addrs (d :: l2)) → seg h (Some (caddr d)) (d :: l2) None →
  seg (delete (caddr d) h) (headp l2) l2 None.
Proof.
  intros Hnd (_ & r & _ & H2). pose proof (seg_head _ _ _ H2) as ->.
  apply NoDup_cons in Hnd as [Hd _].
  eapply seg_frame; [|exact H2]. intros b Hb.
  rewrite lookup_delete_ne; [done|]. by intros <-.
Qed.

(** Overwriting the value of a node *)
Lemma seg_set_value h p l1 d l2 v :
  NoDup (addrs (l1 ++ d :: l2)) → seg h p (l1 ++ d :: l2) None →
  seg (<[caddr d := Node (ckey d) v (headp l2)]> h)
    p (l1 ++ Cell (caddr d) (ckey d) v :: l2) None.
Proof.
  intros Hnd Hs. apply seg_split in Hs as [H1 H2].
  simpl in H2. destruct H2 as (_ & r & _ & H2). pose proof (seg_head _ _ _ H2) as ->.
  rewrite addrs_app in Hnd. apply NoDup_app in Hnd as (_ & Hdis & Hnd2).
  apply NoDup_cons in Hnd2 as [Hd2 _].
  apply seg_split. split.
  - eapply seg_frame; [|exact H1]. intros b Hb. rewrite lookup_insert_ne; [done|].
    intros <-. by destruct (Hdis _ Hb); apply list_elem_of_here.
  - simpl. split; [done|]. exists (headp l2). rewrite lookup_insert_eq.
    split; [done|]. eapply seg_frame; [|exact H2]. intros b Hb.
    rewrite lookup_insert_ne; [done|]. by intros <-.
Qed.
End seg.
