(* ===== verification/ChainRefine.v ===== *)
(** * The chained table refines its reference functions

    [rep t cells] is the invariant of a table: bin [b] chains exactly
    [cells b], the chains are sorted, every key is in the bin it hashes to, no
    node is outside a chain, and the iterator points into its bin.  Each
    operation, run on a table that satisfies [rep] whose mutexes are free,
    returns, refines its reference function and keeps [rep]. *)
From S2P Require Import Prelude CMonad ChainedTable ChainSpec ChainHeap.

Section refine.
Context {K V : Type} `{KeyLaws K}.
Implicit Types (k : K) (v : V) (l : list (cell K V)) (t : tstate K V).
Implicit Types (cells : Z → list (cell K V)).

Definition theap t := heap (tarena t).
Definition size_of t := tsize (ttable t).
Definition cursor t := next_current_bin (ttable t).
Definition last_visit t := next_last_visit_entry (ttable t).
Definition bin_of k t := key_bin k (size_of t).

Record rep t cells : Prop := {
  rep_size : 0 < size_of t;
  rep_bin b : 0 <= b < size_of t →
    ∃ p, bins (ttable t) !! b = Some p ∧ seg (theap t) p (cells b) None;
  rep_out b : ¬ (0 <= b < size_of t) → cells b = [];
  rep_sorted b : sorted (cells b);
  rep_hash b c : c ∈ cells b → bin_of (ckey c) t = b;
  rep_live a : is_Some (theap t !! a) → ∃ b, a ∈ addrs (cells b);
  rep_brk a : is_Some (theap t !! a) → (a < brk (tarena t))%positive;
  rep_cursor : -1 <= cursor t < size_of t;
  rep_last a : last_visit t = Some a → a ∈ addrs (cells (cursor t))
}.

(** The table as its callers see it: the value of a key *)
Definition lookup_key cells k t : option V := l_get k (cells (bin_of k t)).

(** The part of the state [rep] does not constrain: locks and the malloc
    outcomes. *)
Definition quiet t : Prop := held (tarena t) = ∅ ∧ mallocs (tarena t) = [].

(** ** Consequences of the invariant *)

Lemma rep_in_range t cells b a : rep t cells → a ∈ addrs (cells b) → 0 <= b < size_of t.
Proof.
  intros R Ha. destruct (decide (0 <= b < size_of t)) as [|Hn]; [done|].
  rewrite (rep_out _ _ R b Hn) in Ha. by apply not_elem_of_nil in Ha.
Qed.

Lemma rep_cell_live t cells b c : rep t cells → c ∈ cells b →
  ∃ r, theap t !! caddr c = Some (Node (ckey c) (cval c) r).
Proof.
  intros R Hc. assert (0 <= b < size_of t) as Hb.
  { eapply rep_in_range; [done|]. by apply list_elem_of_fmap_2. }
  destruct (rep_bin _ _ R b Hb) as (p & _ & Hs). by eapply seg_lookup.
Qed.

Lemma rep_addr_inj t cells b1 b2 c d :
  rep t cells → c ∈ cells b1 → d ∈ cells b2 → caddr c = caddr d → b1 = b2 ∧ c = d.
Proof.
  intros R Hc Hd E.
  destruct (rep_cell_live _ _ _ _ R Hc) as [r1 E1].
  destruct (rep_cell_live _ _ _ _ R Hd) as [r2 E2].
  rewrite E, E2 in E1. injection E1 as Ek Ev _.
  assert (b1 = b2) as ->.
  { rewrite <- (rep_hash _ _ R _ _ Hc), <- (rep_hash _ _ R _ _ Hd). by rewrite Ek. }
  split; [done|]. eapply sorted_unique; [apply (rep_sorted _ _ R b2)|done|done|].
  rewrite Ek. apply compare_refl.
Qed.

Lemma rep_NoDup t cells b : rep t cells → NoDup (addrs (cells b)).
Proof.
  intros R. pose proof (rep_sorted _ _ R b) as HS.
  assert (∀ c d, c ∈ cells b → d ∈ cells b → caddr c = caddr d → c = d) as Hinj.
  { intros c d Hc Hd E. eapply rep_addr_inj; eauto. }
  revert HS Hinj. generalize (cells b) as l. induction l as [|c l IH]; intros HS Hinj.
  - constructor.
  - apply sorted_cons in HS as [HS Hlt]. constructor.
    + intros Ha. apply elem_of_addrs in Ha as (d & Hd & E).
      assert (d = c) as ->.
      { apply Hinj; [by apply list_elem_of_further|apply list_elem_of_here|done]. }
      exact (key_lt_irrefl _ (Hlt c Hd)).
    + apply IH; [done|]. intros d e Hd He. apply Hinj; by apply list_elem_of_further.
Qed.

Lemma rep_disjoint t cells b1 b2 a :
  rep t cells → a ∈ addrs (cells b1) → a ∈ addrs (cells b2) → b1 = b2.
Proof.
  intros R H1 H2. apply elem_of_addrs in H1 as (c & Hc & Ec).
  apply elem_of_addrs in H2 as (d & Hd & Ed). eapply rep_addr_inj; [done..|congruence].
Qed.

Lemma rep_addr_live t cells b a : rep t cells → a ∈ addrs (cells b) → is_Some (theap t !! a).
Proof.
  intros R Ha. apply elem_of_addrs in Ha as (c & Hc & <-).
  destruct (rep_cell_live _ _ _ _ R Hc) as [r ->]. eauto.
Qed.

Lemma rep_fuel t cells b : rep t cells → (length (cells b) < chain_fuel t)%nat.
Proof.
  intros R. unfold chain_fuel. apply Nat.lt_succ_r, chain_length.
  - by eapply rep_NoDup.
  - intros a Ha. by eapply rep_addr_live.
Qed.

Lemma rep_brk_fresh t cells : rep t cells → theap t !! brk (tarena t) = None.
Proof.
  intros R. destruct (theap t !! brk (tarena t)) eqn:E; [|done].
  pose proof (rep_brk _ _ R _ (mk_is_Some _ _ E)). lia.
Qed.

Lemma bin_of_range t cells k : rep t cells → 0 <= bin_of k t < size_of t.
Proof. intros R. apply bin_range, R. Qed.

(** [rep] is preserved by an operation that replaces the chain of one bin. *)
Lemma rep_update t cells b h' brk' sched' held' p' l' last' :
  rep t cells →
  0 <= b < size_of t →
  seg h' p' l' None →
  sorted l' →
  (∀ c, c ∈ l' → bin_of (ckey c) t = b) →
  (∀ a, a ∉ addrs l' → a ∉ addrs (cells b) → h' !! a = theap t !! a) →
  (∀ a, a ∈ addrs (cells b) → a ∉ addrs l' → h' !! a = None) →
  (∀ a, a ∈ addrs l' → a ∈ addrs (cells b) ∨ theap t !! a = None ∧ (a < brk')%positive) →
  (brk (tarena t) <= brk')%positive →
  (∀ a, last' = Some a → a ∈ addrs ((<[b := l']> cells) (cursor t))) →
  rep (TState (Arena h' brk' sched' held')
         (Table (size_of t) (<[b := p']> (bins (ttable t))) (cursor t) last'))
      (<[b := l']> cells).
Proof.
  intros R Hb Hs HS Hk Hsame Hgone Hnew Hbrk Hlast.
  constructor; unfold bin_of, theap, size_of, cursor, last_visit; simpl.
  - apply R.
  - intros b' Hb'. destruct (decide (b = b')) as [<-|Hne].
    + exists p'. by rewrite lookup_insert_eq, fn_lookup_insert.
    + destruct (rep_bin _ _ R b' Hb') as (p & Hp & Hsb).
      exists p. rewrite lookup_insert_ne, fn_lookup_insert_ne by done. split; [done|].
      eapply seg_frame; [|exact Hsb]. intros a Ha. apply Hsame.
      * intros Ha'. destruct (Hnew _ Ha') as [Hin|[Hn _]].
        -- apply Hne. by eapply rep_disjoint.
        -- destruct (rep_addr_live _ _ _ _ R Ha). congruence.
      * intros Ha'. apply Hne. by eapply rep_disjoint.
  - intros b' Hb'. rewrite fn_lookup_insert_ne by (intros ->; done). by apply R.
  - intros b'. destruct (decide (b = b')) as [<-|Hne].
    + by rewrite fn_lookup_insert.
    + rewrite fn_lookup_insert_ne by done. apply R.
  - intros b' c. destruct (decide (b = b')) as [<-|Hne].
    + rewrite fn_lookup_insert. apply Hk.
    + rewrite fn_lookup_insert_ne by done. apply R.
  - intros a Ha. destruct (decide (a ∈ addrs l')) as [Hin|Hnin].
    { exists b. by rewrite fn_lookup_insert. }
    destruct (decide (a ∈ addrs (cells b))) as [Hin|Hnin'].
    { rewrite (Hgone _ Hin Hnin) in Ha. by destruct Ha. }
    rewrite Hsame in Ha by done. destruct (rep_live _ _ R _ Ha) as [b' Hb'].
    exists b'. rewrite fn_lookup_insert_ne; [done|]. intros <-. done.
  - intros a Ha. destruct (decide (a ∈ addrs l')) as [Hin|Hnin].
    { destruct (Hnew _ Hin) as [Hc|[_ ?]]; [|done].
      pose proof (rep_brk _ _ R _ (rep_addr_live _ _ _ _ R Hc)). lia. }
    destruct (decide (a ∈ addrs (cells b))) as [Hin|Hnin'].
    { rewrite (Hgone _ Hin Hnin) in Ha. by destruct Ha. }
    rewrite Hsame in Ha by done. pose proof (rep_brk _ _ R _ Ha). lia.
  - apply R.
  - done.
Qed.

(** [rep] does not depend on locks and malloc outcomes. *)
Lemma rep_ext t t' cells :
  rep t cells → ttable t' = ttable t → theap t' = theap t →
  brk (tarena t') = brk (tarena t) → rep t' cells.
Proof.
  intros R Et Eh Eb.
  pose proof (rep_size _ _ R); pose proof (rep_bin _ _ R); pose proof (rep_out _ _ R).
  pose proof (rep_sorted _ _ R); pose proof (rep_hash _ _ R); pose proof (rep_live _ _ R).
  pose proof (rep_brk _ _ R); pose proof (rep_cursor _ _ R); pose proof (rep_last _ _ R).
  unfold bin_of, theap, size_of, cursor, last_visit in *.
  constructor; unfold bin_of, theap, size_of, cursor, last_visit;
    rewrite ?Et, ?Eh, ?Eb; assumption.
Qed.

Lemma rep_cells_ext t cells cells' :
  (∀ b, cells' b = cells b) → rep t cells → rep t cells'.
Proof.
  intros E R. destruct R. constructor; try done.
  - intros b. rewrite E. auto.
  - intros b. rewrite E. auto.
  - intros b. rewrite E. auto.
  - intros b c. rewrite E. auto.
  - intros a Ha. destruct (rep_live0 a Ha) as [b Hb]. exists b. by rewrite E.
  - intros a Ha. rewrite E. auto.
Qed.
End refine.
