(* ===== verification/ChainOps.v ===== *)
(** * Correctness of get, set and del on a chained table

    Total correctness of each operation against the reference functions of
    [ChainSpec.v]: on a table satisfying [rep] whose bin mutex is free, the
    operation returns (no NULL or dangling access, no deadlock, the walk ends)
    and leaves every mutex as it found it. *)
From S2P Require Import Prelude CMonad ChainedTable ChainSpec ChainHeap ChainRefine.

Section ops.
Context {K V : Type} `{KeyLaws K}.
Implicit Types (k : K) (v : V) (l : list (cell K V)) (t : tstate K V).
Implicit Types (cells : Z → list (cell K V)).

(** ** Steps of the command language on a table *)

Lemma wp_on_arena {A} (c : cmd (arena (node K V)) A) Q t :
  wp c (λ a m, Q a (TState m (ttable t))) (tarena t) → wp (on_arena c) Q t.
Proof. exact (wp_zoom tarena _ c Q t). Qed.

Definition with_lock b t : tstate K V :=
  TState (set_held ({[b]} ∪ held (tarena t)) (tarena t)) (ttable t).

Lemma wp_mutex_lock b (Q : unit → tstate K V → Prop) t :
  0 <= b < size_of t → b ∉ held (tarena t) → Q tt (with_lock b t) → wp (mutex_lock b) Q t.
Proof.
  intros Hb Hh HQ. unfold mutex_lock. wp_steps. apply wp_on_arena.
  by apply wp_lock.
Qed.

Lemma wp_mutex_unlock b (Q : unit → tstate K V → Prop) t :
  0 <= b < size_of t → b ∈ held (tarena t) →
  Q tt (TState (set_held (held (tarena t) ∖ {[b]}) (tarena t)) (ttable t)) →
  wp (mutex_unlock b) Q t.
Proof.
  intros Hb Hh HQ. unfold mutex_unlock. wp_steps. apply wp_on_arena.
  by apply wp_unlock.
Qed.

Lemma with_lock_rep b t cells : rep t cells → rep (with_lock b t) cells.
Proof. intros R. by eapply rep_ext. Qed.

(** Leaving the critical section of [with_lock]. *)
Lemma wp_mutex_relock b (Q : unit → tstate K V → Prop) t :
  0 <= b < size_of t → b ∉ held (tarena t) → Q tt t →
  wp (mutex_unlock b) Q (with_lock b t).
Proof.
  intros Hb Hh HQ. apply wp_mutex_unlock; [done|simpl; set_solver|].
  simpl. unfold set_held at 1. simpl.
  assert (({[b]} ∪ held (tarena t)) ∖ {[b]} = held (tarena t)) as -> by set_solver.
  by destruct t as [[]].
Qed.

Lemma wp_read_bin b p (Q : option loc → tstate K V → Prop) t :
  0 <= b < size_of t → bins (ttable t) !! b = Some p → Q p t → wp (read_bin b) Q t.
Proof.
  intros Hb Hp HQ. unfold wp, read_bin. rewrite decide_True by done. by rewrite Hp.
Qed.

Lemma wp_write_bin b p (Q : unit → tstate K V → Prop) t :
  0 <= b < size_of t →
  Q tt (TState (tarena t) (Table (size_of t) (<[b := p]> (bins (ttable t)))
                             (cursor t) (last_visit t))) →
  wp (write_bin b p) Q t.
Proof. intros Hb HQ. unfold wp, write_bin. by rewrite decide_True. Qed.

(** ** The search *)

Lemma wp_walk fuel k d p l (Q : option loc * option loc → tstate K V → Prop) t :
  seg (theap t) p l None → (length l < fuel)%nat →
  Q (lastp d (before k l), headp (after k l)) t →
  wp (walk fuel k d p) Q t.
Proof.
  revert fuel d p. induction l as [|c l IH]; intros fuel d p Hs Hf HQ; simpl in Hs.
  - subst p. destruct fuel; exact HQ.
  - destruct Hs as (-> & r & Hc & Hs). destruct fuel as [|fuel]; [simpl in Hf; lia|].
    simpl. wp_steps. apply wp_on_arena. eapply wp_load; [exact Hc|]. simpl.
    replace (TState (tarena t) (ttable t)) with t by (by destruct t).
    simpl in HQ. case_decide.
    + eapply IH; [exact Hs|simpl in Hf; lia|].
      destruct (before k l) as [|e b] eqn:E; [exact HQ|].
      unfold lastp in HQ |- *. rewrite last_cons in HQ.
      by destruct (last (e :: b)) eqn:El; [|apply last_None in El].
    + apply wp_ret. exact HQ.
Qed.

(** What [hit] answers on the rest of a chain. *)
Definition hit_ok k l : bool :=
  match l with c :: _ => bool_decide (key_compare k (ckey c) = 0) | [] => false end.

Lemma wp_hit k l (Q : bool → tstate K V → Prop) t :
  seg (theap t) (headp l) l None → Q (hit_ok k l) t → wp (hit k (headp l)) Q t.
Proof.
  intros Hs HQ. destruct l as [|c l]; [exact HQ|].
  simpl in Hs. destruct Hs as (_ & r & Hc & _). simpl.
  wp_steps. apply wp_on_arena. eapply wp_load; [exact Hc|]. simpl.
  replace (TState (tarena t) (ttable t)) with t by (by destruct t).
  apply wp_ret. exact HQ.
Qed.

Lemma hit_find k l :
  l_find k l = if hit_ok k (after k l) then head (after k l) else None.
Proof.
  unfold l_find, hit_ok. destruct (after k l) as [|c r]; [done|].
  simpl. by rewrite bool_decide_decide; case_decide.
Qed.

(** The common beginning of get, set and del, under the lock. *)
Lemma wp_search k (Q : option loc * option loc → tstate K V → Prop) t cells p b :
  rep t cells → seg (theap t) p (cells b) None →
  Q (lastp None (before k (cells b)), headp (after k (cells b))) t →
  wp (fuel ← gets chain_fuel; walk fuel k None p) Q t.
Proof.
  intros R Hs HQ. wp_steps. eapply wp_walk; [exact Hs| |exact HQ]. by eapply rep_fuel.
Qed.

Lemma seg_after t p k l :
  seg (theap t) p l None → seg (theap t) (headp (after k l)) (after k l) None.
Proof. intros Hs. rewrite <- (before_after k l) in Hs. by apply seg_split in Hs as [_ ?]. Qed.

(** ** get *)

Lemma wp_tbl_find k (Q : option loc → tstate K V → Prop) t cells :
  rep t cells → bin_of k t ∉ held (tarena t) →
  Q (caddr <$> l_find k (cells (bin_of k t))) t →
  wp (tbl_find k) Q t.
Proof.
  intros R Hh HQ. pose proof (bin_of_range _ _ k R) as Hb.
  destruct (rep_bin _ _ R _ Hb) as (p & Hp & Hs).
  unfold tbl_find. wp_steps. apply wp_mutex_lock; [done..|].
  wp_steps. eapply wp_read_bin; [done|exact Hp|]. wp_steps.
  eapply (wp_walk _ _ _ _ (cells (bin_of k t))); [exact Hs| |].
  { by eapply (rep_fuel (with_lock _ t)), with_lock_rep. }
  wp_steps. apply wp_hit; [by eapply (seg_after (with_lock _ t))|].
  wp_steps. apply wp_mutex_relock; [done..|]. apply wp_ret.
  rewrite hit_find in HQ. by destruct (hit_ok _ _).
Qed.

Lemma wp_read_value k (Q : option V → tstate K V → Prop) t cells b :
  rep t cells → Q (l_get k (cells b)) t →
  wp (read_value (caddr <$> l_find k (cells b))) Q t.
Proof.
  intros R HQ. unfold l_get in HQ.
  destruct (l_find k (cells b)) as [c|] eqn:E; [|exact HQ].
  apply l_find_Some in E as [Hc _]; [|apply R].
  destruct (rep_cell_live _ _ _ _ R Hc) as [r Hr]. simpl.
  wp_steps. apply wp_on_arena. eapply wp_load; [exact Hr|]. simpl.
  apply wp_ret. by destruct t.
Qed.

Lemma wp_tbl_get k (Q : option V → tstate K V → Prop) t cells :
  rep t cells → bin_of k t ∉ held (tarena t) →
  Q (lookup_key cells k t) t → wp (tbl_get k) Q t.
Proof.
  intros R Hh HQ. unfold tbl_get. wp_steps.
  eapply wp_tbl_find; [done..|]. by eapply wp_read_value.
Qed.

Lemma wp_tbl_get_locked k (Q : option V → tstate K V → Prop) t cells :
  rep t cells → bin_of k t ∉ held (tarena t) →
  Q (lookup_key cells k t) t → wp (tbl_get_locked k) Q t.
Proof.
  intros R Hh HQ. pose proof (bin_of_range _ _ k R) as Hb.
  destruct (rep_bin _ _ R _ Hb) as (p & Hp & Hs).
  unfold tbl_get_locked. wp_steps. apply wp_mutex_lock; [done..|].
  wp_steps. eapply wp_read_bin; [done|exact Hp|]. wp_steps.
  eapply (wp_walk _ _ _ _ (cells (bin_of k t))); [exact Hs| |].
  { by eapply (rep_fuel (with_lock _ t)), with_lock_rep. }
  wp_steps. apply wp_hit; [by eapply (seg_after (with_lock _ t))|]. wp_steps.
  replace (if hit_ok k (after k (cells (bin_of k t)))
           then headp (after k (cells (bin_of k t))) else None)
    with (caddr <$> l_find k (cells (bin_of k t)))
    by (rewrite hit_find; by destruct (hit_ok _ _)).
  eapply wp_read_value; [by apply with_lock_rep|].
  wp_steps. apply wp_mutex_relock; [done..|]. by apply wp_ret.
Qed.
(** ** set *)

Lemma addrs_l_set a k v l a' :
  sorted l → a' ∈ addrs (l_set a k v l) → a' ∈ addrs l ∨ l_find k l = None ∧ a' = a.
Proof.
  intros HS Ha. apply elem_of_addrs in Ha as (c & Hc & <-).
  apply elem_of_l_set in Hc as [[Hc _]| ->]; [| |done].
  - left. by apply list_elem_of_fmap_2.
  - destruct (l_find k l) as [d|] eqn:E; [left|by right].
    apply l_find_Some in E as [Hd _]; [|done]. apply elem_of_addrs. eauto.
Qed.

Lemma addrs_l_set_mono a k v l a' :
  sorted l → a' ∈ addrs l → a' ∈ addrs (l_set a k v l).
Proof.
  intros HS Ha. apply elem_of_addrs in Ha as (c & Hc & <-). apply elem_of_addrs.
  destruct (decide (key_compare k (ckey c) = 0)) as [E|E].
  - assert (l_find k l = Some c) as Ef by (by apply l_find_Some).
    exists (Cell (caddr c) (ckey c) v). split; [|done].
    apply elem_of_l_set; [done|]. right. by rewrite Ef.
  - exists c. split; [|done]. apply elem_of_l_set; auto.
Qed.

Lemma l_set_bin a k v t cells c :
  rep t cells → c ∈ l_set a k v (cells (bin_of k t)) → bin_of (ckey c) t = bin_of k t.
Proof.
  intros R Hc. apply elem_of_l_set in Hc as [[Hc _]| ->]; [| |apply R].
  - by eapply rep_hash.
  - destruct (l_find k _) as [d|] eqn:E; [|done].
    apply l_find_Some in E as [Hd _]; [|apply R]. simpl. by eapply rep_hash.
Qed.

(** The invariant after the heap part of [set]. *)
Lemma rep_set_step t cells k v h' brk' sched' held' p' :
  rep t cells →
  let b := bin_of k t in
  let l' := l_set (brk (tarena t)) k v (cells b) in
  seg h' p' l' None →
  (∀ a, a ∉ addrs l' → h' !! a = theap t !! a) →
  (brk (tarena t) <= brk')%positive →
  (l_find k (cells b) = None → brk (tarena t) < brk')%positive →
  rep (TState (Arena h' brk' sched' held')
         (Table (size_of t) (<[b := p']> (bins (ttable t))) (cursor t) (last_visit t)))
      (<[b := l']> cells).
Proof.
  intros R b l' Hs Hsame Hle Hlt. pose proof (rep_sorted _ _ R b) as HS.
  apply rep_update.
  - done.
  - by eapply bin_of_range.
  - done.
  - by apply l_set_sorted.
  - intros c Hc. by eapply l_set_bin.
  - intros a Ha _. by apply Hsame.
  - intros a Ha Hn. destruct Hn. by apply addrs_l_set_mono.
  - intros a Ha. apply addrs_l_set in Ha; [|done]. destruct Ha as [Ha|[Hn ->]]; [by left|].
    right. split; [by eapply rep_brk_fresh|auto].
  - done.
  - intros a Ha. pose proof (rep_last _ _ R a Ha) as Hin.
    destruct (decide (cursor t = b)) as [E|Hne].
    + rewrite E in Hin |- *. rewrite fn_lookup_insert. by apply addrs_l_set_mono.
    + by rewrite fn_lookup_insert_ne.
Qed.

(** What [set] leaves of the rest of the table. *)
Definition same_but_chains t t' : Prop :=
  size_of t' = size_of t ∧ cursor t' = cursor t ∧ last_visit t' = last_visit t ∧
  held (tarena t') = held (tarena t) ∧ mallocs (tarena t') = mallocs (tarena t).

Definition set_post k v t cells (t' : tstate K V) : Prop :=
  rep t' (<[bin_of k t := l_set (brk (tarena t)) k v (cells (bin_of k t))]> cells) ∧
  same_but_chains t t'.

Lemma hit_ok_cons k l :
  hit_ok k (after k l) = true →
  ∃ c r, after k l = c :: r ∧ key_compare k (ckey c) = 0.
Proof.
  unfold hit_ok. destruct (after k l) as [|c r]; [done|].
  intros Hc%bool_decide_eq_true. eauto.
Qed.

(** The branch that overwrites the value of an entry *)
Lemma wp_set_overwrite k v (Q : unit → tstate K V → Prop) t cells p :
  rep t cells → bins (ttable t) !! bin_of k t = Some p →
  seg (theap t) p (cells (bin_of k t)) None →
  hit_ok k (after k (cells (bin_of k t))) = true →
  (∀ t', set_post k v t cells t' → Q tt t') →
  wp (on_arena (update (headp (after k (cells (bin_of k t)))) (set_nvalue v))) Q t.
Proof.
  intros R Hp Hs Hhit HQ. set (b := bin_of k t) in *.
  apply hit_ok_cons in Hhit as (c & r & E & E0). rewrite E. simpl.
  pose proof (before_after k (cells b)) as Hl. rewrite E in Hl.
  pose proof (rep_NoDup _ _ b R) as Hnd. rewrite <- Hl in Hs, Hnd.
  pose proof Hs as Hs'. apply seg_split in Hs' as [_ (_ & q & Hc & Hr)].
  pose proof (seg_head _ _ _ Hr) as ->.
  apply wp_on_arena. eapply wp_update; [exact Hc|]. apply HQ.
  assert (l_set (brk (tarena t)) k v (cells b)
          = before k (cells b) ++ Cell (caddr c) (ckey c) v :: r) as El.
  { unfold l_set. rewrite E. by rewrite decide_True. }
  split; [|done]. unfold set_nvalue. cbn [nkey nvalue nnext].
  replace (ttable t) with
    (Table (size_of t) (<[b := p]> (bins (ttable t))) (cursor t) (last_visit t))
    by (rewrite insert_id by done; by destruct t as [? []]).
  apply rep_set_step; [done| | |lia|].
  - fold b. rewrite El. by apply seg_set_value.
  - fold b. rewrite El. intros a Ha. rewrite lookup_insert_ne; [done|].
    intros <-. apply Ha. rewrite addrs_app. apply elem_of_app. right. apply list_elem_of_here.
  - fold b. unfold l_find. rewrite E. by rewrite decide_True.
Qed.
(** The list a miss inserts into *)
Lemma l_set_miss a k v l :
  hit_ok k (after k l) = false → l_set a k v l = before k l ++ Cell a k v :: after k l.
Proof.
  unfold hit_ok, l_set. destruct (after k l) as [|c r]; [done|].
  intros Hc%bool_decide_eq_false. by rewrite decide_False.
Qed.

(** The heap part of an insertion: once a node with the right [next] is in
    front of the rest of the chain, [set] has done its work. *)
Lemma set_post_link k v t cells p h' p' :
  rep t cells → mallocs (tarena t) = [] →
  bins (ttable t) !! bin_of k t = Some p →
  hit_ok k (after k (cells (bin_of k t))) = false →
  seg h' p' (before k (cells (bin_of k t))
             ++ Cell (brk (tarena t)) k v :: after k (cells (bin_of k t))) None →
  (∀ a, a ≠ brk (tarena t) → a ∉ addrs (before k (cells (bin_of k t))) →
        h' !! a = theap t !! a) →
  set_post k v t cells
    (TState (Arena h' (Pos.succ (brk (tarena t))) [] (held (tarena t)))
       (Table (size_of t) (<[bin_of k t := p']> (bins (ttable t)))
          (cursor t) (last_visit t))).
Proof.
  intros R Hm Hp Hmiss Hs Hsame. split; [|by repeat split].
  apply rep_set_step; [done| | |lia|lia].
  - by rewrite l_set_miss.
  - intros a Ha. rewrite l_set_miss, addrs_app in Ha by done.
    apply not_elem_of_app in Ha as [Ha1 Ha2]. apply not_elem_of_cons in Ha2 as [Ha2 _].
    by apply Hsame.
Qed.

(** The branch that adds an entry, at the start, the end or the middle *)
Lemma wp_set_insert k v (Q : unit → tstate K V → Prop) t cells p :
  rep t cells → mallocs (tarena t) = [] →
  bins (ttable t) !! bin_of k t = Some p →
  seg (theap t) p (cells (bin_of k t)) None →
  hit_ok k (after k (cells (bin_of k t))) = false →
  (∀ t', set_post k v t cells t' → Q tt t') →
  wp (tbl_link k v (bin_of k t) (lastp None (before k (cells (bin_of k t))))
        (headp (after k (cells (bin_of k t))))) Q t.
Proof.
  intros R Hm Hp Hs Hmiss HQ. set (b := bin_of k t) in *.
  pose proof (bin_of_range _ _ k R : 0 <= b < size_of t) as Hb.
  pose proof (rep_brk_fresh _ _ R) as Hfresh.
  pose proof (rep_NoDup _ _ b R) as Hnd.
  rewrite <- (before_after k (cells b)) in Hs, Hnd.
  pose proof Hs as Hs'. apply seg_split in Hs' as [Hs1 Hs2].
  pose proof (seg_head_ne _ _ _ _ Hs1 Hnd) as Hhd.
  unfold tbl_link, tbl_newpair. wp_steps. apply wp_on_arena, wp_malloc; [done|].
  wp_steps. eapply wp_read_bin; [done|exact Hp|]. case_decide as Hcase.
  - (* first in its bin *)
    assert (before k (cells b) = []) as E by (by apply Hhd).
    wp_steps. apply wp_on_arena. eapply wp_update; [apply lookup_insert_eq|].
    unfold set_heap. simpl. rewrite insert_insert_eq.
    apply wp_write_bin; [done|]. apply HQ. apply (set_post_link k v t cells p); [done..| |].
    + fold b. rewrite E. by apply seg_cons_fresh.
    + intros a Ha _. by rewrite lookup_insert_ne.
  - (* after the node [last] *)
    destruct (before k (cells b)) as [|c0 l0 _] eqn:E using rev_ind.
    { destruct Hcase. symmetry. by apply Hhd. }
    assert (theap t !! caddr c0 = Some (Node (ckey c0) (cval c0) (headp (after k (cells b)))))
      as Hc0.
    { apply seg_app in Hs1 as (r & _ & (-> & r' & Hr & ->)). done. }
    assert (caddr c0 ≠ brk (tarena t)) as Hne by (intros Heq; rewrite Heq in Hc0; congruence).
    replace (lastp None (l0 ++ [c0])) with (Some (caddr c0))
      by (unfold lastp; by rewrite last_snoc).
    assert (Q tt (TState
      (Arena (<[caddr c0 := Node (ckey c0) (cval c0) (Some (brk (tarena t)))]>
             (<[brk (tarena t) := Node k v (headp (after k (cells b)))]> (theap t)))
         (Pos.succ (brk (tarena t))) [] (held (tarena t)))
      (Table (size_of t) (<[b := p]> (bins (ttable t))) (cursor t) (last_visit t)))) as HQ'.
    { apply HQ. apply (set_post_link k v t cells p); [done..| |].
      - fold b. rewrite E. by apply seg_insert.
      - fold b. rewrite E. intros a Ha Hna. rewrite lookup_insert_ne.
        + by rewrite lookup_insert_ne.
        + intros <-. apply Hna. rewrite addrs_app. apply elem_of_app. right.
          apply list_elem_of_here. }
    replace (Table (size_of t) (<[b := p]> (bins (ttable t))) (cursor t) (last_visit t))
      with (ttable t) in HQ' by (rewrite insert_id by done; by destruct t as [? []]).
    case_decide as Hend.
    + rewrite Hend in HQ'. apply wp_on_arena.
      eapply wp_update; [simpl; by rewrite lookup_insert_ne|]. exact HQ'.
    + wp_steps. apply wp_on_arena. eapply wp_update; [apply lookup_insert_eq|].
      unfold set_heap. simpl. rewrite insert_insert_eq. apply wp_on_arena.
      eapply wp_update; [simpl; by rewrite lookup_insert_ne|]. exact HQ'.
Qed.

Lemma wp_tbl_set k v (Q : unit → tstate K V → Prop) t cells :
  rep t cells → bin_of k t ∉ held (tarena t) → mallocs (tarena t) = [] →
  (∀ t', set_post k v t cells t' → Q tt t') → wp (tbl_set k v) Q t.
Proof.
  intros R Hh Hm HQ. pose proof (bin_of_range _ _ k R) as Hb.
  destruct (rep_bin _ _ R _ Hb) as (p & Hp & Hs).
  pose proof (with_lock_rep (bin_of k t) _ _ R) as R'.
  unfold tbl_set. wp_steps. apply wp_mutex_lock; [done..|].
  wp_steps. eapply wp_read_bin; [done|exact Hp|]. wp_steps.
  eapply (wp_walk _ _ _ _ (cells (bin_of k t))); [exact Hs|by eapply (rep_fuel (with_lock _ t))|].
  wp_steps. apply wp_hit; [by eapply (seg_after (with_lock _ t))|].
  assert (∀ t', set_post k v (with_lock (bin_of k t) t) cells t' →
            wp (mutex_unlock (bin_of k t)) Q t') as Hend.
  { intros t' (Rt' & Hsz & Hcur & Hlv & Hheld & Hmal).
    apply wp_mutex_unlock.
    - rewrite Hsz. done.
    - rewrite Hheld. set_solver.
    - apply HQ. split; [by eapply rep_ext|].
      repeat split; try done. simpl. rewrite Hheld. simpl. set_solver. }
  wp_steps. destruct (hit_ok _ _) eqn:Hhit.
  - eapply (wp_set_overwrite k v _ (with_lock (bin_of k t) t)); done.
  - eapply (wp_set_insert k v _ (with_lock (bin_of k t) t)); done.
Qed.
(** ** del *)

(** Where the iterator's last visited entry is after [k] is deleted: if it was
    the deleted entry, the entry after it. *)
Definition del_last k l (lv : option loc) : option loc :=
  if hit_ok k (after k l)
  then if decide (headp (after k l) = lv) then headp (tail (after k l)) else lv
  else lv.

Definition del_post k t cells (t' : tstate K V) : Prop :=
  rep t' (<[bin_of k t := l_del k (cells (bin_of k t))]> cells) ∧
  size_of t' = size_of t ∧ cursor t' = cursor t ∧
  last_visit t' = del_last k (cells (bin_of k t)) (last_visit t) ∧
  held (tarena t') = held (tarena t) ∧ mallocs (tarena t') = mallocs (tarena t).

Lemma l_del_miss k l : hit_ok k (after k l) = false → l_del k l = l.
Proof.
  unfold l_del, hit_ok. destruct (after k l); [done|].
  intros Hm%bool_decide_eq_false. by rewrite decide_False.
Qed.

Lemma del_last_in k t cells a :
  rep t cells → del_last k (cells (bin_of k t)) (last_visit t) = Some a →
  a ∈ addrs ((<[bin_of k t := l_del k (cells (bin_of k t))]> cells) (cursor t)).
Proof.
  intros R. set (b := bin_of k t). unfold del_last.
  pose proof (before_after k (cells b)) as Hl. pose proof (rep_NoDup _ _ b R) as Hnd.
  destruct (hit_ok k (after k (cells b))) eqn:Hhit.
  - apply hit_ok_cons in Hhit as (c & r & E & E0). rewrite E in *. simpl.
    assert (l_del k (cells b) = before k (cells b) ++ r) as Ed
      by (unfold l_del; rewrite E; by rewrite decide_True).
    case_decide as Hlv; intros Ha.
    + assert (cursor t = b) as ->.
      { apply (rep_disjoint _ _ _ _ (caddr c) R); [by apply (rep_last _ _ R)|]. apply elem_of_addrs. exists c.
        split; [rewrite <- Hl; set_solver|done]. }
      rewrite fn_lookup_insert, Ed, addrs_app. apply elem_of_app. right.
      destruct r as [|d r]; [done|]. injection Ha as <-. apply list_elem_of_here.
    + pose proof (rep_last _ _ R a Ha) as Hin. destruct (decide (cursor t = b)) as [Ec|Hne].
      * rewrite Ec in Hin |- *. rewrite fn_lookup_insert, Ed. rewrite <- Hl in Hin.
        rewrite addrs_app in *. apply elem_of_app in Hin as [Hin|Hin]; apply elem_of_app; [by left|].
        apply elem_of_cons in Hin as [->|Hin]; [|by right]. by destruct Hlv.
      * by rewrite fn_lookup_insert_ne.
  - intros Ha. pose proof (rep_last _ _ R a Ha) as Hin. rewrite l_del_miss by done.
    unfold insert, fn_insert. case_decide as Ec; [by rewrite Ec|done].
Qed.

(** The heap part of a deletion *)
Lemma del_post_unlink k t cells h' p' c r last' :
  rep t cells → after k (cells (bin_of k t)) = c :: r →
  key_compare k (ckey c) = 0 →
  seg h' p' (before k (cells (bin_of k t)) ++ r) None →
  h' !! caddr c = None →
  (∀ a, a ∉ addrs (before k (cells (bin_of k t)) ++ r) → a ≠ caddr c → h' !! a = theap t !! a) →
  last' = del_last k (cells (bin_of k t)) (last_visit t) →
  del_post k t cells
    (TState (Arena h' (brk (tarena t)) (mallocs (tarena t)) (held (tarena t)))
       (Table (size_of t) (<[bin_of k t := p']> (bins (ttable t))) (cursor t) last')).
Proof.
  intros R E E0 Hs Hgone Hsame Hlv. set (b := bin_of k t) in *.
  assert (l_del k (cells b) = before k (cells b) ++ r) as Ed
    by (unfold l_del; rewrite E; by rewrite decide_True).
  assert (∀ a, a ∈ addrs (cells b) ↔ a ∈ addrs (before k (cells b) ++ r) ∨ a = caddr c) as Hal.
  { intros a. rewrite <- (before_after k (cells b)) at 1. rewrite E, !addrs_app, !elem_of_app.
    change (addrs (c :: r)) with (caddr c :: addrs r). rewrite elem_of_cons. tauto. }
  split; [|by repeat split]. apply rep_update; [done|by eapply bin_of_range|..].
  - fold b. by rewrite Ed.
  - apply l_del_sorted, R.
  - intros d Hd. apply elem_of_l_del in Hd as [Hd _]; [by eapply rep_hash|apply R].
  - fold b. rewrite Ed. intros a Ha Hb. rewrite Hal in Hb. apply Hsame; tauto.
  - fold b. rewrite Ed. intros a Ha Hb. rewrite Hal in Ha. destruct Ha as [| ->]; done.
  - fold b. rewrite Ed. intros a Ha. left. rewrite Hal. by left.
  - lia.
  - intros a Ha. rewrite Hlv in Ha. by apply del_last_in.
Qed.

(** What is left once the entry is linked out: the iterator and [free] *)
Lemma wp_unlink_finish k (Q : unit → tstate K V → Prop) t cells c r h' p' :
  rep t cells → after k (cells (bin_of k t)) = c :: r → key_compare k (ckey c) = 0 →
  is_Some (h' !! caddr c) →
  seg (delete (caddr c) h') p' (before k (cells (bin_of k t)) ++ r) None →
  (∀ a, a ∉ addrs (before k (cells (bin_of k t)) ++ r) → h' !! a = theap t !! a) →
  (∀ t', del_post k t cells t' → Q tt t') →
  wp (lv ← gets (next_last_visit_entry ∘ ttable);
      (if decide (headp (c :: r) = lv) then set_last_visit (headp r) else mret tt);;
      on_arena (free (headp (c :: r)))) Q
    (TState (Arena h' (brk (tarena t)) (mallocs (tarena t)) (held (tarena t)))
       (Table (size_of t) (<[bin_of k t := p']> (bins (ttable t))) (cursor t) (last_visit t))).
Proof.
  intros R E E0 [n Hc] Hs' Hsame HQ.
  assert (∀ last', last' = del_last k (cells (bin_of k t)) (last_visit t) →
    wp (on_arena (free (headp (c :: r)))) Q
      (TState (Arena h' (brk (tarena t)) (mallocs (tarena t)) (held (tarena t)))
         (Table (size_of t) (<[bin_of k t := p']> (bins (ttable t))) (cursor t) last'))) as Hfree.
  { intros last' Hl. apply wp_on_arena.
    eapply wp_free; [exact Hc|]. apply HQ.
    eapply (del_post_unlink k t cells); [done|exact E|done|done| | |done]; simpl.
    - apply lookup_delete_eq.
    - intros a Ha Hne. rewrite lookup_delete_ne by done. by apply Hsame. }
  unfold del_last in Hfree. rewrite E in Hfree.
  assert (hit_ok k (c :: r) = true) as Hhit by (by apply bool_decide_eq_true).
  rewrite Hhit in Hfree.
  wp_steps. simpl. case_decide; wp_steps; by apply Hfree.
Qed.

Lemma wp_unlink k (Q : unit → tstate K V → Prop) t cells p :
  rep t cells → bins (ttable t) !! bin_of k t = Some p →
  seg (theap t) p (cells (bin_of k t)) None →
  hit_ok k (after k (cells (bin_of k t))) = true →
  (∀ t', del_post k t cells t' → Q tt t') →
  wp (tbl_unlink (bin_of k t) (lastp None (before k (cells (bin_of k t))))
        (headp (after k (cells (bin_of k t))))) Q t.
Proof.
  intros R Hp Hs Hhit HQ. set (b := bin_of k t) in *.
  pose proof (bin_of_range _ _ k R : 0 <= b < size_of t) as Hb.
  pose proof (hit_ok_cons _ _ Hhit) as (c & r & E & E0).
  pose proof (rep_NoDup _ _ b R) as Hnd. rewrite <- (before_after k (cells b)) in Hs, Hnd.
  pose proof Hs as Hs'. apply seg_split in Hs' as [Hs1 Hs2].
  pose proof (seg_head_ne _ _ _ _ Hs1 Hnd) as Hhd. rewrite E in *.
  pose proof Hs2 as (_ & q & Hc & Hr). pose proof (seg_head _ _ _ Hr) as ->.
  pose proof (wp_unlink_finish k Q t cells c r) as Hfin. fold b in Hfin.
  unfold tbl_unlink. wp_steps. apply wp_on_arena. eapply wp_load; [exact Hc|]. wp_steps.
  eapply wp_read_bin; [done|exact Hp|]. cbn [nnext].
  wp_steps. case_decide as Hcase.
  - apply wp_write_bin; [done|]. assert (before k (cells b) = []) as Eb by (by apply Hhd).
    destruct t as [[h bk ms hd] tb]. apply Hfin; [done..|by eexists| |done|done].
    rewrite Eb in *. apply seg_unlink_head; [done|]. by rewrite <- Hcase in Hs.
  - destruct (before k (cells b)) as [|c0 l0 _] eqn:Eb using rev_ind.
    { destruct Hcase. symmetry. by apply Hhd. }
    assert (theap t !! caddr c0 = Some (Node (ckey c0) (cval c0) (headp (c :: r)))) as Hc0.
    { apply seg_app in Hs1 as (x & _ & (-> & r' & Hr' & ->)). done. }
    assert (caddr c0 ≠ caddr c) as Hne.
    { intros Heq. rewrite !addrs_app in Hnd. apply NoDup_app in Hnd as (_ & Hd & _).
      destruct (Hd (caddr c0)); [apply elem_of_app; right; apply list_elem_of_here|].
      rewrite Heq. apply list_elem_of_here. }
    unfold lastp. rewrite last_snoc. apply wp_on_arena. eapply wp_update; [exact Hc0|].
    specialize (Hfin (<[caddr c0 := Node (ckey c0) (cval c0) (headp r)]> (theap t)) p).
    replace (Table (size_of t) (<[b := p]> (bins (ttable t))) (cursor t) (last_visit t))
      with (ttable t) in Hfin by (rewrite insert_id by done; by destruct t as [? []]).
    apply Hfin; [done..| | | |done].
    + rewrite lookup_insert_ne by done. by eexists.
    + by apply seg_unlink.
    + intros a Ha. rewrite lookup_insert_ne; [done|]. intros <-. apply Ha.
      rewrite !addrs_app. apply elem_of_app. left. apply elem_of_app. right.
      apply list_elem_of_here.
Qed.

Lemma wp_tbl_del k (Q : unit → tstate K V → Prop) t cells :
  rep t cells → bin_of k t ∉ held (tarena t) →
  (∀ t', del_post k t cells t' → Q tt t') → wp (tbl_del k) Q t.
Proof.
  intros R Hh HQ. pose proof (bin_of_range _ _ k R) as Hb.
  destruct (rep_bin _ _ R _ Hb) as (p & Hp & Hs).
  pose proof (with_lock_rep (bin_of k t) _ _ R) as R'.
  unfold tbl_del. wp_steps. apply wp_mutex_lock; [done..|].
  wp_steps. eapply wp_read_bin; [done|exact Hp|]. wp_steps.
  eapply (wp_walk _ _ _ _ (cells (bin_of k t))); [exact Hs|by eapply (rep_fuel (with_lock _ t))|].
  wp_steps. apply wp_hit; [by eapply (seg_after (with_lock _ t))|].
  wp_steps. destruct (hit_ok _ _) eqn:Hhit.
  - eapply (wp_unlink k _ (with_lock (bin_of k t) t)); [done..|].
    intros t' (Rt' & Hsz & Hcur & Hlv & Hheld & Hmal).
    apply wp_mutex_unlock.
    + rewrite Hsz. done.
    + rewrite Hheld. set_solver.
    + apply HQ. split; [by eapply rep_ext|].
      repeat split; try done. simpl. rewrite Hheld. simpl. set_solver.
  - wp_steps. apply wp_mutex_relock; [done..|]. apply HQ.
    split; [|unfold del_last; rewrite Hhit; by repeat split].
    rewrite l_del_miss by done. eapply rep_cells_ext; [|exact R].
    intros b. unfold insert, fn_insert. case_decide as Ec; [by rewrite Ec|done].
Qed.
End ops.
