(* ===== verification/ChainIter.v ===== *)
(** * Correctness of the iterator, the refresh, the destruction and the creation

    [next] walks the entries in bin order and, inside a bin, in key order;
    [pending] is what an iteration in progress has still to yield.  A loop on
    [next] yields every entry once and resets the iterator; [refresh] and
    [destory] free every node; [create] gives an empty table. *)
From S2P Require Import Prelude CMonad ChainedTable ChainSpec ChainHeap ChainRefine ChainOps.

Section iter.
Context {K V : Type} `{KeyLaws K}.
Implicit Types (k : K) (v : V) (l : list (cell K V)) (t : tstate K V).
Implicit Types (cells : Z → list (cell K V)).

(** ** What an iteration has still to yield *)

(** The cells after the one at address [a] *)
Fixpoint after_addr (a : loc) l : list (cell K V) :=
  match l with
  | [] => []
  | c :: l => if decide (caddr c = a) then l else after_addr a l
  end.

(** The cells of the bins [i], [i+1], ..., [n-1] *)
Definition from_bin cells (n i : Z) : list (cell K V) :=
  mjoin (cells <$> seqZ i (n - i)).

Definition entries t cells : list (cell K V) := from_bin cells (size_of t) 0.

Definition pending t cells : list (cell K V) :=
  match last_visit t with
  | Some a => after_addr a (cells (cursor t))
  | None => []
  end ++ from_bin cells (size_of t) (cursor t + 1).

(** The iterator at rest: the next call begins at the first entry *)
Definition at_start t : Prop := cursor t = -1 ∧ last_visit t = None.

Definition with_cursor (cur : Z) (lv : option loc) t : tstate K V :=
  TState (tarena t) (Table (size_of t) (bins (ttable t)) cur lv).

Lemma pending_at_start t cells : at_start t → pending t cells = entries t cells.
Proof. intros [Ec El]. unfold pending, entries. by rewrite El, Ec. Qed.

Lemma from_bin_step cells n i : i < n → from_bin cells n i = cells i ++ from_bin cells n (i + 1).
Proof.
  intros Hi. unfold from_bin. rewrite seqZ_cons by lia. simpl.
  replace (Z.succ i) with (i + 1) by lia. by replace (Z.pred (n - i)) with (n - (i + 1)) by lia.
Qed.

Lemma from_bin_end cells n i : n <= i → from_bin cells n i = [].
Proof. intros Hi. unfold from_bin. by rewrite seqZ_nil by lia. Qed.

Lemma elem_of_from_bin cells n i c :
  c ∈ from_bin cells n i ↔ ∃ b, i <= b < n ∧ c ∈ cells b.
Proof.
  unfold from_bin. rewrite list_elem_of_join. setoid_rewrite list_elem_of_fmap.
  split.
  - intros (l & Hc & b & -> & Hb). apply elem_of_seqZ in Hb. exists b. split; [lia|done].
  - intros (b & Hb & Hc). exists (cells b). split; [done|]. exists b. split; [done|].
    apply elem_of_seqZ. lia.
Qed.

Lemma from_bin_split cells n i j :
  i <= j <= n → from_bin cells n i = from_bin cells j i ++ from_bin cells n j.
Proof.
  intros Hij. remember (Z.to_nat (j - i)) as m eqn:Em. revert i Hij Em.
  induction m as [|m IH]; intros i Hij Em.
  - assert (i = j) as -> by lia. by rewrite (from_bin_end cells j j) by lia.
  - rewrite (from_bin_step cells n i), (from_bin_step cells j i) by lia.
    rewrite <- app_assoc. f_equal. apply IH; lia.
Qed.

Lemma after_addr_sublist a l : after_addr a l `sublist_of` l.
Proof.
  induction l as [|c l IH]; simpl; [done|]. case_decide; by apply sublist_cons.
Qed.

Lemma from_bin_insert cells n i b l :
  b < i → from_bin (<[b := l]> cells) n i = from_bin cells n i.
Proof.
  intros Hb. remember (Z.to_nat (n - i)) as m eqn:Em. revert i Hb Em.
  induction m as [|m IH]; intros i Hb Em.
  - by rewrite !from_bin_end by lia.
  - rewrite !(from_bin_step _ n i) by lia. rewrite fn_lookup_insert_ne by lia.
    by rewrite IH by lia.
Qed.

Lemma after_addr_split a l l1 c l2 :
  NoDup (addrs l) → l = l1 ++ c :: l2 → caddr c = a → after_addr a l = l2.
Proof.
  intros Hnd -> <-. induction l1 as [|d l1 IH]; simpl.
  - by rewrite decide_True.
  - change (addrs ((d :: l1) ++ c :: l2)) with (caddr d :: addrs (l1 ++ c :: l2)) in Hnd.
    apply NoDup_cons in Hnd as [Hd Hnd]. rewrite decide_False; [by apply IH|].
    intros E. apply Hd. rewrite E, addrs_app. apply elem_of_app. right. apply list_elem_of_here.
Qed.

Lemma rep_with_cursor t cells cur lv :
  rep t cells → -1 <= cur < size_of t →
  (∀ a, lv = Some a → a ∈ addrs (cells cur)) → rep (with_cursor cur lv t) cells.
Proof. intros R Hc Hl. destruct R. constructor; try done. Qed.

(** The abstract step of [next]. *)
Definition next_post t cells (r : option (K * V)) (t' : tstate K V) : Prop :=
  match pending t cells with
  | [] => r = None ∧ t' = with_cursor (-1) None t
  | c :: rest => r = Some (ckey c, cval c) ∧ rep t' cells ∧ pending t' cells = rest ∧
                 ∃ cur lv, t' = with_cursor cur lv t
  end.

Lemma pending_sublist t cells : rep t cells → pending t cells `sublist_of` entries t cells.
Proof.
  intros R. pose proof (rep_cursor _ _ R) as Hc. unfold pending, entries.
  destruct (decide (cursor t = -1)) as [E|Hne].
  - rewrite E. destruct (last_visit t) as [a|] eqn:Ea; [|done].
    pose proof (rep_in_range _ _ _ _ R (rep_last _ _ R a Ea)). lia.
  - rewrite (from_bin_split cells (size_of t) 0 (cursor t)) by lia.
    rewrite (from_bin_step cells (size_of t) (cursor t)) by lia.
    apply sublist_inserts_l, sublist_app; [|done].
    destruct (last_visit t); [apply after_addr_sublist|apply sublist_nil_l].
Qed.

(** ** The scan of the remaining bins *)

Lemma wp_scan fuel t cells cur lv (Q : option (K * V) → tstate K V → Prop) :
  rep t cells → held (tarena t) = ∅ → -1 <= cur < size_of t →
  (Z.to_nat (size_of t - cur) <= fuel)%nat →
  (from_bin cells (size_of t) (cur + 1) = [] → Q None (with_cursor (-1) None t)) →
  (∀ b c r, cells b = c :: r → cur < b < size_of t →
     from_bin cells (size_of t) (cur + 1) = c :: r ++ from_bin cells (size_of t) (b + 1) →
     Q (Some (ckey c, cval c)) (with_cursor b (Some (caddr c)) t)) →
  wp (scan fuel) Q (with_cursor cur lv t).
Proof.
  intros R Hheld. revert cur lv. induction fuel as [|fuel IH]; intros cur lv Hcur Hf HN HS.
  { lia. }
  simpl. wp_steps. unfold set_cursor, on_table. wp_steps. cbn.
  case_decide as Hend.
  - wp_steps. apply HN. apply from_bin_end. lia.
  - assert (0 <= cur + 1 < size_of t) as Hb by lia.
    destruct (rep_bin _ _ R _ Hb) as (p & Hp & Hs).
    change (TState (tarena t) (Table (size_of t) (bins (ttable t)) (cur + 1) lv))
      with (with_cursor (cur + 1) lv t).
    wp_steps. apply wp_mutex_lock; [done|simpl; rewrite Hheld; set_solver|].
    wp_steps. eapply wp_read_bin; [done|exact Hp|].
    rewrite from_bin_step in HN by lia. setoid_rewrite from_bin_step in HS at 1; [|lia].
    destruct (cells (cur + 1)) as [|c r] eqn:E.
    + simpl in Hs. subst p. rewrite decide_True by done. wp_steps.
      apply wp_mutex_relock; [done|simpl; rewrite Hheld; set_solver|].
      apply IH; [lia|lia|exact HN|]. intros b c r Ec Hbr Ef. apply (HS b c r Ec); [lia|exact Ef].
    + simpl in Hs. destruct Hs as (-> & q & Hc & _). rewrite decide_False by done.
      wp_steps. apply wp_on_arena. eapply wp_load; [exact Hc|]. simpl.
      wp_steps. unfold set_last_visit, on_table. wp_steps. cbn.
      apply (wp_mutex_relock (cur + 1) _ (with_cursor (cur + 1) (Some (caddr c)) t));
        [done|simpl; rewrite Hheld; set_solver|].
      wp_steps. apply HS with (r := r); [done|lia|done].
Qed.

Lemma pending_with_cursor t cells b c r :
  rep t cells → cells b = c :: r →
  pending (with_cursor b (Some (caddr c)) t) cells
  = r ++ from_bin cells (size_of t) (b + 1).
Proof.
  intros R E. unfold pending. f_equal.
  apply (after_addr_split _ _ [] c); [by eapply rep_NoDup|exact E|done].
Qed.

(** From the end of the current bin on *)
Lemma wp_scan_next t cells (Q : option (K * V) → tstate K V → Prop) :
  rep t cells → held (tarena t) = ∅ →
  pending t cells = from_bin cells (size_of t) (cursor t + 1) →
  (∀ r t', next_post t cells r t' → Q r t') →
  wp (scan (Z.to_nat (size_of t + 2))) Q t.
Proof.
  intros R Hh Hp HQ. pose proof (rep_cursor _ _ R) as Hcur.
  replace t with (with_cursor (cursor t) (last_visit t) t) at 2 by (by destruct t as [? []]).
  apply (wp_scan _ _ cells); [done|done|lia|lia| |].
  - intros E. apply HQ. unfold next_post. by rewrite Hp, E.
  - intros b c r Ec Hb E. apply HQ. unfold next_post. rewrite Hp, E.
    split; [done|]. split; [|split; [by apply pending_with_cursor|eauto]].
    apply rep_with_cursor; [done|lia|]. intros a [= <-]. rewrite Ec. apply list_elem_of_here.
Qed.

(** The last visited entry splits its bin. *)
Lemma rep_last_split t cells a :
  rep t cells → last_visit t = Some a →
  ∃ l1 c l2, cells (cursor t) = l1 ++ c :: l2 ∧ caddr c = a ∧
    after_addr a (cells (cursor t)) = l2 ∧
    theap t !! a = Some (Node (ckey c) (cval c) (headp l2)) ∧ 0 <= cursor t < size_of t.
Proof.
  intros R Ea. pose proof (rep_last _ _ R a Ea) as Hin.
  pose proof (rep_in_range _ _ _ _ R Hin) as Hb.
  apply elem_of_addrs in Hin as (c & Hin & Hc).
  apply list_elem_of_split in Hin as (l1 & l2 & E). exists l1, c, l2.
  split_and!; [done|done| | |lia|lia].
  - eapply after_addr_split; [by eapply rep_NoDup|done|done].
  - destruct (rep_bin _ _ R _ Hb) as (p & _ & Hs). rewrite E in Hs.
    apply seg_app in Hs as (x & _ & (-> & r' & Hr & Hs)).
    by rewrite <- (seg_head _ _ _ Hs), <- Hc.
Qed.

Lemma wp_tbl_next (Q : option (K * V) → tstate K V → Prop) t cells :
  rep t cells → held (tarena t) = ∅ →
  (∀ r t', next_post t cells r t' → Q r t') → wp tbl_next Q t.
Proof.
  intros R Hh HQ. pose proof (rep_cursor _ _ R) as Hcur.
  pose proof (wp_scan_next t cells Q R Hh) as Hscan.
  unfold tbl_next. wp_steps. change (tsize (ttable t)) with (size_of t).
  change (next_current_bin (ttable t)) with (cursor t).
  rewrite decide_False by lia.
  destruct (last_visit t) as [a|] eqn:Ea.
  - destruct (rep_last_split _ _ _ R Ea) as (l1 & c & l2 & E & Hc & Haft & Hn & Hb).
    assert (pending t cells = l2 ++ from_bin cells (size_of t) (cursor t + 1)) as Hpend
      by (unfold pending; by rewrite Ea, Haft).
    rewrite decide_True by lia. wp_steps.
    apply wp_mutex_lock; [done|rewrite Hh; set_solver|]. wp_steps. simpl.
    change (next_last_visit_entry (ttable t)) with (last_visit t). rewrite Ea.
    wp_steps. apply wp_on_arena. eapply wp_load; [exact Hn|]. cbn.
    destruct l2 as [|d l2]; cbn.
    + wp_steps. apply (wp_mutex_relock _ _ t); [done|rewrite Hh; set_solver|]. by apply Hscan.
    + destruct (rep_cell_live t cells (cursor t) d R) as [r Hr]; [rewrite E; set_solver|].
      wp_steps. apply wp_on_arena. eapply wp_load; [exact Hr|]. cbn.
      wp_steps. unfold set_last_visit, on_table. wp_steps. cbn.
      apply (wp_mutex_relock _ _ (with_cursor (cursor t) (Some (caddr d)) t));
        [done|simpl; rewrite Hh; set_solver|].
      wp_steps. apply HQ. unfold next_post. rewrite Hpend. simpl. split; [done|].
      split; [|split; [|by eauto]].
      * apply rep_with_cursor; [done|lia|]. intros ? [= <-]. apply elem_of_addrs.
        exists d. split; [rewrite E; set_solver|done].
      * unfold pending. f_equal. apply (after_addr_split _ _ (l1 ++ [c]) d);
          [by eapply rep_NoDup| |done]. rewrite <- app_assoc. exact E.
  - assert (pending t cells = from_bin cells (size_of t) (cursor t + 1)) as Hpend
      by (unfold pending; by rewrite Ea).
    case_decide; [|by apply Hscan]. wp_steps.
    apply wp_mutex_lock; [lia|rewrite Hh; set_solver|]. wp_steps. simpl.
    change (next_last_visit_entry (ttable t)) with (last_visit t). rewrite Ea.
    wp_steps. apply (wp_mutex_relock _ _ t); [lia|rewrite Hh; set_solver|]. by apply Hscan.
Qed.

(** A loop on [next] yields what is pending and leaves the iterator at the
    start; nothing else of the table changes. *)
Lemma wp_collect fuel (Q : list (K * V) → tstate K V → Prop) t cells :
  rep t cells → held (tarena t) = ∅ → (length (pending t cells) < fuel)%nat →
  Q (pairs (pending t cells)) (with_cursor (-1) None t) → wp (collect fuel) Q t.
Proof.
  revert t Q. induction fuel as [|fuel IH]; intros t Q R Hh Hf HQ; [lia|].
  simpl. wp_steps. eapply wp_tbl_next; [done..|]. intros r t' Hn. unfold next_post in Hn.
  destruct (pending t cells) as [|c rest].
  - destruct Hn as [-> ->]. by wp_steps.
  - destruct Hn as (-> & R' & Hp & cur & lv & ->). wp_steps.
    apply IH; [done..| |].
    + rewrite Hp. simpl in Hf. lia.
    + wp_steps. by rewrite Hp.
Qed.
End iter.
