(* ===== verification/ChainLife.v ===== *)
(** * Correctness of creation, refresh and destruction of a chained table

    [create] gives an empty table, [refresh] takes any table back to an empty
    one, and both [refresh] and [destory] free every node exactly once. *)
From S2P Require Import Prelude CMonad ChainedTable ChainSpec ChainHeap ChainRefine ChainOps ChainIter.

Section life.
Context {K V : Type} `{KeyLaws K}.
Implicit Types (k : K) (v : V) (l : list (cell K V)) (t : tstate K V).
Implicit Types (cells : Z → list (cell K V)).

Definition no_cells : Z → list (cell K V) := λ _, [].

(** ** Freeing a chain *)

Lemma wp_free_chain fuel p l (Q : unit → tstate K V → Prop) t :
  seg (theap t) p l None → NoDup (addrs l) → (length l < fuel)%nat →
  (∀ h, (∀ a, h !! a = if decide (a ∈ addrs l) then None else theap t !! a) →
        Q tt (TState (set_heap h (tarena t)) (ttable t))) →
  wp (free_chain fuel p) Q t.
Proof.
  revert fuel p t. induction l as [|c l IH]; intros fuel p t Hs Hnd Hf HQ.
  - simpl in Hs. subst p.
    replace (free_chain fuel None) with (mret tt : cmd (tstate K V) unit) by (by destruct fuel).
    wp_steps. specialize (HQ (theap t)). destruct t as [[]]. apply HQ.
    intros a. by rewrite decide_False by apply not_elem_of_nil.
  - destruct Hs as (-> & r & Hc & Hs). destruct fuel as [|fuel]; [simpl in Hf; lia|].
    change (addrs (c :: l)) with (caddr c :: addrs l) in *.
    apply NoDup_cons in Hnd as [Hnin Hnd]. simpl.
    wp_steps. apply wp_on_arena. eapply wp_load; [exact Hc|]. simpl.
    wp_steps. apply wp_on_arena. eapply wp_free; [exact Hc|]. simpl.
    apply IH; [|done|simpl in Hf; lia|].
    + eapply seg_frame; [|exact Hs]. intros a Ha. unfold theap. simpl.
      rewrite lookup_delete_ne; [done|]. by intros <-.
    + intros h Hh. apply HQ. intros a. rewrite Hh. unfold theap. simpl.
      destruct (decide (a = caddr c)) as [->|Hne].
      * rewrite decide_False by done. rewrite decide_True by apply list_elem_of_here.
        apply lookup_delete_eq.
      * rewrite lookup_delete_ne by done.
        repeat case_decide; try done; set_solver.
Qed.

(** The heap while the bins below [i] have been freed: it holds exactly the
    nodes of the other bins, chained as before. *)
Definition freed_to t cells i (s : tstate K V) : Prop :=
  ttable s = ttable t ∧ mallocs (tarena s) = mallocs (tarena t) ∧
  held (tarena s) = held (tarena t) ∧
  (∀ b p, i <= b → bins (ttable t) !! b = Some p → b < size_of t → seg (theap s) p (cells b) None) ∧
  (∀ a, is_Some (theap s !! a) → ∃ b, i <= b < size_of t ∧ a ∈ addrs (cells b)).

Lemma rep_freed_0 t cells : rep t cells → freed_to t cells 0 t.
Proof.
  intros R. split_and!; [done..| |].
  - intros b p Hb Hp Hlt. destruct (rep_bin _ _ R b) as (p' & Hp' & Hs); [lia|]. congruence.
  - intros a Ha. destruct (rep_live _ _ R a Ha) as [b Hb]. exists b. split; [|done].
    by eapply rep_in_range.
Qed.

Lemma wp_free_bin t cells i s (Q : unit → tstate K V → Prop) :
  rep t cells → 0 <= i < size_of t → freed_to t cells i s →
  (∀ s', freed_to t cells (i + 1) s' → Q tt s') → wp (free_bin i) Q s.
Proof.
  intros R Hi (Et & Em & Eh & Hseg & Hlive) HQ.
  destruct (rep_bin _ _ R i Hi) as (p & Hp & _).
  pose proof (Hseg i p ltac:(lia) Hp ltac:(lia)) as Hs.
  pose proof (rep_NoDup _ _ i R) as Hnd.
  unfold free_bin. wp_steps. eapply wp_read_bin.
  { unfold size_of. rewrite Et. exact Hi. } { rewrite Et. exact Hp. }
  wp_steps. eapply wp_free_chain; [exact Hs|done| |].
  { unfold chain_fuel. apply Nat.lt_succ_r, chain_length; [done|].
    intros a Ha. by eapply seg_live. }
  intros h Hh. apply HQ. split_and!; [done..| |].
  - intros b q Hb Hq Hlt. eapply seg_frame; [|apply (Hseg b q); [lia|done..]].
    intros a Ha. unfold theap. simpl. rewrite Hh. rewrite decide_False; [done|].
    intros Ha'. pose proof (rep_disjoint _ _ _ _ _ R Ha Ha'). lia.
  - intros a. unfold theap. simpl. rewrite Hh. case_decide as Hin; [by intros []|].
    intros Ha. destruct (Hlive a Ha) as (b & Hb & Hab). exists b. split; [|done].
    destruct (decide (b = i)) as [->|]; [done|lia].
Qed.

Lemma freed_all_empty t cells s : freed_to t cells (size_of t) s → theap s = ∅.
Proof.
  intros (_ & _ & _ & _ & Hlive). apply map_eq. intros a. rewrite lookup_empty.
  destruct (theap s !! a) eqn:E; [|done].
  destruct (Hlive a) as (b & Hb & _); [by eexists|lia].
Qed.

(** ** destory *)

Lemma wp_tbl_free_nodes (Q : unit → tstate K V → Prop) t cells :
  rep t cells →
  (∀ s, theap s = ∅ → held (tarena s) = held (tarena t) → Q tt s) → wp tbl_free_nodes Q t.
Proof.
  intros R HQ. pose proof (rep_size _ _ R). unfold tbl_free_nodes. wp_steps.
  change ((tsize ∘ ttable) t) with (size_of t).
  apply (wp_for_range _ _ _ (freed_to t cells)); [by apply rep_freed_0| |].
  - intros i s Hi HI. eapply wp_free_bin; [done|lia|done|auto].
  - intros s HI. apply HQ; [|apply HI].
    replace (0 + Z.of_nat (Z.to_nat (size_of t))) with (size_of t) in HI by lia.
    by eapply freed_all_empty.
Qed.

Lemma wp_tbl_destory t cells :
  rep t cells → held (tarena t) = ∅ → tbl_destory (PLive t) = Ok (tt, PFreed).
Proof.
  intros R Hh. pose proof (wp_tbl_free_nodes (λ _ s, held (tarena s) = ∅) t cells R) as Hw.
  unfold wp in Hw. simpl. destruct (tbl_free_nodes t) as [[[] s]|]; simpl in Hw.
  - rewrite decide_True; [done|]. apply Hw. congruence.
  - destruct Hw. congruence.
Qed.

(** ** refresh *)

(** Between two bins of [refresh]: the bins below [i] are freed and NULL. *)
Definition refreshed_to t cells i (s : tstate K V) : Prop :=
  size_of s = size_of t ∧ mallocs (tarena s) = mallocs (tarena t) ∧
  held (tarena s) = ∅ ∧
  (∀ b, 0 <= b < i → bins (ttable s) !! b = Some None) ∧
  (∀ b, i <= b < size_of t → bins (ttable s) !! b = bins (ttable t) !! b) ∧
  freed_to t cells i (TState (set_held (held (tarena t)) (tarena s)) (ttable t)).

Lemma wp_refresh_bin t cells i s :
  rep t cells → 0 <= i < size_of t → refreshed_to t cells i s →
  wp (mutex_lock i;; free_bin i;; write_bin i None;; mutex_unlock i)
     (λ _ s', refreshed_to t cells (i + 1) s') s.
Proof.
  intros R Hi (Esz & Em & Eh & Hnull & Hsame & HF).
  destruct (rep_bin _ _ R i Hi) as (p & Hp & _).
  destruct HF as (_ & _ & _ & Hseg & Hlive). unfold theap in Hseg, Hlive. simpl in Hseg, Hlive.
  pose proof (Hseg i p ltac:(lia) Hp ltac:(lia)) as Hs.
  pose proof (rep_NoDup _ _ i R) as Hnd.
  wp_steps. apply wp_mutex_lock; [lia|rewrite Eh; set_solver|].
  wp_steps. unfold free_bin. wp_steps.
  eapply wp_read_bin; [change (0 <= i < size_of s); lia|simpl; rewrite Hsame by lia; exact Hp|].
  wp_steps. eapply wp_free_chain; [exact Hs|done| |].
  { unfold chain_fuel. apply Nat.lt_succ_r, chain_length; [done|].
    intros a Ha. by eapply seg_live. }
  intros h Hh. unfold theap in Hh. simpl in Hh.
  wp_steps. apply wp_write_bin; [change (0 <= i < size_of s); lia|].
  apply wp_mutex_unlock; [change (0 <= i < size_of s); lia|simpl; set_solver|].
  split_and!; [done|done|simpl; rewrite Eh; set_solver| | |split_and!; [done|done|done| |]]; simpl.
  - intros b Hb. destruct (decide (b = i)) as [->|]; [apply lookup_insert_eq|].
    rewrite lookup_insert_ne by done. apply Hnull. lia.
  - intros b Hb. rewrite lookup_insert_ne by lia. apply Hsame. lia.
  - intros b q Hb Hq Hlt. eapply seg_frame; [|apply (Hseg b q); [lia|done..]].
    intros a Ha. unfold theap. simpl. rewrite Hh. rewrite decide_False; [done|].
    intros Ha'. pose proof (rep_disjoint _ _ _ _ _ R Ha Ha'). lia.
  - intros a. unfold theap. simpl. rewrite Hh. case_decide as Hin; [by intros []|].
    intros Ha. destruct (Hlive a Ha) as (b & Hb & Hab). exists b. split; [|done].
    destruct (decide (b = i)) as [->|]; [done|lia].
Qed.

(** ** create *)

Lemma lookup_null_bins (n b : Z) :
  foldl (λ bs i, <[i := None]> bs) (∅ : gmap Z (option loc)) (seqZ 0 n) !! b
  = if decide (0 <= b < n) then Some None else None.
Proof.
  assert (∀ (l : list Z) (bs : gmap Z (option loc)),
    foldl (λ bs i, <[i := None]> bs) bs l !! b
    = if decide (b ∈ l) then Some None else bs !! b) as Hgen.
  { induction l as [|i l IH]; intros bs; cbn [foldl].
    - by rewrite decide_False by apply not_elem_of_nil.
    - rewrite IH. destruct (decide (b = i)) as [->|Hne].
      + rewrite lookup_insert_eq. rewrite (decide_True (P := i ∈ i :: l)) by apply list_elem_of_here.
        by case_decide.
      + rewrite lookup_insert_ne by done. repeat case_decide; try done; set_solver. }
  rewrite Hgen, lookup_empty.
  assert (b ∈ seqZ 0 n ↔ 0 <= b < n) as Hin by (rewrite elem_of_seqZ; lia).
  repeat case_decide; try done; tauto.
Qed.

(** An empty table *)
Definition empty_table (t : tstate K V) : Prop :=
  rep t no_cells ∧ at_start t ∧ quiet t ∧ theap t = ∅.

Lemma tbl_create_empty n :
  0 < n → ∃ t : tstate K V, tbl_create n [] = PLive t ∧ empty_table t ∧ size_of t = n.
Proof.
  intros Hn. eexists. split; [reflexivity|]. split; [|done].
  split_and!; [|done|done|done]. constructor; simpl; try done.
  - intros b Hb. exists None. split; [|done].
    unfold size_of in Hb. simpl in Hb. rewrite (lookup_null_bins n b).
    by rewrite decide_True.
  - intros b. constructor.
  - intros b c Hc. by apply not_elem_of_nil in Hc.
  - intros a [? Ha]. unfold theap in Ha. simpl in Ha. by rewrite lookup_empty in Ha.
  - intros a [? Ha]. unfold theap in Ha. simpl in Ha. by rewrite lookup_empty in Ha.
  - unfold cursor, size_of. simpl. lia.
Qed.

Lemma empty_rep t :
  0 < size_of t → (∀ b, 0 <= b < size_of t → bins (ttable t) !! b = Some None) →
  theap t = ∅ → at_start t → rep t no_cells.
Proof.
  intros Hn Hb Hh [Hc Hl]. constructor; try done.
  - intros b Hr. exists None. split; [by apply Hb|done].
  - intros b. constructor.
  - intros b c Hin. by apply not_elem_of_nil in Hin.
  - intros a [? Ha]. by rewrite Hh, lookup_empty in Ha.
  - intros a [? Ha]. by rewrite Hh, lookup_empty in Ha.
  - lia.
  - intros a Ha. congruence.
Qed.

Lemma wp_tbl_refresh (Q : unit → tstate K V → Prop) t cells :
  rep t cells → quiet t →
  (∀ t', empty_table t' → size_of t' = size_of t → Q tt t') → wp tbl_refresh Q t.
Proof.
  intros R [Hh Hm] HQ. pose proof (rep_size _ _ R). unfold tbl_refresh. wp_steps.
  change ((tsize ∘ ttable) t) with (size_of t).
  apply (wp_for_range _ _ _ (refreshed_to t cells)).
  - split_and!; [done..|lia|done|]. 
    replace (TState (set_held (held (tarena t)) (tarena t)) (ttable t)) with t
      by (by destruct t as [[]]).
    by apply rep_freed_0.
  - intros i s Hi HI. apply wp_refresh_bin; [done|lia|done].
  - intros s HI. wp_steps. unfold set_cursor, on_table. wp_steps.
    replace (0 + Z.of_nat (Z.to_nat (size_of t))) with (size_of t) in HI by lia.
    destruct HI as (Esz & Em & Eh & Hnull & _ & HF). apply freed_all_empty in HF.
    apply HQ; [|done]. split_and!; [|done|split; [done|by rewrite <- Hm]|done].
    assert (size_of (with_cursor (-1) None s) = size_of t) as Esz' by exact Esz.
    apply empty_rep; [change (0 < size_of (with_cursor (-1) None s)); lia| |done|done].
    intros b Hb. apply Hnull. change (0 <= b < size_of (with_cursor (-1) None s)) in Hb. lia.
Qed.
End life.
