(* ===== verification/TableSpec.v ===== *)
(** * What a table promises to its callers

    The abstract specification of a flow table: a partial map from keys to
    values that does not distinguish keys comparing equal, and an iterator
    that yields a listing of the map.  The clients of the tables
    ([Warehouse.v], [ConditionSender.v], [IntervalRotator.v]) are proved against the class
    [FlowTable]; [FlowTables.v] discharges it for the chained tables. *)
From S2P Require Import Prelude CMonad ChainedTable ChainSpec.

Section maps.
Context {K V : Type} `{KeyOps K}.

Definition kmap : Type := K → option V.
Implicit Types (m : kmap).

Definition kempty : kmap := λ _, None.
Definition kupd (k : K) (o : option V) m : kmap := λ k',
  if decide (key_compare k' k = 0) then o else m k'.

(** [m] does not distinguish keys that compare equal. *)
Definition krespects m : Prop := ∀ k k', key_compare k k' = 0 → m k = m k'.

(** [es] lists the map [m]: every entry once. *)
Record lists m (es : list (K * V)) : Prop := {
  lists_sound k v : (k, v) ∈ es → m k = Some v;
  lists_complete k v : m k = Some v → ∃ k', key_compare k k' = 0 ∧ (k', v) ∈ es;
  lists_once : NoDup es;
  lists_key e f : e ∈ es → f ∈ es → key_compare e.1 f.1 = 0 → e = f
}.
End maps.
Arguments kmap K V : clear implicits.

(** Pointwise equality of maps; the operations respect it. *)
#[export] Instance kmap_equiv {K V} : Equiv (kmap K V) := λ m m', ∀ k, m k = m' k.
#[export] Instance kmap_equivalence {K V} : Equivalence (≡@{kmap K V}).
Proof.
  split; [by intros m k|by intros m m' E k; rewrite E|].
  intros m1 m2 m3 E1 E2 k. by rewrite E1, E2.
Qed.
#[export] Instance kupd_proper {K V} `{KeyOps K} k (o : option V) :
  Proper ((≡) ==> (≡)) (kupd k o).
Proof. intros m m' E k'. unfold kupd. by case_decide; [|apply E]. Qed.
#[export] Instance lists_proper {K V} `{KeyOps K} :
  Proper ((≡) ==> (=) ==> iff) (@lists K V _).
Proof.
  assert (∀ (m m' : kmap K V) es, m ≡ m' → lists m es → lists m' es) as Himp.
  { intros m m' es E [Hs Hc Ho Hk]. split; [|intros k v; rewrite <- (E k); auto|done..].
    intros k v Hin. rewrite <- (E k). auto. }
  intros m m' E es _ <-. split; apply Himp; [done|by symmetry].
Qed.

Section kmap_laws.
Context {K V : Type} `{KeyLaws K}.
Implicit Types (m : kmap K V).

Lemma kupd_eq k o m : kupd k o m k = o.
Proof. unfold kupd. by rewrite decide_True by apply compare_refl. Qed.

Lemma kupd_ne k k' o m : key_compare k' k ≠ 0 → kupd k o m k' = m k'.
Proof. intros. unfold kupd. by rewrite decide_False. Qed.

Lemma kupd_respects k o m : krespects m → krespects (kupd k o m).
Proof.
  intros Hm k1 k2 E. unfold kupd. rewrite (compare_eq_l k1 k2 k E).
  by case_decide; [|apply Hm].
Qed.

Lemma lists_empty : lists kempty ([] : list (K * V)).
Proof.
  split; [|done|constructor|]; intros ?? Hin; by apply not_elem_of_nil in Hin.
Qed.

(** Entries with pairwise different keys *)
Definition distinct (es : list (K * V)) : Prop :=
  NoDup es ∧ ∀ e f, e ∈ es → f ∈ es → key_compare e.1 f.1 = 0 → e = f.

Lemma lists_distinct m es : lists m es → distinct es.
Proof. intros [_ _ ? ?]. done. Qed.

Lemma distinct_sublist es es' : es `sublist_of` es' → distinct es' → distinct es.
Proof.
  intros Hs [Hn Hd]. split; [by eapply sublist_NoDup|].
  intros e f He Hf. apply Hd; by eapply elem_of_submseteq, sublist_submseteq.
Qed.

(** Setting a new key extends the listing. *)
Lemma lists_snoc m es e :
  lists m es → distinct (es ++ [e]) → lists (kupd e.1 (Some e.2) m) (es ++ [e]).
Proof.
  intros [Hs Hc Hn Hk] [Hn' Hd]. destruct e as [k v]. simpl.
  apply NoDup_app in Hn' as (_ & Hfresh & _).
  assert (∀ k', (∃ v', (k', v') ∈ es) → key_compare k' k ≠ 0) as Hne.
  { intros k' [v' Hin] E. assert ((k', v') = (k, v)) as Eq.
    { apply Hd; [set_solver|set_solver|exact E]. }
    apply (Hfresh (k', v') Hin). rewrite Eq. set_solver. }
  split.
  - intros k' v' Hin. apply elem_of_app in Hin as [Hin|Hin].
    + rewrite kupd_ne by (apply Hne; eauto). by apply Hs.
    + apply list_elem_of_singleton in Hin as [= -> ->]. apply kupd_eq.
  - intros k' v'. unfold kupd. case_decide as E.
    + intros [= ->]. exists k. split; [done|set_solver].
    + intros Hm. destruct (Hc _ _ Hm) as (k'' & ? & ?). exists k''. split; [done|set_solver].
  - apply NoDup_app. split_and!; [done|done|apply NoDup_singleton].
  - exact Hd.
Qed.

Lemma lists_unique m m' es : lists m es → lists m' es → krespects m → krespects m' → m ≡ m'.
Proof.
  assert (∀ m m' k v, lists m es → lists m' es → krespects m' → m k = Some v → m' k = Some v) as Himp.
  { intros m1 m2 k v [_ Hc _ _] [Hs _ _ _] Hr Hk. destruct (Hc k v Hk) as (k' & E & Hin).
    rewrite (Hr k k' E). by apply Hs. }
  intros H1 H2 R1 R2 k. destruct (m k) as [v|] eqn:E1.
  - symmetry. by apply (Himp m m').
  - destruct (m' k) as [v|] eqn:E2; [|done]. rewrite (Himp m' m k v) in E1; done.
Qed.
End kmap_laws.

(** ** The interface

    [H] is the type of handles (a pointer, possibly NULL), [R] what [get]
    returns and [ft_ret] how it encodes a missing key. *)
Class FlowTable (K V R H : Type) `{KeyOps K} := {
  ft_ret : option V → R;
  ft_create : bool → H;
  ft_get : K → cmd H R;
  ft_set : K → V → cmd H unit;
  ft_del : K → cmd H unit;
  ft_next : cmd H (option (K * V));
  ft_destory : cmd H unit;
  (** the handle is NULL *)
  ft_null : H → bool;
  (** the handle points to a table that holds the map, whose iterator has the
      listed entries still to yield *)
  ft_view : H → kmap K V → list (K * V) → Prop;
  (** no iteration is in progress *)
  ft_rest : H → Prop
}.

Class FlowTableLaws (K V R H : Type) `{FlowTable K V R H} := {
  ft_view_null h m ps : ft_view h m ps → ft_null h = false;
  ft_view_respects h m ps : ft_view h m ps → krespects m;
  ft_view_proper h m m' ps : m ≡ m' → ft_view h m ps → ft_view h m' ps;
  ft_rest_lists h m ps : ft_view h m ps → ft_rest h → lists m ps;
  ft_create_ok : ft_view (ft_create true) kempty [] ∧ ft_rest (ft_create true);
  ft_create_null : ft_null (ft_create false) = true;
  ft_get_null k : ft_get k (ft_create false) = Ok (ft_ret None, ft_create false);
  ft_set_null k v : ft_set k v (ft_create false) = Ok (tt, ft_create false);
  ft_get_ok h m ps k (Q : R → H → Prop) :
    ft_view h m ps → Q (ft_ret (m k)) h → wp (ft_get k) Q h;
  ft_set_ok h m ps k v (Q : unit → H → Prop) :
    ft_view h m ps →
    (∀ h' ps', ft_view h' (kupd k (Some v) m) ps' → (ft_rest h → ft_rest h') → Q tt h') →
    wp (ft_set k v) Q h;
  ft_del_ok h m ps k (Q : unit → H → Prop) :
    ft_view h m ps →
    (∀ h' ps', ft_view h' (kupd k None m) ps' → (ft_rest h → ft_rest h') → Q tt h') →
    wp (ft_del k) Q h;
  ft_next_ok h m ps (Q : option (K * V) → H → Prop) :
    ft_view h m ps →
    match ps with
    | [] => ∀ h' ps', ft_view h' m ps' → ft_rest h' → Q None h'
    | e :: ps => ∀ h', ft_view h' m ps → Q (Some e) h'
    end →
    wp ft_next Q h;
  ft_destory_ok h m ps (Q : unit → H → Prop) :
    ft_view h m ps → (∀ h', Q tt h') → wp ft_destory Q h
}.
