(* ===== verification/Listing.v ===== *)
(** * Listings of a table

    How many entries the listings of a map have, and so how often a loop that
    walks through a table turns. *)
From S2P Require Import Prelude ChainedTable ChainSpec TableSpec.

(** Different keys that all occur in a list are no more than the list has. *)
Lemma keys_length_le {K V} `{KeyLaws K} (es : list (K * V)) (ks : list K) :
  distinct es → (∀ e, e ∈ es → ∃ k, k ∈ ks ∧ key_compare e.1 k = 0) → (length es <= length ks)%nat.
Proof.
  intros [Hn Hd] Hf. set (g := λ e : K * V, default e.1 (head (filter (λ k, key_compare e.1 k = 0) ks))).
  assert (∀ e, e ∈ es → g e ∈ ks ∧ key_compare e.1 (g e) = 0) as Hg.
  { intros e He. destruct (Hf e He) as (k & Hk & E). unfold g.
    destruct (filter (λ k, key_compare e.1 k = 0) ks) as [|x xs] eqn:Ex.
    - assert (k ∈ filter (λ k, key_compare e.1 k = 0) ks) as Hx by (by apply list_elem_of_filter).
      rewrite Ex in Hx. by apply not_elem_of_nil in Hx.
    - assert (x ∈ filter (λ k, key_compare e.1 k = 0) ks) as Hx by (rewrite Ex; set_solver).
      apply list_elem_of_filter in Hx as [??]. done. }
  rewrite <- (length_fmap g). apply submseteq_length, NoDup_submseteq.
  - apply NoDup_fmap_2_strong; [|done]. intros x y Hx Hy E. destruct (Hg x Hx) as [_ Ex], (Hg y Hy) as [_ Ey].
    apply Hd; [done|done|]. rewrite E in Ex. by rewrite (compare_eq_r x.1 y.1 (g y) Ey).
  - intros x (e & -> & He)%list_elem_of_fmap. by apply Hg.
Qed.

(** Every listing of a map has the same length. *)
Lemma lists_length_le {K V} `{KeyLaws K} (mp : kmap K V) es es' :
  lists mp es → lists mp es' → (length es <= length es')%nat.
Proof.
  intros Hl Hl'. rewrite <- (length_fmap fst es'). apply keys_length_le; [by eapply lists_distinct|].
  intros [k v] He. destruct (lists_complete _ _ Hl' k v (lists_sound _ _ Hl k v He)) as (k' & E & Hin).
  exists k'. split; [|done]. apply list_elem_of_fmap. by exists (k', v).
Qed.

(** ** Enough turns of a loop through a table *)
Section fuel.
Context {K V : Type} `{KeyLaws K}.
Implicit Types (mp : kmap K V) (k : K).

Definition fuel_for (fuel : nat) mp : Prop := ∀ es, lists mp es → (length es < fuel)%nat.

Lemma fuel_for_lists mp es : lists mp es → fuel_for (S (length es)) mp.
Proof. intros Hl es' Hl'. pose proof (lists_length_le mp es' es Hl' Hl). lia. Qed.
Lemma fuel_for_mono n n' mp : (n <= n')%nat → fuel_for n mp → fuel_for n' mp.
Proof. intros Hn Hf es Hl. specialize (Hf es Hl). lia. Qed.

(** The entries of the other flows *)
Definition at_key (k : K) (e : K * V) : Prop := key_compare e.1 k = 0.
#[local] Instance at_key_dec k e : Decision (at_key k e).
Proof. unfold at_key. apply _. Defined.
Definition others (k : K) (es : list (K * V)) : list (K * V) := filter (λ e, ¬ at_key k e) es.

Lemma others_elem k es e : e ∈ others k es ↔ e ∈ es ∧ ¬ at_key k e.
Proof. unfold others. rewrite list_elem_of_filter. naive_solver. Qed.

Lemma others_length k es : distinct es → (length es <= S (length (others k es)))%nat.
Proof.
  intros [Hn Hd]. assert (length (filter (at_key k) es) <= 1)%nat as Hone.
  { destruct (filter (at_key k) es) as [|x [|y l]] eqn:E; [simpl; lia..|].
    assert (NoDup (x :: y :: l)) as Hx by (rewrite <- E; by apply NoDup_filter).
    assert (∀ z, z ∈ x :: y :: l → at_key k z ∧ z ∈ es) as Hz
      by (intros z Hz; rewrite <- E in Hz; by apply list_elem_of_filter in Hz).
    destruct (Hz x) as [Ex Hx1]; [set_solver|]. destruct (Hz y) as [Ey Hy1]; [set_solver|].
    assert (x = y) as -> by (apply Hd; [done|done|]; by rewrite (compare_eq_r x.1 y.1 k Ey)).
    apply NoDup_cons in Hx as [Hx _]. set_solver. }
  assert (length (filter (at_key k) es) + length (others k es) = length es)%nat as Hsum; [|lia].
  unfold others. clear. induction es as [|e es IH]; [done|]. rewrite !filter_cons.
  destruct (decide (at_key k e)); [rewrite decide_False by naive_solver|rewrite decide_True by done]; simpl; lia.
Qed.

Lemma others_lists mp k o es :
  lists (kupd k o mp) es →
  (∀ e, e ∈ others k es → mp e.1 = Some e.2) ∧ distinct (others k es) ∧
  (∀ k' v, mp k' = Some v → key_compare k' k ≠ 0 → ∃ k'', key_compare k' k'' = 0 ∧ (k'', v) ∈ others k es).
Proof.
  intros [Hs Hc Hn Hd]. split_and!.
  - intros [k' v'] [Hin Hne]%others_elem. apply Hs in Hin. simpl in *. by rewrite kupd_ne in Hin.
  - split; [by apply NoDup_filter|]. intros e f [He _]%others_elem [Hf _]%others_elem. by apply Hd.
  - intros k' v Hk' Hne. destruct (Hc k' v) as (k'' & E & Hin); [by rewrite kupd_ne|]. exists k''. split; [done|].
    apply others_elem. split; [done|]. unfold at_key. simpl. intros E'. by rewrite (compare_eq_r k' k'' k E') in E.
Qed.

(** One more entry *)
Lemma lists_without mp k o es :
  lists (kupd k o mp) es → krespects mp →
  ∃ es', lists mp es' ∧ (length es <= S (length es'))%nat.
Proof.
  intros Hl Hr. destruct (others_lists mp k o es Hl) as (Hmp & [Hn Hd] & Hc).
  pose proof (others_length k es (lists_distinct _ _ Hl)) as Hlen. destruct (mp k) as [v|] eqn:Ek.
  - exists (others k es ++ [(k, v)]). rewrite length_app. simpl. split; [|lia]. split.
    + intros k' v' [Hin|Hin]%elem_of_app; [by apply (Hmp (k', v'))|].
      by apply list_elem_of_singleton in Hin as [= -> ->].
    + intros k' v' Hk'. destruct (decide (key_compare k' k = 0)) as [E|E].
      * exists k. split; [done|]. rewrite (Hr _ _ E), Ek in Hk'. injection Hk' as ->. set_solver.
      * destruct (Hc k' v' Hk' E) as (k'' & ? & ?). exists k''. set_solver.
    + apply NoDup_app. split_and!; [done| |apply NoDup_singleton].
      intros e [_ Hne]%others_elem ->%list_elem_of_singleton. by apply Hne, compare_refl.
    + intros e f [He|He]%elem_of_app [Hf|Hf]%elem_of_app E; [by apply Hd| | |].
      * apply list_elem_of_singleton in Hf as ->. by apply others_elem in He as [_ []].
      * apply list_elem_of_singleton in He as ->. apply compare_eq_sym in E. by apply others_elem in Hf as [_ []].
      * by apply list_elem_of_singleton in He as ->, Hf as ->.
  - exists (others k es). split; [|lia]. split; [| |done|done].
    + intros k' v' Hin. by apply (Hmp (k', v')).
    + intros k' v' Hk'. apply Hc; [done|]. intros E. rewrite (Hr _ _ E) in Hk'. congruence.
Qed.
Lemma fuel_for_upd n k o mp : krespects mp → fuel_for n mp → fuel_for (S n) (kupd k o mp).
Proof. intros Hr Hf es Hl. destruct (lists_without mp k o es Hl Hr) as (es' & Hl' & Hlen). specialize (Hf es' Hl'). lia. Qed.
End fuel.
