(* ===== verification/ChainView.v ===== *)
(** * The chained table as a map with an iterator

    From the list-level facts of [ChainOps.v], [ChainIter.v] and
    [ChainLife.v] to the abstract view of [TableSpec.v]. *)
From S2P Require Import Prelude CMonad ChainedTable ChainSpec ChainHeap ChainRefine ChainOps.
From S2P Require Import ChainIter ChainLife TableSpec.

Section view.
Context {K V : Type} `{KeyLaws K}.
Implicit Types (k : K) (v : V) (l : list (cell K V)) (t : tstate K V).
Implicit Types (cells : Z → list (cell K V)).

Definition key_map cells t : kmap K V := λ k, lookup_key cells k t.

Lemma key_map_respects t cells : rep t cells → krespects (key_map cells t).
Proof.
  intros R k k' E. unfold key_map, lookup_key, bin_of, l_get.
  rewrite (bin_eq k k' _ E). f_equal. by apply l_find_eq.
Qed.

(** The value of a key in terms of the cells *)
Lemma key_map_Some t cells k v :
  rep t cells →
  key_map cells t k = Some v ↔
  ∃ c, c ∈ entries t cells ∧ key_compare k (ckey c) = 0 ∧ cval c = v.
Proof.
  intros R. unfold key_map, lookup_key, l_get. rewrite fmap_Some.
  pose proof (bin_of_range _ _ k R) as Hb. split.
  - intros (c & Hc & ->). apply l_find_Some in Hc as [Hin Hc]; [|apply R].
    exists c. split; [|done]. apply elem_of_from_bin. eauto.
  - intros (c & Hin & Hc & <-). exists c. split; [|done].
    apply l_find_Some; [apply R|]. split; [|done].
    apply elem_of_from_bin in Hin as (b & Hb' & Hin).
    pose proof (rep_hash _ _ R _ _ Hin) as E. unfold bin_of in E |- *.
    by rewrite (bin_eq _ _ _ Hc), E.
Qed.

Lemma entries_unique t cells c d :
  rep t cells → c ∈ entries t cells → d ∈ entries t cells →
  key_compare (ckey c) (ckey d) = 0 → c = d.
Proof.
  intros R Hc Hd E. apply elem_of_from_bin in Hc as (b1 & _ & Hc).
  apply elem_of_from_bin in Hd as (b2 & _ & Hd).
  assert (b1 = b2) as ->.
  { rewrite <- (rep_hash _ _ R _ _ Hc), <- (rep_hash _ _ R _ _ Hd). by apply bin_eq. }
  eapply sorted_unique; [apply (rep_sorted _ _ R b2)|done..].
Qed.

Lemma sorted_NoDup l : sorted l → NoDup l.
Proof.
  induction l as [|c l IH]; intros HS; [constructor|].
  apply sorted_cons in HS as [HS Hlt]. constructor; [|auto].
  intros Hin. exact (key_lt_irrefl _ (Hlt c Hin)).
Qed.

Lemma from_bin_NoDup t cells n : rep t cells → ∀ i, NoDup (from_bin cells n i).
Proof.
  intros R i. remember (Z.to_nat (n - i)) as m eqn:Em. revert i Em.
  induction m as [|m IH]; intros i Em.
  - rewrite from_bin_end by lia. constructor.
  - rewrite from_bin_step by lia. apply NoDup_app. split_and!.
    + apply sorted_NoDup, R.
    + intros c Hc Hin. apply elem_of_from_bin in Hin as (b & Hb & Hin).
      pose proof (rep_hash _ _ R _ _ Hc). pose proof (rep_hash _ _ R _ _ Hin). lia.
    + apply IH. lia.
Qed.

(** The entries in iteration order list the map. *)
Lemma entries_lists t cells : rep t cells → lists (key_map cells t) (pairs (entries t cells)).
Proof.
  intros R. split.
  - intros k v Hin. apply list_elem_of_fmap in Hin as (c & [= -> ->] & Hc).
    apply key_map_Some; [done|]. exists c. split_and!; [done|apply compare_refl|done].
  - intros k v Hk. apply key_map_Some in Hk as (c & Hc & E & <-); [|done].
    exists (ckey c). split; [done|]. apply list_elem_of_fmap. eauto.
  - apply NoDup_fmap_2_strong; [|by eapply from_bin_NoDup].
    intros c d Hc Hd [= E _]. eapply entries_unique; [done..|]. rewrite E. apply compare_refl.
  - intros e f He Hf E. apply list_elem_of_fmap in He as (c & -> & Hc).
    apply list_elem_of_fmap in Hf as (d & -> & Hd). simpl in E.
    by rewrite (entries_unique t cells c d).
Qed.

Lemma entries_length t cells : rep t cells → (length (entries t cells) <= size (theap t))%nat.
Proof.
  intros R. apply chain_length.
  - apply NoDup_fmap_2_strong; [|by eapply from_bin_NoDup].
    intros c d Hc Hd E. apply elem_of_from_bin in Hc as (b1 & _ & Hc).
    apply elem_of_from_bin in Hd as (b2 & _ & Hd).
    by destruct (rep_addr_inj _ _ _ _ _ _ R Hc Hd E).
  - intros a Ha. apply elem_of_addrs in Ha as (c & Hc & <-).
    apply elem_of_from_bin in Hc as (b & _ & Hc).
    destruct (rep_cell_live _ _ _ _ R Hc) as [r ->]. by eexists.
Qed.

(** How the operations act on the map *)
Lemma key_map_update t t' cells k l' k' :
  size_of t' = size_of t → rep t cells →
  key_map (<[bin_of k t := l']> cells) t' k' =
  if decide (bin_of k' t = bin_of k t) then l_get k' l' else key_map cells t k'.
Proof.
  intros Es R. unfold key_map, lookup_key, bin_of. rewrite Es.
  case_decide as E.
  - rewrite E. by rewrite fn_lookup_insert.
  - by rewrite fn_lookup_insert_ne.
Qed.

Lemma key_map_set t t' cells k v a :
  size_of t' = size_of t → rep t cells →
  key_map (<[bin_of k t := l_set a k v (cells (bin_of k t))]> cells) t'
  ≡ kupd k (Some v) (key_map cells t).
Proof.
  intros Es R k'. rewrite key_map_update by done. rewrite l_get_set by apply R. unfold kupd.
  case_decide as Eb; case_decide as Ek; try done.
  - unfold key_map, lookup_key. by rewrite Eb.
  - exfalso. apply Eb. unfold bin_of. by apply bin_eq.
Qed.

Lemma key_map_del t t' cells k :
  size_of t' = size_of t → rep t cells →
  key_map (<[bin_of k t := l_del k (cells (bin_of k t))]> cells) t'
  ≡ kupd k None (key_map cells t).
Proof.
  intros Es R k'. rewrite key_map_update by done. rewrite l_get_del by apply R. unfold kupd.
  case_decide as Eb; case_decide as Ek; try done.
  - unfold key_map, lookup_key. by rewrite Eb.
  - exfalso. apply Eb. unfold bin_of. by apply bin_eq.
Qed.

(** ** The view of a table *)

(** [t] holds the map [m], the pending entries are [ps]; nothing is held and
    memory is available. *)
Definition tview t (m : kmap K V) (ps : list (K * V)) : Prop :=
  ∃ cells, rep t cells ∧ quiet t ∧ key_map cells t ≡ m ∧ pairs (pending t cells) = ps.

Lemma tview_lists t m ps : tview t m ps → at_start t → lists m ps.
Proof.
  intros (cells & R & _ & Em & <-) Hs. rewrite <- Em, pending_at_start by done.
  by apply entries_lists.
Qed.

Lemma tview_respects t m ps : tview t m ps → krespects m.
Proof.
  intros (cells & R & _ & Em & _) k k' E. rewrite <- (Em k), <- (Em k').
  by eapply key_map_respects.
Qed.

#[export] Instance tview_proper t : Proper ((≡) ==> (=) ==> iff) (tview t).
Proof.
  intros m m' Em ps ? <-. unfold tview. split; intros (cells & ? & ? & E & ?); exists cells;
    (split_and!; [done|done|by rewrite E|done]).
Qed.

Lemma tview_empty t : empty_table t → tview t kempty [] ∧ at_start t.
Proof.
  intros (R & Hs & Hq & _). split; [|done]. exists no_cells.
  split_and!; [done|done|by intros k|]. rewrite pending_at_start by done.
  unfold entries, from_bin. by induction (seqZ 0 (size_of t - 0)).
Qed.

Lemma tview_get (Q : option V → tstate K V → Prop) t m ps k :
  tview t m ps → Q (m k) t → wp (tbl_get k) Q t.
Proof.
  intros (cells & R & [Hh _] & Em & _) HQ. eapply wp_tbl_get; [done|rewrite Hh; set_solver|].
  change (lookup_key cells k t) with (key_map cells t k). by rewrite (Em k).
Qed.

Lemma tview_get_locked (Q : option V → tstate K V → Prop) t m ps k :
  tview t m ps → Q (m k) t → wp (tbl_get_locked k) Q t.
Proof.
  intros (cells & R & [Hh _] & Em & _) HQ.
  eapply wp_tbl_get_locked; [done|rewrite Hh; set_solver|].
  change (lookup_key cells k t) with (key_map cells t k). by rewrite (Em k).
Qed.

Lemma tview_set (Q : unit → tstate K V → Prop) t m ps k v :
  tview t m ps →
  (∀ t' ps', tview t' (kupd k (Some v) m) ps' → (at_start t → at_start t') → Q tt t') →
  wp (tbl_set k v) Q t.
Proof.
  intros (cells & R & [Hh Hm] & Em & _) HQ.
  eapply wp_tbl_set; [done|rewrite Hh; set_solver|done|].
  intros t' (R' & Es & Ec & El & Eh & Eml). eapply HQ.
  - eexists. split_and!; [exact R'|split; congruence| |done].
    rewrite key_map_set by done. by rewrite Em.
  - unfold at_start. by rewrite Ec, El.
Qed.

Lemma tview_del (Q : unit → tstate K V → Prop) t m ps k :
  tview t m ps →
  (∀ t' ps', tview t' (kupd k None m) ps' → (at_start t → at_start t') → Q tt t') →
  wp (tbl_del k) Q t.
Proof.
  intros (cells & R & [Hh Hm] & Em & _) HQ.
  eapply wp_tbl_del; [done|rewrite Hh; set_solver|].
  intros t' (R' & Es & Ec & El & Eh & Eml). eapply HQ.
  - eexists. split_and!; [exact R'|split; congruence| |done].
    rewrite key_map_del by done. by rewrite Em.
  - unfold at_start. rewrite Ec, El. intros [? Hl]. split; [done|]. rewrite Hl.
    unfold del_last. destruct (hit_ok k (after k (cells (bin_of k t)))) eqn:Eh'; [|done].
    apply hit_ok_cons in Eh' as (c & r & -> & _). by rewrite decide_False.
Qed.

Lemma tview_next (Q : option (K * V) → tstate K V → Prop) t m ps :
  tview t m ps →
  match ps with
  | [] => ∀ t' ps', tview t' m ps' → at_start t' → Q None t'
  | e :: ps => ∀ t', tview t' m ps → Q (Some e) t'
  end → wp tbl_next Q t.
Proof.
  intros (cells & R & [Hh Hm] & Em & Ep) HQ.
  eapply wp_tbl_next; [done..|]. intros r t' Hn. unfold next_post in Hn.
  destruct (pending t cells) as [|c rest]; simpl in Ep; subst ps.
  - destruct Hn as [-> ->]. eapply HQ; [|done]. exists cells.
    split_and!; [|done|done|done]. apply rep_with_cursor; [done| |done].
    pose proof (rep_size _ _ R). lia.
  - destruct Hn as (-> & R' & Hp & cur & lv & ->). apply HQ. exists cells.
    split_and!; [done|done|done|]. by rewrite Hp.
Qed.

(** The pending entries have different keys, and the fuel of a loop on the
    iterator covers them. *)
Lemma tview_pending t m ps :
  tview t m ps → distinct ps ∧ (length ps < chain_fuel t)%nat.
Proof.
  intros (cells & R & _ & _ & <-). pose proof (pending_sublist _ _ R) as Hs. split.
  - eapply distinct_sublist; [|eapply lists_distinct, entries_lists; done].
    by apply fmap_sublist.
  - unfold chain_fuel, pairs. rewrite length_fmap. apply sublist_length in Hs.
    pose proof (entries_length _ _ R). unfold theap in *. lia.
Qed.
End view.
