(* ===== verification/Murmur.v ===== *)
(** * MurmurHash3 (public_lib/murmur3.c)

    The 32-bit hash the flow tables use and the helpers of the file, over
    machine words as [Z] in range, for a little-endian machine.  Keys are lists
    of bytes.  The mixers are injective, so two keys of the same number of
    32-bit blocks that differ in one block never have the same hash. *)
From S2P Require Import Prelude.

(** ** Helpers of murmur3.c *)

Definition rotl32 (x r : Z) : Z := Z.lor (u32 (Z.shiftl x r)) (Z.shiftr x (32 - r)).
Definition rotl64 (x r : Z) : Z := Z.lor (u64 (Z.shiftl x r)) (Z.shiftr x (64 - r)).

Definition fmix32 (h : Z) : Z :=
  let h := Z.lxor h (Z.shiftr h 16) in
  let h := u32 (h * 0x85ebca6b) in
  let h := Z.lxor h (Z.shiftr h 13) in
  let h := u32 (h * 0xc2b2ae35) in
  Z.lxor h (Z.shiftr h 16).

Definition fmix64 (k : Z) : Z :=
  let k := Z.lxor k (Z.shiftr k 33) in
  let k := u64 (k * 0xff51afd7ed558ccd) in
  let k := Z.lxor k (Z.shiftr k 33) in
  let k := u64 (k * 0xc4ceb9fe1a85ec53) in
  Z.lxor k (Z.shiftr k 33).

(** A byte of the key, and the little-endian word of [n] bytes at offset [i] *)
Definition byte_at (data : list Z) (i : nat) : Z := nth i data 0.
Fixpoint le_word (n : nat) (data : list Z) (i : nat) : Z :=
  match n with
  | O => 0
  | S n => byte_at data i + 256 * le_word n data (S i)
  end.
(** [getblock(p, i)] on 32-bit and 64-bit blocks *)
Definition getblock32 (data : list Z) (i : nat) : Z := le_word 4 data (4 * i).
Definition getblock64 (data : list Z) (i : nat) : Z := le_word 8 data (8 * i).

(** ** MurmurHash3_x86_32 *)
Module X86_32.
Definition c1 : Z := 0xcc9e2d51.
Definition c2 : Z := 0x1b873593.

(** [k1 *= c1; k1 = ROTL32(k1,15); k1 *= c2;] *)
Definition mix_k1 (k1 : Z) : Z := u32 (rotl32 (u32 (k1 * c1)) 15 * c2).

(** One iteration of the body *)
Definition body (h1 k1 : Z) : Z :=
  u32 (rotl32 (Z.lxor h1 (mix_k1 k1)) 13 * 5 + 0xe6546b64).

(** The [switch (len & 3)], whose cases fall through *)
Definition tail_mix (data : list Z) (off : nat) (rem : Z) (h1 : Z) : Z :=
  let k1 := 0 in
  let k1 := if decide (3 <= rem) then Z.lxor k1 (u32 (Z.shiftl (byte_at data (off + 2)) 16)) else k1 in
  let k1 := if decide (2 <= rem) then Z.lxor k1 (u32 (Z.shiftl (byte_at data (off + 1)) 8)) else k1 in
  if decide (1 <= rem) then
    let k1 := Z.lxor k1 (byte_at data off) in
    Z.lxor h1 (mix_k1 k1)
  else h1.

Definition MurmurHash3_x86_32 (data : list Z) (seed : Z) : Z :=
  let len := Z.of_nat (length data) in
  let nblocks := (length data / 4)%nat in
  let h1 := foldl (λ h1 i, body h1 (getblock32 data i)) seed (seq 0 nblocks) in
  let h1 := tail_mix data (nblocks * 4) (Z.land len 3) h1 in
  let h1 := Z.lxor h1 (u32 len) in
  fmix32 h1.
End X86_32.

(** ** Word arithmetic used by the mixers *)

Lemma rotl_arith w x r :
  0 < r < w → in_u w x →
  Z.lor (wrap w (Z.shiftl x r)) (Z.shiftr x (w - r))
  = x mod 2 ^ (w - r) * 2 ^ r + x / 2 ^ (w - r).
Proof.
  intros Hr Hx. rewrite Z.shiftl_mul_pow2, Z.shiftr_div_pow2 by lia.
  assert (wrap w (x * 2 ^ r) = x mod 2 ^ (w - r) * 2 ^ r) as ->.
  { unfold wrap. replace (2 ^ w) with (2 ^ (w - r) * 2 ^ r)
      by (rewrite <- Z.pow_add_r by lia; f_equal; lia).
    pose proof (Z.pow_pos_nonneg 2 r). pose proof (Z.pow_pos_nonneg 2 (w - r)).
    rewrite Zmult_mod_distr_r. done. }
  assert (Z.land (x mod 2 ^ (w - r) * 2 ^ r) (x / 2 ^ (w - r)) = 0) as Hdisj.
  { apply Z.bits_inj'. intros i Hi. rewrite Z.land_spec, Z.bits_0.
    destruct (decide (i < r)).
    - by rewrite Z.mul_pow2_bits_low.
    - rewrite (testbit_high r (x / _)), andb_false_r; [done| |lia].
      pose proof (Z.pow_pos_nonneg 2 (w - r)). destruct Hx as [? Hx].
      split; [apply Z.div_pos; lia|]. apply Z.div_lt_upper_bound; [lia|].
      rewrite <- Z.pow_add_r by lia. by replace (w - r + r) with w by lia. }
  by rewrite Z.add_nocarry_lxor, Z.lxor_lor.
Qed.

Lemma rotl_inj w x y r :
  0 < r < w → in_u w x → in_u w y →
  Z.lor (wrap w (Z.shiftl x r)) (Z.shiftr x (w - r))
  = Z.lor (wrap w (Z.shiftl y r)) (Z.shiftr y (w - r)) → x = y.
Proof.
  intros Hr Hx Hy. rewrite !rotl_arith by done.
  pose proof (Z.pow_pos_nonneg 2 r) as Pr. pose proof (Z.pow_pos_nonneg 2 (w - r)) as Pw.
  assert (∀ z, in_u w z → 0 <= z / 2 ^ (w - r) < 2 ^ r) as Hhigh.
  { intros z [Hz0 Hz]. split; [apply Z.div_pos; lia|]. apply Z.div_lt_upper_bound; [lia|].
    rewrite <- Z.pow_add_r by lia. by replace (w - r + r) with w by lia. }
  intros E. pose proof (Hhigh x Hx). pose proof (Hhigh y Hy).
  assert (x / 2 ^ (w - r) = y / 2 ^ (w - r)) as Eh.
  { apply (f_equal (λ z, z mod 2 ^ r)) in E.
    rewrite !(Z.add_comm (_ * _)), !Z_mod_plus_full, !Z.mod_small in E by done. done. }
  assert (x mod 2 ^ (w - r) = y mod 2 ^ (w - r)) as El by nia.
  rewrite (Z.div_mod x (2 ^ (w - r))), (Z.div_mod y (2 ^ (w - r))) by lia. congruence.
Qed.

Lemma rotl_in_u w x r :
  0 < r < w → in_u w x →
  in_u w (Z.lor (wrap w (Z.shiftl x r)) (Z.shiftr x (w - r))).
Proof. intros Hr Hx. apply lor_in_u; [lia| |]; word. Qed.

Lemma rotl32_inj x y r :
  0 < r < 32 → in_u 32 x → in_u 32 y → rotl32 x r = rotl32 y r → x = y.
Proof. apply rotl_inj. Qed.
Lemma rotl32_in_u x r : 0 < r < 32 → in_u 32 x → in_u 32 (rotl32 x r).
Proof. apply rotl_in_u. Qed.

(** [x ^= x >> s] loses nothing. *)
Lemma xorshift_inj w s x y :
  0 <= w → 0 < s → in_u w x → in_u w y →
  Z.lxor x (Z.shiftr x s) = Z.lxor y (Z.shiftr y s) → x = y.
Proof.
  intros Hw Hs Hx Hy E.
  assert (∀ n i, 0 <= i → w - i <= Z.of_nat n → Z.testbit x i = Z.testbit y i) as Hall.
  { induction n as [|n IH]; intros i Hi Hn.
    - rewrite !(testbit_high w) by (done || lia). done.
    - apply (f_equal (λ z, Z.testbit z i)) in E.
      rewrite !Z.lxor_spec, !Z.shiftr_spec in E by done.
      rewrite (IH (i + s)) in E by lia.
      by destruct (Z.testbit x i), (Z.testbit y i), (Z.testbit y (i + s)). }
  apply Z.bits_inj'. intros i Hi. apply (Hall (Z.to_nat w)); lia.
Qed.

Lemma xorshift_in_u w s x : 0 <= w → 0 <= s → in_u w x → in_u w (Z.lxor x (Z.shiftr x s)).
Proof. intros. apply lxor_in_u; [done..|word]. Qed.

Lemma wrap_in w x : 0 <= w → in_u w (wrap w x).
Proof. apply wrap_in_u. Qed.

Lemma lxor_cancel_l x y z : Z.lxor z x = Z.lxor z y → x = y.
Proof. rewrite !(Z.lxor_comm z). apply lxor_cancel_r. Qed.

(** ** The mixers are injective *)

Lemma fmix32_injective x y : in_u 32 x → in_u 32 y → fmix32 x = fmix32 y → x = y.
Proof.
  intros Hx Hy E. unfold fmix32 in E. cbv zeta in E.
  apply (xorshift_inj 32) in E; [|lia..|word|word].
  apply (mul_odd_inj 32 _ 0x7ed1b41d) in E; [|lia|done|..]; [|apply xorshift_in_u; [lia..|word]..].
  apply (xorshift_inj 32) in E; [|lia..|word|word].
  apply (mul_odd_inj 32 _ 0xa5cb9243) in E; [|lia|done|..]; [|apply xorshift_in_u; [lia..|done]..].
  by apply (xorshift_inj 32) in E; [|lia..|done|done].
Qed.

Lemma fmix64_injective x y : in_u 64 x → in_u 64 y → fmix64 x = fmix64 y → x = y.
Proof.
  intros Hx Hy E. unfold fmix64 in E. cbv zeta in E.
  apply (xorshift_inj 64) in E; [|lia..|word|word].
  apply (mul_odd_inj 64 _ 0x9cb4b2f8129337db) in E; [|lia|done|..]; [|apply xorshift_in_u; [lia..|word]..].
  apply (xorshift_inj 64) in E; [|lia..|word|word].
  apply (mul_odd_inj 64 _ 0x4f74430c22a54005) in E; [|lia|done|..]; [|apply xorshift_in_u; [lia..|done]..].
  by apply (xorshift_inj 64) in E; [|lia..|done|done].
Qed.

Lemma fmix32_in_u x : in_u 32 x → in_u 32 (fmix32 x).
Proof. intros Hx. unfold fmix32. cbv zeta. apply xorshift_in_u; [lia..|word]. Qed.

(** ** MurmurHash3_x86_32 block by block *)
Section x86_32.
Import X86_32.

Lemma mix_k1_in_u k : in_u 32 (mix_k1 k).
Proof. apply wrap_in. lia. Qed.

Lemma mix_k1_inj k k' : in_u 32 k → in_u 32 k' → mix_k1 k = mix_k1 k' → k = k'.
Proof.
  intros Hk Hk' E. unfold mix_k1 in E.
  apply (mul_odd_inj 32 _ 0x56ed309b) in E; [|lia|done|apply rotl32_in_u; [lia|word]..].
  apply rotl32_inj in E; [|lia|word|word].
  by apply (mul_odd_inj 32 _ 0xdee13bb1) in E; [|lia|done|..].
Qed.

Lemma body_in_u h k : in_u 32 (body h k).
Proof. apply wrap_in. lia. Qed.

(** The step is injective in the state and in the block. *)
Lemma body_inner_inj x y :
  in_u 32 x → in_u 32 y →
  u32 (rotl32 x 13 * 5 + 0xe6546b64) = u32 (rotl32 y 13 * 5 + 0xe6546b64) → x = y.
Proof.
  intros Hx Hy E.
  assert (∀ z, u32 (z * 5 + 0xe6546b64) = u32 (u32 (z * 5) + 0xe6546b64)) as Hw.
  { intros z. unfold wrap. by rewrite Zplus_mod_idemp_l. }
  rewrite !Hw in E. apply add_const_inj in E; [|lia|word|word].
  apply (mul_odd_inj 32 _ 0xcccccccd) in E; [|lia|done|apply rotl32_in_u; [lia|done]..].
  by apply rotl32_inj in E; [|lia|..].
Qed.

Lemma body_inj_state h h' k : in_u 32 h → in_u 32 h' → body h k = body h' k → h = h'.
Proof.
  intros Hh Hh' E. pose proof (mix_k1_in_u k).
  apply body_inner_inj in E; [|apply lxor_in_u; [lia|done..]..].
  by apply lxor_cancel_r in E.
Qed.

Lemma body_inj_block h k k' : in_u 32 h → in_u 32 k → in_u 32 k' →
  body h k = body h k' → k = k'.
Proof.
  intros Hh Hk Hk' E. pose proof (mix_k1_in_u k). pose proof (mix_k1_in_u k').
  apply body_inner_inj in E; [|apply lxor_in_u; [lia|done..]..].
  by apply lxor_cancel_l, mix_k1_inj in E.
Qed.

Lemma bodies_in_u h ks : in_u 32 h → in_u 32 (foldl body h ks).
Proof.
  revert h. induction ks as [|k ks IH]; intros h Hh; [done|].
  apply IH, body_in_u.
Qed.

Lemma bodies_inj h h' ks :
  in_u 32 h → in_u 32 h' → foldl body h ks = foldl body h' ks → h = h'.
Proof.
  revert h h'. induction ks as [|k ks IH]; intros h h' Hh Hh' E; [done|]. simpl in E.
  apply IH in E; [|apply body_in_u..]. by apply body_inj_state in E.
Qed.

(** A key as bytes of little-endian 32-bit blocks *)
Definition bytes4 (k : Z) : list Z :=
  [k mod 256; k / 256 mod 256; k / 65536 mod 256; k / 16777216 mod 256].
Definition block_bytes (ks : list Z) : list Z := ks ≫= bytes4.

Lemma length_block_bytes ks : length (block_bytes ks) = (4 * length ks)%nat.
Proof.
  induction ks as [|k ks IH]; [done|]. unfold block_bytes in *.
  rewrite bind_cons, length_app, IH. simpl. lia.
Qed.

Lemma block_bytes_app ks ks' : block_bytes (ks ++ ks') = block_bytes ks ++ block_bytes ks'.
Proof. apply bind_app. Qed.

Lemma le_word_bytes4 k rest : in_u 32 k → le_word 4 (bytes4 k ++ rest) 0 = k.
Proof.
  intros [H0 H1]. cbn [le_word byte_at bytes4 app nth].
  pose proof (Z.div_mod k 256 ltac:(lia)).
  pose proof (Z.div_mod (k / 256) 256 ltac:(lia)).
  pose proof (Z.div_mod (k / 65536) 256 ltac:(lia)).
  assert (k / 256 / 256 = k / 65536) by (rewrite Z.div_div; [done|lia..]).
  assert (k / 65536 / 256 = k / 16777216) by (rewrite Z.div_div; [done|lia..]).
  rewrite (Z.mod_small (k / 16777216)); [lia|].
  split; [apply Z.div_pos; lia|apply Z.div_lt_upper_bound; lia].
Qed.

Lemma le_word_skip n xs ys i : le_word n (xs ++ ys) (length xs + i) = le_word n ys i.
Proof.
  revert i. induction n as [|n IH]; intros i; simpl; [done|].
  unfold byte_at. rewrite app_nth2_plus. f_equal. f_equal.
  replace (S (length xs + i)) with (length xs + S i)%nat by lia. apply IH.
Qed.

Lemma getblock32_blocks ks i k :
  Forall (in_u 32) ks → ks !! i = Some k → getblock32 (block_bytes ks) i = k.
Proof.
  intros HF Hi. rewrite <- (take_drop_middle ks i k Hi).
  assert (in_u 32 k) as Hk by (by eapply Forall_lookup_1).
  assert (length (block_bytes (take i ks)) = (4 * i)%nat) as Hl.
  { rewrite length_block_bytes, length_take. apply lookup_lt_Some in Hi. lia. }
  unfold getblock32. rewrite block_bytes_app, <- Hl.
  rewrite <- (Nat.add_0_r (length (block_bytes (take i ks)))), le_word_skip.
  unfold block_bytes at 1. rewrite bind_cons. by apply le_word_bytes4.
Qed.

(** On a key of whole blocks the hash folds [body] over the blocks. *)
Lemma murmur_blocks ks seed :
  Forall (in_u 32) ks →
  MurmurHash3_x86_32 (block_bytes ks) seed
  = fmix32 (Z.lxor (foldl body seed ks) (u32 (4 * Z.of_nat (length ks)))).
Proof.
  intros HF. unfold MurmurHash3_x86_32. rewrite length_block_bytes.
  replace (4 * length ks / 4)%nat with (length ks)
    by (rewrite Nat.mul_comm, Nat.div_mul; lia).
  assert (Z.land (Z.of_nat (4 * length ks)) 3 = 0) as ->.
  { change 3 with (Z.ones 2). rewrite Z.land_ones by lia.
    rewrite Nat2Z.inj_mul, Z.mul_comm. apply Z.mod_mul. lia. }
  unfold tail_mix. cbn [decide decide_rel]. cbv zeta. rewrite !decide_False by lia.
  replace (foldl (λ h1 i, body h1 (getblock32 (block_bytes ks) i)) seed (seq 0 (length ks)))
    with (foldl body seed ks).
  { do 3 f_equal. lia. }
  assert (∀ l off h, (∀ j k, l !! j = Some k → getblock32 (block_bytes ks) (off + j) = k) →
    foldl body h l = foldl (λ h1 i, body h1 (getblock32 (block_bytes ks) i)) h (seq off (length l)))
    as Hgen.
  { induction l as [|k l IH]; intros off h Hl; [done|]. simpl.
    rewrite <- (Hl 0%nat k) at 1 by done. rewrite Nat.add_0_r. apply IH. intros j k' Hj.
    rewrite <- (Hl (S j) k') by done. f_equal. lia. }
  apply Hgen. intros j k Hj. by apply getblock32_blocks.
Qed.

(** Changing one block of a key changes its hash. *)
Lemma murmur_one_block seed ps k k' ss :
  in_u 32 seed → Forall (in_u 32) (ps ++ ss) → in_u 32 k → in_u 32 k' →
  MurmurHash3_x86_32 (block_bytes (ps ++ k :: ss)) seed
  = MurmurHash3_x86_32 (block_bytes (ps ++ k' :: ss)) seed → k = k'.
Proof.
  intros Hs HF Hk Hk' E. apply Forall_app in HF as [HF1 HF2].
  rewrite !murmur_blocks in E by (apply Forall_app; split; [done|by constructor]).
  rewrite !foldl_app, !length_app in E. simpl in E.
  apply fmix32_injective in E.
  - apply lxor_cancel_r, bodies_inj, body_inj_block in E; try done;
      [by apply bodies_in_u|apply body_in_u..].
  - apply lxor_in_u; [lia|apply bodies_in_u, body_in_u|word].
  - apply lxor_in_u; [lia|apply bodies_in_u, body_in_u|word].
Qed.

Lemma murmur_blocks_in_u data seed :
  in_u 32 seed → (length data mod 4 = 0)%nat → in_u 32 (MurmurHash3_x86_32 data seed).
Proof.
  intros Hs Hl. unfold MurmurHash3_x86_32.
  assert (Z.land (Z.of_nat (length data)) 3 = 0) as ->.
  { change 3 with (Z.ones 2). rewrite Z.land_ones by lia. change (2 ^ 2) with (Z.of_nat 4).
    by rewrite <- Nat2Z.inj_mod, Hl. }
  unfold tail_mix. rewrite decide_False by lia. apply fmix32_in_u, lxor_in_u; [lia| |word].
  assert (∀ l h, in_u 32 h → in_u 32 (foldl (λ h1 i, body h1 (getblock32 data i)) h l)) as Hgen.
  { induction l as [|i l IH]; intros h Hh; [done|]. apply IH, body_in_u. }
  by apply Hgen.
Qed.
End x86_32.
