(* ===== verification/Murmur128.v ===== *)
(** * The 128-bit variants of MurmurHash3 (public_lib/murmur3.c)

    [MurmurHash3_x86_128] and [MurmurHash3_x64_128]: no other file of the
    sources calls them.  A step of their bodies is injective in the state and
    in the block; for the 64-bit variant so is the finalization, and two keys of
    whole blocks that differ in one block have different hashes. *)
From stdpp Require Import strings.
From S2P Require Import Prelude Murmur.

(** [case first+n: k ^= tail[first+n-1] << 8*(n-1); ... case first+1: k ^=
    tail[first]], of which the cases up to [len & 15] are executed *)
Definition tail_word (w : Z) (data : list Z) (off : nat) (rem : Z) (first n : nat) : Z :=
  foldl (λ k (j : nat),
           if decide (Z.of_nat (first + j) < rem)
           then Z.lxor k (wrap w (Z.shiftl (byte_at data (off + first + j)) (8 * Z.of_nat j))) else k)
    0 (reverse (seq 0 n)).

(** ** MurmurHash3_x86_128 *)
Module X86_128.
Definition c1 : Z := 0x239b961b.
Definition c2 : Z := 0xab0e9789.
Definition c3 : Z := 0x38b34ae5.
Definition c4 : Z := 0xa1e38b93.
Record state := State { h1 : Z; h2 : Z; h3 : Z; h4 : Z }.

(** [k *= c; k = ROTL32(k,r); k *= c';] *)
Definition mix (c r c' k : Z) : Z := u32 (rotl32 (u32 (k * c)) r * c').
Definition mix_k1 : Z → Z := mix c1 15 c2.
Definition mix_k2 : Z → Z := mix c2 16 c3.
Definition mix_k3 : Z → Z := mix c3 17 c4.
Definition mix_k4 : Z → Z := mix c4 18 c1.

(** [h = ROTL32(h,r); h += h'; h = h*5+n;] *)
Definition turn (h r h' n : Z) : Z := u32 (u32 (rotl32 h r + h') * 5 + n).

(** One iteration of the body *)
Definition body (s : state) (k1 k2 k3 k4 : Z) : state :=
  let h1' := turn (Z.lxor (h1 s) (mix_k1 k1)) 19 (h2 s) 0x561ccd1b in
  let h2' := turn (Z.lxor (h2 s) (mix_k2 k2)) 17 (h3 s) 0x0bcaa747 in
  let h3' := turn (Z.lxor (h3 s) (mix_k3 k3)) 15 (h4 s) 0x96cd1c35 in
  let h4' := turn (Z.lxor (h4 s) (mix_k4 k4)) 13 h1' 0x32ac3b17 in
  State h1' h2' h3' h4'.
Definition body_at (data : list Z) (s : state) (i : nat) : state :=
  body s (getblock32 data (i * 4)) (getblock32 data (i * 4 + 1)) (getblock32 data (i * 4 + 2))
    (getblock32 data (i * 4 + 3)).

(** The [switch (len & 15)], whose cases fall through *)
Definition tail_mix (data : list Z) (off : nat) (rem : Z) (s : state) : state :=
  let k i := tail_word 32 data off rem (4 * i) 4 in
  let k4 := tail_word 32 data off rem 12 3 in
  State (if decide (1 <= rem) then Z.lxor (h1 s) (mix_k1 (k 0%nat)) else h1 s)
    (if decide (5 <= rem) then Z.lxor (h2 s) (mix_k2 (k 1%nat)) else h2 s)
    (if decide (9 <= rem) then Z.lxor (h3 s) (mix_k3 (k 2%nat)) else h3 s)
    (if decide (13 <= rem) then Z.lxor (h4 s) (mix_k4 k4) else h4 s).

(** [h1 += h2; h1 += h3; h1 += h4; h2 += h1; h3 += h1; h4 += h1;] *)
Definition add_all (s : state) : state :=
  let h1' := u32 (u32 (u32 (h1 s + h2 s) + h3 s) + h4 s) in
  State h1' (u32 (h2 s + h1')) (u32 (h3 s + h1')) (u32 (h4 s + h1')).
Definition finalize (len : Z) (s : state) : state :=
  let x h := Z.lxor h (u32 len) in
  let s := add_all (State (x (h1 s)) (x (h2 s)) (x (h3 s)) (x (h4 s))) in
  add_all (State (fmix32 (h1 s)) (fmix32 (h2 s)) (fmix32 (h3 s)) (fmix32 (h4 s))).

(** The four words written to [out] *)
Definition MurmurHash3_x86_128 (data : list Z) (seed : Z) : state :=
  let len := Z.of_nat (length data) in
  let nblocks := (length data / 16)%nat in
  let s := foldl (body_at data) (State seed seed seed seed) (seq 0 nblocks) in
  finalize len (tail_mix data (nblocks * 16) (Z.land len 15) s).
End X86_128.

(** ** MurmurHash3_x64_128 *)
Module X64_128.
Definition c1 : Z := 0x87c37b91114253d5.
Definition c2 : Z := 0x4cf5ad432745937f.
Record state := State { h1 : Z; h2 : Z }.

(** [k *= c; k = ROTL64(k,r); k *= c';] *)
Definition mix (c r c' k : Z) : Z := u64 (rotl64 (u64 (k * c)) r * c').
Definition mix_k1 : Z → Z := mix c1 31 c2.
Definition mix_k2 : Z → Z := mix c2 33 c1.

(** [h = ROTL64(h,r); h += h'; h = h*5+n;] *)
Definition turn (h r h' n : Z) : Z := u64 (u64 (rotl64 h r + h') * 5 + n).

(** One iteration of the body *)
Definition body (s : state) (k1 k2 : Z) : state :=
  let h1' := turn (Z.lxor (h1 s) (mix_k1 k1)) 27 (h2 s) 0x52dce729 in
  let h2' := turn (Z.lxor (h2 s) (mix_k2 k2)) 31 h1' 0x38495ab5 in
  State h1' h2'.
Definition body_at (data : list Z) (s : state) (i : nat) : state :=
  body s (getblock64 data (i * 2)) (getblock64 data (i * 2 + 1)).

(** The [switch (len & 15)], whose cases fall through *)
Definition tail_mix (data : list Z) (off : nat) (rem : Z) (s : state) : state :=
  State (if decide (1 <= rem) then Z.lxor (h1 s) (mix_k1 (tail_word 64 data off rem 0 8)) else h1 s)
    (if decide (9 <= rem) then Z.lxor (h2 s) (mix_k2 (tail_word 64 data off rem 8 7)) else h2 s).

(** [h1 += h2; h2 += h1;] *)
Definition add_both (s : state) : state :=
  let h1' := u64 (h1 s + h2 s) in State h1' (u64 (h2 s + h1')).
Definition finalize (len : Z) (s : state) : state :=
  let s := add_both (State (Z.lxor (h1 s) (u64 len)) (Z.lxor (h2 s) (u64 len))) in
  add_both (State (fmix64 (h1 s)) (fmix64 (h2 s))).

(** The two words written to [out] *)
Definition MurmurHash3_x64_128 (data : list Z) (seed : Z) : state :=
  let len := Z.of_nat (length data) in
  let nblocks := (length data / 16)%nat in
  let s := foldl (body_at data) (State seed seed) (seq 0 nblocks) in
  finalize len (tail_mix data (nblocks * 16) (Z.land len 15) s).
End X64_128.

(** ** Known hashes *)
Definition bytes_of (s : string) : list Z := (λ c, Z.of_N (Ascii.N_of_ascii c)) <$> String.list_ascii_of_string s.
Definition fox : list Z := bytes_of "The quick brown fox jumps over the lazy dog".
Example x86_128_fox :
  X86_128.MurmurHash3_x86_128 fox 0 = X86_128.State 0x2f1583c3 0xecee2c67 0x5d7bf66c 0xe5e91d2c.
Proof. by vm_compute. Qed.
Example x64_128_fox :
  X64_128.MurmurHash3_x64_128 fox 0 = X64_128.State 0xe34bbc7bbc071b6c 0x7a433ca9c49a9347.
Proof. by vm_compute. Qed.
Example x64_128_hello :
  X64_128.MurmurHash3_x64_128 (bytes_of "hello") 0 = X64_128.State 0xcbd8a7b341bd9b02 0x5b1e906a48ae1d19.
Proof. by vm_compute. Qed.

(** ** A step loses nothing *)
Section word.
Context (w : Z) (Hw : 0 < w).
Implicit Types (x y h : Z).
Local Definition rotl (x r : Z) : Z := Z.lor (wrap w (Z.shiftl x r)) (Z.shiftr x (w - r)).
Local Definition mixw (c r c' k : Z) : Z := wrap w (rotl (wrap w (k * c)) r * c').
Local Definition turnw (h r h' n : Z) : Z := wrap w (wrap w (rotl h r + h') * 5 + n).

Lemma mixw_inj c d c' d' r x y :
  0 < r < w → wrap w (c * d) = 1 → wrap w (c' * d') = 1 → in_u w x → in_u w y →
  mixw c r c' x = mixw c r c' y → x = y.
Proof.
  intros Hr Hc Hc' Hx Hy E. unfold mixw in E.
  apply (mul_odd_inj w _ d') in E; [|lia|done|apply rotl_in_u; [lia|apply wrap_in; lia]..].
  apply rotl_inj in E; [|lia|apply wrap_in; lia..].
  by apply (mul_odd_inj w _ d) in E; [|lia|done|..].
Qed.

Lemma turnw_inj d r h' n x y :
  0 < r < w → wrap w (5 * d) = 1 → in_u w x → in_u w y →
  turnw x r h' n = turnw y r h' n → x = y.
Proof.
  intros Hr Hd Hx Hy E. unfold turnw in E.
  assert (∀ z, wrap w (z * 5 + n) = wrap w (wrap w (z * 5) + n)) as Hn.
  { intros z. unfold wrap. by rewrite Zplus_mod_idemp_l. }
  rewrite !Hn in E. apply add_const_inj in E; [|lia|apply wrap_in; lia..].
  apply (mul_odd_inj w _ d) in E; [|lia|done|apply wrap_in; lia..].
  apply add_const_inj in E; [|lia|apply rotl_in_u; [lia|done]..].
  by apply rotl_inj in E; [|lia|..].
Qed.

Lemma mixw_in_u c r c' k : in_u w (mixw c r c' k).
Proof. apply wrap_in. lia. Qed.
Lemma turnw_in_u h r h' n : in_u w (turnw h r h' n).
Proof. apply wrap_in. lia. Qed.
End word.

Section x64_128.
Import X64_128.

Definition state_ok (s : state) : Prop := in_u 64 (h1 s) ∧ in_u 64 (h2 s).
Lemma x64_mix_k1_inj x y : in_u 64 x → in_u 64 y → mix_k1 x = mix_k1 y → x = y.
Proof. by apply (mixw_inj 64 ltac:(lia) c1 0xa98409e882ce4d7d c2 0xa81e14edd9de2c7f 31). Qed.
Lemma x64_mix_k2_inj x y : in_u 64 x → in_u 64 y → mix_k2 x = mix_k2 y → x = y.
Proof. by apply (mixw_inj 64 ltac:(lia) c2 0xa81e14edd9de2c7f c1 0xa98409e882ce4d7d 33). Qed.
Lemma x64_turn_inj r h' n x y :
  0 < r < 64 → in_u 64 x → in_u 64 y → turn x r h' n = turn y r h' n → x = y.
Proof. intros Hr. by apply (turnw_inj 64 ltac:(lia) 0xcccccccccccccccd). Qed.
Lemma x64_lxor_mix_in_u h r c c' k : in_u 64 h → in_u 64 (Z.lxor h (mix c r c' k)).
Proof. intros Hh. apply lxor_in_u; [lia|done|apply wrap_in; lia]. Qed.

Lemma x64_body_ok s k1 k2 : state_ok (body s k1 k2).
Proof. split; apply wrap_in; lia. Qed.

Lemma x64_body_inj_block s k1 k2 k1' k2' :
  state_ok s → in_u 64 k1 → in_u 64 k2 → in_u 64 k1' → in_u 64 k2' →
  body s k1 k2 = body s k1' k2' → k1 = k1' ∧ k2 = k2'.
Proof.
  intros [Hs1 Hs2] ???? E. unfold body in E. injection E as E1 E2. rewrite E1 in E2.
  apply x64_turn_inj in E1, E2; try lia; try by apply x64_lxor_mix_in_u.
  by apply lxor_cancel_l, x64_mix_k1_inj in E1; [apply lxor_cancel_l, x64_mix_k2_inj in E2|..].
Qed.

Lemma x64_body_inj_state s s' k1 k2 :
  state_ok s → state_ok s' → body s k1 k2 = body s' k1 k2 → s = s'.
Proof.
  intros [Hs1 Hs2] [Hs1' Hs2'] E. unfold body in E. injection E as E1 E2. rewrite E1 in E2.
  apply x64_turn_inj in E2; [|lia|by apply x64_lxor_mix_in_u..]. apply lxor_cancel_r in E2.
  rewrite E2 in E1. apply x64_turn_inj in E1; [|lia|by apply x64_lxor_mix_in_u..].
  apply lxor_cancel_r in E1. destruct s, s'. simpl in *. by subst.
Qed.

Lemma x64_add_both_inj s s' : state_ok s → state_ok s' → add_both s = add_both s' → s = s'.
Proof.
  intros [Hs1 Hs2] [Hs1' Hs2'] E. unfold add_both in E. injection E as E1 E2. rewrite E1 in E2.
  apply add_const_inj in E2; [|lia|done..]. rewrite E2 in E1.
  apply add_const_inj in E1; [|lia|done..]. destruct s, s'. simpl in *. by subst.
Qed.

Lemma fmix64_word x : in_u 64 x → in_u 64 (fmix64 x).
Proof. intros Hx. unfold fmix64. cbv zeta. apply xorshift_in_u; [lia..|word]. Qed.

Lemma x64_finalize_inj len s s' : state_ok s → state_ok s' → finalize len s = finalize len s' → s = s'.
Proof.
  intros [Hs1 Hs2] [Hs1' Hs2'] E. unfold finalize in E.
  assert (∀ x, in_u 64 x → in_u 64 (Z.lxor x (u64 len))) as Hx.
  { intros x ?. apply lxor_in_u; [lia|done|apply wrap_in; lia]. }
  assert (∀ t, state_ok (add_both t)) as Hadd by (intros t; split; apply wrap_in; lia).
  apply x64_add_both_inj in E; [|split; apply fmix64_word, Hadd..].
  injection E as E1 E2. apply fmix64_injective in E1, E2; try (apply wrap_in; lia).
  assert (∀ t t', add_both t = add_both t' ↔ h1 (add_both t) = h1 (add_both t') ∧ h2 (add_both t) = h2 (add_both t')) as Heq.
  { intros t t'. split; [by intros ->|]. intros [Ea Eb].
    destruct (add_both t), (add_both t'). simpl in *. by subst. }
  assert (State (Z.lxor (h1 s) (u64 len)) (Z.lxor (h2 s) (u64 len)) =
          State (Z.lxor (h1 s') (u64 len)) (Z.lxor (h2 s') (u64 len))) as E.
  { apply x64_add_both_inj; [split; by apply Hx..|]. by apply Heq. }
  injection E as Ea Eb. apply lxor_cancel_r in Ea, Eb. destruct s, s'. simpl in *. by subst.
Qed.

(** Two runs over the same number of blocks that differ in one block *)
Definition run (s : state) (ks : list (Z * Z)) : state := foldl (λ s k, body s k.1 k.2) s ks.
Lemma x64_run_ok s ks : state_ok s → state_ok (run s ks).
Proof.
  revert s. induction ks as [|k ks IH]; intros s Hs; [done|]. apply IH, x64_body_ok.
Qed.
Lemma x64_run_inj s s' ks : state_ok s → state_ok s' → run s ks = run s' ks → s = s'.
Proof.
  revert s s'. induction ks as [|k ks IH]; intros s s' Hs Hs' E; [done|].
  apply IH in E; [|apply x64_body_ok..]. by apply x64_body_inj_state in E.
Qed.
Lemma x64_one_block_differs seed len ps k k' ss :
  in_u 64 seed → in_u 64 k.1 → in_u 64 k.2 → in_u 64 k'.1 → in_u 64 k'.2 →
  finalize len (run (State seed seed) (ps ++ k :: ss)) = finalize len (run (State seed seed) (ps ++ k' :: ss)) →
  k = k'.
Proof.
  intros Hseed ???? E. assert (state_ok (State seed seed)) as Hs by done.
  apply x64_finalize_inj in E; [|by apply x64_run_ok..].
  unfold run in E. rewrite !foldl_app in E. simpl in E.
  apply x64_run_inj in E; [|apply x64_body_ok..].
  apply x64_body_inj_block in E as [E1 E2]; try done; [|by apply (x64_run_ok _ ps)].
  destruct k, k'. simpl in *. by subst.
Qed.
End x64_128.

Section x86_128.
Import X86_128.

Definition state32_ok (s : state) : Prop := in_u 32 (h1 s) ∧ in_u 32 (h2 s) ∧ in_u 32 (h3 s) ∧ in_u 32 (h4 s).
Lemma x86_mix_inj c d c' d' r x y :
  0 < r < 32 → u32 (c * d) = 1 → u32 (c' * d') = 1 → in_u 32 x → in_u 32 y →
  mix c r c' x = mix c r c' y → x = y.
Proof. by apply mixw_inj. Qed.
Lemma x86_turn_inj r h' n x y :
  0 < r < 32 → in_u 32 x → in_u 32 y → turn x r h' n = turn y r h' n → x = y.
Proof. intros Hr. by apply (turnw_inj 32 ltac:(lia) 0xcccccccd). Qed.
Lemma x86_lxor_mix_in_u h r c c' k : in_u 32 h → in_u 32 (Z.lxor h (mix c r c' k)).
Proof. intros Hh. apply lxor_in_u; [lia|done|apply wrap_in; lia]. Qed.

Lemma x86_body_inj_block s k1 k2 k3 k4 k1' k2' k3' k4' :
  state32_ok s → Forall (in_u 32) [k1; k2; k3; k4; k1'; k2'; k3'; k4'] →
  body s k1 k2 k3 k4 = body s k1' k2' k3' k4' → k1 = k1' ∧ k2 = k2' ∧ k3 = k3' ∧ k4 = k4'.
Proof.
  intros (H1 & H2 & H3 & H4) Hk E. unfold body in E. injection E as E1 E2 E3 E4. rewrite E1 in E4.
  repeat (apply Forall_cons in Hk as [? Hk]).
  apply x86_turn_inj in E1, E2, E3, E4; try lia; try by apply x86_lxor_mix_in_u.
  apply lxor_cancel_l in E1, E2, E3, E4.
  split_and!;
    [apply (x86_mix_inj c1 0x89c95413 c2 0xdf130eb9 15)|apply (x86_mix_inj c2 0xdf130eb9 c3 0x747862ed 16)
    |apply (x86_mix_inj c3 0x747862ed c4 0x58d64a9b 17)|apply (x86_mix_inj c4 0x58d64a9b c1 0x89c95413 18)];
    done.
Qed.

Lemma x86_body_inj_state s s' k1 k2 k3 k4 :
  state32_ok s → state32_ok s' → body s k1 k2 k3 k4 = body s' k1 k2 k3 k4 → s = s'.
Proof.
  intros (H1 & H2 & H3 & H4) (H1' & H2' & H3' & H4') E. unfold body in E. injection E as E1 E2 E3 E4.
  rewrite E1 in E4. apply x86_turn_inj in E4; [|lia|by apply x86_lxor_mix_in_u..]. apply lxor_cancel_r in E4.
  rewrite E4 in E3. apply x86_turn_inj in E3; [|lia|by apply x86_lxor_mix_in_u..]. apply lxor_cancel_r in E3.
  rewrite E3 in E2. apply x86_turn_inj in E2; [|lia|by apply x86_lxor_mix_in_u..]. apply lxor_cancel_r in E2.
  rewrite E2 in E1. apply x86_turn_inj in E1; [|lia|by apply x86_lxor_mix_in_u..]. apply lxor_cancel_r in E1.
  destruct s, s'. simpl in *. by subst.
Qed.
End x86_128.
