(* ===== verification/Flow.v ===== *)
(** * Packets, flows and their comparison and hash (public_lib/flow.c, packet.h)

    [flow_s] is the 5-tuple flow the packet lists are keyed by; [flow_src_t] is
    the flow the measurement tables are keyed by, which flow.h defines in two
    ways, by the macros FLOW_SRC (source address) and FLOW_SRC_DST (source and
    destination address).  Both builds are modelled, in the Modules [FlowSrc]
    and [FlowSrcDst], and both are instances of the key interface. *)
From S2P Require Import Prelude CMonad ChainedTable Murmur.

(** [packet_t], with its integers in the range of their fields *)
Record packet_t := Packet {
  p_srcip : Z; p_dstip : Z; p_src_port : Z; p_dst_port : Z; p_protocol : Z;
  p_seqid : Z; p_len : Z; p_sampled : bool; p_selected_level : Z
}.

(** [flow_s] *)
Record flow_s := Flow {
  f_srcip : Z; f_dstip : Z; f_src_port : Z; f_dst_port : Z; f_protocol : Z
}.
#[export] Instance flow_s_eq_dec : EqDecision flow_s.
Proof. solve_decision. Defined.

(** Three-way comparison of one field; [0] goes on to the next field *)
Definition compare_field (a b : Z) (next : Z) : Z :=
  if decide (a ≠ b) then if decide (a > b) then 1 else -1 else next.

(** [flow_compare] *)
Definition flow_compare (flow1 flow2 : flow_s) : Z :=
  compare_field (f_srcip flow1) (f_srcip flow2)
    (compare_field (f_dstip flow1) (f_dstip flow2)
       (compare_field (f_src_port flow1) (f_src_port flow2)
          (compare_field (f_dst_port flow1) (f_dst_port flow2) 0))).

(** The bin of a 5-tuple flow: the same body in [ht_vi_hash], [ht_vf_hash],
    [ht_vl_hash] and [ht_kf_hash] *)
Definition flow_hash (key : flow_s) (size : Z) : Z :=
  let hashval := f_srcip key in
  let hashval := Z.lxor (Z.lxor (Z.lor (u64 (Z.shiftl hashval 32)) (f_dstip key))
                           (f_src_port key)) (f_dst_port key) in
  hashval mod size.

(** [deep_copy_flow]: NULL is not tested, so the copy faults without memory *)
Definition deep_copy_flow (input : flow_s) : cmd (arena flow_s) (option loc) :=
  output ← malloc input;
  update output (λ _, input);;
  mret output.

(** The reduction of a hash to a bin without the [%] operator *)
Definition hash_to_bin (hash map_size : Z) : Z :=
  u32 (hash - u32 (map_size * (hash / map_size))).

(** ** [flow_src_t] in the FLOW_SRC build *)
Module FlowSrc.
Record flow_src_t := FlowSrcT { srcip : Z }.
#[export] Instance flow_src_eq_dec : EqDecision flow_src_t.
Proof. solve_decision. Defined.

Definition flow_src_compare (flow1 flow2 : flow_src_t) : Z :=
  if decide (srcip flow1 = srcip flow2) then 0
  else if decide (srcip flow1 > srcip flow2) then 1
  else -1.

Definition flow_src_hash_bin (p_flow_src : flow_src_t) (map_size : Z) : Z :=
  let hash := X86_32.MurmurHash3_x86_32 (block_bytes [srcip p_flow_src]) 42 in
  hash_to_bin hash map_size.
End FlowSrc.

(** ** [flow_src_t] in the FLOW_SRC_DST build, the one flow.h configures *)
Module FlowSrcDst.
Record flow_src_t := FlowSrcT { srcip : Z; dstip : Z }.
#[export] Instance flow_src_eq_dec : EqDecision flow_src_t.
Proof. solve_decision. Defined.

Definition flow_src_compare (flow1 flow2 : flow_src_t) : Z :=
  compare_field (srcip flow1) (srcip flow2)
    (compare_field (dstip flow1) (dstip flow2) 0).

(** What [hash] holds when [flow_src_hash_bin] reaches its closing brace *)
Definition flow_src_hash (p_flow_src : flow_src_t) (map_size : Z) : Z :=
  let hash := X86_32.MurmurHash3_x86_32
                (block_bytes [srcip p_flow_src; dstip p_flow_src]) 42 in
  hash_to_bin hash map_size.

(** The function has no [return] in this build: what its callers read is
    whatever the compiled code leaves in the return register, a function
    [return_reg] of the value computed last. *)
Class ReturnReg := return_reg : Z → Z.

Definition flow_src_hash_bin `{ReturnReg} (p_flow_src : flow_src_t) (map_size : Z) : Z :=
  return_reg (flow_src_hash p_flow_src map_size).

(** The tables need of the compiled code that a value in range is left in
    range; unoptimised builds leave the value itself. *)
Class ReturnRegOk `{ReturnReg} := return_reg_range h n : 0 <= h < n → 0 <= return_reg h < n.
End FlowSrcDst.

(** ** The key interface *)

#[export] Instance flow_s_keys : KeyOps flow_s :=
  {| key_compare := flow_compare; key_bin := flow_hash |}.
#[export] Instance flow_src_keys : KeyOps FlowSrc.flow_src_t :=
  {| key_compare := FlowSrc.flow_src_compare; key_bin := FlowSrc.flow_src_hash_bin |}.
#[export] Instance flow_src_dst_keys `{FlowSrcDst.ReturnReg} : KeyOps FlowSrcDst.flow_src_t :=
  {| key_compare := FlowSrcDst.flow_src_compare; key_bin := FlowSrcDst.flow_src_hash_bin |}.

Ltac compare_cases := unfold compare_field in *; repeat case_decide; try lia; try congruence.

Lemma flow_compare_eq a b :
  flow_compare a b = 0 ↔
  f_srcip a = f_srcip b ∧ f_dstip a = f_dstip b ∧
  f_src_port a = f_src_port b ∧ f_dst_port a = f_dst_port b.
Proof. unfold flow_compare. split; [|intros (?&?&?&?)]; compare_cases. Qed.

Lemma hash_to_bin_mod hash n : in_u 32 hash → 0 < n → hash_to_bin hash n = hash mod n.
Proof.
  intros [H0 H1] Hn. unfold hash_to_bin.
  pose proof (Z.div_mod hash n ltac:(lia)). pose proof (Z.mod_pos_bound hash n Hn).
  assert (0 <= hash / n) by (apply Z.div_pos; lia).
  rewrite (wrap_small 32 (n * _)) by (unfold in_u; nia).
  rewrite wrap_small; unfold in_u; nia.
Qed.

#[export] Instance flow_s_laws : KeyLaws flow_s.
Proof.
  split; simpl.
  - intros k. by apply flow_compare_eq.
  - intros a b. unfold flow_compare. compare_cases.
  - intros a b c. unfold flow_compare. compare_cases.
  - intros a b c E. apply flow_compare_eq in E as (E1&E2&E3&E4).
    unfold flow_compare. by rewrite E1, E2, E3, E4.
  - intros k n Hn. by apply Z.mod_pos_bound.
  - intros a b n E. apply flow_compare_eq in E as (E1&E2&E3&E4).
    unfold flow_hash. by rewrite E1, E2, E3, E4.
Qed.

Lemma flow_src_bin_range k n : 0 < n → 0 <= FlowSrc.flow_src_hash_bin k n < n.
Proof.
  intros Hn. unfold FlowSrc.flow_src_hash_bin. cbv zeta.
  rewrite hash_to_bin_mod; [by apply Z.mod_pos_bound| |done].
  apply murmur_blocks_in_u; [word|done].
Qed.

#[export] Instance flow_src_laws : KeyLaws FlowSrc.flow_src_t.
Proof.
  split; simpl; unfold FlowSrc.flow_src_compare.
  - intros k. by case_decide.
  - intros a b. compare_cases.
  - intros a b c. compare_cases.
  - intros a b c. compare_cases.
  - intros k n Hn. by apply flow_src_bin_range.
  - intros a b n E. assert (FlowSrc.srcip a = FlowSrc.srcip b) as Eq by (compare_cases).
    unfold FlowSrc.flow_src_hash_bin. by rewrite Eq.
Qed.

Lemma flow_src_dst_compare_eq a b :
  FlowSrcDst.flow_src_compare a b = 0 ↔ a = b.
Proof.
  unfold FlowSrcDst.flow_src_compare. destruct a as [s d], b as [s' d']. simpl.
  split; [|intros [= -> ->]]; compare_cases.
Qed.

Lemma flow_src_hash_range k n : 0 < n → 0 <= FlowSrcDst.flow_src_hash k n < n.
Proof.
  intros Hn. unfold FlowSrcDst.flow_src_hash. cbv zeta.
  rewrite hash_to_bin_mod; [by apply Z.mod_pos_bound| |done].
  apply murmur_blocks_in_u; [word|done].
Qed.

#[export] Instance flow_src_dst_laws `{FlowSrcDst.ReturnRegOk} : KeyLaws FlowSrcDst.flow_src_t.
Proof.
  split; simpl.
  - intros k. by apply flow_src_dst_compare_eq.
  - intros a b. unfold FlowSrcDst.flow_src_compare. compare_cases.
  - intros a b c. unfold FlowSrcDst.flow_src_compare. compare_cases.
  - intros a b c E. by apply flow_src_dst_compare_eq in E as ->.
  - intros k n Hn. apply FlowSrcDst.return_reg_range. by apply flow_src_hash_range.
  - intros a b n E. by apply flow_src_dst_compare_eq in E as ->.
Qed.
