(* ===== verification/CFloat.v ===== *)
(** * C floating point

    [double] and [float] as the IEEE 754 binary64 and binary32 numbers of the
    Standard Library's specification floats (round to nearest even), with the
    conversions and operations the sources use. *)
From S2P Require Import Prelude.
From Stdlib Require Export SpecFloat.

Definition c_double : Type := spec_float.
Definition c_float : Type := spec_float.

(** (double) of an integer *)
Definition double_of_int (z : Z) : c_double := binary_normalize 53 1024 z 0 false.
(** (float) of an integer *)
Definition float_of_int (z : Z) : c_float := binary_normalize 24 128 z 0 false.
(** (float) of a double *)
Definition float_of_double (d : c_double) : c_float :=
  match d with
  | S754_finite s m e => binary_round 24 128 s m e
  | d => d
  end.
Definition double_mul : c_double → c_double → c_double := SFmul 53 1024.
Definition double_div : c_double → c_double → c_double := SFdiv 53 1024.
(** [a >= b] and [a < b]; every comparison with a NaN is false *)
Definition float_geb (a b : spec_float) : bool := SFleb b a.
Definition float_ltb (a b : spec_float) : bool := SFltb a b.

(** [1.0 * loss_volume / volume] assigned to a [float] *)
Definition int_ratio (loss_volume volume : Z) : c_float :=
  float_of_double (double_div (double_mul (double_of_int 1) (double_of_int loss_volume))
                     (double_of_int volume)).

(** (double) of a float: exact *)
Definition double_of_float (f : c_float) : c_double :=
  match f with
  | S754_finite s m e => binary_round 53 1024 s m e
  | f => f
  end.

Definition float_mul : c_float → c_float → c_float := SFmul 24 128.

(** (int) of a float: the value without its fraction; no result is defined for
    a NaN, an infinity or a value out of range *)
Definition int_of_float (f : c_float) : option Z :=
  match f with
  | S754_zero _ => Some 0
  | S754_finite s m e =>
      let n := Z.shiftl (Zpos m) e in
      let z := if s then - n else n in
      if decide (in_s 32 z) then Some z else None
  | _ => None
  end.

(** A [double] or [float] compared with 0 for equality *)
Definition float_is_zero (f : spec_float) : bool := SFeqb f (S754_zero false).
