(* ===== verification/HashTableFlow.v ===== *)
(** * The single-threaded table of flows (public_lib/hashTableFlow.c)

    The trace generator numbers packets with it.  A bin is the list of its
    entries: nothing but the chain points to an entry, and no operation but the
    destruction frees one.  [kf_mallocs] gives the outcomes of the coming
    [malloc]s ([[]]: all succeed), [kf_blocks] counts the live blocks. *)
From S2P Require Import Prelude CMonad ChainedTable ChainSpec TableSpec Flow.

(** [hashtable_kf_t], with its chains of [entry_kf_t] *)
Record hashtable_kf_t := TableKf { kf_size : Z; kf_bins : list (list (flow_s * Z)) }.

Record kf_state := KfState {
  kf_table : ptr hashtable_kf_t;
  kf_mallocs : list bool;
  kf_blocks : Z
}.
Definition kf_malloc : cmd kf_state bool := λ s,
  match kf_mallocs s with
  | false :: sched => Ok (false, KfState (kf_table s) sched (kf_blocks s))
  | sched => Ok (true, KfState (kf_table s) (tail sched) (kf_blocks s + 1))
  end.
Definition kf_free (n : Z) : cmd kf_state unit :=
  modify (λ s, KfState (kf_table s) (kf_mallocs s) (kf_blocks s - n)).
Definition kf_assign (t : ptr hashtable_kf_t) : cmd kf_state unit :=
  modify (λ s, KfState t (kf_mallocs s) (kf_blocks s)).

(** [ht_kf_create], into the pointer of the state *)
Definition ht_kf_create (size : Z) : cmd kf_state unit :=
  if decide (size < 1) then kf_assign PNull else
  b ← kf_malloc;
  if negb b then kf_assign PNull else
  b ← kf_malloc;
  if negb b then kf_assign PNull else
  kf_assign (PLive (TableKf size (replicate (Z.to_nat size) []))).

(** [ht_kf_destory]: two blocks per entry and the array; [size] is the number of
    bins walked, and the block of the table itself stays *)
Fixpoint free_bins (n : nat) (bins : list (list (flow_s * Z))) : cmd kf_state unit :=
  match n, bins with
  | O, _ => mret tt
  | S _, [] => throw OutOfBounds
  | S n, bin :: bins => kf_free (2 * Z.of_nat (length bin));; free_bins n bins
  end.
Definition ht_kf_destory (size : Z) : cmd kf_state unit :=
  p ← gets kf_table;
  match p with
  | PNull => mret tt
  | PFreed => throw Dangling
  | PLive t =>
      free_bins (Z.to_nat size) (kf_bins t);;
      kf_free 1;;
      kf_assign (PLive (TableKf (kf_size t) []))
  end.

(** [ht_kf_newpair]; [deep_copy_flow] does not test its [malloc] *)
Definition ht_kf_newpair (key : flow_s) (value : Z) : cmd kf_state (option (flow_s * Z)) :=
  b ← kf_malloc;
  if negb b then mret None else
  b ← kf_malloc;
  if negb b then throw NullDeref else mret (Some (key, value)).

(** The walk of a chain: the entries before the key's place, and the rest *)
Fixpoint kf_walk (key : flow_s) (chain : list (flow_s * Z)) : list (flow_s * Z) * list (flow_s * Z) :=
  match chain with
  | [] => ([], [])
  | e :: next =>
      if decide (flow_compare key e.1 > 0) then let '(before, next) := kf_walk key next in (e :: before, next)
      else ([], chain)
  end.

(** [ht_kf_set] on a chain: replace the value, or link a new pair.  Without
    memory a new pair at the end of a chain that is not empty is lost, and one
    elsewhere dereferences NULL. *)
Definition kf_set_chain (key : flow_s) (value : Z) (chain : list (flow_s * Z)) : cmd kf_state (list (flow_s * Z)) :=
  let '(before, next) := kf_walk key chain in
  let grow := (
    newpair ← ht_kf_newpair key value;
    match newpair with
    | Some e => mret (before ++ e :: next)
    | None =>
        match before, next with
        | _ :: _, [] => mret before
        | _, _ => throw NullDeref
        end
    end) in
  match next with
  | e :: next =>
      if decide (flow_compare key e.1 = 0) then mret (before ++ (e.1, value) :: next) else grow
  | [] => grow
  end.
Definition ht_kf_set (key : flow_s) (value : Z) : cmd kf_state unit :=
  p ← gets kf_table;
  match p with
  | PNull => mret tt
  | PFreed => throw Dangling
  | PLive t =>
      if decide (kf_size t = 0) then throw DivByZero else
      let bin := flow_hash key (kf_size t) in
      match kf_bins t !! Z.to_nat bin with
      | None => throw OutOfBounds
      | Some chain =>
          chain ← kf_set_chain key value chain;
          kf_assign (PLive (TableKf (kf_size t) (<[Z.to_nat bin := chain]> (kf_bins t))))
      end
  end.

(** [ht_kf_get]; the value is returned as an [int] *)
Definition kf_get_chain (key : flow_s) (chain : list (flow_s * Z)) : Z :=
  match (kf_walk key chain).2 with
  | e :: _ => if decide (flow_compare key e.1 ≠ 0) then -1 else i32 e.2
  | [] => -1
  end.
Definition ht_kf_get (key : flow_s) : cmd kf_state Z :=
  p ← gets kf_table;
  match p with
  | PNull => mret (-1)
  | PFreed => throw Dangling
  | PLive t =>
      if decide (kf_size t = 0) then throw DivByZero else
      match kf_bins t !! Z.to_nat (flow_hash key (kf_size t)) with
      | None => throw OutOfBounds
      | Some chain => mret (kf_get_chain key chain)
      end
  end.

(** ** The table is a dictionary *)
Implicit Types (k : flow_s) (m : kmap flow_s Z) (chain : list (flow_s * Z)).

(** A chain is ordered, and holds the map's keys of its bin. *)
Definition chain_sorted chain : Prop := StronglySorted (λ e e' : flow_s * Z, flow_compare e.1 e'.1 < 0) chain.
Definition chain_get k chain : option Z :=
  match list_find (λ e : flow_s * Z, flow_compare k e.1 = 0) chain with Some (_, e) => Some e.2 | None => None end.
Record kf_rep (s : kf_state) m : Prop := {
  kf_live : ∃ t, kf_table s = PLive t ∧ 0 < kf_size t ∧ length (kf_bins t) = Z.to_nat (kf_size t) ∧
    (∀ i chain, kf_bins t !! i = Some chain → chain_sorted chain) ∧
    (∀ k chain, kf_bins t !! Z.to_nat (flow_hash k (kf_size t)) = Some chain → chain_get k chain = m k);
  kf_memory : kf_mallocs s = []
}.

Lemma walk_spec key chain :
  chain_sorted chain →
  let '(before, next) := kf_walk key chain in
  chain = before ++ next ∧ Forall (λ e, 0 < key_compare key e.1) before ∧
  match next with
  | [] => True
  | e :: next => key_compare key e.1 <= 0 ∧ Forall (λ e', key_compare key e'.1 < 0) next
  end.
Proof.
  induction 1 as [|e chain Hs IH He]; [done|]. simpl.
  destruct (decide (flow_compare key e.1 > 0)) as [Hgt|Hle].
  - destruct (kf_walk key chain) as [before next]. destruct IH as (-> & Hb & Hn).
    split_and!; [done| |done]. constructor; [|done]. change (0 < flow_compare key e.1). lia.
  - split_and!; [done|done|change (flow_compare key e.1 <= 0); lia|].
    eapply Forall_impl; [exact He|]. intros e' He'. cbn beta in He'. change (flow_compare key e'.1 < 0).
    change (flow_compare ?a ?b) with (key_compare a b) in *.
    destruct (decide (key_compare key e.1 = 0)) as [E|E]; [by rewrite (compare_eq_l _ _ _ E)|].
    pose proof (compare_anti key e'.1). pose proof (compare_anti e.1 e'.1). pose proof (compare_anti key e.1).
    pose proof (compare_trans e'.1 e.1 key). lia.
Qed.

Lemma chain_get_cons k e chain :
  chain_get k (e :: chain) = if decide (key_compare k e.1 = 0) then Some e.2 else chain_get k chain.
Proof.
  unfold chain_get. simpl. change (flow_compare k e.1) with (key_compare k e.1). case_decide; [done|].
  by destruct (list_find _ chain) as [[? ?]|].
Qed.
Lemma chain_get_app k chain chain' :
  Forall (λ e, key_compare k e.1 ≠ 0) chain → chain_get k (chain ++ chain') = chain_get k chain'.
Proof. induction 1 as [|e chain He _ IH]; [done|]. simpl. by rewrite chain_get_cons, decide_False. Qed.
Lemma chain_get_none k chain : Forall (λ e, key_compare k e.1 ≠ 0) chain → chain_get k chain = None.
Proof. intros Hc. rewrite <- (app_nil_r chain). by rewrite chain_get_app. Qed.

Lemma get_chain_spec key chain :
  chain_sorted chain → kf_get_chain key chain = from_option i32 (-1) (chain_get key chain).
Proof.
  intros Hs. pose proof (walk_spec key chain Hs) as Hw. unfold kf_get_chain.
  destruct (kf_walk key chain) as [before next]. destruct Hw as (-> & Hb & Hn). simpl.
  rewrite chain_get_app by (eapply Forall_impl; [exact Hb|]; simpl; lia).
  destruct next as [|e next]; [done|]. destruct Hn as [Hle Hn]. rewrite chain_get_cons.
  change (flow_compare key e.1) with (key_compare key e.1).
  destruct (decide (key_compare key e.1 = 0)) as [E|E]; [by rewrite decide_False by (intros []; done)|].
  rewrite decide_True by done. rewrite chain_get_none; [done|]. eapply Forall_impl; [exact Hn|]. simpl. lia.
Qed.

(** The chain with the value set *)
Definition chain_upd (key : flow_s) (value : Z) chain : list (flow_s * Z) :=
  let '(before, next) := kf_walk key chain in
  match next with
  | e :: next' => if decide (flow_compare key e.1 = 0) then before ++ (e.1, value) :: next' else before ++ (key, value) :: next
  | [] => before ++ [(key, value)]
  end.
Lemma chain_sorted_app (before next : list (flow_s * Z)) :
  chain_sorted (before ++ next) ↔
  chain_sorted before ∧ chain_sorted next ∧ Forall (λ e, Forall (λ e', flow_compare e.1 e'.1 < 0) next) before.
Proof.
  unfold chain_sorted. induction before as [|e before IH]; simpl.
  - split; [intros Hs; split_and!; [constructor|done|constructor]|by intros (_ & Hs & _)].
  - split.
    + intros [Hs He]%StronglySorted_inv. apply IH in Hs as (Hb & Hn & Hbn). apply Forall_app in He as [He1 He2].
      split_and!; [by constructor|done|by constructor].
    + intros (Hb & Hn & Hbn). apply StronglySorted_inv in Hb as [Hb He]. apply Forall_cons in Hbn as [He2 Hbn].
      constructor; [by apply IH|]. by apply Forall_app.
Qed.
Lemma chain_upd_spec key value chain :
  chain_sorted chain →
  chain_sorted (chain_upd key value chain) ∧
  ∀ k, chain_get k (chain_upd key value chain)
       = if decide (key_compare k key = 0) then Some value else chain_get k chain.
Proof.
  intros Hs. pose proof (walk_spec key chain Hs) as Hw. unfold chain_upd.
  destruct (kf_walk key chain) as [before next]. destruct Hw as (-> & Hb & Hn).
  apply chain_sorted_app in Hs as (Hsb & Hsn & Hbn).
  assert (∀ k (e : flow_s * Z), key_compare k key = 0 → key_compare k e.1 = key_compare key e.1) as Hk
    by (intros; by apply compare_eq_l).
  assert (Forall (λ e, flow_compare e.1 key < 0) before) as Hb'.
  { eapply Forall_impl; [exact Hb|]. intros e He. cbn beta in He. change (key_compare e.1 key < 0). rewrite compare_anti. lia. }
  assert (∀ k next', key_compare k key = 0 → chain_get k (before ++ next') = chain_get k next') as Hskip.
  { intros k next' E. apply chain_get_app. eapply Forall_impl; [exact Hb|]. intros e He. cbn beta in *. rewrite Hk by done. lia. }
  assert (∀ k next1 next2, chain_get k next1 = chain_get k next2 →
    chain_get k (before ++ next1) = chain_get k (before ++ next2)) as Hcong.
  { intros k next1 next2 E. clear -E. induction before as [|e before IH]; [done|]. simpl. by rewrite !chain_get_cons, IH. }
  destruct next as [|e next].
  - split.
    + apply chain_sorted_app. split_and!; [done|by repeat constructor|]. eapply Forall_impl; [exact Hb'|]. simpl. by repeat constructor.
    + intros k. case_decide as E; [rewrite Hskip, chain_get_cons by done; by rewrite decide_True|].
      apply Hcong. rewrite chain_get_cons. by rewrite decide_False.
  - destruct Hn as [Hle Hn]. apply StronglySorted_inv in Hsn as [Hsn He].
    destruct (decide (flow_compare key e.1 = 0)) as [E|E].
    + split.
      * apply chain_sorted_app. split_and!; [done|by constructor|]. eapply Forall_impl; [exact Hbn|].
        intros e' [He' ?]%Forall_cons. by constructor.
      * intros k. assert (key_compare k e.1 = key_compare k key) as Ek.
        { rewrite compare_anti, (compare_anti k). f_equal. symmetry. by apply compare_eq_l. }
        case_decide as E2; [rewrite Hskip, chain_get_cons by done; by rewrite decide_True by (cbn [fst]; congruence)|].
        apply Hcong. rewrite !chain_get_cons. cbn [fst]. by rewrite !decide_False by congruence.
    + assert (flow_compare key e.1 < 0) by (change (flow_compare key e.1) with (key_compare key e.1) in *; lia). split.
      * apply chain_sorted_app. split_and!; [done| |].
        { constructor; [by constructor|]. constructor; [done|]. eapply Forall_impl; [exact Hn|]. done. }
        rewrite Forall_forall in Hbn, Hb' |- *. intros e' He'.
        constructor; [by apply Hb'|by apply Hbn].
      * intros k. case_decide as E2; [rewrite Hskip, chain_get_cons by done; by rewrite decide_True|].
        apply Hcong. rewrite (chain_get_cons k (key, value)). by rewrite decide_False.
Qed.

(** *** The operations *)
Lemma wp_kf_malloc s (Q : bool → kf_state → Prop) :
  kf_mallocs s = [] → Q true (KfState (kf_table s) [] (kf_blocks s + 1)) → wp kf_malloc Q s.
Proof. intros E HQ. unfold wp, kf_malloc. by rewrite E. Qed.

Lemma wp_kf_create size s (Q : unit → kf_state → Prop) :
  0 < size → kf_mallocs s = [] → (∀ s', kf_rep s' kempty → Q tt s') → wp (ht_kf_create size) Q s.
Proof.
  intros Hn Hm HQ. unfold ht_kf_create. rewrite decide_False by lia.
  wp_step. apply wp_kf_malloc; [done|]. simpl. wp_step. apply wp_kf_malloc; [done|]. simpl. apply wp_modify, HQ.
  split; [|done]. eexists. split; [done|]. simpl. split_and!; [done|by rewrite length_replicate|..].
  - intros i chain [-> _]%lookup_replicate. constructor.
  - intros k chain [-> _]%lookup_replicate. done.
Qed.

Lemma kf_bin s m t k :
  kf_rep s m → kf_table s = PLive t → 0 < kf_size t → length (kf_bins t) = Z.to_nat (kf_size t) →
  ∃ chain, kf_bins t !! Z.to_nat (flow_hash k (kf_size t)) = Some chain.
Proof.
  intros _ _ Hn Hl. apply lookup_lt_is_Some. rewrite Hl. pose proof (bin_range k (kf_size t) Hn) as Hr.
  change (key_bin k (kf_size t)) with (flow_hash k (kf_size t)) in Hr. lia.
Qed.

Lemma wp_kf_get s m k (Q : Z → kf_state → Prop) :
  kf_rep s m → Q (from_option i32 (-1) (m k)) s → wp (ht_kf_get k) Q s.
Proof.
  intros R HQ. pose proof R as [(t & Et & Hn & Hl & Hs & Hg) _]. unfold ht_kf_get. wp_step. wp_step. rewrite Et.
  rewrite decide_False by lia. destruct (kf_bin s m t k R Et Hn Hl) as [chain Ec]. rewrite Ec. apply wp_ret.
  rewrite get_chain_spec by (by eapply Hs). by rewrite (Hg _ _ Ec).
Qed.

Lemma wp_kf_set_chain s k v chain (Q : list (flow_s * Z) → kf_state → Prop) :
  kf_mallocs s = [] → (∀ n, Q (chain_upd k v chain) (KfState (kf_table s) [] n)) → wp (kf_set_chain k v chain) Q s.
Proof.
  intros Hm HQ. unfold kf_set_chain, chain_upd in *. destruct (kf_walk k chain) as [before next].
  destruct s as [tb ms n]. simpl in Hm. subst ms. cbn [kf_table] in HQ.
  destruct next as [|e next]; [|destruct (decide (flow_compare k e.1 = 0)); [apply wp_ret, HQ|]];
    unfold ht_kf_newpair; repeat wp_step; (apply wp_kf_malloc; [done|]); simpl; wp_step;
    (apply wp_kf_malloc; [done|]); simpl; repeat wp_step; apply HQ.
Qed.

Lemma wp_kf_set s m k v (Q : unit → kf_state → Prop) :
  kf_rep s m → (∀ s', kf_rep s' (kupd k (Some v) m) → Q tt s') → wp (ht_kf_set k v) Q s.
Proof.
  intros R HQ. pose proof R as [(t & Et & Hn & Hl & Hs & Hg) Hm]. unfold ht_kf_set. wp_step. wp_step. rewrite Et.
  rewrite decide_False by lia. destruct (kf_bin s m t k R Et Hn Hl) as [chain Ec]. rewrite Ec. wp_step.
  apply wp_kf_set_chain; [done|]. intros n. apply wp_modify, HQ. split; [|done]. eexists. split; [done|]. cbn [kf_size kf_bins].
  destruct (chain_upd_spec k v chain) as [Hs' Hg']; [by eapply Hs|].
  split_and!; [done|by rewrite length_insert| |].
  - intros i chain' Hc. apply list_lookup_insert_Some in Hc as [(<- & <- & _)|[_ Hc]]; [done|by eapply Hs].
  - intros k' chain' Hc. unfold kupd. apply list_lookup_insert_Some in Hc as [(Eb & <- & _)|[Hne Hc]].
    + rewrite Hg'. case_decide; [done|]. by rewrite (Hg k'); [|rewrite <- Eb].
    + rewrite decide_False; [by apply Hg|]. intros E. apply Hne. f_equal. symmetry.
      change (key_bin k' (kf_size t) = key_bin k (kf_size t)). by apply bin_eq.
Qed.
