(* ===== verification/FlowTables.v ===== *)
(** * The flow tables of public_lib

    The API of the four multi-thread tables over the chained table: the NULL
    tests, the return values and the conversions of each C file, a Module per
    file.  A handle is a C pointer to a table.  Arguments are in the range of their
    C types: a caller converts an [int] to the [uint32_t] parameter of a set.  The tables of [flow_src_t] are
    used by the rest of the system through the interface [FlowTable] of
    [TableSpec.v], of which they are instances. *)
From S2P Require Import Prelude CMonad CFloat ChainedTable ChainSpec ChainHeap ChainRefine.
From S2P Require Import ChainOps ChainIter ChainLife TableSpec ChainView Flow.

(** The macro of hashtable.h *)
Definition HASH_MAP_SIZE : Z := 65535.

(** A value read as the [int] a get returns: -1 for a missing key *)
Definition int_or_minus1 (v : option Z) : Z :=
  match v with None => -1 | Some v => i32 v end.

(** mt_hashtable_kFlowSrc_vInt.c; [size] is HASH_MAP_SIZE *)
Module KfsVi.
Section kfs_vi.
Context {K : Type} `{KeyOps K} (size : Z).
Definition hashtable_kfs_vi_t : Type := ptr (tstate K Z).

Definition ht_kfs_vi_create (mem : bool) : hashtable_kfs_vi_t := tbl_create size [mem].
Definition ht_kfs_vi_destory : cmd hashtable_kfs_vi_t unit := tbl_destory.
Definition ht_kfs_vi_refresh : cmd hashtable_kfs_vi_t unit := unless_null tt tbl_refresh.
Definition ht_kfs_vi_newpair (key : K) (value : Z) : cmd (tstate K Z) (option loc) :=
  tbl_newpair key value.
Definition ht_kfs_vi_get (key : K) : cmd hashtable_kfs_vi_t Z :=
  unless_null (-1) (v ← tbl_get key; mret (int_or_minus1 v)).
Definition ht_kfs_vi_set (key : K) (value : Z) : cmd hashtable_kfs_vi_t unit :=
  unless_null tt (tbl_set key value).
Definition ht_kfs_vi_del (key : K) : cmd hashtable_kfs_vi_t unit :=
  unless_null tt (tbl_del key).
Definition ht_kfs_vi_next : cmd hashtable_kfs_vi_t (option (K * Z)) :=
  unless_null None tbl_next.

(** [while (next(source, &ret_entry) != -1) set(ret, &ret_entry.key, ret_entry.value);] *)
Fixpoint copy_loop (fuel : nat) (ret : hashtable_kfs_vi_t)
    : cmd hashtable_kfs_vi_t hashtable_kfs_vi_t :=
  match fuel with
  | O => throw OutOfFuel
  | S fuel =>
      e ← ht_kfs_vi_next;
      match e with
      | None => mret ret
      | Some (key, value) =>
          '(_, ret) ← lift (ht_kfs_vi_set key value ret);
          copy_loop fuel ret
      end
  end.
(** The state is the source table, the result the copy. *)
Definition ht_kfs_vi_copy (mem : bool) : cmd hashtable_kfs_vi_t hashtable_kfs_vi_t := λ source,
  let ret := ht_kfs_vi_create mem in
  match ret with
  | PNull => Ok (PNull, source)
  | _ =>
      let fuel := match source with PLive t => chain_fuel t | _ => 1%nat end in
      copy_loop fuel ret source
  end.
End kfs_vi.
Arguments hashtable_kfs_vi_t K : clear implicits.
End KfsVi.

(** mt_hashtable_kFlowSrc_vFloat.c: the value is read under the lock, [next]
    does not test for NULL *)
Module KfsVf.
Section kfs_vf.
Context {K : Type} `{KeyOps K} (size : Z).
Definition hashtable_kfs_vf_t : Type := ptr (tstate K c_float).

Definition ht_kfs_vf_create (mem : bool) : hashtable_kfs_vf_t := tbl_create size [mem].
Definition ht_kfs_vf_destory : cmd hashtable_kfs_vf_t unit := tbl_destory.
Definition ht_kfs_vf_newpair (key : K) (value : c_float) : cmd (tstate K c_float) (option loc) :=
  tbl_newpair key value.
Definition ht_kfs_vf_get (key : K) : cmd hashtable_kfs_vf_t c_float :=
  unless_null (float_of_int (-1))
    (v ← tbl_get_locked key; mret (default (float_of_int (-1)) v)).
Definition ht_kfs_vf_set (key : K) (value : c_float) : cmd hashtable_kfs_vf_t unit :=
  unless_null tt (tbl_set key value).
Definition ht_kfs_vf_del (key : K) : cmd hashtable_kfs_vf_t unit :=
  unless_null tt (tbl_del key).
Definition ht_kfs_vf_next : cmd hashtable_kfs_vf_t (option (K * c_float)) := deref tbl_next.
End kfs_vf.
Arguments hashtable_kfs_vf_t K : clear implicits.
End KfsVf.

(** mt_hashtable_kFlow_vInt.c, keyed by the 5-tuple flow *)
Module Vi.
Section vi.
Context (size : Z).
Definition hashtable_vi_t : Type := ptr (tstate flow_s Z).

Definition ht_vi_create (mem : bool) : hashtable_vi_t := tbl_create size [mem].
Definition ht_vi_destory : cmd hashtable_vi_t unit := tbl_destory.
Definition ht_vi_hash (key : flow_s) : Z := flow_hash key size.
Definition ht_vi_newpair (key : flow_s) (value : Z) : cmd (tstate flow_s Z) (option loc) :=
  tbl_newpair key value.
Definition ht_vi_get (key : flow_s) : cmd hashtable_vi_t Z :=
  unless_null (-1) (v ← tbl_get key; mret (int_or_minus1 v)).
Definition ht_vi_set (key : flow_s) (value : Z) : cmd hashtable_vi_t unit :=
  unless_null tt (tbl_set key value).
Definition ht_vi_del (key : flow_s) : cmd hashtable_vi_t unit := unless_null tt (tbl_del key).
Definition ht_vi_next : cmd hashtable_vi_t (option (flow_s * Z)) := deref tbl_next.
End vi.
End Vi.

(** mt_hashtable_kFlow_vFloat.c, keyed by the 5-tuple flow: the value is read
    after the lock is released *)
Module Vf.
Section vf.
Context (size : Z).
Definition hashtable_vf_t : Type := ptr (tstate flow_s c_float).

Definition ht_vf_create (mem : bool) : hashtable_vf_t := tbl_create size [mem].
Definition ht_vf_destory : cmd hashtable_vf_t unit := tbl_destory.
Definition ht_vf_hash (key : flow_s) : Z := flow_hash key size.
Definition ht_vf_newpair (key : flow_s) (value : c_float) : cmd (tstate flow_s c_float) (option loc) :=
  tbl_newpair key value.
Definition ht_vf_get (key : flow_s) : cmd hashtable_vf_t c_float :=
  unless_null (float_of_int (-1)) (v ← tbl_get key; mret (default (float_of_int (-1)) v)).
Definition ht_vf_set (key : flow_s) (value : c_float) : cmd hashtable_vf_t unit :=
  unless_null tt (tbl_set key value).
Definition ht_vf_del (key : flow_s) : cmd hashtable_vf_t unit := unless_null tt (tbl_del key).
Definition ht_vf_next : cmd hashtable_vf_t (option (flow_s * c_float)) := deref tbl_next.
End vf.
End Vf.

(** ** The interface *)

Definition is_null {T} (p : ptr T) : bool := match p with PNull => true | _ => false end.

(** A pointer to a table that holds a map *)
Definition pview {K V} `{KeyOps K} (p : ptr (tstate K V)) (m : kmap K V) (ps : list (K * V)) : Prop :=
  match p with PLive t => tview t m ps | _ => False end.
Definition prest {K V} (p : ptr (tstate K V)) : Prop :=
  match p with PLive t => at_start t | _ => False end.

Section pview_laws.
Context {K V : Type} `{KeyLaws K}.
Implicit Types (p : ptr (tstate K V)) (m : kmap K V).

Lemma pview_create size :
  0 < size → pview (tbl_create size [true] : ptr (tstate K V)) kempty [] ∧
             prest (tbl_create size [true] : ptr (tstate K V)).
Proof.
  intros Hn. destruct (tbl_create_empty (K:=K) (V:=V) size Hn) as (t & Et & He & _).
  unfold tbl_create in Et |- *. simpl in Et |- *. injection Et as <-.
  by apply tview_empty.
Qed.

Lemma pview_read {R} (c : cmd (tstate K V) R) (dflt : R) p m ps (Q : R → ptr (tstate K V) → Prop) :
  pview p m ps →
  (∀ t, tview t m ps → p = PLive t → wp c (λ r t', Q r (PLive t')) t) →
  wp (unless_null dflt c) Q p.
Proof. intros Hv Hc. destruct p as [| |t]; [done..|]. apply wp_unless_null. by apply Hc. Qed.

Lemma pview_destory p m ps (Q : unit → ptr (tstate K V) → Prop) :
  pview p m ps → (∀ p', Q tt p') → wp tbl_destory Q p.
Proof.
  intros Hv HQ. destruct p as [| |t]; [done..|]. destruct Hv as (cells & R & [Hh _] & _).
  unfold wp. rewrite (wp_tbl_destory t cells) by done. apply HQ.
Qed.

Lemma pview_set p m ps k v (Q : unit → ptr (tstate K V) → Prop) :
  pview p m ps →
  (∀ p' ps', pview p' (kupd k (Some v) m) ps' → (prest p → prest p') → Q tt p') →
  wp (unless_null tt (tbl_set k v)) Q p.
Proof.
  intros Hv HQ. eapply pview_read; [done|]. intros t Ht ->.
  eapply tview_set; [done|]. intros t' ps' Ht' Hr. by eapply (HQ (PLive t')).
Qed.

Lemma pview_del p m ps k (Q : unit → ptr (tstate K V) → Prop) :
  pview p m ps →
  (∀ p' ps', pview p' (kupd k None m) ps' → (prest p → prest p') → Q tt p') →
  wp (unless_null tt (tbl_del k)) Q p.
Proof.
  intros Hv HQ. eapply pview_read; [done|]. intros t Ht ->.
  eapply tview_del; [done|]. intros t' ps' Ht' Hr. by eapply (HQ (PLive t')).
Qed.

Lemma pview_next p m ps (Q : option (K * V) → ptr (tstate K V) → Prop) :
  pview p m ps →
  match ps with
  | [] => ∀ p' ps', pview p' m ps' → prest p' → Q None p'
  | e :: ps => ∀ p', pview p' m ps → Q (Some e) p'
  end → wp (unless_null None tbl_next) Q p.
Proof.
  intros Hv HQ. eapply pview_read; [done|]. intros t Ht ->.
  eapply tview_next; [done|]. destruct ps as [|e ps].
  - intros t' ps' Ht' Hr. by eapply (HQ (PLive t')).
  - intros t' Ht'. by apply (HQ (PLive t')).
Qed.

Lemma pview_deref_next p m ps (Q : option (K * V) → ptr (tstate K V) → Prop) :
  pview p m ps →
  match ps with
  | [] => ∀ p' ps', pview p' m ps' → prest p' → Q None p'
  | e :: ps => ∀ p', pview p' m ps → Q (Some e) p'
  end → wp (deref tbl_next) Q p.
Proof. intros Hv HQ. pose proof (pview_next p m ps Q Hv HQ). by destruct p. Qed.

Lemma pview_lists p m ps : pview p m ps → prest p → lists m ps.
Proof. destruct p; [done..|]. apply tview_lists. Qed.
Lemma pview_respects p m ps : pview p m ps → krespects m.
Proof. destruct p; [done..|]. apply tview_respects. Qed.
Lemma pview_proper p m m' ps : m ≡ m' → pview p m ps → pview p m' ps.
Proof. destruct p as [| |t]; [done..|]. simpl. by intros ->. Qed.
Lemma pview_not_null p m ps : pview p m ps → is_null p = false.
Proof. by destruct p. Qed.
End pview_laws.

Lemma kfs_vi_get_ok {K} `{KeyLaws K} (p : KfsVi.hashtable_kfs_vi_t K) m ps k
    (Q : Z → KfsVi.hashtable_kfs_vi_t K → Prop) :
  pview p m ps → Q (int_or_minus1 (m k)) p → wp (KfsVi.ht_kfs_vi_get k) Q p.
Proof.
  intros Hv HQ. eapply pview_read; [done|]. intros t Ht ->.
  wp_steps. eapply tview_get; [done|]. by wp_steps.
Qed.

Section instances.
Context {K : Type} `{KeyLaws K} (size : Z).
Import KfsVi KfsVf.

#[export] Instance kfs_vi_table : FlowTable K Z Z (hashtable_kfs_vi_t K) := {|
  ft_ret := int_or_minus1;
  ft_create := ht_kfs_vi_create size;
  ft_get := ht_kfs_vi_get;
  ft_set := ht_kfs_vi_set;
  ft_del := ht_kfs_vi_del;
  ft_next := ht_kfs_vi_next;
  ft_destory := ht_kfs_vi_destory;
  ft_null := is_null;
  ft_view := pview;
  ft_rest := prest
|}.
#[export] Instance kfs_vf_table : FlowTable K c_float c_float (hashtable_kfs_vf_t K) := {|
  ft_ret := default (float_of_int (-1));
  ft_create := ht_kfs_vf_create size;
  ft_get := ht_kfs_vf_get;
  ft_set := ht_kfs_vf_set;
  ft_del := ht_kfs_vf_del;
  ft_next := ht_kfs_vf_next;
  ft_destory := ht_kfs_vf_destory;
  ft_null := is_null;
  ft_view := pview;
  ft_rest := prest
|}.

Context (size_pos : 0 < size).

#[export] Instance kfs_vi_laws : FlowTableLaws K Z Z (hashtable_kfs_vi_t K).
Proof.
  split; simpl.
  - apply pview_not_null.
  - apply pview_respects.
  - apply pview_proper.
  - apply pview_lists.
  - by apply pview_create.
  - done.
  - done.
  - done.
  - apply kfs_vi_get_ok.
  - apply pview_set.
  - apply pview_del.
  - apply pview_next.
  - apply pview_destory.
Qed.

#[export] Instance kfs_vf_laws : FlowTableLaws K c_float c_float (hashtable_kfs_vf_t K).
Proof.
  split; simpl.
  - apply pview_not_null.
  - apply pview_respects.
  - apply pview_proper.
  - apply pview_lists.
  - by apply pview_create.
  - done.
  - done.
  - done.
  - intros p m ps k Q Hv HQ. eapply pview_read; [done|]. intros t Ht ->.
    wp_steps. eapply tview_get_locked; [done|]. by wp_steps.
  - apply pview_set.
  - apply pview_del.
  - apply pview_deref_next.
  - apply pview_destory.
Qed.
End instances.

(** The tables keyed by the 5-tuple flow *)
Section flow_instances.
Context (size : Z).
Import Vi Vf.

#[export] Instance vi_table : FlowTable flow_s Z Z hashtable_vi_t := {|
  ft_ret := int_or_minus1;
  ft_create := ht_vi_create size;
  ft_get := ht_vi_get;
  ft_set := ht_vi_set;
  ft_del := ht_vi_del;
  ft_next := ht_vi_next;
  ft_destory := ht_vi_destory;
  ft_null := is_null;
  ft_view := pview;
  ft_rest := prest
|}.
#[export] Instance vf_table : FlowTable flow_s c_float c_float hashtable_vf_t := {|
  ft_ret := default (float_of_int (-1));
  ft_create := ht_vf_create size;
  ft_get := ht_vf_get;
  ft_set := ht_vf_set;
  ft_del := ht_vf_del;
  ft_next := ht_vf_next;
  ft_destory := ht_vf_destory;
  ft_null := is_null;
  ft_view := pview;
  ft_rest := prest
|}.

Context (size_pos : 0 < size).

#[export] Instance vi_laws : FlowTableLaws flow_s Z Z hashtable_vi_t.
Proof.
  split; simpl.
  - apply pview_not_null.
  - apply pview_respects.
  - apply pview_proper.
  - apply pview_lists.
  - by apply pview_create.
  - done.
  - done.
  - done.
  - apply kfs_vi_get_ok.
  - apply pview_set.
  - apply pview_del.
  - apply pview_deref_next.
  - apply pview_destory.
Qed.

#[export] Instance vf_laws : FlowTableLaws flow_s c_float c_float hashtable_vf_t.
Proof.
  split; simpl.
  - apply pview_not_null.
  - apply pview_respects.
  - apply pview_proper.
  - apply pview_lists.
  - by apply pview_create.
  - done.
  - done.
  - done.
  - intros p m ps k Q Hv HQ. eapply pview_read; [done|]. intros t Ht ->.
    wp_steps. eapply tview_get; [done|]. by wp_steps.
  - apply pview_set.
  - apply pview_del.
  - apply pview_deref_next.
  - apply pview_destory.
Qed.
End flow_instances.
