(* ===== verification/TableProps.v ===== *)
(** * Properties of the chained flow tables

    The theorems on the four multi-thread tables, for every key type with a
    lawful comparison and hash and every number of bins: dictionary behaviour
    of any sequence of calls, iteration, release of memory, and the behaviours
    that are not safe (allocation failure, a get racing a del, a del during an
    iteration). *)
From S2P Require Import Prelude CMonad CFloat ChainedTable ChainSpec ChainHeap ChainRefine.
From S2P Require Import ChainOps ChainIter ChainLife TableSpec ChainView Murmur Flow FlowTables.

(** ** Sequences of calls on one table *)

Inductive call (K V : Type) :=
| CSet (k : K) (v : V)
| CDel (k : K)
| CGet (k : K).
Arguments CSet {K V} k v.
Arguments CDel {K V} k.
Arguments CGet {K V} k.

Section calls.
Context {K V R H : Type} `{KO : KeyOps K} {FT : FlowTable K V R H} {FL : FlowTableLaws K V R H}.
Implicit Types (c : call K V) (h : H) (m : kmap K V).

(** The calls on a table, with what the gets return *)
Definition do_call c : cmd H (list R) :=
  match c with
  | CSet k v => ft_set k v;; mret []
  | CDel k => ft_del k;; mret []
  | CGet k => r ← ft_get k; mret [r]
  end.
Fixpoint do_calls (cs : list (call K V)) : cmd H (list R) :=
  match cs with
  | [] => mret []
  | c :: cs => r ← do_call c; rs ← do_calls cs; mret (r ++ rs)
  end.

(** The calls on a map *)
Definition spec_call c m : list R * kmap K V :=
  match c with
  | CSet k v => ([], kupd k (Some v) m)
  | CDel k => ([], kupd k None m)
  | CGet k => ([ft_ret (m k)], m)
  end.
Fixpoint spec_calls (cs : list (call K V)) m : list R * kmap K V :=
  match cs with
  | [] => ([], m)
  | c :: cs =>
      let '(r, m) := spec_call c m in
      let '(rs, m) := spec_calls cs m in (r ++ rs, m)
  end.

Lemma wp_do_calls cs (Q : list R → H → Prop) h m ps :
  ft_view h m ps → ft_rest h →
  (∀ h' ps', ft_view h' (spec_calls cs m).2 ps' → ft_rest h' → Q (spec_calls cs m).1 h') →
  wp (do_calls cs) Q h.
Proof.
  revert h m ps Q. induction cs as [|c cs IH]; intros h m ps Q Hv Hr HQ.
  { wp_steps. by eapply HQ. }
  simpl do_calls. wp_steps.
  assert (∀ h' ps', ft_view h' (spec_call c m).2 ps' → ft_rest h' →
    wp (do_calls cs) (λ rs, wp (mret ((spec_call c m).1 ++ rs)) Q) h') as Hrest.
  { intros h' ps' Hv' Hr'. eapply IH; [done..|]. intros h'' ps'' Hv'' Hr''.
    apply wp_ret. simpl in HQ. destruct (spec_call c m) as [r m']. simpl in *.
    destruct (spec_calls cs m') as [rs m'']. by eapply HQ. }
  destruct c as [k v|k|k]; simpl do_call; simpl in Hrest; wp_steps.
  - eapply ft_set_ok; [done|]. intros h' ps' Hv' Hr'. wp_steps. eapply Hrest; [done|auto].
  - eapply ft_del_ok; [done|]. intros h' ps' Hv' Hr'. wp_steps. eapply Hrest; [done|auto].
  - eapply ft_get_ok; [done|]. wp_steps. by eapply Hrest.
Qed.

(** What any sequence of calls on a new table does. *)
Lemma calls_from_create cs :
  ∃ h, do_calls cs (ft_create true) = Ok ((spec_calls cs kempty).1, h) ∧
       ∃ ps, ft_view h (spec_calls cs kempty).2 ps ∧ ft_rest h.
Proof.
  destruct ft_create_ok as [Hv Hr].
  destruct (proj1 (wp_run (do_calls cs) (λ r h, r = (spec_calls cs kempty).1 ∧
    ∃ ps, ft_view h (spec_calls cs kempty).2 ps ∧ ft_rest h) (ft_create true)))
    as (r & h & E & -> & Hh); eauto.
  eapply wp_do_calls; eauto.
Qed.
End calls.

(** The key and value arguments of the calls below, on two keys *)
Definition demo_calls {V} (v w : V) : list (call FlowSrc.flow_src_t V) :=
  [CSet (FlowSrc.FlowSrcT 7) v; CSet (FlowSrc.FlowSrcT 9) w; CGet (FlowSrc.FlowSrcT 9);
   CDel (FlowSrc.FlowSrcT 9); CGet (FlowSrc.FlowSrcT 9); CGet (FlowSrc.FlowSrcT 7)].

(** ** Dictionary behaviour of the four tables *)
Section dictionary.
Context {K : Type} `{KeyLaws K} (size : Z).
Import KfsVi KfsVf Vi Vf.
#[local] Instance kfs_vi_sized : FlowTable K Z Z (hashtable_kfs_vi_t K) := kfs_vi_table size.
#[local] Instance kfs_vf_sized : FlowTable K c_float c_float (hashtable_kfs_vf_t K) :=
  kfs_vf_table size.
#[local] Instance vi_sized : FlowTable flow_s Z Z hashtable_vi_t := vi_table size.
#[local] Instance vf_sized : FlowTable flow_s c_float c_float hashtable_vf_t := vf_table size.

(** C13. [ht_kfs_vi_*] is a dictionary: after [ht_kfs_vi_create], any sequence
    of set, del and get calls runs without a fault (no bad access, no
    deadlock, every loop ends), each get returns what a finite map would, and
    the table it leaves holds exactly that map with every mutex released. *)
Theorem kfs_vi_dictionary (cs : list (call K Z)) :
  0 < size →
  ∃ p, do_calls cs (ht_kfs_vi_create size true) = Ok ((spec_calls cs kempty).1, p) ∧
       ∃ ps, pview p (spec_calls cs kempty).2 ps ∧ prest p.
Proof. intros Hn. exact (calls_from_create (FT := kfs_vi_sized) (FL := kfs_vi_laws size Hn) cs). Qed.

(** C32. So are the other three tables: [ht_kfs_vf_*], a dictionary of floats
    whose gets read the value before they release the mutex, and [ht_vi_*] and
    [ht_vf_*], keyed by the 5-tuple flow, in which flows that differ only in
    the protocol are the same key. *)
Theorem other_dictionaries (cs : list (call K c_float)) (ci : list (call flow_s Z))
    (cf : list (call flow_s c_float)) :
  0 < size →
  (∃ p, do_calls cs (ht_kfs_vf_create size true) = Ok ((spec_calls cs kempty).1, p) ∧
        ∃ ps, pview p (spec_calls cs kempty).2 ps ∧ prest p) ∧
  (∃ p, do_calls ci (ht_vi_create size true) = Ok ((spec_calls ci kempty).1, p) ∧
        ∃ ps, pview p (spec_calls ci kempty).2 ps ∧ prest p) ∧
  (∃ p, do_calls cf (ht_vf_create size true) = Ok ((spec_calls cf kempty).1, p) ∧
        ∃ ps, pview p (spec_calls cf kempty).2 ps ∧ prest p).
Proof.
  intros Hn. split_and!.
  - exact (calls_from_create (FT := kfs_vf_sized) (FL := kfs_vf_laws size Hn) cs).
  - exact (calls_from_create (FT := vi_sized) (FL := vi_laws size Hn) ci).
  - exact (calls_from_create (FT := vf_sized) (FL := vf_laws size Hn) cf).
Qed.
End dictionary.

Lemma kfs_vi_dictionary_witness :
  0 < 2 ∧ ∃ p, do_calls (FT := kfs_vi_table 2) (demo_calls 5 6) (KfsVi.ht_kfs_vi_create 2 true)
               = Ok ([6; -1; 5], p).
Proof.
  split; [lia|].
  destruct (kfs_vi_dictionary (K := FlowSrc.flow_src_t) 2 (demo_calls 5 6)) as (p & E & _); [lia|].
  exists p. exact E.
Defined.

Definition half : c_float := int_ratio 1 2.
(** A get with another protocol finds the flow. *)
Definition demo_flow_calls {V} (v : V) : list (call flow_s V) :=
  [CSet (Flow 1 2 3 4 6) v; CGet (Flow 1 2 3 4 17); CGet (Flow 1 2 3 5 6)].
Lemma other_dictionaries_witness :
  0 < 2 ∧
  (∃ p, do_calls (FT := kfs_vf_table 2) (demo_calls half half) (KfsVf.ht_kfs_vf_create 2 true)
        = Ok ([half; float_of_int (-1); half], p)) ∧
  (∃ p, do_calls (FT := vi_table 2) (demo_flow_calls 5) (Vi.ht_vi_create 2 true) = Ok ([5; -1], p)) ∧
  (∃ p, do_calls (FT := vf_table 2) (demo_flow_calls half) (Vf.ht_vf_create 2 true)
        = Ok ([half; float_of_int (-1)], p)).
Proof.
  split; [lia|]. destruct (other_dictionaries (K := FlowSrc.flow_src_t) 2 (demo_calls half half)
    (demo_flow_calls 5) (demo_flow_calls half)) as ((p & E & _) & (q & E' & _) & (r & E'' & _)); [lia|].
  split; [exists p; exact E|]. split; [exists q; exact E'|exists r; exact E''].
Defined.

(** ** Iteration, release and refresh *)
Section life_props.
Context {K : Type} `{KeyLaws K} (size : Z).
Import KfsVi.
#[local] Instance kfs_vi_sized' : FlowTable K Z Z (hashtable_kfs_vi_t K) := kfs_vi_table size.

(** A table reached by calls from a new one *)
Lemma calls_reach (cs : list (call K Z)) :
  0 < size →
  ∃ t, do_calls cs (ht_kfs_vi_create size true) = Ok ((spec_calls cs kempty).1, PLive t) ∧
    ∃ cells, rep t cells ∧ quiet t ∧ key_map cells t ≡ (spec_calls cs kempty).2 ∧ at_start t.
Proof.
  intros Hn. destruct (calls_from_create (FT := kfs_vi_sized') (FL := kfs_vi_laws size Hn) cs)
    as (p & E & ps & Hv & Hr).
  destruct p as [| |t]; [done..|]. exists t. split; [exact E|].
  destruct Hv as (cells & R & Hq & Em & _). eauto 10.
Qed.

(** C23. A loop on [ht_kfs_vi_next] over a table built by any calls ends,
    yields every entry of the map exactly once, and leaves the table as it
    was with the iterator reset, so that the next loop yields the same. *)
Theorem kfs_vi_next_iterates (cs : list (call K Z)) :
  0 < size →
  ∃ t es, do_calls cs (ht_kfs_vi_create size true) = Ok ((spec_calls cs kempty).1, PLive t) ∧
    lists (spec_calls cs kempty).2 es ∧
    ∀ fuel, (length es < fuel)%nat → collect fuel t = Ok (es, t).
Proof.
  intros Hn. destruct (calls_reach cs Hn) as (t & E & cells & R & Hq & Em & Hs).
  exists t, (pairs (entries t cells)). split; [exact E|].
  rewrite <- Em. split; [by apply entries_lists|]. intros fuel Hf.
  assert (wp (collect fuel) (λ r t', r = pairs (entries t cells) ∧ t' = t) t) as Hw.
  { eapply wp_collect; [done|apply Hq| |].
    - rewrite pending_at_start by done. by rewrite <- (length_fmap (λ c, (ckey c, cval c))).
    - rewrite pending_at_start by done. split; [done|]. destruct Hs as [Hc Hl].
      destruct t as [? []]. unfold cursor, last_visit in *. simpl in *. by subst. }
  apply wp_run in Hw as (r & t' & E' & -> & ->). done.
Qed.

(** [ht_kfs_vi_destory] on a table built by any calls frees every node
    of every chain exactly once: its loop leaves no live node, and the whole
    operation returns. *)
Theorem kfs_vi_destory_frees (cs : list (call K Z)) :
  0 < size →
  ∃ t, do_calls cs (ht_kfs_vi_create size true) = Ok ((spec_calls cs kempty).1, PLive t) ∧
    (∃ s, tbl_free_nodes t = Ok (tt, s) ∧ heap (tarena s) = ∅) ∧
    ht_kfs_vi_destory (PLive t) = Ok (tt, PFreed).
Proof.
  intros Hn. destruct (calls_reach cs Hn) as (t & E & cells & R & [Hh _] & _).
  exists t. split; [exact E|]. split; [|by eapply wp_tbl_destory].
  assert (wp tbl_free_nodes (λ _ s, heap (tarena s) = ∅) t) as Hw.
  { eapply wp_tbl_free_nodes; [done|]. by intros. }
  apply wp_run in Hw as ([] & s & ? & ?). eauto.
Qed.

(** [ht_kfs_vi_refresh] takes a table built by any calls back to an empty
    one, with no live node, every mutex free and the iterator reset. *)
Theorem kfs_vi_refresh_empties (cs : list (call K Z)) :
  0 < size →
  ∃ t t', do_calls cs (ht_kfs_vi_create size true) = Ok ((spec_calls cs kempty).1, PLive t) ∧
    ht_kfs_vi_refresh (PLive t) = Ok (tt, PLive t') ∧
    tview t' kempty [] ∧ at_start t' ∧ heap (tarena t') = ∅ ∧ held (tarena t') = ∅.
Proof.
  intros Hn. destruct (calls_reach cs Hn) as (t & E & cells & R & Hq & _).
  assert (wp ht_kfs_vi_refresh (λ _ p, ∃ t', p = PLive t' ∧ empty_table t') (PLive t)) as Hw.
  { apply wp_unless_null. eapply wp_tbl_refresh; [done..|]. eauto. }
  apply wp_run in Hw as ([] & ? & E' & t' & -> & He). exists t, t'.
  pose proof (tview_empty _ He) as [Hv Hs]. destruct He as (_ & _ & [Hh _] & Hheap). done.
Qed.
End life_props.

Lemma kfs_vi_next_iterates_witness :
  0 < 2 ∧ ∃ t es,
    do_calls (FT := kfs_vi_table 2) (demo_calls 5 6) (KfsVi.ht_kfs_vi_create 2 true)
    = Ok ([6; -1; 5], PLive t) ∧ collect (S (length es)) t = Ok (es, t).
Proof.
  split; [lia|].
  destruct (kfs_vi_next_iterates (K := FlowSrc.flow_src_t) 2 (demo_calls 5 6))
    as (t & es & E & _ & Hc); [lia|].
  exists t, es. split; [exact E|]. apply Hc. lia.
Defined.
Lemma kfs_vi_destory_frees_witness :
  0 < 2 ∧ ∃ t,
    do_calls (FT := kfs_vi_table 2) (demo_calls 5 6) (KfsVi.ht_kfs_vi_create 2 true)
    = Ok ([6; -1; 5], PLive t) ∧ KfsVi.ht_kfs_vi_destory (PLive t) = Ok (tt, PFreed).
Proof.
  split; [lia|].
  destruct (kfs_vi_destory_frees (K := FlowSrc.flow_src_t) 2 (demo_calls 5 6))
    as (t & E & _ & Hd); [lia|]. exists t. split; [exact E|exact Hd].
Defined.
Lemma kfs_vi_refresh_empties_witness :
  0 < 2 ∧ ∃ t t',
    do_calls (FT := kfs_vi_table 2) (demo_calls 5 6) (KfsVi.ht_kfs_vi_create 2 true)
    = Ok ([6; -1; 5], PLive t) ∧ KfsVi.ht_kfs_vi_refresh (PLive t) = Ok (tt, PLive t').
Proof.
  split; [lia|].
  destruct (kfs_vi_refresh_empties (K := FlowSrc.flow_src_t) 2 (demo_calls 5 6))
    as (t & t' & E & Hd & _); [lia|]. exists t, t'. split; [exact E|exact Hd].
Defined.

(** ** A small table, for concrete instances of the theorems below

    Two entries in the only bin; the iterator has just yielded the first. *)
Definition key7 := FlowSrc.FlowSrcT 7.
Definition key9 := FlowSrc.FlowSrcT 9.
Definition demo_cells : list (cell FlowSrc.flow_src_t Z) :=
  [Cell 1%positive key7 5; Cell 2%positive key9 6].
Definition demo_chains : Z → list (cell FlowSrc.flow_src_t Z) := <[0 := demo_cells]> no_cells.
Definition demo_table (sched : list bool) : tstate FlowSrc.flow_src_t Z :=
  TState (Arena (<[1%positive := Node key7 5 (Some 2%positive)]>
                 (<[2%positive := Node key9 6 None]> ∅)) 3%positive sched ∅)
         (Table 1 (<[0 := Some 1%positive]> ∅) 0 (Some 1%positive)).

Lemma demo_rep sched : rep (demo_table sched) demo_chains.
Proof.
  unfold demo_chains. constructor; unfold theap, size_of, cursor, last_visit, bin_of, demo_table;
    cbn [tarena ttable heap tsize bins brk next_current_bin next_last_visit_entry].
  - lia.
  - intros b Hb. assert (b = 0) as -> by lia. exists (Some 1%positive).
    split; [reflexivity|]. rewrite fn_lookup_insert. split; [reflexivity|]. exists (Some 2%positive).
    split; [reflexivity|]. split; [reflexivity|]. by exists None.
  - intros b Hb. rewrite fn_lookup_insert_ne by lia. done.
  - intros b. unfold insert, fn_insert. case_decide; [|constructor].
    repeat constructor.
  - intros b c. unfold insert, fn_insert. case_decide as Eb; intros Hc; [|set_solver].
    subst b. apply elem_of_cons in Hc as [->|Hc]; [done|].
    apply list_elem_of_singleton in Hc as ->. done.
  - intros a [n Ha]. exists 0. rewrite fn_lookup_insert.
    apply lookup_insert_Some in Ha as [[<- _]|[_ Ha]]; [set_solver|].
    apply lookup_insert_Some in Ha as [[<- _]|[_ Ha]]; [set_solver|]. by rewrite lookup_empty in Ha.
  - intros a [n Ha].
    apply lookup_insert_Some in Ha as [[<- _]|[_ Ha]]; [lia|].
    apply lookup_insert_Some in Ha as [[<- _]|[_ Ha]]; [lia|]. by rewrite lookup_empty in Ha.
  - lia.
  - intros a [= <-]. rewrite fn_lookup_insert. set_solver.
Qed.

Lemma demo_view : tview (demo_table []) (key_map demo_chains (demo_table [])) [(key9, 6)].
Proof. exists demo_chains. split; [apply demo_rep|]. split; [done|]. split; [done|reflexivity]. Qed.

(** ** What is not safe *)
Section hazards.
Context {K V : Type} `{KeyLaws K}.
Implicit Types (t : tstate K V) (m : kmap K V).

Definition with_mallocs (sched : list bool) t : tstate K V :=
  TState (Arena (heap (tarena t)) (brk (tarena t)) sched (held (tarena t))) (ttable t).

(** The insertion of a pair that could not be allocated *)
Lemma link_without_memory t cells k v p :
  rep t cells → mallocs (tarena t) = [false] →
  bins (ttable t) !! bin_of k t = Some p → seg (theap t) p (cells (bin_of k t)) None →
  tbl_link k v (bin_of k t) (lastp None (before k (cells (bin_of k t))))
    (headp (after k (cells (bin_of k t)))) t
  = if decide (before k (cells (bin_of k t)) ≠ [] ∧ after k (cells (bin_of k t)) = [])
    then Ok (tt, with_mallocs [] t) else Fault NullDeref.
Proof.
  intros R Hm Hp Hs. pose proof (bin_of_range _ _ k R) as Hb.
  pose proof (rep_NoDup _ _ (bin_of k t) R) as Hnd.
  rewrite <- (before_after k (cells (bin_of k t))) in Hs, Hnd.
  apply seg_split in Hs as [Hs1 Hs2]. pose proof (seg_head_ne _ _ _ _ Hs1 Hnd) as Hhd.
  unfold tbl_link, tbl_newpair.
  erewrite bind_ok
    by (unfold on_arena, zoom, malloc; rewrite Hm; reflexivity).
  erewrite bind_ok by (apply wp_exact; eapply wp_read_bin; [exact Hb|exact Hp|done]).
  destruct (decide (headp (after k (cells (bin_of k t))) = p)) as [Hcase|Hcase].
  { rewrite decide_False; [done|]. intros [Hn _]. apply Hn, Hhd. done. }
  destruct (decide (headp (after k (cells (bin_of k t))) = None)) as [Hend|Hend].
  - assert (after k (cells (bin_of k t)) = []) as Ea
      by (by destruct (after k (cells (bin_of k t)))).
    rewrite decide_True by (split; [|done]; intros Hn; apply Hcase; symmetry; by apply Hhd).
    rewrite Ea in *.
    destruct (before k (cells (bin_of k t))) as [|c0 l0 _] eqn:Eb using rev_ind.
    { destruct Hcase. symmetry. by apply Hhd. }
    assert (theap t !! caddr c0 = Some (Node (ckey c0) (cval c0) None)) as Hc0.
    { apply seg_app in Hs1 as (x & _ & (-> & r' & Hr' & ->)). done. }
    unfold lastp. rewrite last_snoc. apply wp_exact, wp_on_arena.
    eapply wp_update; [exact Hc0|]. split; [done|]. unfold set_heap, with_mallocs. simpl.
    by rewrite insert_id.
  - rewrite decide_False; [done|]. intros [_ Ea]. by rewrite Ea in Hend.
Qed.

(** C33. The allocation in [ht_*_set] is not checked.  When it fails for a key
    that is not in the table, the code writes through the NULL pointer,
    except at the end of a non-empty chain, where the pair is dropped without
    any sign and the table stays as it was. *)
Theorem tbl_set_without_memory t cells k v :
  rep t cells → held (tarena t) = ∅ → mallocs (tarena t) = [false] →
  lookup_key cells k t = None →
  tbl_set k v t =
  if decide (before k (cells (bin_of k t)) ≠ [] ∧ after k (cells (bin_of k t)) = [])
  then Ok (tt, with_mallocs [] t) else Fault NullDeref.
Proof.
  intros R Hh Hm Hk. pose proof (bin_of_range _ _ k R) as Hb.
  destruct (rep_bin _ _ R _ Hb) as (p & Hp & Hs).
  pose proof (with_lock_rep (bin_of k t) _ _ R) as R'.
  assert (hit_ok k (after k (cells (bin_of k t))) = false) as Hmiss.
  { unfold lookup_key, l_get in Hk. rewrite hit_find in Hk. destruct (hit_ok _ _) eqn:E; [|done].
    apply hit_ok_cons in E as (c & r & E & _). by rewrite E in Hk. }
  unfold tbl_set. erewrite bind_ok by reflexivity.
  change ((key_bin k ∘ tsize ∘ ttable) t) with (bin_of k t).
  erewrite bind_ok by (apply wp_exact, wp_mutex_lock; [done|rewrite Hh; set_solver|done]).
  erewrite bind_ok by (apply wp_exact; eapply wp_read_bin; [exact Hb|exact Hp|done]).
  erewrite bind_ok by reflexivity.
  erewrite bind_ok by (apply wp_exact; eapply (wp_walk _ _ _ _ (cells (bin_of k t)));
    [exact Hs|by eapply (rep_fuel (with_lock _ t))|done]).
  cbv beta iota.
  erewrite bind_ok by (apply wp_exact; apply wp_hit; [by eapply (seg_after (with_lock _ t))|done]).
  cbv iota.
  pose proof (link_without_memory (with_lock (bin_of k t) t) cells k v p R' Hm Hp Hs) as Hl.
  change (bin_of k (with_lock (bin_of k t) t)) with (bin_of k t) in Hl.
  case_decide; [|by apply bind_fault]. erewrite bind_ok by exact Hl.
  apply wp_exact. apply (wp_mutex_relock _ _ (with_mallocs [] t)); [done| |done].
  simpl. rewrite Hh. set_solver.
Qed.

(** C34. A get that releases the mutex before it reads the value races with a
    del: after one thread has found the entry of a key and left the critical
    section, a second thread may delete the key, and the first then reads a
    freed node. *)
Theorem tbl_get_races_del t m ps k v :
  tview t m ps → m k = Some v →
  ∃ entry t', tbl_find k t = Ok (entry, t) ∧ tbl_del k t = Ok (tt, t') ∧
              read_value entry t = Ok (Some v, t) ∧ read_value entry t' = Fault Dangling.
Proof.
  intros (cells & R & [Hh Hm] & Em & _) Hk. rewrite <- (Em k) in Hk.
  unfold key_map, lookup_key, l_get in Hk.
  apply fmap_Some in Hk as (c & Hc & ->).
  assert (tbl_find k t = Ok (Some (caddr c), t)) as Ef.
  { apply wp_exact. eapply wp_tbl_find; [done|rewrite Hh; set_solver|]. by rewrite Hc. }
  assert (wp (tbl_del k) (λ _ t', del_post k t cells t') t) as Hd.
  { eapply wp_tbl_del; [done|rewrite Hh; set_solver|done]. }
  apply wp_run in Hd as ([] & t' & Ed & R' & Hsz & _).
  exists (Some (caddr c)), t'. split_and!; [done|done| |].
  - apply wp_exact. pose proof (wp_read_value k (λ b s, b = Some (cval c) ∧ s = t) t cells (bin_of k t) R)
      as Hw. unfold l_get in Hw. rewrite Hc in Hw. by apply Hw.
  - unfold read_value. apply bind_fault. unfold on_arena, zoom, load.
    destruct (heap (tarena t') !! caddr c) as [n|] eqn:En; [exfalso|done].
    destruct (rep_live _ _ R' (caddr c)) as [b Hb]; [by eexists|].
    apply elem_of_addrs in Hb as (d & Hd & Ea).
    assert (d ∈ cells b ∧ (b = bin_of k t → key_compare k (ckey d) ≠ 0)) as [Hd' Hne].
    { destruct (decide (b = bin_of k t)) as [->|Hne].
      - rewrite fn_lookup_insert in Hd. apply elem_of_l_del in Hd as [??]; [done|apply R].
      - rewrite fn_lookup_insert_ne in Hd by done. done. }
    apply l_find_Some in Hc as [Hc Ek]; [|apply R].
    destruct (rep_addr_inj _ _ _ _ _ _ R Hc Hd' (eq_sym Ea)) as [<- <-]. by apply Hne.
Qed.

(** C30. Deleting the entry an iteration has just yielded makes the iteration
    skip the entry after it in the same bin: the iterator is moved onto that
    entry as if it had been visited. *)
Theorem tbl_del_skips_next t cells c d l1 l2 :
  rep t cells → quiet t → cells (cursor t) = l1 ++ c :: d :: l2 →
  last_visit t = Some (caddr c) →
  pending t cells = d :: l2 ++ from_bin cells (size_of t) (cursor t + 1) ∧
  ∃ t' cells', tbl_del (ckey c) t = Ok (tt, t') ∧ rep t' cells' ∧ d ∈ entries t' cells' ∧
    pending t' cells' = l2 ++ from_bin cells (size_of t) (cursor t + 1).
Proof.
  intros R [Hh Hm] E Hl. set (b := cursor t) in *. pose proof (rep_NoDup _ _ b R) as Hnd.
  assert (c ∈ cells b) as Hc by (rewrite E; set_solver).
  assert (bin_of (ckey c) t = b) as Eb by (by eapply rep_hash).
  split.
  { unfold pending. rewrite Hl. fold b. by rewrite (after_addr_split (caddr c) (cells b) l1 c (d :: l2)). }
  assert (wp (tbl_del (ckey c)) (λ _ t', del_post (ckey c) t cells t') t) as Hd.
  { eapply wp_tbl_del; [done|rewrite Hh; set_solver|done]. }
  apply wp_run in Hd as ([] & t' & Ed & R' & Hsz & Hcur & Hlv & _). rewrite Eb in *.
  pose proof (rep_sorted _ _ R b) as HS. rewrite E in HS.
  pose proof (before_after_mid _ _ _ HS) as [_ Ea]. pose proof (l_del_mid _ _ _ HS) as El.
  rewrite <- E in Ea, El. rewrite El in R'.
  assert (last_visit t' = Some (caddr d)) as Hl'.
  { rewrite Hlv, Hl. unfold del_last. rewrite Ea. unfold hit_ok.
    rewrite bool_decide_eq_true_2 by apply compare_refl. by rewrite decide_True. }
  pose proof (rep_in_range _ _ _ _ R (rep_last _ _ R _ Hl)) as Hb. fold b in Hb.
  exists t', (<[b := l1 ++ d :: l2]> cells). split_and!; [done|done| |].
  - apply elem_of_from_bin. exists b. split; [lia|]. rewrite fn_lookup_insert. set_solver.
  - unfold pending. rewrite Hl', Hcur, Hsz, fn_lookup_insert, from_bin_insert by lia. f_equal.
    apply (after_addr_split _ _ l1 d); [|done..].
    pose proof (rep_NoDup _ _ b R') as Hnd'. by rewrite fn_lookup_insert in Hnd'.
Qed.
End hazards.

Lemma tbl_set_without_memory_witness :
  rep (demo_table [false]) demo_chains ∧
  tbl_set (FlowSrc.FlowSrcT 3) 1 (demo_table [false]) = Fault NullDeref ∧
  tbl_set (FlowSrc.FlowSrcT 8) 1 (demo_table [false]) = Fault NullDeref ∧
  tbl_set (FlowSrc.FlowSrcT 11) 1 (demo_table [false]) = Ok (tt, demo_table []).
Proof.
  split; [apply demo_rep|].
  split; [|split]; (etransitivity;
    [apply (tbl_set_without_memory _ _ _ _ (demo_rep [false])); reflexivity|reflexivity]).
Defined.
Lemma tbl_get_races_del_witness :
  ∃ entry t', tbl_find key9 (demo_table []) = Ok (entry, demo_table []) ∧
    tbl_del key9 (demo_table []) = Ok (tt, t') ∧ read_value entry t' = Fault Dangling.
Proof.
  destruct (tbl_get_races_del _ _ _ key9 6 demo_view) as (entry & t' & ? & ? & _ & ?);
    [reflexivity|eauto].
Defined.
Lemma tbl_del_skips_next_witness :
  pending (demo_table []) demo_chains = [Cell 2%positive key9 6] ∧
  ∃ t' cells', tbl_del key7 (demo_table []) = Ok (tt, t') ∧
    Cell 2%positive key9 6 ∈ entries t' cells' ∧ pending t' cells' = [].
Proof.
  destruct (tbl_del_skips_next (demo_table []) demo_chains
              (Cell 1%positive key7 5) (Cell 2%positive key9 6) [] [] (demo_rep []))
    as (E & t' & cells' & ? & _ & ? & ?); [by split|reflexivity|reflexivity|].
  split; [exact E|eauto 10].
Defined.

(** ** Copying a table *)
Section copy.
Context {K : Type} `{KeyLaws K} (size : Z).
Import KfsVi.

Lemma wp_copy_loop fuel ps done_ m mr (ret : hashtable_kfs_vi_t K) qs
    (Q : hashtable_kfs_vi_t K → hashtable_kfs_vi_t K → Prop) p :
  pview p m ps → (length ps < fuel)%nat → distinct (done_ ++ ps) →
  pview ret mr qs → prest ret → lists mr done_ →
  (∀ ret' p' mr' qs' ps', pview p' m ps' → prest p' →
     pview ret' mr' qs' → prest ret' → lists mr' (done_ ++ ps) → Q ret' p') →
  wp (copy_loop fuel ret) Q p.
Proof.
  revert ps done_ mr ret qs p. induction fuel as [|fuel IH];
    intros ps done_ mr ret qs p Hv Hf Hd Hr Hrest Hl HQ; [lia|].
  simpl. wp_steps. eapply pview_next; [exact Hv|]. destruct ps as [|[k v] ps].
  - intros p' ps' Hv' Hr'. wp_steps. rewrite app_nil_r in HQ. by eapply HQ.
  - intros p' Hv'. wp_steps. unfold wp at 1, lift.
    assert (wp (ht_kfs_vi_set k v) (λ _ r, ∃ qs', pview r (kupd k (Some v) mr) qs' ∧ prest r) ret)
      as Hset.
    { eapply pview_set; [exact Hr|]. intros r' qs' ??. eauto. }
    apply wp_run in Hset as ([] & r' & -> & qs' & Hvr & Hrr). cbv beta iota.
    rewrite (assoc_L (++) done_ [(k, v)] ps : done_ ++ (k, v) :: ps = (done_ ++ [(k, v)]) ++ ps) in Hd, HQ.
    eapply (IH ps (done_ ++ [(k, v)])); [done|simpl in Hf; lia|exact Hd|done|done| |exact HQ].
    apply (lists_snoc mr done_ (k, v) Hl). eapply distinct_sublist; [|exact Hd].
    by apply sublist_inserts_r.
Qed.

(** [ht_kfs_vi_copy] uses the iterator of its source: the copy holds
    exactly the entries the source's iterator had still to yield, which is
    the whole map when no iteration is in progress; the source keeps its map,
    and any iteration over it is reset. *)
Theorem kfs_vi_copy_spec t m ps :
  0 < size → tview t m ps →
  ∃ t' ret mr, ht_kfs_vi_copy size true (PLive t) = Ok (PLive ret, PLive t') ∧
    (∃ ps', tview t' m ps') ∧ at_start t' ∧
    (∃ qs, tview ret mr qs) ∧ at_start ret ∧ lists mr ps ∧ (at_start t → mr ≡ m).
Proof.
  intros Hn Hv. pose proof (tview_pending _ _ _ Hv) as [Hd Hf].
  assert (wp (ht_kfs_vi_copy size true) (λ ret p', ∃ ps' mr qs, pview p' m ps' ∧ prest p' ∧
            pview ret mr qs ∧ prest ret ∧ lists mr ps) (PLive t)) as Hw.
  { destruct (pview_create (K := K) (V := Z) size Hn) as [Hc Hr].
    change (wp (copy_loop (chain_fuel t) (ht_kfs_vi_create size true))
      (λ ret p', ∃ ps' mr qs, pview p' m ps' ∧ prest p' ∧
            pview ret mr qs ∧ prest ret ∧ lists mr ps) (PLive t)).
    eapply (wp_copy_loop _ ps []); [exact Hv|done|done|exact Hc|exact Hr|apply lists_empty|].
    intros ret' p' mr' qs' ps' ?????. eauto 10. }
  apply wp_run in Hw as (ret & p' & E & ps' & mr & qs & Hv' & Hr' & Hvr & Hrr & Hl).
  destruct p' as [| |t']; [done..|]. destruct ret as [| |ret]; [done..|].
  exists t', ret, mr. split_and!; eauto. intros Hs.
  eapply lists_unique; [exact Hl|by eapply tview_lists|by eapply tview_respects..].
Qed.
End copy.

Lemma kfs_vi_copy_spec_witness :
  0 < 1 ∧ ∃ t' ret mr, KfsVi.ht_kfs_vi_copy 1 true (PLive (demo_table [])) = Ok (PLive ret, PLive t') ∧
    lists mr [(key9, 6)] ∧ at_start t'.
Proof.
  split; [lia|].
  destruct (kfs_vi_copy_spec 1 _ _ _ ltac:(lia) demo_view) as (t' & ret & mr & ? & _ & ? & _ & _ & ? & _).
  exists t', ret, mr. split; [assumption|split; assumption].
Defined.

(** ** The [int] a get returns *)

(** The table stores 32-bit unsigned values but [ht_*_get] returns [int]:
    a stored value comes back unchanged exactly when it is below [2^31]; above
    that the caller sees a negative number, which it takes for a missing key,
    and [2^32 - 1] is the very code for a missing key. *)
Theorem kfs_vi_get_int_range {K} `{KeyLaws K} t (m : kmap K Z) ps k v :
  tview t m ps → m k = Some v → in_u 32 v →
  ∃ r, KfsVi.ht_kfs_vi_get k (PLive t) = Ok (r, PLive t) ∧
    (r = v ↔ v < 2 ^ 31) ∧ (0 <= r ↔ v < 2 ^ 31) ∧ (r = -1 ↔ v = 2 ^ 32 - 1).
Proof.
  intros Hv Hk Hr. exists (i32 v). split.
  - apply wp_exact. eapply (kfs_vi_get_ok (PLive t)); [exact Hv|]. by rewrite Hk.
  - pose proof (i32_nonneg_iff v Hr) as Hnn. split_and!; [|done|].
    + destruct (decide (v < 2 ^ 31)); [rewrite i32_of_u32_low|rewrite i32_of_u32_high]; unfold in_u in *; lia.
    + destruct (decide (v < 2 ^ 31)); [rewrite i32_of_u32_low|rewrite i32_of_u32_high]; unfold in_u in *; lia.
Qed.

Lemma kfs_vi_get_int_range_witness :
  in_u 32 6 ∧ ∃ r, KfsVi.ht_kfs_vi_get key9 (PLive (demo_table [])) = Ok (r, PLive (demo_table [])) ∧
    (0 <= r ↔ 6 < 2 ^ 31).
Proof.
  split; [unfold in_u; lia|].
  destruct (kfs_vi_get_int_range _ _ _ key9 6 demo_view) as (r & ? & _ & ? & _);
    [reflexivity|unfold in_u; lia|]. exists r. split; assumption.
Defined.
