(* ===== verification/FlowProps.v ===== *)
(** * Properties of the hashes and of the flow keys *)
From S2P Require Import Prelude CMonad ChainedTable Murmur Flow.
Import X86_32.

Lemma fmix64_in_u x : in_u 64 x → in_u 64 (fmix64 x).
Proof. intros Hx. unfold fmix64. cbv zeta. apply xorshift_in_u; [lia..|word]. Qed.

(** The finalizers of MurmurHash3 permute the machine words: [fmix32] and
    [fmix64] map words to words and are injective, so they lose nothing. *)
Theorem fmix_permutes :
  (∀ x, in_u 32 x → in_u 32 (fmix32 x)) ∧
  (∀ x y, in_u 32 x → in_u 32 y → fmix32 x = fmix32 y → x = y) ∧
  (∀ x, in_u 64 x → in_u 64 (fmix64 x)) ∧
  (∀ x y, in_u 64 x → in_u 64 y → fmix64 x = fmix64 y → x = y).
Proof.
  split_and!; [apply fmix32_in_u|apply fmix32_injective|apply fmix64_in_u|apply fmix64_injective].
Qed.

(** Two keys of whole 32-bit blocks that differ in exactly one block, at
    any position, never have the same [MurmurHash3_x86_32], whatever the seed. *)
Theorem murmur_one_block_differs seed ps k k' ss :
  in_u 32 seed → Forall (in_u 32) (ps ++ ss) → in_u 32 k → in_u 32 k' → k ≠ k' →
  MurmurHash3_x86_32 (block_bytes (ps ++ k :: ss)) seed
  ≠ MurmurHash3_x86_32 (block_bytes (ps ++ k' :: ss)) seed.
Proof. intros Hs HF Hk Hk' Hne E. apply Hne. exact (murmur_one_block seed ps k k' ss Hs HF Hk Hk' E). Qed.

Lemma murmur_one_block_differs_witness :
  in_u 32 42 ∧
  MurmurHash3_x86_32 (block_bytes [10; 1]) 42 ≠ MurmurHash3_x86_32 (block_bytes [10; 2]) 42.
Proof.
  split; [word|]. apply (murmur_one_block_differs 42 [10] 1 2 []); [word| |word..|lia].
  by repeat constructor; unfold in_u.
Defined.

(** In both builds, flows of one source never share a 32-bit hash: the
    hash of a [flow_src_t] of the FLOW_SRC build is injective, and in the
    FLOW_SRC_DST build two flows with the same source (or the same destination)
    and different other address hash differently, before the reduction to a
    bin. *)
Theorem flow_hash_no_collision_per_source :
  (∀ s s', in_u 32 s → in_u 32 s' →
     MurmurHash3_x86_32 (block_bytes [s]) 42 = MurmurHash3_x86_32 (block_bytes [s']) 42 → s = s') ∧
  (∀ s d d', in_u 32 s → in_u 32 d → in_u 32 d' →
     MurmurHash3_x86_32 (block_bytes [s; d]) 42 = MurmurHash3_x86_32 (block_bytes [s; d']) 42 → d = d') ∧
  (∀ s s' d, in_u 32 s → in_u 32 s' → in_u 32 d →
     MurmurHash3_x86_32 (block_bytes [s; d]) 42 = MurmurHash3_x86_32 (block_bytes [s'; d]) 42 → s = s').
Proof.
  assert (in_u 32 42) as H42 by word.
  split; [|split].
  - intros s s' Hs Hs' E. by apply (murmur_one_block 42 [] s s' []) in E; [|done|constructor|..].
  - intros s d d' Hs Hd Hd' E.
    by apply (murmur_one_block 42 [s] d d' []) in E; [|done|repeat constructor; apply Hs|..].
  - intros s s' d Hs Hs' Hd E.
    by apply (murmur_one_block 42 [] s s' [d]) in E; [|done|repeat constructor; apply Hd|..].
Qed.

(** [flow_src_hash_bin] reduces the hash without a [%]: in 32-bit unsigned
    arithmetic [hash - map_size * (hash / map_size)] never wraps and is the
    remainder, so the bin is in the table (in the FLOW_SRC_DST build: what
    [hash] holds when the function reaches its end without a [return]). *)
Theorem flow_src_hash_bin_in_table map_size :
  0 < map_size →
  (∀ p, FlowSrc.flow_src_hash_bin p map_size
        = MurmurHash3_x86_32 (block_bytes [FlowSrc.srcip p]) 42 mod map_size) ∧
  (∀ p, FlowSrcDst.flow_src_hash p map_size
        = MurmurHash3_x86_32 (block_bytes [FlowSrcDst.srcip p; FlowSrcDst.dstip p]) 42 mod map_size) ∧
  (∀ p, 0 <= FlowSrc.flow_src_hash_bin p map_size < map_size) ∧
  (∀ p, 0 <= FlowSrcDst.flow_src_hash p map_size < map_size).
Proof.
  intros Hn. split_and!; intros p.
  - apply hash_to_bin_mod; [|done]. apply murmur_blocks_in_u; [word|done].
  - apply hash_to_bin_mod; [|done]. apply murmur_blocks_in_u; [word|done].
  - by apply flow_src_bin_range.
  - by apply flow_src_hash_range.
Qed.

Lemma flow_src_hash_bin_in_table_witness :
  0 < 100 ∧ 0 <= FlowSrc.flow_src_hash_bin (FlowSrc.FlowSrcT 167772161) 100 < 100.
Proof.
  split; [lia|]. destruct (flow_src_hash_bin_in_table 100) as (_ & _ & Hr & _); [lia|apply Hr].
Defined.

(** [flow_compare] is a total order on the addresses and ports that does
    not look at the protocol, and [ht_*_hash] puts flows that compare equal in
    the same bin; [flow_src_compare] is a total order on [flow_src_t] in both
    builds.  (The order is antisymmetric and transitive, and 0 means equal.) *)
Theorem flow_compare_total_order :
  (∀ a b, flow_compare a b = 0 ↔
     f_srcip a = f_srcip b ∧ f_dstip a = f_dstip b ∧
     f_src_port a = f_src_port b ∧ f_dst_port a = f_dst_port b) ∧
  (∀ a b, flow_compare a b = 0 ∨ flow_compare a b = 1 ∨ flow_compare a b = -1) ∧
  (∀ a b, flow_compare a b = - flow_compare b a) ∧
  (∀ a b c, 0 < flow_compare a b → 0 < flow_compare b c → 0 < flow_compare a c) ∧
  (∀ a b n, flow_compare a b = 0 → flow_hash a n = flow_hash b n) ∧
  (∀ a b, FlowSrcDst.flow_src_compare a b = 0 ↔ a = b) ∧
  (∀ a b, FlowSrc.flow_src_compare a b = 0 ↔ a = b).
Proof.
  split_and!.
  - apply flow_compare_eq.
  - intros a b. unfold flow_compare. compare_cases.
  - intros a b. change (key_compare a b = - key_compare b a). apply compare_anti.
  - intros a b c. change (0 < key_compare a b → 0 < key_compare b c → 0 < key_compare a c).
    apply compare_trans.
  - intros a b n. change (key_compare a b = 0 → key_bin a n = key_bin b n). apply bin_eq.
  - apply flow_src_dst_compare_eq.
  - intros [a] [b]. unfold FlowSrc.flow_src_compare. simpl.
    split; [|intros [= ->]; by rewrite decide_True]. compare_cases.
Qed.
