(* ===== verification/FixSizeTable.v ===== *)
(** * The fixed-size table (public_lib/mt_hashtable_kFlowSrc_fixsize.c)

    One entry per bin: a flow that hashes to an occupied bin is dropped, or
    replaces the entry by the priority of its selected level when replacement
    is configured.  Bins are guarded by [HASH_MAP_MUTEX_SIZE] mutexes, bin [b]
    by mutex [b % HASH_MAP_MUTEX_SIZE].  The table is modelled with its entries
    as heap nodes; [contents] is what it holds, and every operation is proved to
    act on [contents] as a function on one bin. *)
From S2P Require Import Prelude CMonad ChainedTable.

(** The macro of hashtable.h *)
Definition HASH_MAP_MUTEX_SIZE : Z := 100.

(** [++x] on an [int] *)
Definition int_incr {S} (x : Z) : cmd S Z :=
  if decide (x < 2 ^ 31 - 1) then mret (x + 1) else throw SignedOverflow.

Section fixsize.
Context {K : Type} `{KeyOps K}.
(** [cm_experiment_setting.replacement] *)
Context (replacement : bool).

Record entry := Entry { ekey : K; selected_level : Z; evalue : Z }.

Record ftable := FTable {
  fsize : Z;
  collision_times : Z;
  slots : gmap Z (option loc);
  fnext_current_bin : Z
}.
Record fstate := FState { farena : arena entry; ft : ftable }.

Definition on_farena {A} (c : cmd (arena entry) A) : cmd fstate A :=
  zoom farena (λ m t, FState m (ft t)) c.

Definition read_slot (b : Z) : cmd fstate (option loc) := λ t,
  if decide (0 <= b < fsize (ft t)) then
    match slots (ft t) !! b with Some p => Ok (p, t) | None => Fault Uninit end
  else Fault OutOfBounds.
Definition write_slot (b : Z) (p : option loc) : cmd fstate unit := λ t,
  if decide (0 <= b < fsize (ft t)) then
    Ok (tt, FState (farena t) (FTable (fsize (ft t)) (collision_times (ft t))
                                 (<[b := p]> (slots (ft t))) (fnext_current_bin (ft t))))
  else Fault OutOfBounds.
Definition set_collisions (n : Z) : cmd fstate unit :=
  modify (λ t, FState (farena t) (FTable (fsize (ft t)) n (slots (ft t)) (fnext_current_bin (ft t)))).
Definition set_next_bin (b : Z) : cmd fstate unit :=
  modify (λ t, FState (farena t) (FTable (fsize (ft t)) (collision_times (ft t)) (slots (ft t)) b)).
Definition count_collision : cmd fstate unit :=
  n ← gets (collision_times ∘ ft); n ← int_incr n; set_collisions n.

Definition stripe_lock (b : Z) : cmd fstate unit :=
  on_farena (lock HASH_MAP_MUTEX_SIZE (b mod HASH_MAP_MUTEX_SIZE)).
Definition stripe_unlock (b : Z) : cmd fstate unit :=
  on_farena (unlock HASH_MAP_MUTEX_SIZE (b mod HASH_MAP_MUTEX_SIZE)).

(** [ht_kfs_fixSize_create]: the allocation of the array of slots is not
    checked *)
Definition ht_kfs_fixSize_create (size : Z) (sched : list bool) : res (ptr fstate) :=
  match sched with
  | false :: _ => Ok PNull
  | _ =>
      match tail sched with
      | false :: sched' =>
          if decide (0 < size) then Fault NullDeref
          else Ok (PLive (FState (Arena ∅ 1%positive sched' ∅) (FTable size 0 ∅ (-1))))
      | sched' =>
          let null_slots := foldl (λ s i, <[i := None]> s) ∅ (seqZ 0 size) in
          Ok (PLive (FState (Arena ∅ 1%positive (tail sched') ∅) (FTable size 0 null_slots (-1))))
      end
  end.

(** [ht_kfs_fixSize_newpair] *)
Definition ht_kfs_fixSize_newpair (key : K) (value level : Z) : cmd fstate (option loc) :=
  on_farena (malloc (Entry key level value)).

Definition compare_entry (key : K) (p : option loc) : cmd fstate Z :=
  e ← on_farena (load p); mret (key_compare key (ekey e)).

(** The parts every operation shares: the bin of the key and its mutex *)
Definition in_slot {A} (key : K) (body : Z → option loc → cmd fstate A) : cmd fstate A :=
  bin ← gets (key_bin key ∘ fsize ∘ ft);
  stripe_lock bin;;
  next ← read_slot bin;
  r ← body bin next;
  stripe_unlock bin;;
  mret r.

(** [ht_kfs_fixSize_get], for a table that is not NULL: the value and the
    level, or [None] for -1 *)
Definition fix_get (key : K) : cmd fstate (option (Z * Z)) :=
  in_slot key (λ _ pair,
    match pair with
    | None => mret None
    | Some _ =>
        c ← compare_entry key pair;
        if decide (c ≠ 0) then mret None else
        e ← on_farena (load pair); mret (Some (evalue e, selected_level e))
    end).

(** A new entry in the slot, whatever [malloc] gives *)
Definition fill_slot (bin : Z) (key : K) (value level : Z) : cmd fstate unit :=
  newpair ← ht_kfs_fixSize_newpair key value level;
  write_slot bin newpair.

(** [ht_kfs_fixSize_add_value] *)
Definition fix_add_value (key : K) (delta_value : Z) : cmd fstate unit :=
  in_slot key (λ bin next,
    match next with
    | Some _ =>
        c ← compare_entry key next;
        if decide (c = 0)
        then on_farena (update next (λ e, Entry (ekey e) (selected_level e)
                                            (u32 (evalue e + delta_value))))
        else count_collision
    | None => fill_slot bin key delta_value 0
    end).

(** [ht_kfs_fixSize_add_value_and_update_selected_level_info] *)
Definition fix_add_value_and_level (key : K) (delta_value level : Z) : cmd fstate unit :=
  in_slot key (λ bin next,
    match next with
    | Some _ =>
        c ← compare_entry key next;
        if decide (c = 0) then
          on_farena (update next (λ e, Entry (ekey e) level (u32 (evalue e + delta_value))))
        else
          count_collision;;
          if replacement then
            e ← on_farena (load next);
            if decide (selected_level e >= level) then mret tt
            else on_farena (free next);; fill_slot bin key delta_value level
          else mret tt
    | None => fill_slot bin key delta_value level
    end).

(** [ht_kfs_fixSize_set_selected_level] *)
Definition fix_set_selected_level (key : K) (level : Z) : cmd fstate unit :=
  in_slot key (λ bin next,
    match next with
    | Some _ =>
        c ← compare_entry key next;
        if decide (c = 0) then
          on_farena (update next (λ e, Entry (ekey e) level (evalue e)))
        else if decide (level = 0) then mret tt
        else
          count_collision;;
          if replacement then
            e ← on_farena (load next);
            if decide (selected_level e > level ∨ selected_level e = level ∧ evalue e > 0)
            then mret tt
            else if decide (level >= selected_level e) then
              on_farena (free next);; fill_slot bin key 0 level
            else mret tt
          else mret tt
    | None =>
        if replacement && bool_decide (level > 0) then fill_slot bin key 0 level else mret tt
    end).

(** [ht_kfs_fixSize_del] *)
Definition fix_del (key : K) : cmd fstate unit :=
  in_slot key (λ bin next,
    match next with
    | Some _ =>
        c ← compare_entry key next;
        if decide (c = 0) then on_farena (free next);; write_slot bin None else mret tt
    | None => mret tt
    end).

(** The loop of [ht_kfs_fixSize_next]; the level of the entry is not copied *)
Fixpoint fix_scan (fuel : nat) : cmd fstate (option (K * Z)) :=
  match fuel with
  | O => throw OutOfFuel
  | S fuel =>
      tb ← gets ft;
      let cur := fnext_current_bin tb + 1 in
      set_next_bin cur;;
      if decide (cur >= fsize tb) then set_next_bin (-1);; mret None
      else
        stripe_lock cur;;
        iterator ← read_slot cur;
        match iterator with
        | Some _ =>
            e ← on_farena (load iterator);
            stripe_unlock cur;;
            mret (Some (ekey e, evalue e))
        | None => stripe_unlock cur;; fix_scan fuel
        end
  end.
Definition fix_next : cmd fstate (option (K * Z)) :=
  tb ← gets ft;
  if decide (fnext_current_bin tb >= fsize tb) then mret None
  else fix_scan (Z.to_nat (fsize tb + 2)).

(** [if (p_node) free(p_node)] for a slot *)
Definition free_slot (i : Z) : cmd fstate unit :=
  p_node ← read_slot i; on_farena (free p_node).

(** [ht_kfs_fixSize_refresh] *)
Definition fix_refresh : cmd fstate unit :=
  n ← gets (fsize ∘ ft);
  for_range (Z.to_nat n) 0 (λ i, stripe_lock i;; free_slot i;; write_slot i None;; stripe_unlock i);;
  set_collisions 0;;
  set_next_bin (-1).

Definition fix_free_entries : cmd fstate unit :=
  n ← gets (fsize ∘ ft);
  for_range (Z.to_nat n) 0 free_slot.

(** ** The API, on a pointer to a table *)
Definition ht_kfs_fixSize_get (key : K) : cmd (ptr fstate) (option (Z * Z)) :=
  unless_null None (fix_get key).
(** [ht_kfs_fixSize_is_sampled] *)
Definition ht_kfs_fixSize_is_sampled (key : K) : cmd (ptr fstate) bool :=
  r ← ht_kfs_fixSize_get key;
  mret (match r with Some (value, _) => bool_decide (value > 0) | None => false end).
Definition ht_kfs_fixSize_add_value (key : K) (delta_value : Z) : cmd (ptr fstate) unit :=
  unless_null tt (fix_add_value key delta_value).
Definition ht_kfs_fixSize_add_value_and_update_selected_level_info
    (key : K) (delta_value level : Z) : cmd (ptr fstate) unit :=
  unless_null tt (fix_add_value_and_level key delta_value level).
Definition ht_kfs_fixSize_set_selected_level (key : K) (level : Z) : cmd (ptr fstate) unit :=
  unless_null tt (fix_set_selected_level key level).
Definition ht_kfs_fixSize_del (key : K) : cmd (ptr fstate) unit := unless_null tt (fix_del key).
Definition ht_kfs_fixSize_next : cmd (ptr fstate) (option (K * Z)) := unless_null None fix_next.
Definition ht_kfs_fixSize_refresh : cmd (ptr fstate) unit := unless_null tt fix_refresh.
Definition ht_kfs_fixSize_destory : cmd (ptr fstate) unit := λ p,
  match p with
  | PNull => Ok (tt, PNull)
  | PFreed => Fault Dangling
  | PLive t =>
      match fix_free_entries t with
      | Ok (_, t) => if decide (held (farena t) = ∅) then Ok (tt, PFreed) else Fault LockBusy
      | Fault e => Fault e
      end
  end.
End fixsize.
Arguments entry K : clear implicits.
Arguments fstate K : clear implicits.
