(* ===== verification/FixSizeSpec.v ===== *)
(** * The fixed-size table refines a decision on one slot

    What an operation does to the slot of its key is a [slot_action], chosen by
    a pure function of the entry in the slot.  [fwf] is the invariant of the
    table (slots and live entries correspond one to one); every operation keeps
    it, whatever [malloc] gives, and performs its action on [contents]. *)
From S2P Require Import Prelude CMonad ChainedTable FixSizeTable.

Section policy.
Context {K : Type} `{KeyOps K} (replacement : bool).
Implicit Types (o : option (entry K)).

Inductive slot_action :=
| Keep                       (** nothing changes *)
| Collide                    (** the entry stays, the collision is counted *)
| Overwrite (e : entry K)    (** the entry is updated in place *)
| Fill (e : entry K)         (** an empty slot gets a new entry *)
| Replace (e : entry K)      (** the collision is counted, a new entry replaces the old *)
| Clear.                     (** the entry is removed *)

Definition act_add (key : K) (delta : Z) o : slot_action :=
  match o with
  | None => Fill (Entry key 0 delta)
  | Some e =>
      if decide (key_compare key (ekey e) = 0)
      then Overwrite (Entry (ekey e) (selected_level e) (u32 (evalue e + delta)))
      else Collide
  end.

Definition act_add_level (key : K) (delta level : Z) o : slot_action :=
  match o with
  | None => Fill (Entry key level delta)
  | Some e =>
      if decide (key_compare key (ekey e) = 0)
      then Overwrite (Entry (ekey e) level (u32 (evalue e + delta)))
      else if replacement && bool_decide (selected_level e < level)
      then Replace (Entry key level delta) else Collide
  end.

Definition act_set_level (key : K) (level : Z) o : slot_action :=
  match o with
  | None => if replacement && bool_decide (0 < level) then Fill (Entry key level 0) else Keep
  | Some e =>
      if decide (key_compare key (ekey e) = 0) then Overwrite (Entry (ekey e) level (evalue e))
      else if decide (level = 0) then Keep
      else if replacement && (bool_decide (selected_level e < level) ||
                              bool_decide (selected_level e = level ∧ evalue e <= 0))
      then Replace (Entry key level 0) else Collide
  end.

Definition act_del (key : K) o : slot_action :=
  match o with
  | Some e => if decide (key_compare key (ekey e) = 0) then Clear else Keep
  | None => Keep
  end.

(** The allocation of an entry: NULL leaves the slot empty *)
Definition alloc (sched : list bool) (e : entry K) : option (entry K) :=
  match sched with false :: _ => None | _ => Some e end.

(** The slot, the collisions counted and the malloc outcomes after an action *)
Definition act_slot (a : slot_action) (sched : list bool) o : option (entry K) :=
  match a with
  | Keep | Collide => o
  | Overwrite e => Some e
  | Fill e | Replace e => alloc sched e
  | Clear => None
  end.
Definition act_collisions (a : slot_action) : Z :=
  match a with Collide | Replace _ => 1 | _ => 0 end.
Definition act_mallocs (a : slot_action) (sched : list bool) : list bool :=
  match a with Fill _ | Replace _ => tail sched | _ => sched end.
End policy.
Arguments slot_action K : clear implicits.

Section spec.
Context {K : Type} `{KeyLaws K} (replacement : bool).
Implicit Types (t : fstate K) (key : K).

(** What is in slot [b] *)
Definition contents t (b : Z) : option (entry K) :=
  slots (ft t) !! b ≫= λ p, p ≫= λ a, heap (farena t) !! a.

Definition fbin key t : Z := key_bin key (fsize (ft t)).
Definition colls t : Z := collision_times (ft t).
Definition fcursor t : Z := fnext_current_bin (ft t).
Definition fmallocs t : list bool := mallocs (farena t).
Definition fheld t : gset Z := held (farena t).

Record fwf t : Prop := {
  fwf_size : 0 < fsize (ft t);
  fwf_slot b : 0 <= b < fsize (ft t) ↔ is_Some (slots (ft t) !! b);
  fwf_live b a : slots (ft t) !! b = Some (Some a) → is_Some (heap (farena t) !! a);
  fwf_inj b1 b2 a : slots (ft t) !! b1 = Some (Some a) → slots (ft t) !! b2 = Some (Some a) → b1 = b2;
  fwf_owned a : is_Some (heap (farena t) !! a) → ∃ b, slots (ft t) !! b = Some (Some a);
  fwf_brk a : is_Some (heap (farena t) !! a) → (a < brk (farena t))%positive;
  fwf_cursor : -1 <= fcursor t < fsize (ft t);
  fwf_coll : 0 <= colls t;
  fwf_hash b e : contents t b = Some e → fbin (ekey e) t = b
}.

Definition with_held (l : gset Z) t : fstate K := FState (set_held l (farena t)) (ft t).

Lemma fwf_with_held l t : fwf t → fwf (with_held l t).
Proof. intros W. by destruct W. Qed.

Lemma fbin_range key t : fwf t → 0 <= fbin key t < fsize (ft t).
Proof. intros W. apply bin_range, W. Qed.

(** The pointer in a slot and what it points to *)
Lemma slot_cases t b :
  fwf t → 0 <= b < fsize (ft t) →
  (slots (ft t) !! b = Some None ∧ contents t b = None) ∨
  (∃ a e, slots (ft t) !! b = Some (Some a) ∧ heap (farena t) !! a = Some e ∧ contents t b = Some e).
Proof.
  intros W Hb. apply (fwf_slot _ W) in Hb as [[a|] Hp]; unfold contents; rewrite Hp; [right|by left].
  destruct (fwf_live _ W b a Hp) as [e He]. exists a, e. simpl. by rewrite He.
Qed.

(** What an operation leaves: slot [b] holds [o], the rest is as before. *)
Definition slot_post (b : Z) (o : option (entry K)) (dc : Z) (sched : list bool) t t' : Prop :=
  fwf t' ∧ (∀ b', contents t' b' = if decide (b' = b) then o else contents t b') ∧
  fsize (ft t') = fsize (ft t) ∧ colls t' = colls t + dc ∧ fcursor t' = fcursor t ∧
  fmallocs t' = sched ∧ fheld t' = fheld t.

(** Changing what one slot points to keeps the invariant. *)
Lemma slot_post_change t b (p' : option loc) h' brk' sched dc (o : option (entry K)) :
  fwf t → 0 <= b < fsize (ft t) → 0 <= dc →
  (∀ a, (∀ q, slots (ft t) !! b = Some q → q ≠ Some a) → p' ≠ Some a → h' !! a = heap (farena t) !! a) →
  (∀ a, slots (ft t) !! b = Some (Some a) → p' ≠ Some a → h' !! a = None) →
  (o = p' ≫= λ a, h' !! a) → (∀ a, p' = Some a → is_Some (h' !! a)) →
  (∀ a, p' = Some a → slots (ft t) !! b = Some (Some a) ∨
                      heap (farena t) !! a = None ∧ (a < brk')%positive) →
  (brk (farena t) <= brk')%positive →
  (∀ e, o = Some e → fbin (ekey e) t = b) →
  slot_post b o dc sched t
    (FState (Arena h' brk' sched (held (farena t)))
       (FTable (fsize (ft t)) (colls t + dc) (<[b := p']> (slots (ft t))) (fcursor t))).
Proof.
  intros W Hb Hdc Hsame Hgone Ho Hp' Hnew Hbrk Hkey.
  assert (∀ b' a, b' ≠ b → slots (ft t) !! b' = Some (Some a) →
            p' ≠ Some a ∧ h' !! a = heap (farena t) !! a) as Hother.
  { intros b' a Hne Ha.
    assert (p' ≠ Some a) as Hpa.
    { intros ->. destruct (Hnew a eq_refl) as [Hs|[Hn _]].
      - apply Hne. by eapply (fwf_inj _ W).
      - destruct (fwf_live _ W _ _ Ha). congruence. }
    split; [done|]. apply Hsame; [|done]. intros q Hq ->. apply Hne. by eapply (fwf_inj _ W). }
  assert (∀ b', contents (FState (Arena h' brk' sched (held (farena t)))
       (FTable (fsize (ft t)) (colls t + dc) (<[b := p']> (slots (ft t))) (fcursor t))) b'
     = if decide (b' = b) then o else contents t b') as Hcont.
  { intros b'. unfold contents. simpl. destruct (decide (b' = b)) as [->|Hne].
    - rewrite lookup_insert_eq. simpl. by rewrite Ho.
    - rewrite lookup_insert_ne by done. destruct (slots (ft t) !! b') as [[a|]|] eqn:E; [|done..].
      simpl. by apply (Hother b' a). }
  split; [|by repeat split]. pose proof (fwf_coll _ W). constructor; simpl.
  - apply W.
  - intros b'. destruct (decide (b' = b)) as [->|Hne].
    + rewrite lookup_insert_eq. split; [by eexists|done].
    + rewrite lookup_insert_ne by done. apply W.
  - intros b' a. destruct (decide (b' = b)) as [->|Hne].
    + rewrite lookup_insert_eq. intros [= ->]. by apply Hp'.
    + rewrite lookup_insert_ne by done. intros Ha. destruct (Hother b' a Hne Ha) as [_ ->].
      by apply (fwf_live _ W b').
  - intros b1 b2 a. destruct (decide (b1 = b)) as [->|Hn1], (decide (b2 = b)) as [->|Hn2]; [done|..];
      rewrite ?lookup_insert_eq, ?lookup_insert_ne by done.
    + intros [= ->] Ha. by destruct (Hother b2 a Hn2 Ha).
    + intros Ha [= ->]. by destruct (Hother b1 a Hn1 Ha).
    + apply W.
  - intros a Ha. destruct (decide (p' = Some a)) as [->|Hpa].
    { exists b. apply lookup_insert_eq. }
    destruct (decide (slots (ft t) !! b = Some (Some a))) as [Hs|Hs].
    { rewrite (Hgone a Hs Hpa) in Ha. by destruct Ha. }
    rewrite Hsame in Ha; [|intros q Hq ->; done|done].
    destruct (fwf_owned _ W a Ha) as [b' Hb']. exists b'.
    rewrite lookup_insert_ne; [done|]. intros <-. done.
  - intros a Ha. destruct (decide (p' = Some a)) as [->|Hpa].
    { destruct (Hnew a eq_refl) as [Hs|[_ ?]]; [|done].
      pose proof (fwf_brk _ W a (fwf_live _ W _ _ Hs)). lia. }
    destruct (decide (slots (ft t) !! b = Some (Some a))) as [Hs|Hs].
    { rewrite (Hgone a Hs Hpa) in Ha. by destruct Ha. }
    rewrite Hsame in Ha; [|intros q Hq ->; done|done].
    pose proof (fwf_brk _ W a Ha). lia.
  - apply W.
  - unfold colls. simpl. unfold colls in *. lia.
  - intros b' e. rewrite Hcont. case_decide as E; [subst; apply Hkey|apply W].
Qed.

(** ** The commands on a slot *)

Lemma wp_on_farena {A} (c : cmd (arena (entry K)) A) (Q : A → fstate K → Prop) t :
  wp c (λ a m, Q a (FState m (ft t))) (farena t) → wp (on_farena c) Q t.
Proof. exact (wp_zoom farena _ c Q t). Qed.

Lemma wp_read_slot b p (Q : option loc → fstate K → Prop) t :
  0 <= b < fsize (ft t) → slots (ft t) !! b = Some p → Q p t → wp (read_slot b) Q t.
Proof. intros Hb Hp HQ. unfold wp, read_slot. rewrite decide_True by done. by rewrite Hp. Qed.

Lemma wp_write_slot b p (Q : unit → fstate K → Prop) t :
  0 <= b < fsize (ft t) →
  Q tt (FState (farena t) (FTable (fsize (ft t)) (colls t) (<[b := p]> (slots (ft t))) (fcursor t))) →
  wp (write_slot b p) Q t.
Proof. intros Hb HQ. unfold wp, write_slot. by rewrite decide_True. Qed.

Lemma wp_fload a e (Q : entry K → fstate K → Prop) t :
  heap (farena t) !! a = Some e → Q e t → wp (on_farena (load (Some a))) Q t.
Proof. intros He HQ. apply wp_on_farena. eapply wp_load; [exact He|]. by destruct t. Qed.

Lemma slot_post_colls b o dc n sched t t' :
  slot_post b o 0 sched (FState (farena t) (FTable (fsize (ft t)) n (slots (ft t)) (fcursor t))) t' →
  n = colls t + dc → slot_post b o dc sched t t'.
Proof.
  intros (W & Hc & Hs & Hn & Hcur & Hm & Hh) ->. split_and!; try done.
  rewrite Hn. unfold colls. simpl. unfold colls. lia.
Qed.

Lemma slot_post_keep b t :
  fwf t → slot_post b (contents t b) 0 (fmallocs t) t t.
Proof.
  intros W. split_and!; try done; [|lia]. intros b'. by case_decide; subst.
Qed.

Lemma wp_count_collision (Q : unit → fstate K → Prop) t :
  colls t < 2 ^ 31 - 1 →
  Q tt (FState (farena t) (FTable (fsize (ft t)) (colls t + 1) (slots (ft t)) (fcursor t))) →
  wp count_collision Q t.
Proof.
  intros Hc HQ. unfold count_collision. wp_steps. unfold int_incr. simpl.
  rewrite decide_True by done. wp_steps. unfold set_collisions. by wp_steps.
Qed.

Lemma fwf_more_colls t n :
  fwf t → 0 <= n → fwf (FState (farena t) (FTable (fsize (ft t)) n (slots (ft t)) (fcursor t))).
Proof. intros W Hn. by destruct W. Qed.

(** What [malloc] does, for both outcomes *)
Lemma wp_malloc_any {N} (n : N) m (Q : option loc → arena N → Prop) :
  (head (mallocs m) = Some false → Q None (Arena (heap m) (brk m) (tail (mallocs m)) (held m))) →
  (head (mallocs m) ≠ Some false →
   Q (Some (brk m)) (Arena (<[brk m := n]> (heap m)) (Pos.succ (brk m)) (tail (mallocs m)) (held m))) →
  wp (malloc n) Q m.
Proof. intros HN HS. unfold wp, malloc. destruct (mallocs m) as [|[] sched]; auto. Qed.

Lemma alloc_head sched (e : entry K) :
  alloc sched e = if decide (head sched = Some false) then None else Some e.
Proof. by destruct sched as [|[] sched]. Qed.

(** An entry into a slot that holds NULL or a pointer just freed *)
Lemma wp_fill_slot b key v lv h (Q : unit → fstate K → Prop) t :
  fwf t → 0 <= b < fsize (ft t) → fbin key t = b →
  (∀ a, slots (ft t) !! b = Some (Some a) → h !! a = None) →
  (∀ a, slots (ft t) !! b ≠ Some (Some a) → h !! a = heap (farena t) !! a) →
  (∀ t', slot_post b (alloc (fmallocs t) (Entry key lv v)) 0 (tail (fmallocs t)) t t' → Q tt t') →
  wp (fill_slot b key v lv) Q (FState (set_heap h (farena t)) (ft t)).
Proof.
  intros W Hb Hk Hfreed Hrest HQ. unfold fill_slot, ht_kfs_fixSize_newpair.
  assert (heap (farena t) !! brk (farena t) = None) as Hfresh.
  { destruct (heap (farena t) !! brk (farena t)) eqn:E; [|done].
    pose proof (fwf_brk _ W _ (mk_is_Some _ _ E)). lia. }
  wp_steps. apply wp_on_farena, wp_malloc_any; simpl; intros Hm;
    (apply wp_write_slot; [done|]); apply HQ; rewrite alloc_head;
    unfold colls; simpl; replace (collision_times (ft t)) with (colls t + 0) by (unfold colls; lia).
  - rewrite decide_True by done. apply (slot_post_change t b None); try done; try lia.
    + intros a Hq _. apply Hrest. intros Hs. by apply (Hq _ Hs).
    + intros a Ha _. by apply Hfreed.
  - rewrite decide_False by done.
    apply (slot_post_change t b (Some (brk (farena t)))); try done; try lia.
    + intros a Hq Hne. rewrite lookup_insert_ne by congruence. apply Hrest. intros Hs. by apply (Hq _ Hs).
    + intros a Ha Hne. rewrite lookup_insert_ne by congruence. by apply Hfreed.
    + simpl. by rewrite lookup_insert_eq.
    + intros a [= <-]. rewrite lookup_insert_eq. by eexists.
    + intros a [= <-]. right. split; [done|lia].
    + intros e [= <-]. done.
Qed.

Lemma wp_overwrite_slot b a e f (Q : unit → fstate K → Prop) t :
  fwf t → 0 <= b < fsize (ft t) → slots (ft t) !! b = Some (Some a) →
  heap (farena t) !! a = Some e → ekey (f e) = ekey e →
  (∀ t', slot_post b (Some (f e)) 0 (fmallocs t) t t' → Q tt t') →
  wp (on_farena (update (Some a) f)) Q t.
Proof.
  intros W Hb Hs He Hf HQ. apply wp_on_farena. eapply wp_update; [exact He|]. apply HQ.
  unfold set_heap. destruct t as [[h bk ms hd] [n c s cur]]. simpl in *.
  pose proof (slot_post_change (FState (Arena h bk ms hd) (FTable n c s cur)) b (Some a)
                (<[a := f e]> h) bk ms 0 (Some (f e))) as Hch.
  unfold colls, fcursor in Hch. simpl in Hch. rewrite (insert_id s), Z.add_0_r in Hch by done.
  apply Hch; try done; try lia.
  - intros a' _ Hne. rewrite lookup_insert_ne; [done|]. congruence.
  - intros a' Ha' Hne. congruence.
  - by rewrite lookup_insert_eq.
  - intros a' [= <-]. rewrite lookup_insert_eq. by eexists.
  - intros a' [= <-]. by left.
  - intros e' [= <-]. rewrite Hf. apply (fwf_hash _ W b). unfold contents. simpl. rewrite Hs. exact He.
Qed.

Lemma wp_clear_slot b a e (Q : unit → fstate K → Prop) t :
  fwf t → 0 <= b < fsize (ft t) → slots (ft t) !! b = Some (Some a) →
  heap (farena t) !! a = Some e →
  (∀ t', slot_post b None 0 (fmallocs t) t t' → Q tt t') →
  wp (on_farena (free (Some a));; write_slot b None) Q t.
Proof.
  intros W Hb Hs He HQ. wp_steps. apply wp_on_farena. eapply wp_free; [exact He|].
  apply wp_write_slot; [done|]. apply HQ. unfold colls. simpl.
  replace (collision_times (ft t)) with (colls t + 0) by (unfold colls; lia).
  apply (slot_post_change t b None); try done; try lia.
  - intros a' Hq _. simpl. rewrite lookup_delete_ne; [done|]. intros <-. by apply (Hq _ Hs).
  - intros a' Ha' _. simpl. assert (a' = a) as -> by congruence. apply lookup_delete_eq.
Qed.

(** Freeing the entry and allocating a new one *)
Lemma wp_replace_slot b a e key v lv (Q : unit → fstate K → Prop) t :
  fwf t → 0 <= b < fsize (ft t) → fbin key t = b → slots (ft t) !! b = Some (Some a) →
  heap (farena t) !! a = Some e →
  (∀ t', slot_post b (alloc (fmallocs t) (Entry key lv v)) 0 (tail (fmallocs t)) t t' → Q tt t') →
  wp (on_farena (free (Some a));; fill_slot b key v lv) Q t.
Proof.
  intros W Hb Hk Hs He HQ. wp_steps. apply wp_on_farena. eapply wp_free; [exact He|].
  apply wp_fill_slot; [done..| | |done].
  - intros a' Ha'. assert (a' = a) as -> by congruence. apply lookup_delete_eq.
  - intros a' Ha'. rewrite lookup_delete_ne; [done|]. intros <-. done.
Qed.

Lemma wp_fill_empty b key v lv (Q : unit → fstate K → Prop) t :
  fwf t → 0 <= b < fsize (ft t) → fbin key t = b → slots (ft t) !! b = Some None →
  (∀ t', slot_post b (alloc (fmallocs t) (Entry key lv v)) 0 (tail (fmallocs t)) t t' → Q tt t') →
  wp (fill_slot b key v lv) Q t.
Proof.
  intros W Hb Hk Hs HQ.
  replace t with (FState (set_heap (heap (farena t)) (farena t)) (ft t)) at 1 by (by destruct t as [[]]).
  apply wp_fill_slot; [done..| |done|done]. intros a Ha. congruence.
Qed.

(** ** The operations *)

Definition act_post key (a : slot_action K) t t' : Prop :=
  slot_post (fbin key t) (act_slot a (fmallocs t) (contents t (fbin key t)))
    (act_collisions a) (act_mallocs a (fmallocs t)) t t'.

Definition stripe key t : Z := fbin key t mod HASH_MAP_MUTEX_SIZE.

(** The critical section of an operation *)
Lemma wp_in_slot {A} key (body : Z → option loc → cmd (fstate K) A) (Q : A → fstate K → Prop) t :
  fwf t → fheld t = ∅ →
  (∀ p, slots (ft t) !! fbin key t = Some p →
     wp (body (fbin key t) p)
       (λ r u, fheld u = {[stripe key t]} ∧ Q r (with_held ∅ u))
       (with_held {[stripe key t]} t)) →
  wp (in_slot key body) Q t.
Proof.
  intros W Hh HQ. pose proof (fbin_range key t W) as Hb.
  pose proof (proj1 (fwf_slot _ W _) Hb) as [p Hp].
  assert (0 <= stripe key t < HASH_MAP_MUTEX_SIZE) as Hst by (apply Z.mod_pos_bound; done).
  unfold in_slot. wp_steps. change ((key_bin key ∘ fsize ∘ ft) t) with (fbin key t).
  unfold stripe_lock. apply wp_on_farena, wp_lock; [done|unfold fheld in Hh; rewrite Hh; set_solver|].
  replace (FState (set_held ({[fbin key t mod HASH_MAP_MUTEX_SIZE]} ∪ held (farena t)) (farena t)) (ft t))
    with (with_held {[stripe key t]} t)
    by (unfold with_held, stripe; unfold fheld in Hh; rewrite Hh; by rewrite (right_id_L ∅ (∪))).
  wp_steps. eapply wp_read_slot; [done|exact Hp|]. wp_steps.
  eapply wp_mono; [by apply HQ|]. intros r u [Hu HQu]. wp_steps.
  unfold stripe_unlock. apply wp_on_farena, wp_unlock; [done|unfold fheld in Hu; rewrite Hu; set_solver|].
  wp_steps. unfold with_held in HQu.
  replace (held (farena u) ∖ {[fbin key t mod HASH_MAP_MUTEX_SIZE]}) with (∅ : gset Z); [done|].
  unfold fheld in Hu. rewrite Hu. unfold stripe. set_solver.
Qed.

(** An operation whose body performs an action *)
Lemma wp_in_slot_act key body (act : option (entry K) → slot_action K)
    (Q : unit → fstate K → Prop) t :
  fwf t → fheld t = ∅ →
  (∀ u p, fwf u → colls u = colls t → fbin key u = fbin key t →
     slots (ft u) !! fbin key u = Some p →
     wp (body (fbin key u) p) (λ _ u', act_post key (act (contents u (fbin key u))) u u') u) →
  (∀ t', act_post key (act (contents t (fbin key t))) t t' → fheld t' = ∅ → Q tt t') →
  wp (in_slot key body) Q t.
Proof.
  intros W Hh Hbody HQ. apply wp_in_slot; [done..|]. intros p Hp.
  eapply wp_mono; [apply (Hbody (with_held {[stripe key t]} t)); [by apply fwf_with_held|done..]|].
  intros [] u (Wu & Hc & Hs & Hn & Hcur & Hm & Hhu). split; [done|]. apply HQ; [|done].
  split_and!; [by apply fwf_with_held|done..].
Qed.

Lemma wp_compare_entry key a e (Q : Z → fstate K → Prop) t :
  heap (farena t) !! a = Some e → Q (key_compare key (ekey e)) t →
  wp (compare_entry key (Some a)) Q t.
Proof. intros He HQ. unfold compare_entry. wp_steps. eapply wp_fload; [exact He|]. by wp_steps. Qed.

Lemma act_post_keep key t a :
  fwf t → act_slot a (fmallocs t) (contents t (fbin key t)) = contents t (fbin key t) →
  act_collisions a = 0 → act_mallocs a (fmallocs t) = fmallocs t → act_post key a t t.
Proof. intros W E1 E2 E3. unfold act_post. rewrite E1, E2, E3. by apply slot_post_keep. Qed.

(** The two cases of the body of an operation: the slot is empty ([Ec]) or
    holds the entry [e] at [a] ([Hs], [He], [Ec]). *)
Ltac slot_split key u W Hp :=
  let Hb := fresh "Hb" in
  pose proof (fbin_range key u W) as Hb;
  let Hs := fresh "Hs" in let Ec := fresh "Ec" in
  destruct (slot_cases u _ W Hb) as [[Hs Ec]|(a & e & Hs & He & Ec)];
  rewrite Hs in Hp; injection Hp as <-; rewrite Ec.

(** The collision is counted and the slot kept. *)
Definition counted u : fstate K :=
  FState (farena u) (FTable (fsize (ft u)) (colls u + 1) (slots (ft u)) (fcursor u)).

Lemma counted_post key u : fwf u → act_post key Collide u (counted u).
Proof.
  intros W. unfold act_post. simpl. eapply slot_post_colls; [|reflexivity].
  pose proof (fwf_coll _ W). apply (slot_post_keep _ (counted u)).
  apply fwf_more_colls; [done|lia].
Qed.

(** The collision is counted and the entry replaced. *)
Lemma wp_collide_replace key a e v lv (Q : unit → fstate K → Prop) u :
  fwf u → slots (ft u) !! fbin key u = Some (Some a) → heap (farena u) !! a = Some e →
  (∀ u', act_post key (Replace (Entry key lv v)) u u' → Q tt u') →
  wp (on_farena (free (Some a));; fill_slot (fbin key u) key v lv) Q
     (counted u).
Proof.
  intros W Hs He HQ. pose proof (fwf_coll _ W). pose proof (fbin_range key u W).
  eapply wp_replace_slot; [apply fwf_more_colls; [done|lia]|done|done|exact Hs|exact He|].
  intros t' Ht'. apply HQ. eapply slot_post_colls; [exact Ht'|done].
Qed.

Lemma wp_fix_add_value key delta (Q : unit → fstate K → Prop) t :
  fwf t → fheld t = ∅ → colls t < 2 ^ 31 - 1 →
  (∀ t', act_post key (act_add key delta (contents t (fbin key t))) t t' → fheld t' = ∅ → Q tt t') →
  wp (fix_add_value key delta) Q t.
Proof.
  intros W Hh Hc HQ. apply (wp_in_slot_act key _ (act_add key delta)); [done..| |done].
  intros u p Wu Hcu _ Hp. slot_split key u Wu Hp.
  - apply wp_fill_empty; [done..|]. intros t' Ht'. unfold act_post. by rewrite Ec.
  - wp_steps. eapply wp_compare_entry; [exact He|]. simpl. case_decide.
    + eapply wp_overwrite_slot; [done..|]. done.
    + apply wp_count_collision; [lia|]. by apply counted_post.
Qed.

Lemma wp_fix_add_value_and_level key delta level (Q : unit → fstate K → Prop) t :
  fwf t → fheld t = ∅ → colls t < 2 ^ 31 - 1 →
  (∀ t', act_post key (act_add_level replacement key delta level (contents t (fbin key t))) t t' →
         fheld t' = ∅ → Q tt t') →
  wp (fix_add_value_and_level replacement key delta level) Q t.
Proof.
  intros W Hh Hc HQ.
  apply (wp_in_slot_act key _ (act_add_level replacement key delta level)); [done..| |done].
  intros u p Wu Hcu _ Hp. slot_split key u Wu Hp.
  - apply wp_fill_empty; [done..|]. intros t' Ht'. unfold act_post. by rewrite Ec.
  - wp_steps. eapply wp_compare_entry; [exact He|]. simpl. case_decide.
    + eapply wp_overwrite_slot; [done..|]. done.
    + destruct replacement; simpl.
      * wp_steps. apply wp_count_collision; [lia|]. wp_steps.
        eapply wp_fload; [exact He|]. case_decide.
        -- wp_steps. rewrite bool_decide_eq_false_2 by lia. by apply counted_post.
        -- rewrite bool_decide_eq_true_2 by lia. by eapply wp_collide_replace.
      * wp_steps. apply wp_count_collision; [lia|]. wp_steps. by apply counted_post.
Qed.

Lemma wp_fix_set_selected_level key level (Q : unit → fstate K → Prop) t :
  fwf t → fheld t = ∅ → colls t < 2 ^ 31 - 1 →
  (∀ t', act_post key (act_set_level replacement key level (contents t (fbin key t))) t t' →
         fheld t' = ∅ → Q tt t') →
  wp (fix_set_selected_level replacement key level) Q t.
Proof.
  intros W Hh Hc HQ.
  apply (wp_in_slot_act key _ (act_set_level replacement key level)); [done..| |done].
  intros u p Wu Hcu _ Hp. slot_split key u Wu Hp.
  - simpl. rewrite (bool_decide_ext (level > 0) (0 < level)) by lia.
    destruct (replacement && bool_decide (0 < level)).
    + apply wp_fill_empty; [done..|]. intros t' Ht'. unfold act_post. by rewrite Ec.
    + wp_steps. by apply act_post_keep.
  - wp_steps. eapply wp_compare_entry; [exact He|]. simpl. case_decide.
    { eapply wp_overwrite_slot; [done..|]. done. }
    case_decide. { wp_steps. by apply act_post_keep. }
    destruct replacement; simpl; wp_steps; (apply wp_count_collision; [lia|]); wp_steps.
    + eapply wp_fload; [exact He|]. case_decide as Hkeep.
      * wp_steps. rewrite !bool_decide_eq_false_2 by lia. by apply counted_post.
      * assert (bool_decide (selected_level e < level)
                || bool_decide (selected_level e = level ∧ evalue e <= 0) = true) as ->.
        { apply orb_true_iff. rewrite !bool_decide_eq_true. lia. }
        rewrite decide_True by lia. by eapply wp_collide_replace.
    + by apply counted_post.
Qed.

Lemma wp_fix_del key (Q : unit → fstate K → Prop) t :
  fwf t → fheld t = ∅ →
  (∀ t', act_post key (act_del key (contents t (fbin key t))) t t' → fheld t' = ∅ → Q tt t') →
  wp (fix_del key) Q t.
Proof.
  intros W Hh HQ. apply (wp_in_slot_act key _ (act_del key)); [done..| |done].
  intros u p Wu Hcu _ Hp. slot_split key u Wu Hp.
  - wp_steps. by apply act_post_keep.
  - wp_steps. eapply wp_compare_entry; [exact He|]. simpl. case_decide.
    + eapply wp_clear_slot; [done..|]. done.
    + wp_steps. apply act_post_keep; [done|done..].
Qed.

(** What [get] answers *)
Definition get_of key (o : option (entry K)) : option (Z * Z) :=
  match o with
  | Some e => if decide (key_compare key (ekey e) = 0) then Some (evalue e, selected_level e) else None
  | None => None
  end.

Lemma wp_fix_get key (Q : option (Z * Z) → fstate K → Prop) t :
  fwf t → fheld t = ∅ → Q (get_of key (contents t (fbin key t))) t → wp (fix_get key) Q t.
Proof.
  intros W Hh HQ. apply wp_in_slot; [done..|]. intros p Hp.
  assert (with_held ∅ (with_held {[stripe key t]} t) = t) as Eu.
  { destruct t as [[]]. unfold fheld in Hh. simpl in Hh. by subst. }
  pose proof (fwf_with_held {[stripe key t]} t W) as Wu.
  change (contents t (fbin key t)) with (contents (with_held {[stripe key t]} t) (fbin key t)) in HQ.
  set (u := with_held {[stripe key t]} t) in *. change (fbin key t) with (fbin key u) in *.
  change (slots (ft t)) with (slots (ft u)) in Hp.
  destruct (slot_cases u _ Wu (fbin_range key u Wu)) as [[Hs Ec]|(a & e & Hs & He & Ec)];
    rewrite Hs in Hp; injection Hp as <-; rewrite Ec in HQ; simpl in HQ.
  - wp_steps. split; [done|]. by rewrite Eu.
  - wp_steps. eapply wp_compare_entry; [exact He|]. destruct (decide (key_compare key (ekey e) = 0)).
    + rewrite decide_False by (intros Hn; by apply Hn). wp_steps. eapply wp_fload; [exact He|].
      wp_steps. split; [done|]. by rewrite Eu.
    + rewrite decide_True by done. wp_steps. split; [done|]. by rewrite Eu.
Qed.

(** ** The iterator *)

Definition with_fcursor (cur : Z) t : fstate K :=
  FState (farena t) (FTable (fsize (ft t)) (colls t) (slots (ft t)) cur).

(** The entries from slot [i] on *)
Definition from_slot t (i : Z) : list (entry K) :=
  omap (contents t) (seqZ i (fsize (ft t) - i)).
Definition fpending t : list (entry K) := from_slot t (fcursor t + 1).

Lemma from_slot_step t i :
  i < fsize (ft t) →
  from_slot t i = match contents t i with Some e => [e] | None => [] end ++ from_slot t (i + 1).
Proof.
  intros Hi. unfold from_slot. rewrite seqZ_cons by lia.
  replace (Z.succ i) with (i + 1) by lia.
  replace (Z.pred (fsize (ft t) - i)) with (fsize (ft t) - (i + 1)) by lia.
  simpl. by destruct (contents t i).
Qed.

Lemma from_slot_end t i : fsize (ft t) <= i → from_slot t i = [].
Proof. intros Hi. unfold from_slot. by rewrite seqZ_nil by lia. Qed.

Lemma fwf_with_fcursor t cur : fwf t → -1 <= cur < fsize (ft t) → fwf (with_fcursor cur t).
Proof. intros W Hc. by destruct W. Qed.

Definition fnext_post t (r : option (K * Z)) (t' : fstate K) : Prop :=
  match fpending t with
  | [] => r = None ∧ t' = with_fcursor (-1) t
  | e :: rest => r = Some (ekey e, evalue e) ∧ fpending t' = rest ∧ fwf t' ∧
                 t' = with_fcursor (fbin (ekey e) t) t
  end.

Lemma wp_fix_scan fuel t cur (Q : option (K * Z) → fstate K → Prop) :
  fwf t → fheld t = ∅ → -1 <= cur < fsize (ft t) →
  (Z.to_nat (fsize (ft t) - cur) <= fuel)%nat →
  (from_slot t (cur + 1) = [] → Q None (with_fcursor (-1) t)) →
  (∀ b e, contents t b = Some e → cur < b < fsize (ft t) →
     from_slot t (cur + 1) = e :: from_slot t (b + 1) →
     Q (Some (ekey e, evalue e)) (with_fcursor b t)) →
  wp (fix_scan fuel) Q (with_fcursor cur t).
Proof.
  intros W Hh. revert cur. induction fuel as [|fuel IH]; intros cur Hcur Hf HN HS; [lia|].
  assert (∀ (Q' : unit → fstate K → Prop) b, Q' tt (with_fcursor b t) →
    wp (stripe_unlock b) Q' (with_held {[b mod HASH_MAP_MUTEX_SIZE]} (with_fcursor b t))) as Hunlock.
  { intros Q' b HQ'. apply wp_on_farena, wp_unlock; [apply Z.mod_pos_bound; done|simpl; set_solver|].
    unfold with_held, set_held, with_fcursor in *. simpl.
    replace ({[b mod HASH_MAP_MUTEX_SIZE]} ∖ {[b mod HASH_MAP_MUTEX_SIZE]}) with (∅ : gset Z) by set_solver.
    unfold fheld in Hh. destruct t as [[]]. simpl in *. by subst. }
  simpl. wp_steps. unfold set_next_bin. wp_steps. simpl.
  change (FState (farena t) (FTable (fsize (ft t)) (colls t) (slots (ft t)) (cur + 1)))
    with (with_fcursor (cur + 1) t).
  case_decide as Hend.
  - wp_steps. apply HN. apply from_slot_end. lia.
  - assert (0 <= cur + 1 < fsize (ft t)) as Hb by lia.
    rewrite from_slot_step in HN by lia.
    wp_steps. unfold stripe_lock. apply wp_on_farena, wp_lock;
      [apply Z.mod_pos_bound; done|unfold fheld in Hh; simpl; rewrite Hh; set_solver|].
    replace (FState _ _) with
      (with_held {[(cur + 1) mod HASH_MAP_MUTEX_SIZE]} (with_fcursor (cur + 1) t))
      by (unfold with_held; simpl; unfold fheld in Hh; rewrite Hh; by rewrite (right_id_L ∅ (∪))).
    wp_steps.
    destruct (slot_cases t _ W Hb) as [[Hs Ec]|(a & e & Hs & He & Ec)]; rewrite Ec in HN.
    + eapply wp_read_slot; [exact Hb|exact Hs|]. wp_steps. apply wp_bind, Hunlock.
      apply IH; [lia|lia|exact HN|]. intros b e Hc Hbr Ef. apply HS; [done|lia|].
      rewrite from_slot_step, Ec by lia. exact Ef.
    + eapply wp_read_slot; [exact Hb|exact Hs|]. wp_steps.
      apply wp_bind. eapply wp_fload; [exact He|]. apply wp_bind, Hunlock. wp_steps.
      apply HS; [done|lia|]. by rewrite from_slot_step, Ec by lia.
Qed.

Lemma wp_fix_next (Q : option (K * Z) → fstate K → Prop) t :
  fwf t → fheld t = ∅ → (∀ r t', fnext_post t r t' → Q r t') → wp fix_next Q t.
Proof.
  intros W Hh HQ. pose proof (fwf_cursor _ W) as Hcur. unfold fix_next. wp_steps.
  change (fnext_current_bin (ft t)) with (fcursor t). rewrite decide_False by lia.
  replace t with (with_fcursor (fcursor t) t) at 2 by (by destruct t as [? []]).
  apply wp_fix_scan; [done|done|lia|lia| |].
  - intros E. apply HQ. unfold fnext_post, fpending. by rewrite E.
  - intros b e Hc Hb E. apply HQ. unfold fnext_post, fpending. rewrite E.
    split_and!; [done|done|apply fwf_with_fcursor; [done|lia]|]. by rewrite (fwf_hash _ W b e Hc).
Qed.

(** ** Freeing the entries *)

(** The slots below [i] have been freed: the live entries are those of the
    other slots. *)
Definition ffreed_heap t i (s : fstate K) : Prop :=
  (∀ b a, i <= b → slots (ft t) !! b = Some (Some a) → is_Some (heap (farena s) !! a)) ∧
  (∀ a, is_Some (heap (farena s) !! a) → ∃ b, i <= b ∧ slots (ft t) !! b = Some (Some a)).

Lemma ffreed_none t : fwf t → ffreed_heap t 0 t.
Proof.
  intros W. split.
  - intros b a _ Ha. by apply (fwf_live _ W b).
  - intros a Ha. destruct (fwf_owned _ W a Ha) as [b Hb]. exists b. split; [|done].
    apply (mk_is_Some (slots (ft t) !! b)), (fwf_slot _ W) in Hb. lia.
Qed.
Lemma ffreed_all t s : fwf t → ffreed_heap t (fsize (ft t)) s → heap (farena s) = ∅.
Proof.
  intros W [_ Howned]. apply map_eq. intros a. rewrite lookup_empty.
  destruct (heap (farena s) !! a) eqn:E; [|done]. destruct (Howned a) as (b & Hb & Hs); [by eexists|].
  apply (mk_is_Some (slots (ft t) !! b)), (fwf_slot _ W) in Hs. lia.
Qed.

Lemma wp_free_slot t i s (Q : unit → fstate K → Prop) :
  fwf t → 0 <= i < fsize (ft t) → fsize (ft s) = fsize (ft t) → slots (ft s) !! i = slots (ft t) !! i →
  ffreed_heap t i s →
  (∀ s', ft s' = ft s → fheld s' = fheld s → fmallocs s' = fmallocs s → ffreed_heap t (i + 1) s' → Q tt s') →
  wp (free_slot i) Q s.
Proof.
  intros W Hi Es Ei [Hlive Howned] HQ. pose proof (proj1 (fwf_slot _ W i) Hi) as [p Hp].
  unfold free_slot. wp_steps. eapply wp_read_slot; [rewrite Es; exact Hi|rewrite Ei; exact Hp|].
  apply wp_on_farena. destruct p as [a|].
  - destruct (Hlive i a) as [e He]; [lia|done|]. eapply wp_free; [exact He|]. apply HQ; [done..|].
    split; simpl.
    + intros b a' Hb Ha'. rewrite lookup_delete_ne; [apply (Hlive b); [lia|done]|].
      intros <-. pose proof (fwf_inj _ W _ _ _ Hp Ha'). lia.
    + intros a' Ha'. destruct (decide (a' = a)) as [->|Hne].
      { rewrite lookup_delete_eq in Ha'. by destruct Ha'. }
      rewrite lookup_delete_ne in Ha' by done. destruct (Howned a' Ha') as (b & Hb & Hs).
      exists b. split; [|done]. destruct (decide (b = i)) as [->|]; [congruence|lia].
  - apply HQ; destruct s as [[]]; [done..|]. split.
    + intros b a' Hb. apply Hlive. lia.
    + intros a' Ha'. destruct (Howned a' Ha') as (b & Hb & Hs).
      exists b. split; [|done]. destruct (decide (b = i)) as [->|]; [congruence|lia].
Qed.

Lemma wp_fix_free_entries (Q : unit → fstate K → Prop) t :
  fwf t → (∀ s, heap (farena s) = ∅ → fheld s = fheld t → Q tt s) → wp fix_free_entries Q t.
Proof.
  intros W HQ. pose proof (fwf_size _ W). unfold fix_free_entries. wp_steps.
  change ((fsize ∘ ft) t) with (fsize (ft t)).
  apply (wp_for_range _ _ _ (λ i s, ft s = ft t ∧ fheld s = fheld t ∧ ffreed_heap t i s)).
  - split_and!; [done|done|by apply ffreed_none].
  - intros i s Hi (Et & Eh & HF). eapply wp_free_slot; [done|lia|by rewrite Et..|exact HF|].
    intros s' Et' Eh' _ HF'. by split_and!; [rewrite Et'|rewrite Eh'|].
  - intros s (_ & Eh & HF). apply HQ; [|done]. apply (ffreed_all t); [done|].
    by rewrite Z.add_0_l, Z2Nat.id in HF by lia.
Qed.

(** ** The refresh *)

(** Before slot [i] of the refresh *)
Definition frefreshed_to t i (s : fstate K) : Prop :=
  fsize (ft s) = fsize (ft t) ∧ fheld s = ∅ ∧ fmallocs s = fmallocs t ∧
  (∀ b, slots (ft s) !! b = if decide (0 <= b < i) then Some None else slots (ft t) !! b) ∧ ffreed_heap t i s.

Lemma wp_refresh_slot t i s :
  fwf t → 0 <= i < fsize (ft t) → frefreshed_to t i s →
  wp (stripe_lock i;; free_slot i;; write_slot i None;; stripe_unlock i) (λ _ s', frefreshed_to t (i + 1) s') s.
Proof.
  intros W Hi (Es & Eh & Em & Hs & HF). wp_steps. unfold stripe_lock.
  apply wp_on_farena, wp_lock; [apply Z.mod_pos_bound; done|unfold fheld in Eh; rewrite Eh; set_solver|].
  wp_steps. eapply wp_free_slot; [exact W|exact Hi|exact Es| |exact HF|].
  { simpl. rewrite Hs. by rewrite decide_False by lia. }
  intros s' Et Eh' Em' HF'. wp_steps. apply wp_write_slot; [rewrite Et; simpl; lia|].
  unfold stripe_unlock. wp_steps.
  apply wp_on_farena, wp_unlock; [apply Z.mod_pos_bound; done|simpl; unfold fheld in Eh'; rewrite Eh'; simpl; set_solver|].
  split_and!; simpl.
  - by rewrite Et.
  - unfold fheld in *. simpl in *. rewrite Eh'. simpl. rewrite Eh. set_solver.
  - unfold fmallocs in *. simpl in *. by rewrite Em'.
  - intros b. rewrite Et. simpl. destruct (decide (b = i)) as [->|Hne].
    + rewrite lookup_insert_eq. by rewrite decide_True by lia.
    + rewrite lookup_insert_ne, Hs by done. by repeat case_decide; try lia.
  - exact HF'.
Qed.

(** [refresh] frees every entry once and leaves an empty table. *)
Lemma wp_fix_refresh (Q : unit → fstate K → Prop) t :
  fwf t → fheld t = ∅ →
  (∀ t', fwf t' → fheld t' = ∅ → fsize (ft t') = fsize (ft t) → (∀ b, contents t' b = None) → colls t' = 0 →
     fmallocs t' = fmallocs t → fcursor t' = -1 → Q tt t') →
  wp fix_refresh Q t.
Proof.
  intros W Hh HQ. pose proof (fwf_size _ W). unfold fix_refresh. wp_steps.
  change ((fsize ∘ ft) t) with (fsize (ft t)). apply (wp_for_range _ _ _ (frefreshed_to t)).
  - split_and!; [done..| |by apply ffreed_none]. intros b. by rewrite decide_False by lia.
  - intros i s Hi HI. apply wp_refresh_slot; [done|lia|done].
  - intros s (Es & Eh & Em & Hs & HF). rewrite Z.add_0_l, Z2Nat.id in * by lia. apply (ffreed_all t) in HF; [|done].
    unfold set_collisions, set_next_bin. wp_steps.
    assert (∀ b, slots (ft s) !! b = Some None ∨ slots (ft s) !! b = None) as Hnone.
    { intros b. rewrite Hs. case_decide as Hb; [by left|right]. apply eq_None_not_Some. by intros ?%(fwf_slot _ W). }
    assert (∀ b a, slots (ft s) !! b ≠ Some (Some a)) as Hno by (intros b a; destruct (Hnone b); congruence).
    assert (∀ a, ¬ is_Some (heap (farena s) !! a)) as Hempty by (intros a; rewrite HF, lookup_empty; by intros []).
    assert (∀ b, slots (ft s) !! b ≫= (λ p, p ≫= λ a, heap (farena s) !! a) = None) as Hc
      by (intros b; by destruct (Hnone b) as [->| ->]).
    apply HQ; try done. split; simpl; try done; try lia.
    + intros b. rewrite Hs, Es. case_decide as Hb; [by split; [eexists|lia]|]. rewrite <- (fwf_slot _ W b). lia.
    + intros b a Ha. by destruct (Hno b a).
    + intros b1 b2 a Ha. by destruct (Hno b1 a).
    + intros a Ha. by destruct (Hempty a).
    + intros a Ha. by destruct (Hempty a).
    + unfold fcursor. simpl. lia.
    + intros b e. unfold contents. simpl. by rewrite Hc.
Qed.
End spec.
