(* ===== verification/FixSizeProps.v ===== *)
(** * Properties of the fixed-size table *)
From S2P Require Import Prelude CMonad ChainedTable ChainLife Murmur Flow FixSizeTable FixSizeSpec.

(** ** Sequences of calls *)

(** What the calls give back *)
Inductive fanswer (K : Type) :=
| RGot (entry : option (Z * Z))
| RSampled (sampled : bool)
| RNext (entry : option (K * Z)).
Arguments RGot {K} entry.
Arguments RSampled {K} sampled.
Arguments RNext {K} entry.

Section calls.
Context {K : Type} `{KeyLaws K} (replacement : bool).
Implicit Types (t : fstate K).

(** The calls that look at one slot, that of their key *)
Inductive fcall :=
| FAdd (key : K) (delta : Z)
| FAddLevel (key : K) (delta level : Z)
| FSetLevel (key : K) (level : Z)
| FDel (key : K)
| FGet (key : K)
| FIsSampled (key : K).

Definition fcall_key (c : fcall) : K :=
  match c with FAdd k _ | FAddLevel k _ _ | FSetLevel k _ | FDel k | FGet k | FIsSampled k => k end.

Definition do_fcall (c : fcall) : cmd (ptr (fstate K)) (list (fanswer K)) :=
  match c with
  | FAdd k d => ht_kfs_fixSize_add_value k d;; mret []
  | FAddLevel k d lv =>
      ht_kfs_fixSize_add_value_and_update_selected_level_info replacement k d lv;; mret []
  | FSetLevel k lv => ht_kfs_fixSize_set_selected_level replacement k lv;; mret []
  | FDel k => ht_kfs_fixSize_del k;; mret []
  | FGet k => r ← ht_kfs_fixSize_get k; mret [RGot r]
  | FIsSampled k => r ← ht_kfs_fixSize_is_sampled k; mret [RSampled r]
  end.

(** All calls on a table between its creation and its destruction *)
Inductive fop :=
| FOn (c : fcall)
| FNext
| FRefresh.

Definition do_fop (o : fop) : cmd (ptr (fstate K)) (list (fanswer K)) :=
  match o with
  | FOn c => do_fcall c
  | FNext => r ← ht_kfs_fixSize_next; mret [RNext r]
  | FRefresh => ht_kfs_fixSize_refresh;; mret []
  end.
Fixpoint do_fops (os : list fop) : cmd (ptr (fstate K)) (list (fanswer K)) :=
  match os with
  | [] => mret []
  | o :: os => r ← do_fop o; rs ← do_fops os; mret (r ++ rs)
  end.

(** The calls on the slots of a table: a function from bins to entries, the
    number of collisions, the coming malloc outcomes and the slot the iterator
    has come to *)
Record fmodel := FModel { mslot : Z → option (entry K); mcoll : Z; mmem : list bool; mcursor : Z }.
Definition new_fmodel (sched : list bool) : fmodel := FModel (λ _, None) 0 sched (-1).

Definition fcall_action (c : fcall) (o : option (entry K)) : slot_action K :=
  match c with
  | FAdd k d => act_add k d o
  | FAddLevel k d lv => act_add_level replacement k d lv o
  | FSetLevel k lv => act_set_level replacement k lv o
  | FDel k => act_del k o
  | FGet _ | FIsSampled _ => Keep
  end.
(** A flow is sampled if the slot is its own and has a volume. *)
Definition sampled_of (k : K) (o : option (entry K)) : bool :=
  match o with Some e => bool_decide (key_compare k (ekey e) = 0 ∧ evalue e > 0) | None => false end.
Definition fcall_result (c : fcall) (o : option (entry K)) : list (fanswer K) :=
  match c with FGet k => [RGot (get_of k o)] | FIsSampled k => [RSampled (sampled_of k o)] | _ => [] end.
Definition spec_fcall (size : Z) (c : fcall) (m : fmodel) : fmodel :=
  let b := key_bin (fcall_key c) size in
  let a := fcall_action c (mslot m b) in
  FModel (λ b', if decide (b' = b) then act_slot a (mmem m) (mslot m b) else mslot m b')
         (mcoll m + act_collisions a) (act_mallocs a (mmem m)) (mcursor m).

(** The entries after the iterator, in the order of their slots *)
Definition mpending (size : Z) (m : fmodel) : list (entry K) :=
  omap (mslot m) (seqZ (mcursor m + 1) (size - (mcursor m + 1))).
Definition spec_fop (size : Z) (o : fop) (m : fmodel) : list (fanswer K) * fmodel :=
  match o with
  | FOn c => (fcall_result c (mslot m (key_bin (fcall_key c) size)), spec_fcall size c m)
  | FNext =>
      match mpending size m with
      | [] => ([RNext None], FModel (mslot m) (mcoll m) (mmem m) (-1))
      | e :: _ => ([RNext (Some (ekey e, evalue e))], FModel (mslot m) (mcoll m) (mmem m) (key_bin (ekey e) size))
      end
  | FRefresh => ([], new_fmodel (mmem m))
  end.
Fixpoint spec_fops (size : Z) (os : list fop) (m : fmodel) : list (fanswer K) * fmodel :=
  match os with
  | [] => ([], m)
  | o :: os =>
      let '(r, m) := spec_fop size o m in
      let '(rs, m) := spec_fops size os m in (r ++ rs, m)
  end.

(** A table and its model *)
Definition models (size : Z) (t : fstate K) (m : fmodel) : Prop :=
  fwf t ∧ fheld t = ∅ ∧ fsize (ft t) = size ∧
  (∀ b, contents t b = mslot m b) ∧ colls t = mcoll m ∧ fmallocs t = mmem m ∧ fcursor t = mcursor m.

Lemma models_post size t m c t' :
  models size t m →
  act_post (fcall_key c) (fcall_action c (contents t (fbin (fcall_key c) t))) t t' →
  fheld t' = ∅ → models size t' (spec_fcall size c m).
Proof.
  intros (W & Hh & Hs & Hc & Hn & Hm & Hi) (W' & Hc' & Hs' & Hn' & Hi' & Hm' & _) Hh'.
  unfold fbin in *. rewrite Hs in *. split_and!; [done|done|congruence| | | |by rewrite Hi'].
  - intros b. rewrite Hc'. unfold spec_fcall. simpl. rewrite Hc, Hm. case_decide; [done|apply Hc].
  - rewrite Hn', Hn. unfold spec_fcall. simpl. by rewrite Hc.
  - rewrite Hm'. unfold spec_fcall. simpl. by rewrite Hc, Hm.
Qed.
Lemma models_pending size t m : models size t m → fpending t = mpending size m.
Proof.
  intros (_ & _ & Hs & Hc & _ & _ & Hi). unfold fpending, from_slot, mpending. rewrite Hs, Hi.
  generalize (seqZ (mcursor m + 1) (size - (mcursor m + 1))) as l. induction l as [|b l IH]; [done|].
  cbn [omap list_omap]. by rewrite Hc, IH.
Qed.

Lemma act_collisions_bound (a : slot_action K) : 0 <= act_collisions a <= 1.
Proof. destruct a; simpl; lia. Qed.
Lemma sampled_of_get k o :
  match get_of k o with Some (v, _) => bool_decide (v > 0) | None => false end = sampled_of k o.
Proof.
  destruct o as [e|]; [|done]. simpl. destruct (decide (key_compare k (ekey e) = 0)) as [E|E].
  - apply bool_decide_ext. tauto.
  - symmetry. apply bool_decide_false. tauto.
Qed.

Lemma wp_do_fcall size c m (Q : list (fanswer K) → ptr (fstate K) → Prop) t :
  models size t m → mcoll m < 2 ^ 31 - 1 →
  (∀ t', models size t' (spec_fcall size c m) →
     Q (fcall_result c (mslot m (key_bin (fcall_key c) size))) (PLive t')) →
  wp (do_fcall c) Q (PLive t).
Proof.
  intros M Hc HQ. pose proof M as (W & Hh & Hs & Hcont & Hn & Hm & _).
  assert (colls t < 2 ^ 31 - 1) as Hcl by lia.
  assert (∀ t', act_post (fcall_key c) (fcall_action c (contents t (fbin (fcall_key c) t))) t t' →
    fheld t' = ∅ → models size t' (spec_fcall size c m)) as Hpost by (intros t' Hp ?; by eapply models_post).
  assert (∀ k, contents t (fbin k t) = mslot m (key_bin k size)) as Hslot
    by (intros k; rewrite Hcont; unfold fbin; by rewrite Hs).
  assert (fcall_action c (contents t (fbin (fcall_key c) t)) = Keep → models size t (spec_fcall size c m)) as Hkeep
    by (intros Ek; apply Hpost; [rewrite Ek; by apply act_post_keep|done]).
  destruct c as [k d|k d lv|k lv|k|k|k]; simpl do_fcall; unfold ht_kfs_fixSize_is_sampled; wp_steps; apply wp_unless_null.
  - apply wp_fix_add_value; [done..|]. intros t' ??. wp_steps. by apply HQ; apply Hpost.
  - apply wp_fix_add_value_and_level; [done..|]. intros t' ??. wp_steps. by apply HQ; apply Hpost.
  - apply wp_fix_set_selected_level; [done..|]. intros t' ??. wp_steps. by apply HQ; apply Hpost.
  - apply wp_fix_del; [done..|]. intros t' ??. wp_steps. by apply HQ; apply Hpost.
  - apply wp_fix_get; [done..|]. wp_steps. rewrite Hslot. by apply (HQ t), Hkeep.
  - apply wp_fix_get; [done..|]. wp_steps. rewrite Hslot, sampled_of_get. by apply (HQ t), Hkeep.
Qed.

Lemma wp_do_fop size o m (Q : list (fanswer K) → ptr (fstate K) → Prop) t :
  models size t m → mcoll m < 2 ^ 31 - 1 →
  (∀ t', models size t' (spec_fop size o m).2 → Q (spec_fop size o m).1 (PLive t')) →
  wp (do_fop o) Q (PLive t).
Proof.
  intros M Hb HQ. destruct o as [c| |]; [by eapply wp_do_fcall|..]; pose proof M as (W & Hh & Hs & Hc & Hn & Hm & Hi);
    simpl do_fop; wp_steps; apply wp_unless_null.
  - apply wp_fix_next; [done..|]. intros r t' Hp. unfold fnext_post in Hp. wp_steps. rewrite (models_pending _ _ _ M) in Hp.
    simpl in HQ. destruct (mpending size m) as [|e es].
    + destruct Hp as [-> ->]. apply HQ. split_and!; try done. apply fwf_with_fcursor; [done|]. pose proof (fwf_size _ W). lia.
    + destruct Hp as (-> & _ & W' & ->). apply HQ. unfold fbin in *. rewrite Hs in *. by split_and!.
  - apply wp_fix_refresh; [done..|]. intros t' W' Hh' Hs' Hc' Hn' Hm' Hi'. wp_steps. apply HQ.
    split_and!; simpl; congruence.
Qed.

Lemma spec_fop_collisions size o m : 0 <= mcoll m → 0 <= mcoll (spec_fop size o m).2 <= mcoll m + 1.
Proof.
  intros Hm. destruct o as [c| |]; simpl; [|case_match; simpl; lia|lia].
  pose proof (act_collisions_bound (fcall_action c (mslot m (key_bin (fcall_key c) size)))). lia.
Qed.
Lemma wp_do_fops size os m (Q : list (fanswer K) → ptr (fstate K) → Prop) t :
  models size t m → 0 <= mcoll m → mcoll m + Z.of_nat (length os) < 2 ^ 31 →
  (∀ t', models size t' (spec_fops size os m).2 → Q (spec_fops size os m).1 (PLive t')) →
  wp (do_fops os) Q (PLive t).
Proof.
  revert m Q t. induction os as [|o os IH]; intros m Q t M Hm Hc HQ; simpl in *.
  { wp_steps. by apply HQ. }
  wp_steps. eapply wp_do_fop; [exact M|lia|]. intros t' M'. wp_steps.
  pose proof (spec_fop_collisions size o m Hm). destruct (spec_fop size o m) as [r m']. cbn [fst snd] in *.
  eapply IH; [exact M'|lia|lia|]. intros t'' M''. wp_steps.
  destruct (spec_fops size os m') as [rs m'']. by apply HQ.
Qed.

Lemma create_models size sched :
  0 < size →
  ∃ t, ht_kfs_fixSize_create size (true :: true :: sched) = Ok (PLive t) ∧
    models size t (new_fmodel sched).
Proof.
  intros Hn. eexists. split; [reflexivity|].
  assert (∀ b, contents (FState (K := K) (Arena ∅ 1 sched ∅) (FTable size 0
     (foldl (λ s i, <[i := None]> s) ∅ (seqZ 0 size)) (-1))) b = None) as Hc.
  { intros b. unfold contents. simpl. rewrite lookup_null_bins. by case_decide. }
  split_and!; try done. constructor; simpl; try done.
  - intros b. rewrite lookup_null_bins. split; [intros; rewrite decide_True by done; by eexists|].
    case_decide; [done|by intros []].
  - intros b a. rewrite lookup_null_bins. by case_decide.
  - intros b1 b2 a. rewrite lookup_null_bins. by case_decide.
  - intros a [? Ha]. by rewrite lookup_empty in Ha.
  - intros a [? Ha]. by rewrite lookup_empty in Ha.
  - unfold fcursor. simpl. lia.
  - intros b e. by rewrite Hc.
Qed.

(** A sequence of calls from the creation *)
Lemma run_fops size sched (os : list fop) :
  0 < size → Z.of_nat (length os) < 2 ^ 31 →
  ∃ t t', ht_kfs_fixSize_create size (true :: true :: sched) = Ok (PLive t) ∧
    do_fops os (PLive t) = Ok ((spec_fops size os (new_fmodel sched)).1, PLive t') ∧
    models size t' (spec_fops size os (new_fmodel sched)).2.
Proof.
  intros Hn Hl. destruct (create_models size sched Hn) as (t & E & M).
  assert (wp (do_fops os) (λ r p, r = (spec_fops size os (new_fmodel sched)).1 ∧
    ∃ t', p = PLive t' ∧ models size t' (spec_fops size os (new_fmodel sched)).2) (PLive t)) as Hw.
  { eapply wp_do_fops; [exact M|done|simpl; lia|]. eauto. }
  apply wp_run in Hw as (r & p & E' & -> & t' & -> & M'). eauto.
Qed.

(** C15. The fixed-size table refines its one-slot-per-bin model: from a new
    table, for any outcomes of the later allocations, any sequence of fewer
    than [2^31] calls of the functions on a table (add, add with a level, set
    the level, delete, get, whether a flow is sampled, next, refresh) runs
    without a fault and without leaving a mutex held; every get, next and
    question for a sampled flow answers what the model answers, and the table
    then holds exactly the entries of the model, its count of collisions and
    its iterator: each slot is changed only by the refresh, which empties all of
    them, and by calls whose key hashes to it, by the [slot_action] of the
    call, and next goes to the first occupied slot after the last. *)
Theorem fixSize_refines size sched (os : list fop) :
  0 < size → Z.of_nat (length os) < 2 ^ 31 →
  ∃ t t', ht_kfs_fixSize_create size (true :: true :: sched) = Ok (PLive t) ∧
    do_fops os (PLive t) = Ok ((spec_fops size os (new_fmodel sched)).1, PLive t') ∧
    models size t' (spec_fops size os (new_fmodel sched)).2.
Proof. exact (run_fops size sched os). Qed.

(** C35. Who keeps a slot: when a call for another flow changes the entry of a
    slot, replacement is configured and the newcomer has a higher selected
    level, or the same level (not 0) while the entry has no volume yet; the
    newcomer starts with the call's level and volume.  A deletion never touches
    the entry of another flow. *)
Theorem fixSize_priority size t m c t' e :
  models size t m → mcoll m < 2 ^ 31 - 1 → head (mmem m) ≠ Some false →
  contents t (fbin (fcall_key c) t) = Some e → key_compare (fcall_key c) (ekey e) ≠ 0 →
  do_fcall c (PLive t) = Ok (fcall_result c (Some e), PLive t') →
  contents t' (fbin (fcall_key c) t) = Some e ∨
  ∃ e', contents t' (fbin (fcall_key c) t) = Some e' ∧ ekey e' = fcall_key c ∧ replacement = true ∧
    (selected_level e < selected_level e' ∨
     selected_level e = selected_level e' ∧ selected_level e' ≠ 0 ∧ evalue e <= 0 ∧ evalue e' = 0).
Proof.
  intros M Hc Hm He Hne E. pose proof M as (_ & _ & Hs & Hcont & _).
  assert (wp (do_fcall c) (λ _ p, ∃ t', p = PLive t' ∧ models size t' (spec_fcall size c m)) (PLive t)) as Hw.
  { eapply wp_do_fcall; [exact M|done|]. eauto. }
  unfold wp in Hw. rewrite E in Hw. destruct Hw as (? & [= <-] & _ & _ & _ & Hcont' & _).
  rewrite Hcont', (Hcont _) in *. unfold spec_fcall. simpl. unfold fbin in *. rewrite Hs in *.
  rewrite decide_True by done. rewrite He.
  assert (∀ e' : entry K, alloc (mmem m) e' = Some e') as Ha by (intros; rewrite alloc_head; by rewrite decide_False).
  destruct c as [k d|k d lv|k lv|k|k|k]; simpl in *; rewrite ?decide_False by done; [by left| | |by left..].
  - destruct replacement; [|by left]. simpl.
    destruct (bool_decide _) eqn:El; [|by left]. apply bool_decide_eq_true in El.
    right. exists (Entry k lv d). simpl. rewrite Ha. eauto 10.
  - case_decide; [by left|]. destruct replacement; [|by left]. simpl.
    destruct (_ || _) eqn:El; [|by left]. apply orb_true_iff in El. rewrite !bool_decide_eq_true in El.
    right. exists (Entry k lv 0). simpl. rewrite Ha. split_and!; try done. lia.
Qed.

(** ** Volumes *)

(** The first flow of a list of packets that hashes to bin [b], and the volume
    of a flow, in 32 bits *)
Fixpoint owner (size b : Z) (adds : list (K * Z)) : option K :=
  match adds with
  | [] => None
  | (k, _) :: adds => if decide (key_bin k size = b) then Some k else owner size b adds
  end.
Definition volume_of (k : K) (adds : list (K * Z)) : Z :=
  foldr (λ x v, (if decide (key_compare k x.1 = 0) then x.2 else 0) + v) 0 adds.

Lemma owner_snoc size b adds k d :
  owner size b (adds ++ [(k, d)]) =
  match owner size b adds with
  | Some k' => Some k'
  | None => if decide (key_bin k size = b) then Some k else None
  end.
Proof. induction adds as [|[k' d'] adds IH]; simpl; [done|]. repeat case_decide; try done; apply IH. Qed.

Lemma owner_bin size b adds k : owner size b adds = Some k → key_bin k size = b.
Proof.
  induction adds as [|[k' d'] adds IH]; simpl; [done|]. case_decide; [by intros [= <-]|done].
Qed.

Lemma volume_snoc k adds k' d :
  volume_of k (adds ++ [(k', d)]) =
  volume_of k adds + (if decide (key_compare k k' = 0) then d else 0).
Proof.
  unfold volume_of. induction adds as [|x adds IH]; simpl; [lia|]. rewrite IH. lia.
Qed.

Lemma volume_no_owner size k adds : owner size (key_bin k size) adds = None → volume_of k adds = 0.
Proof.
  unfold volume_of. induction adds as [|[k' d'] adds IH]; simpl; [done|]. case_decide as Eb; [done|].
  intros Hn. rewrite IH by done. rewrite decide_False; [done|].
  intros E. apply Eb. symmetry. by apply bin_eq.
Qed.

(** The slots after a sequence of [add_value] calls *)
Definition slot_of_adds size (adds : list (K * Z)) (b : Z) : option (entry K) :=
  (λ k, Entry k 0 (u32 (volume_of k adds))) <$> owner size b adds.

Definition adds_calls (adds : list (K * Z)) : list fop := (λ x, FOn (FAdd x.1 x.2)) <$> adds.

Lemma spec_fops_app size os os' m :
  (spec_fops size (os ++ os') m).2 = (spec_fops size os' (spec_fops size os m).2).2.
Proof.
  revert m. induction os as [|o os IH]; intros m; simpl; [done|].
  destruct (spec_fop size o m) as [r m1]. specialize (IH m1).
  destruct (spec_fops size (os ++ os') m1), (spec_fops size os m1) as [? m']. simpl in *. by rewrite IH.
Qed.

Lemma adds_slots size (adds : list (K * Z)) :
  Forall (λ x, in_u 32 x.2) adds →
  let m := (spec_fops size (adds_calls adds) (new_fmodel [])).2 in
  mmem m = [] ∧ ∀ b, mslot m b = slot_of_adds size adds b.
Proof.
  induction adds as [|[k d] adds IH] using rev_ind; intros HF; [done|].
  apply Forall_app in HF as [HF Hd]. apply Forall_cons_1 in Hd as [Hd _]. simpl in Hd.
  destruct (IH HF) as [Hm Hs]. unfold adds_calls. rewrite fmap_app, spec_fops_app.
  fold (adds_calls adds). set (m := (spec_fops size (adds_calls adds) _).2) in *.
  simpl. rewrite Hm. unfold act_add. rewrite !Hs. split.
  - destruct (slot_of_adds _ _ _); [by case_decide|done].
  - intros b. unfold slot_of_adds. rewrite owner_snoc. case_decide as Eb.
    + subst b. destruct (owner size (key_bin k size) adds) as [k'|] eqn:Eo; simpl.
      * rewrite volume_snoc. case_decide as Ec; simpl.
        -- rewrite decide_True by (rewrite compare_anti; lia).
           f_equal. f_equal. unfold wrap. by rewrite Zplus_mod_idemp_l.
        -- rewrite decide_False, Z.add_0_r; [done|]. rewrite compare_anti. lia.
      * rewrite decide_True by done. simpl. rewrite volume_snoc, (volume_no_owner size) by done.
        rewrite decide_True by apply compare_refl. f_equal. f_equal. by rewrite wrap_small.
    + rewrite Hs. unfold slot_of_adds. rewrite decide_False by done.
      destruct (owner size b adds) as [k'|] eqn:Eo; [|done]. simpl. rewrite volume_snoc.
      rewrite decide_False, Z.add_0_r; [done|].
      intros E. apply Eb. rewrite <- (owner_bin _ _ _ _ Eo). by apply bin_eq.
Qed.
End calls.
Arguments fcall K : clear implicits.
Arguments fop K : clear implicits.

(** Without condition packets the table is first come, first served: after
    any sequence of [ht_kfs_fixSize_add_value] calls, the slot of a bin belongs
    to the first flow that hashed to it, at level 0, and its value is the sum
    of that flow's volumes, modulo [2^32]; every other flow of the bin has no
    entry. *)
Theorem fixSize_first_come {K} `{KeyLaws K} size (adds : list (K * Z)) :
  0 < size → Z.of_nat (length adds) < 2 ^ 31 → Forall (λ x, in_u 32 x.2) adds →
  ∃ t r t', ht_kfs_fixSize_create size [] = Ok (PLive t) ∧
    do_fops false (adds_calls adds) (PLive t) = Ok (r, PLive t') ∧
    ∀ k, ht_kfs_fixSize_get k (PLive t') =
      Ok (match owner size (key_bin k size) adds with
          | Some k' => if decide (key_compare k k' = 0)
                       then Some (u32 (volume_of k' adds), 0) else None
          | None => None
          end, PLive t').
Proof.
  intros Hn Hl HF. destruct (create_models (K := K) size [] Hn) as (t & E & M).
  assert (wp (do_fops false (adds_calls adds)) (λ r p, ∃ t', p = PLive t' ∧
    models size t' (spec_fops false size (adds_calls adds) (new_fmodel [])).2) (PLive t)) as Hw.
  { eapply wp_do_fops; [exact M|done| |eauto]. unfold adds_calls. rewrite length_fmap. simpl. lia. }
  apply wp_run in Hw as (r & p & E' & t' & -> & (W & Hh & Hs & Hc & _)).
  exists t, r, t'. split_and!; [exact E|exact E'|]. intros k.
  apply wp_exact, wp_unless_null. apply wp_fix_get; [done..|]. split; [|done].
  unfold fbin. rewrite Hs, Hc. destruct (adds_slots false size adds HF) as [_ ->].
  unfold slot_of_adds. destruct (owner size (key_bin k size) adds); [|done]. done.
Qed.

(** A loop [while (ht_kfs_fixSize_next(t, &entry) == 0)] that reads the entries *)
Fixpoint fcollect {K} (fuel : nat) : cmd (fstate K) (list (K * Z)) :=
  match fuel with
  | O => throw OutOfFuel
  | S fuel =>
      r ← fix_next;
      match r with
      | None => mret []
      | Some e => es ← fcollect fuel; mret (e :: es)
      end
  end.

Lemma wp_fcollect {K} `{KeyLaws K} fuel (Q : list (K * Z) → fstate K → Prop) t :
  fwf t → fheld t = ∅ → (length (fpending t) < fuel)%nat →
  Q ((λ e, (ekey e, evalue e)) <$> fpending t) (with_fcursor (-1) t) → wp (fcollect fuel) Q t.
Proof.
  revert t Q. induction fuel as [|fuel IH]; intros t Q W Hh Hf HQ; [lia|].
  simpl. wp_steps. apply wp_fix_next; [done..|]. intros r t' Hn. unfold fnext_post in Hn.
  destruct (fpending t) as [|e rest].
  - destruct Hn as [-> ->]. by wp_steps.
  - destruct Hn as (-> & Hp & W' & ->). wp_steps.
    apply IH; [done|done|rewrite Hp; simpl in Hf; lia|].
    wp_steps. rewrite Hp. exact HQ.
Qed.

(** Iterating and destroying a fixed-size table: after any calls on a new
    table, a loop on [ht_kfs_fixSize_next] ends, yields the entry of every
    occupied slot the iterator has not passed exactly once, in slot order, and
    leaves the table unchanged with the iterator reset;
    [ht_kfs_fixSize_destory] frees every entry exactly once. *)
Theorem fixSize_iterate_destory {K} `{KeyLaws K} replacement size sched (os : list (fop K)) :
  0 < size → Z.of_nat (length os) < 2 ^ 31 →
  let m := (spec_fops replacement size os (new_fmodel sched)).2 in
  let es := (λ e, (ekey e, evalue e)) <$> mpending size m in
  ∃ t r t', ht_kfs_fixSize_create size (true :: true :: sched) = Ok (PLive t) ∧
    do_fops replacement os (PLive t) = Ok (r, PLive t') ∧
    (∀ fuel, (length es < fuel)%nat → fcollect fuel t' = Ok (es, with_fcursor (-1) t')) ∧
    (∃ s, fix_free_entries t' = Ok (tt, s) ∧ heap (farena s) = ∅) ∧
    ht_kfs_fixSize_destory (PLive t') = Ok (tt, PFreed).
Proof.
  intros Hn Hl m es. destruct (run_fops replacement size sched os Hn Hl) as (t & t' & E & E' & M). fold m in M.
  assert (es = (λ e, (ekey e, evalue e)) <$> fpending t') as Ees by (unfold es; by rewrite (models_pending _ _ _ M)).
  destruct M as (W & Hh & _). exists t, (spec_fops replacement size os (new_fmodel sched)).1, t'.
  split_and!; [exact E|exact E'| | |].
  - intros fuel Hf. apply wp_exact, wp_fcollect; [done|done| |].
    + rewrite Ees, length_fmap in Hf. done.
    + done.
  - assert (wp fix_free_entries (λ _ s, heap (farena s) = ∅) t') as Hf by (apply wp_fix_free_entries; auto).
    apply wp_run in Hf as ([] & s & ? & ?). eauto.
  - assert (wp fix_free_entries (λ _ s, fheld s = ∅) t') as Hf
      by (apply wp_fix_free_entries; [done|congruence]).
    apply wp_run in Hf as ([] & s & Es & Hheld). unfold ht_kfs_fixSize_destory. rewrite Es.
    by rewrite decide_True.
Qed.

(** ** Concrete instances *)

Definition fkey7 := FlowSrc.FlowSrcT 7.
Definition fkey9 := FlowSrc.FlowSrcT 9.

(** A table with one slot, which flow 7 holds as a condition flow (level 1, no
    volume yet) *)
Definition one_slot_table : fstate FlowSrc.flow_src_t :=
  FState (Arena (<[1%positive := Entry fkey7 1 0]> ∅) 2%positive [] ∅)
         (FTable 1 0 (<[0 := Some 1%positive]> ∅) (-1)).
Definition one_slot_model : fmodel :=
  FModel (λ b, if decide (b = 0) then Some (Entry fkey7 1 0) else None) 0 [] (-1).

Lemma one_slot_models : models 1 one_slot_table one_slot_model.
Proof.
  assert (∀ b p, slots (ft one_slot_table) !! b = Some p → b = 0 ∧ p = Some 1%positive) as Hs.
  { intros b p Hb. unfold one_slot_table in Hb. simpl in Hb. apply lookup_insert_Some in Hb as [[<- <-]|[_ Hb]]; [done|]. by rewrite lookup_empty in Hb. }
  assert (∀ a, is_Some (heap (farena one_slot_table) !! a) → a = 1%positive) as Hh.
  { intros a [e Ha]. unfold one_slot_table in Ha. simpl in Ha.
    apply lookup_insert_Some in Ha as [[<- _]|[_ Ha]]; [done|]. by rewrite lookup_empty in Ha. }
  assert (∀ b, contents one_slot_table b = mslot one_slot_model b) as Hc.
  { intros b. unfold contents, one_slot_model. simpl. case_decide as E.
    - subst b. reflexivity.
    - by rewrite lookup_insert_ne, lookup_empty by done. }
  split_and!; try done. constructor; try done.
  - intros b. split.
    + intros Hb. assert (b = 0) as -> by (simpl in Hb; lia). by eexists.
    + intros [p Hp]. apply Hs in Hp as [-> _]. simpl. lia.
  - intros b a Hb. apply Hs in Hb as [_ [= ->]]. by eexists.
  - intros b1 b2 a Hb1 Hb2. apply Hs in Hb1 as [-> _]. by apply Hs in Hb2 as [-> _].
  - intros a Ha. apply Hh in Ha as ->. by exists 0.
  - intros a Ha. apply Hh in Ha as ->. simpl. lia.
  - intros b e. rewrite Hc. unfold one_slot_model. simpl. case_decide; [|done]. intros [= <-].
    subst b. reflexivity.
Qed.

Definition demo_fops : list (fop FlowSrc.flow_src_t) :=
  [FOn (FAdd fkey7 10); FOn (FSetLevel fkey9 2); FOn (FIsSampled fkey9); FOn (FAdd fkey9 5); FOn (FIsSampled fkey9);
   FOn (FGet fkey7); FOn (FGet fkey9); FNext; FNext; FRefresh; FOn (FGet fkey9); FNext].

Lemma fixSize_refines_witness :
  0 < 1 ∧ ∃ t t', ht_kfs_fixSize_create 1 [true; true] = Ok (PLive t) ∧
    do_fops true demo_fops (PLive t) = Ok ([RSampled false; RSampled true; RGot None; RGot (Some (5, 2));
      RNext (Some (fkey9, 5)); RNext None; RGot None; RNext None], PLive t').
Proof.
  split; [lia|].
  destruct (fixSize_refines (K := FlowSrc.flow_src_t) true 1 [] demo_fops) as (t & t' & E & E' & _);
    [lia|simpl; lia|]. exists t, t'. split; [exact E|exact E'].
Defined.

(** The table after a condition packet for flow 9, at level 2 *)
Definition one_slot_after : fstate FlowSrc.flow_src_t :=
  match do_fcall true (FSetLevel fkey9 2) (PLive one_slot_table) with
  | Ok (_, PLive t') => t'
  | _ => one_slot_table
  end.

Lemma fixSize_priority_witness :
  do_fcall true (FSetLevel fkey9 2) (PLive one_slot_table) = Ok ([], PLive one_slot_after) ∧
  (contents one_slot_after (fbin fkey9 one_slot_table) = Some (Entry fkey7 1 0) ∨
   ∃ e', contents one_slot_after (fbin fkey9 one_slot_table) = Some e' ∧ ekey e' = fkey9 ∧ true = true ∧
    (selected_level (Entry fkey7 1 0) < selected_level e' ∨
     selected_level (Entry fkey7 1 0) = selected_level e' ∧ selected_level e' ≠ 0 ∧
     evalue (Entry fkey7 1 0) <= 0 ∧ evalue e' = 0)).
Proof.
  assert (do_fcall true (FSetLevel fkey9 2) (PLive one_slot_table) = Ok ([], PLive one_slot_after)) as E
    by reflexivity.
  split; [exact E|].
  apply (fixSize_priority true 1 one_slot_table one_slot_model (FSetLevel fkey9 2) one_slot_after);
    [apply one_slot_models|simpl; lia|discriminate|reflexivity|discriminate|exact E].
Defined.

Lemma fixSize_first_come_witness :
  0 < 1 ∧ ∃ t r t', ht_kfs_fixSize_create 1 [] = Ok (PLive t) ∧
    do_fops false (adds_calls [(fkey7, 10); (fkey9, 3); (fkey7, 4294967290)]) (PLive t) = Ok (r, PLive t') ∧
    ht_kfs_fixSize_get fkey7 (PLive t') = Ok (Some (4, 0), PLive t').
Proof.
  split; [lia|].
  destruct (fixSize_first_come 1 [(fkey7, 10); (fkey9, 3); (fkey7, 4294967290)])
    as (t & r & t' & E & E' & Hg); [lia|simpl; lia|repeat constructor; unfold in_u; simpl; lia|].
  exists t, r, t'. split; [exact E|split; [exact E'|exact (Hg fkey7)]].
Defined.

Lemma fixSize_iterate_destory_witness :
  0 < 2 ∧ ∃ t r t', ht_kfs_fixSize_create 2 [true; true] = Ok (PLive t) ∧
    do_fops true demo_fops (PLive t) = Ok (r, PLive t') ∧
    ht_kfs_fixSize_destory (PLive t') = Ok (tt, PFreed).
Proof.
  split; [lia|].
  destruct (fixSize_iterate_destory (K := FlowSrc.flow_src_t) true 2 [] demo_fops)
    as (t & r & t' & E & E' & _ & _ & Ed); [lia|simpl; lia|].
  exists t, r, t'. split; [exact E|split; [exact E'|exact Ed]].
Defined.
