(* ===== verification/FixSizeIface.v ===== *)
(** * What the fixed-size table promises to its callers

    The interface [FixedTable] the data warehouse is verified against, and its
    implementation by the table of [FixSizeTable.v].  A table of [size] slots
    shows at most one entry per slot; [get] and [add_value] act on the slot the
    key hashes to. *)
From S2P Require Import Prelude CMonad ChainedTable ChainLife FixSizeTable FixSizeSpec FixSizeProps.

Class FixedTable (K F : Type) `{KeyOps K} := {
  fx_null : F;
  (** the new table, given whether the allocation of its slots succeeds *)
  fx_create : Z → bool → res F;
  fx_get : K → cmd F (option (Z * Z));
  fx_is_sampled : K → cmd F bool;
  fx_add_value : K → Z → cmd F unit;
  fx_destory : cmd F unit;
  (** the size of the table, what its slots hold, and a bound on the collisions
      counted so far *)
  fx_view : F → Z → (Z → option (entry K)) → Z → Prop
}.

Section views.
Context {K : Type} `{KeyOps K}.

(** The slots after [add_value], when [malloc] succeeds *)
Definition slots_add (size : Z) (key : K) (delta : Z) (o : Z → option (entry K)) : Z → option (entry K) :=
  λ b, if decide (b = key_bin key size)
       then act_slot (act_add key delta (o b)) [] (o b) else o b.
Definition slots_get (size : Z) (key : K) (o : Z → option (entry K)) : option (Z * Z) :=
  get_of key (o (key_bin key size)).
Definition slots_sampled (size : Z) (key : K) (o : Z → option (entry K)) : bool :=
  match slots_get size key o with Some (v, _) => bool_decide (v > 0) | None => false end.
End views.

Class FixedTableLaws (K F : Type) `{FixedTable K F} := {
  fx_create_ok size : 0 < size →
    ∃ h, fx_create size true = Ok h ∧ fx_view h size (λ _, None) 0;
  fx_get_ok h size o n key (Q : option (Z * Z) → F → Prop) :
    fx_view h size o n → Q (slots_get size key o) h → wp (fx_get key) Q h;
  fx_is_sampled_ok h size o n key (Q : bool → F → Prop) :
    fx_view h size o n →
    Q (slots_sampled size key o) h →
    wp (fx_is_sampled key) Q h;
  fx_add_value_ok h size o n key delta (Q : unit → F → Prop) :
    fx_view h size o n → n < 2 ^ 31 - 1 →
    (∀ h', fx_view h' size (slots_add size key delta o) (n + 1) → Q tt h') →
    wp (fx_add_value key delta) Q h;
  fx_destory_ok h size o n (Q : unit → F → Prop) :
    fx_view h size o n → (∀ h', Q tt h') → wp fx_destory Q h
}.

(** ** The table of [FixSizeTable.v] implements it *)
Section implementation.
Context {K : Type} `{KeyLaws K}.

#[export] Instance fixSize_table : FixedTable K (ptr (fstate K)) := {|
  fx_null := PNull;
  fx_create size mem := ht_kfs_fixSize_create size [true; mem];
  fx_get := ht_kfs_fixSize_get;
  fx_is_sampled := ht_kfs_fixSize_is_sampled;
  fx_add_value := ht_kfs_fixSize_add_value;
  fx_destory := ht_kfs_fixSize_destory;
  fx_view h size o n :=
    match h with
    | PLive t => fwf t ∧ fheld t = ∅ ∧ fsize (ft t) = size ∧ fmallocs t = [] ∧
                 (∀ b, contents t b = o b) ∧ colls t <= n
    | _ => False
    end
|}.

Lemma fixSize_get_ok (h : ptr (fstate K)) size o n key (Q : option (Z * Z) → ptr (fstate K) → Prop) :
  fx_view h size o n → Q (slots_get size key o) h → wp (fx_get key) Q h.
Proof.
  intros Hv HQ. destruct h as [| |t]; [done..|]. destruct Hv as (W & Hh & Hs & Hm & Ho & Hn).
  apply wp_unless_null, wp_fix_get; [done..|]. unfold fbin. rewrite Ho, Hs. exact HQ.
Qed.

#[export] Instance fixSize_laws : FixedTableLaws K (ptr (fstate K)).
Proof.
  split.
  - intros size Hn. destruct (create_models (K:=K) size [] Hn) as (t & E & W & Hh & Hs & Hc & Hl & Hm & _).
    exists (PLive t). split; [exact E|]. split_and!; try done. rewrite Hl. simpl. lia.
  - apply fixSize_get_ok.
  - intros h size o n key Q Hv HQ. simpl. unfold ht_kfs_fixSize_is_sampled. wp_steps.
    eapply (fixSize_get_ok h); [exact Hv|]. wp_steps. exact HQ.
  - intros h size o n key delta Q Hv Hlt HQ. destruct h as [| |t]; [done..|].
    destruct Hv as (W & Hh & Hs & Hm & Ho & Hn).
    apply wp_unless_null, wp_fix_add_value; [done|done|lia|].
    intros t' (W' & Hc' & Hs' & Hn' & _ & Hm' & _) Hh'. apply (HQ (PLive t')).
    split_and!; [done|done|congruence| | |].
    + rewrite Hm', Hm. by destruct (act_add _ _ _).
    + intros b. rewrite Hc'. unfold slots_add, fbin. rewrite Hs, Hm, Ho.
      case_decide as E; [by subst b|apply Ho].
    + rewrite Hn'. pose proof (act_collisions_bound (act_add key delta (contents t (fbin key t)))). lia.
  - intros h size o n Q Hv HQ. destruct h as [| |t]; [done..|]. destruct Hv as (W & Hh & _).
    assert (wp fix_free_entries (λ _ s, fheld s = ∅) t) as Hf
      by (apply wp_fix_free_entries; [done|]; intros s _ ->; done).
    apply wp_run in Hf as ([] & u & Eu & Hu). unfold wp. simpl. rewrite Eu.
    unfold fheld in Hu. rewrite decide_True by done. apply HQ.
Qed.
End implementation.
