(* ===== verification/PktListTable.v ===== *)
(** * The table of sent packets (public_lib/mt_hashtable_kFlow_vLinklist.c)

    For each 5-tuple flow, the packets sent and not yet accounted for, oldest
    first.  The table is a chained table whose values are the two ends of a
    list of packets; the packets live in an arena of their own.  The sender
    appends a packet with [ht_vl_set]; when the receiver acknowledges a packet,
    [ht_vl_get_rece_lost_volume] counts and frees every older packet as lost
    and the packet itself as received. *)
From S2P Require Import Prelude CMonad ChainedTable ChainSpec Flow.

(** [pkt_volume_t]: a node whose key is the sequence number and whose value is
    the volume *)
Abbreviation pkt_volume_t := (node Z Z).
Abbreviation seqid := (nkey (K := Z) (V := Z)).
Abbreviation volume := (nvalue (K := Z) (V := Z)).

(** The value of an entry: [oldest_pkt] and [newest_pkt] *)
Record pkt_ends := PktEnds { oldest_pkt : option loc; newest_pkt : option loc }.

(** [receV_lostV_t] *)
Record receV_lostV := ReceVLostV {
  received_volume : Z; lost_volume : Z; lost_pkt_num : Z
}.
Definition no_volume : receV_lostV := ReceVLostV 0 0 0.

(** [hashtable_vl_t] with its packets *)
Record vstate := VState { vtable : tstate flow_s pkt_ends; vpkts : arena pkt_volume_t }.

Definition on_vtable {A} (c : cmd (tstate flow_s pkt_ends) A) : cmd vstate A :=
  zoom vtable (λ t s, VState t (vpkts s)) c.
Definition on_vpkts {A} (c : cmd (arena pkt_volume_t) A) : cmd vstate A :=
  zoom vpkts (λ m s, VState (vtable s) m) c.
Definition in_vtable {A} (c : cmd (arena (node flow_s pkt_ends)) A) : cmd vstate A :=
  on_vtable (on_arena c).

(** [new_pkt_volume] *)
Definition new_pkt_volume (seqid volume : Z) : cmd vstate (option loc) :=
  on_vpkts (malloc (Node seqid volume None)).

(** [ht_vl_create] for [size] bins *)
Definition ht_vl_create (size : Z) (mem : bool) : ptr vstate :=
  match tbl_create size [mem] with
  | PLive t => PLive (VState t (Arena ∅ 1%positive [] ∅))
  | _ => PNull
  end.

(** [while (p_pkt) { next = p_pkt->next; free(p_pkt); p_pkt = next; }] *)
Fixpoint free_pkts (fuel : nat) (p_pkt : option loc) : cmd vstate unit :=
  match p_pkt, fuel with
  | None, _ => mret tt
  | Some _, O => throw OutOfFuel
  | Some _, S fuel =>
      n ← on_vpkts (load p_pkt);
      on_vpkts (free p_pkt);;
      free_pkts fuel (nnext n)
  end.
Definition pkt_fuel (s : vstate) : nat := S (size (heap (vpkts s))).

(** The loop over the entries of a bin *)
Fixpoint free_entries (fuel : nat) (p_node : option loc) : cmd vstate unit :=
  match p_node, fuel with
  | None, _ => mret tt
  | Some _, O => throw OutOfFuel
  | Some _, S fuel =>
      n ← in_vtable (load p_node);
      f ← gets pkt_fuel;
      free_pkts f (oldest_pkt (nvalue n));;
      in_vtable (free p_node);;
      free_entries fuel (nnext n)
  end.
Definition vl_free_all : cmd vstate unit :=
  n ← gets (tsize ∘ ttable ∘ vtable);
  for_range (Z.to_nat n) 0 (λ i,
    p_node ← on_vtable (read_bin i);
    f ← gets (chain_fuel ∘ vtable);
    free_entries f p_node).

(** [ht_vl_destory] *)
Definition ht_vl_destory : cmd (ptr vstate) unit := λ p,
  match p with
  | PNull => Ok (tt, PNull)
  | PFreed => Fault Dangling
  | PLive s =>
      match vl_free_all s with
      | Ok (_, s) =>
          if decide (held (tarena (vtable s)) = ∅) then Ok (tt, PFreed) else Fault LockBusy
      | Fault e => Fault e
      end
  end.

(** [ht_vl_hash] *)
Definition ht_vl_hash (key : flow_s) (size : Z) : Z := flow_hash key size.

(** The packet loop of [ht_vl_get_rece_lost_volume]: count and free the packets
    older than [sid]; the rest of the list and the counts *)
Fixpoint lost_loop (fuel : nat) (iterator : option loc) (sid : Z) (ans : receV_lostV)
    : cmd vstate (option loc * receV_lostV) :=
  match iterator, fuel with
  | None, _ => mret (None, ans)
  | Some _, O => throw OutOfFuel
  | Some _, S fuel =>
      n ← on_vpkts (load iterator);
      if decide (seqid n < sid) then
        let ans := ReceVLostV (received_volume ans) (u32 (lost_volume ans + volume n))
                     (u32 (lost_pkt_num ans + 1)) in
        on_vpkts (free iterator);;
        lost_loop fuel (nnext n) sid ans
      else mret (iterator, ans)
  end.

(** [if (iterator && iterator->seqid == seqid) ...] *)
Definition receive_pkt (iterator : option loc) (sid : Z) (ans : receV_lostV)
    : cmd vstate (option loc * receV_lostV) :=
  match iterator with
  | None => mret (None, ans)
  | Some _ =>
      n ← on_vpkts (load iterator);
      if decide (seqid n = sid) then
        let ans := ReceVLostV (u32 (received_volume ans + volume n)) (lost_volume ans)
                     (lost_pkt_num ans) in
        on_vpkts (free iterator);;
        mret (nnext n, ans)
      else mret (iterator, ans)
  end.

(** Both steps: the rest of the list and the counts *)
Definition account_pkts (fuel : nat) (oldest : option loc) (sid : Z)
    : cmd vstate (option loc * receV_lostV) :=
  '(iterator, ans) ← lost_loop fuel oldest sid no_volume;
  receive_pkt iterator sid ans.

(** [ht_vl_get_rece_lost_volume], for a table that is not NULL *)
Definition vl_get_rece_lost_volume (key : flow_s) (sid : Z) : cmd vstate receV_lostV :=
  bin ← gets (ht_vl_hash key ∘ tsize ∘ ttable ∘ vtable);
  on_vtable (mutex_lock bin);;
  head ← on_vtable (read_bin bin);
  fuel ← gets (chain_fuel ∘ vtable);
  '(_, entry) ← on_vtable (walk fuel key None head);
  found ← on_vtable (hit key entry);
  ans ← (if (found : bool) then
           n ← in_vtable (load entry);
           f ← gets pkt_fuel;
           '(iterator, ans) ← account_pkts f (oldest_pkt (nvalue n)) sid;
           in_vtable (update entry (set_nvalue
             (PktEnds iterator (if decide (iterator = None) then None
                                else newest_pkt (nvalue n)))));;
           mret ans
         else mret no_volume);
  on_vtable (mutex_unlock bin);;
  mret ans.

(** The packet appended to the list of an existing entry *)
Definition append_pkt (next pkt_volume : option loc) : cmd vstate unit :=
  n ← in_vtable (load next);
  if decide (oldest_pkt (nvalue n) = None) then
    in_vtable (update next (set_nvalue (PktEnds pkt_volume pkt_volume)))
  else
    on_vpkts (update (newest_pkt (nvalue n)) (set_nnext pkt_volume));;
    in_vtable (update next (set_nvalue (PktEnds (oldest_pkt (nvalue n)) pkt_volume))).

(** [ht_vl_set] (with [ht_vl_newpair], which asserts its packet is not NULL) *)
Definition vl_set (key : flow_s) (sid vol : Z) : cmd vstate unit :=
  bin ← gets (ht_vl_hash key ∘ tsize ∘ ttable ∘ vtable);
  on_vtable (mutex_lock bin);;
  head ← on_vtable (read_bin bin);
  fuel ← gets (chain_fuel ∘ vtable);
  '(last, next) ← on_vtable (walk fuel key None head);
  pkt_volume ← new_pkt_volume sid vol;
  found ← on_vtable (hit key next);
  (if (found : bool) then append_pkt next pkt_volume
   else
     assert_ (bool_decide (pkt_volume ≠ None));;
     on_vtable (tbl_link key (PktEnds pkt_volume pkt_volume) bin last next));;
  on_vtable (mutex_unlock bin).

(** ** The API, on a pointer to a table *)
Definition ht_vl_get_rece_lost_volume (key : flow_s) (sid : Z) : cmd (ptr vstate) receV_lostV :=
  unless_null no_volume (vl_get_rece_lost_volume key sid).
Definition ht_vl_set (key : flow_s) (sid vol : Z) : cmd (ptr vstate) unit :=
  unless_null tt (vl_set key sid vol).
