(* ===== verification/PktListSpec.v ===== *)
(** * The table of sent packets refines a map from flows to packet lists

    [vrep] is the invariant: the chained table is well formed and the packet
    lists of the entries are disjoint chains that cover the packet arena. *)
From S2P Require Import Prelude CMonad ChainedTable ChainSpec ChainHeap ChainRefine ChainOps.
From S2P Require Import ChainIter ChainLife TableSpec ChainView Flow PktListTable.

(** ** The specification *)

(** The packets older than [sid] at the front of a list, and the rest *)
Fixpoint lost_part (sid : Z) (l : list (Z * Z)) : list (Z * Z) :=
  match l with
  | (s, v) :: l => if decide (s < sid) then (s, v) :: lost_part sid l else []
  | [] => []
  end.
Fixpoint kept_part (sid : Z) (l : list (Z * Z)) : list (Z * Z) :=
  match l with
  | (s, v) :: l' => if decide (s < sid) then kept_part sid l' else l
  | [] => []
  end.

Definition add_lost (ans : receV_lostV) (x : Z * Z) : receV_lostV :=
  ReceVLostV (received_volume ans) (u32 (lost_volume ans + x.2)) (u32 (lost_pkt_num ans + 1)).

(** The packet acknowledged, if it is the oldest left *)
Definition receive_part (sid : Z) (ans : receV_lostV) (l : list (Z * Z)) : receV_lostV * list (Z * Z) :=
  match l with
  | (s, v) :: l' =>
      if decide (s = sid)
      then (ReceVLostV (u32 (received_volume ans + v)) (lost_volume ans) (lost_pkt_num ans), l')
      else (ans, l)
  | [] => (ans, [])
  end.

Definition account (sid : Z) (l : list (Z * Z)) : receV_lostV * list (Z * Z) :=
  receive_part sid (foldl add_lost no_volume (lost_part sid l)) (kept_part sid l).

Definition pkt_map : Type := kmap flow_s (list (Z * Z)).
Definition spec_vl_set (k : flow_s) (sid vol : Z) (m : pkt_map) : pkt_map :=
  kupd k (Some (default [] (m k) ++ [(sid, vol)])) m.
Definition spec_vl_get (k : flow_s) (sid : Z) (m : pkt_map) : receV_lostV * pkt_map :=
  match m k with
  | None => (no_volume, m)
  | Some l => let '(ans, l') := account sid l in (ans, kupd k (Some l') m)
  end.

(** ** The invariant *)
Section vrep.
Implicit Types (s : vstate) (cells : Z → list (cell flow_s pkt_ends)).
Implicit Types (pls : loc → list (cell Z Z)) (k : flow_s).

Definition pheap s := heap (vpkts s).

(** An entry owns the packet list [l] in the heap [h]. *)
Definition owns (h : gmap loc pkt_volume_t) (v : pkt_ends) (l : list (cell Z Z)) : Prop :=
  seg h (oldest_pkt v) l None ∧ newest_pkt v = lastp None l ∧ NoDup (addrs l).

Record vrep s cells pls : Prop := {
  vr_table : rep (vtable s) cells;
  vr_owns b c : c ∈ cells b → owns (pheap s) (cval c) (pls (caddr c));
  vr_disjoint b b' c d x : c ∈ cells b → d ∈ cells b' →
    x ∈ addrs (pls (caddr c)) → x ∈ addrs (pls (caddr d)) → caddr c = caddr d;
  vr_live x : is_Some (pheap s !! x) → ∃ b c, c ∈ cells b ∧ x ∈ addrs (pls (caddr c));
  vr_brk x : is_Some (pheap s !! x) → (x < brk (vpkts s))%positive
}.

Definition vquiet s : Prop :=
  held (tarena (vtable s)) = ∅ ∧ mallocs (tarena (vtable s)) = [] ∧
  mallocs (vpkts s) = [] ∧ held (vpkts s) = ∅.

Definition vbin k s : Z := bin_of k (vtable s).

(** The packet lists as the callers see them *)
Definition vmap s cells pls : pkt_map := λ k,
  (λ c, pairs (pls (caddr c))) <$> l_find k (cells (vbin k s)).

Lemma owns_frame h h' v l :
  owns h v l → (∀ x, x ∈ addrs l → h' !! x = h !! x) → owns h' v l.
Proof. intros (Hs & Hn & Hd) Hf. split_and!; [by eapply seg_frame|done..]. Qed.

(** Replacing the packet list of the entry of [k] *)
Lemma vrep_set s cells pls k t' v' l' ph' brk' :
  vrep s cells pls →
  let b := vbin k s in
  let a := caddr (l_target (brk (tarena (vtable s))) k v' (cells b)) in
  rep t' (<[b := l_set (brk (tarena (vtable s))) k v' (cells b)]> cells) →
  owns ph' v' l' →
  (∀ b d, d ∈ cells b → caddr d ≠ a → ∀ x, x ∈ addrs (pls (caddr d)) →
     ph' !! x = pheap s !! x ∧ x ∉ addrs l') →
  (∀ x, is_Some (ph' !! x) → x ∈ addrs l' ∨
     ∃ b d, d ∈ cells b ∧ caddr d ≠ a ∧ x ∈ addrs (pls (caddr d))) →
  (∀ x, is_Some (ph' !! x) → (x < brk')%positive) →
  vrep (VState t' (Arena ph' brk' [] ∅))
       (<[b := l_set (brk (tarena (vtable s))) k v' (cells b)]> cells) (<[a := l']> pls).
Proof.
  intros R b a Rt Hown Hother Hlive Hbrk. pose proof (vr_table _ _ _ R) as RT.
  pose proof (rep_sorted _ _ RT b) as HS.
  set (cells' := <[b := l_set (brk (tarena (vtable s))) k v' (cells b)]> cells) in *.
  assert (l_target (brk (tarena (vtable s))) k v' (cells b) ∈ cells' b) as Htin.
  { unfold cells'. rewrite fn_lookup_insert. apply elem_of_l_set; [done|]. by right. }
  assert (∀ b' c, c ∈ cells' b' → caddr c = a ∧ cval c = v' ∨ caddr c ≠ a ∧ c ∈ cells b') as Hcase.
  { intros b' c Hc. destruct (decide (caddr c = a)) as [E|E]; [left|right]; (split; [done|]).
    - destruct (rep_addr_inj _ _ _ _ _ _ Rt Hc Htin E) as [_ ->].
      unfold l_target. by destruct (l_find k (cells b)).
    - unfold cells' in Hc. destruct (decide (b' = b)) as [->|Hne].
      + rewrite fn_lookup_insert in Hc. apply elem_of_l_set in Hc as [[? _]| ->]; [done| |done].
        by destruct E.
      + by rewrite fn_lookup_insert_ne in Hc. }
  assert (∀ b' c, c ∈ cells b' → caddr c ≠ a → c ∈ cells' b') as Hkeep.
  { intros b' c Hc Hne. unfold cells'. destruct (decide (b' = b)) as [->|Hb]; [|by rewrite fn_lookup_insert_ne].
    rewrite fn_lookup_insert. apply elem_of_l_set; [done|].
    destruct (decide (key_compare k (ckey c) = 0)) as [E|E]; [|by left].
    destruct Hne. unfold a, l_target.
    assert (l_find k (cells b) = Some c) as -> by (by apply l_find_Some). done. }
  constructor; simpl; unfold pheap; simpl.
  - exact Rt.
  - intros b' c Hc. destruct (Hcase b' c Hc) as [[Ea Ev]|[Ea Hin]].
    + by rewrite Ea, Ev, fn_lookup_insert.
    + rewrite fn_lookup_insert_ne by done. eapply owns_frame; [by eapply (vr_owns _ _ _ R)|].
      intros x Hx. by apply (Hother b' c).
  - intros b1 b2 c d x Hc Hd. destruct (Hcase b1 c Hc) as [[Ea _]|[Ea Hin]], (Hcase b2 d Hd) as [[Eb _]|[Eb Hin']];
      rewrite ?Ea, ?Eb, ?fn_lookup_insert, ?fn_lookup_insert_ne by done; intros Hx Hx'.
    + done.
    + by destruct (Hother b2 d Hin' Eb x Hx').
    + by destruct (Hother b1 c Hin Ea x Hx).
    + by eapply (vr_disjoint _ _ _ R).
  - intros x Hx. destruct (Hlive x Hx) as [Hin|(b' & d & Hd & Hne & Hin)].
    + exists b, (l_target (brk (tarena (vtable s))) k v' (cells b)). split; [done|].
      fold a. by rewrite fn_lookup_insert.
    + exists b', d. split; [by apply Hkeep|]. by rewrite fn_lookup_insert_ne.
  - done.
Qed.

Lemma vmap_set s s' cells pls k v' l' :
  vrep s cells pls → size_of (vtable s') = size_of (vtable s) →
  let b := vbin k s in
  let a := caddr (l_target (brk (tarena (vtable s))) k v' (cells b)) in
  vmap s' (<[b := l_set (brk (tarena (vtable s))) k v' (cells b)]> cells) (<[a := l']> pls)
  ≡ kupd k (Some (pairs l')) (vmap s cells pls).
Proof.
  intros R Hsz b a k'. pose proof (vr_table _ _ _ R) as RT. unfold vmap, kupd.
  assert (vbin k' s' = vbin k' s) as Eb by (unfold vbin, bin_of; by rewrite Hsz). rewrite Eb.
  destruct (decide (vbin k' s = b)) as [Hb|Hb].
  - rewrite Hb, fn_lookup_insert, l_find_set by apply RT. case_decide as E; simpl.
    + fold a. by rewrite fn_lookup_insert.
    + destruct (l_find k' (cells b)) as [d|] eqn:Ed; [|done]. simpl. f_equal. f_equal.
      rewrite fn_lookup_insert_ne; [done|]. intros Ea. apply E.
      apply l_find_Some in Ed as [Hd Ek]; [|apply RT].
      unfold a, l_target in Ea. destruct (l_find k (cells b)) as [d'|] eqn:Ed'.
      * apply l_find_Some in Ed' as [Hd' Ek']; [|apply RT]. simpl in Ea.
        destruct (rep_addr_inj _ _ _ _ _ _ RT Hd' Hd Ea) as [_ ->].
        rewrite (compare_eq_l k' (ckey d)) by done. by apply compare_eq_sym.
      * simpl in Ea. destruct (rep_cell_live _ _ _ _ RT Hd) as [r Hr].
        pose proof (rep_brk_fresh _ _ RT). rewrite <- Ea in Hr. unfold theap in *. congruence.
  - rewrite fn_lookup_insert_ne by done. rewrite decide_False.
    + destruct (l_find k' (cells (vbin k' s))) as [d|] eqn:Ed; [|done]. simpl. f_equal. f_equal.
      rewrite fn_lookup_insert_ne; [done|]. intros Ea. apply Hb.
      apply l_find_Some in Ed as [Hd Ek]; [|apply RT].
      unfold a, l_target in Ea. destruct (l_find k (cells b)) as [d'|] eqn:Ed'.
      * apply l_find_Some in Ed' as [Hd' Ek']; [|apply RT]. simpl in Ea.
        by destruct (rep_addr_inj _ _ _ _ _ _ RT Hd' Hd Ea) as [<- _].
      * simpl in Ea. destruct (rep_cell_live _ _ _ _ RT Hd) as [r Hr].
        pose proof (rep_brk_fresh _ _ RT). rewrite <- Ea in Hr. unfold theap in *. congruence.
    + intros E. apply Hb. unfold b, vbin, bin_of. by apply bin_eq.
Qed.

(** ** The packet loops *)

Lemma wp_on_vtable {A} (c : cmd (tstate flow_s pkt_ends) A) (Q : A → vstate → Prop) s :
  wp c (λ a t, Q a (VState t (vpkts s))) (vtable s) → wp (on_vtable c) Q s.
Proof. exact (wp_zoom vtable _ c Q s). Qed.
Lemma wp_on_vpkts {A} (c : cmd (arena pkt_volume_t) A) (Q : A → vstate → Prop) s :
  wp c (λ a m, Q a (VState (vtable s) m)) (vpkts s) → wp (on_vpkts c) Q s.
Proof. exact (wp_zoom vpkts _ c Q s). Qed.

Lemma wp_load_pkt a n (Q : pkt_volume_t → vstate → Prop) s :
  pheap s !! a = Some n → Q n s → wp (on_vpkts (load (Some a))) Q s.
Proof. intros Hn HQ. apply wp_on_vpkts. eapply wp_load; [exact Hn|]. by destruct s. Qed.

(** [account] on cells: what is removed and what is left *)
Fixpoint cut (sid : Z) (l : list (cell Z Z)) : list (cell Z Z) * list (cell Z Z) :=
  match l with
  | [] => ([], [])
  | c :: l' => if decide (ckey c < sid)
               then let '(r, k) := cut sid l' in (c :: r, k) else ([], l)
  end.

Lemma cut_app sid l : (cut sid l).1 ++ (cut sid l).2 = l.
Proof.
  induction l as [|c l IH]; simpl; [done|]. case_decide; [|done].
  destruct (cut sid l) as [r k]. simpl in *. by rewrite IH.
Qed.

Lemma cut_pairs sid l :
  lost_part sid (pairs l) = pairs (cut sid l).1 ∧ kept_part sid (pairs l) = pairs (cut sid l).2.
Proof.
  induction l as [|c l [IH1 IH2]]; simpl; [done|]. case_decide; [|done].
  destruct (cut sid l) as [r k]. simpl in *. by rewrite IH1, IH2.
Qed.

Definition without (xs : list loc) (h h' : gmap loc pkt_volume_t) : Prop :=
  ∀ x, h' !! x = if decide (x ∈ xs) then None else h !! x.

Lemma wp_lost_loop fuel p l sid ans (Q : option loc * receV_lostV → vstate → Prop) s :
  seg (pheap s) p l None → NoDup (addrs l) → (length l < fuel)%nat →
  (∀ h', without (addrs (cut sid l).1) (pheap s) h' →
     Q (headp (cut sid l).2, foldl add_lost ans (pairs (cut sid l).1))
       (VState (vtable s) (set_heap h' (vpkts s)))) →
  wp (lost_loop fuel p sid ans) Q s.
Proof.
  revert fuel p ans s. induction l as [|c l IH]; intros fuel p ans s Hs Hnd Hf HQ.
  - simpl in Hs. subst p.
    assert (Q (None, ans) s) as HQ'.
    { destruct s as [t [h b m hd]]. apply (HQ h). intros x. by rewrite decide_False by apply not_elem_of_nil. }
    by destruct fuel.
  - destruct Hs as (-> & r & Hc & Hs). destruct fuel as [|fuel]; [simpl in Hf; lia|].
    change (addrs (c :: l)) with (caddr c :: addrs l) in Hnd. apply NoDup_cons in Hnd as [Hnin Hnd].
    simpl. wp_steps. eapply wp_load_pkt; [exact Hc|]. simpl in HQ |- *.
    case_decide as Hlt.
    + wp_steps. apply wp_on_vpkts. eapply wp_free; [exact Hc|].
      apply IH; [|done|simpl in Hf; lia|].
      * eapply seg_frame; [|exact Hs]. intros x Hx. unfold pheap. simpl.
        rewrite lookup_delete_ne; [done|]. by intros <-.
      * intros h' Hh'. destruct (cut sid l) as [r' k']. simpl in *. apply HQ.
        intros x. rewrite Hh'. unfold pheap. simpl.
        change (addrs (c :: r')) with (caddr c :: addrs r').
        destruct (decide (x = caddr c)) as [->|Hne].
        -- rewrite lookup_delete_eq. rewrite (decide_True (P := caddr c ∈ caddr c :: _)) by set_solver.
           by case_decide.
        -- rewrite lookup_delete_ne by done. repeat case_decide; try done; set_solver.
    + wp_steps. destruct s as [t [h b m hd]]. apply (HQ h).
      intros x. by rewrite decide_False by apply not_elem_of_nil.
Qed.

(** The whole account: cut, then the packet acknowledged *)
Definition c_kept (sid : Z) (l : list (cell Z Z)) : list (cell Z Z) :=
  match (cut sid l).2 with
  | c :: l' => if decide (ckey c = sid) then l' else c :: l'
  | [] => []
  end.

Lemma account_pairs sid l : (account sid (pairs l)).2 = pairs (c_kept sid l).
Proof.
  unfold account, c_kept. destruct (cut_pairs sid l) as [_ ->].
  destruct (cut sid l).2 as [|c l']; [done|]. simpl. by case_decide.
Qed.

Lemma c_kept_suffix sid l : ∃ r, l = r ++ c_kept sid l.
Proof.
  unfold c_kept. pose proof (cut_app sid l) as Hc. destruct (cut sid l) as [r [|c k]]; simpl in *.
  - by exists r.
  - case_decide; [|by exists r]. exists (r ++ [c]). by rewrite <- app_assoc.
Qed.

Lemma wp_account fuel p l sid (Q : option loc * receV_lostV → vstate → Prop) s :
  seg (pheap s) p l None → NoDup (addrs l) → (length l < fuel)%nat →
  (∀ h', (∀ x, x ∈ addrs (c_kept sid l) ∨ x ∉ addrs l → h' !! x = pheap s !! x) →
     (∀ x, x ∈ addrs l → x ∉ addrs (c_kept sid l) → h' !! x = None) →
     Q (headp (c_kept sid l), (account sid (pairs l)).1) (VState (vtable s) (set_heap h' (vpkts s)))) →
  wp (account_pkts fuel p sid) Q s.
Proof.
  intros Hs Hnd Hf HQ. unfold account_pkts. wp_steps. eapply wp_lost_loop; [done..|]. intros h' Hh'.
  pose proof (cut_app sid l) as Hl. unfold account in HQ. destruct (cut_pairs sid l) as [E1 E2].
  rewrite E1, E2 in HQ. unfold c_kept in HQ. destruct (cut sid l) as [r k]. simpl in *. subst l.
  rewrite addrs_app in *. apply NoDup_app in Hnd as (Hndr & Hdis & Hndk).
  apply seg_split in Hs as [_ Hk].
  destruct k as [|c k]; simpl.
  - wp_steps. apply HQ; intros x; rewrite Hh'; [|intros Hx Hx'].
    + intros Hx. rewrite decide_False; [done|]. set_solver.
    + rewrite decide_True; [done|set_solver].
  - destruct Hk as (_ & q & Hc & Hk). pose proof (seg_head _ _ _ Hk) as ->.
    change (addrs (c :: k)) with (caddr c :: addrs k) in *. apply NoDup_cons in Hndk as [Hcn Hndk].
    assert (h' !! caddr c = pheap s !! caddr c) as Hc'.
    { rewrite Hh'. rewrite decide_False; [done|]. intros Hx. by destruct (Hdis _ Hx); set_solver. }
    wp_steps. eapply wp_load_pkt; [unfold pheap; simpl; rewrite Hc'; exact Hc|].
    change (pairs (c :: k)) with ((ckey c, cval c) :: pairs k) in HQ. simpl in HQ |- *.
    destruct (decide (ckey c = sid)) as [Hsid|Hsid].
    + wp_steps. apply wp_on_vpkts. eapply wp_free; [simpl; rewrite Hc'; exact Hc|].
      wp_steps. apply HQ; simpl.
      * intros x Hx. rewrite lookup_delete_ne; [|intros <-; set_solver].
        rewrite Hh'. rewrite decide_False; [done|]. intros Hr. destruct Hx as [Hx|Hx]; [|set_solver].
        by destruct (Hdis _ Hr); set_solver.
      * intros x Hx Hx'. destruct (decide (x = caddr c)) as [->|Hne]; [apply lookup_delete_eq|].
        rewrite lookup_delete_ne by done. rewrite Hh'. rewrite decide_True; [done|set_solver].
    + wp_steps. apply HQ.
      * intros x Hx. rewrite Hh'. rewrite decide_False; [done|]. intros Hr.
        destruct Hx as [Hx|Hx]; [|set_solver]. by destruct (Hdis _ Hr).
      * intros x Hx Hx'. rewrite Hh'. rewrite decide_True; [done|].
        change (addrs (c :: k)) with (caddr c :: addrs k) in Hx'. set_solver.
Qed.

(** ** The operations *)

Lemma lastp_suffix (r l : list (cell Z Z)) :
  (if decide (headp l = None) then None else lastp None (r ++ l)) = lastp None l.
Proof.
  destruct l as [|c l]; [done|]. unfold lastp. by rewrite last_app_cons.
Qed.

Lemma vrep_fuel s cells pls b c :
  vrep s cells pls → c ∈ cells b → (length (pls (caddr c)) < pkt_fuel s)%nat.
Proof.
  intros R Hc. destruct (vr_owns _ _ _ R b c Hc) as (Hs & _ & Hnd).
  unfold pkt_fuel. apply Nat.lt_succ_r, chain_length; [done|].
  intros x Hx. by eapply seg_live.
Qed.

(** The set of entries a [set] of [k] does not concern *)
Lemma other_entries s cells pls k v' b d :
  vrep s cells pls → d ∈ cells b →
  caddr d ≠ caddr (l_target (brk (tarena (vtable s))) k v' (cells (vbin k s))) →
  ∀ c, l_find k (cells (vbin k s)) = Some c → ∀ x, x ∈ addrs (pls (caddr d)) → x ∉ addrs (pls (caddr c)).
Proof.
  intros R Hd Hne c Hc x Hx Hx'. apply Hne. unfold l_target. rewrite Hc.
  apply l_find_Some in Hc as [Hin _]; [|apply (vr_table _ _ _ R)].
  simpl. eapply (vr_disjoint _ _ _ R); [exact Hd|exact Hin|exact Hx|exact Hx'].
Qed.

Definition vpost (s' : vstate) (m : pkt_map) : Prop :=
  ∃ cells pls, vrep s' cells pls ∧ vquiet s' ∧ vmap s' cells pls ≡ m.

Lemma wp_vl_unlock k s t' (m : pkt_map) (Q : unit → vstate → Prop) vp cells' pls' :
  vquiet s → mallocs vp = [] → held vp = ∅ → size_of t' = size_of (vtable s) →
  0 <= vbin k s < size_of (vtable s) →
  held (tarena t') = held (tarena (with_lock (vbin k s) (vtable s))) → mallocs (tarena t') = [] →
  vrep (VState t' vp) cells' pls' → vmap (VState t' vp) cells' pls' ≡ m →
  (∀ s', vpost s' m → Q tt s') →
  wp (on_vtable (mutex_unlock (vbin k s))) Q (VState t' vp).
Proof.
  intros (Hh & Hm & Hvm & Hvh) Hvp Hhvp Hsz Hb Hheld Hmal R Em HQ.
  apply wp_on_vtable, wp_mutex_unlock; [simpl; lia|simpl; rewrite Hheld; set_solver|].
  apply HQ. exists cells', pls'. split_and!.
  - destruct R as [RT ? ? ? ?]. constructor; [|done..]. by eapply rep_ext.
  - unfold vquiet. simpl. split_and!; [|done|done|done]. rewrite Hheld. simpl. rewrite Hh. set_solver.
  - exact Em.
Qed.

(** The common beginning of the two operations: the bin is locked and its chain
    searched. *)
Lemma wp_vl_locate {A} k (f : Z → option loc * option loc → cmd vstate A) (Q : A → vstate → Prop) s cells pls :
  vrep s cells pls → vquiet s →
  (∀ p, bins (ttable (vtable s)) !! vbin k s = Some p → seg (theap (vtable s)) p (cells (vbin k s)) None →
     wp (f (vbin k s) (lastp None (before k (cells (vbin k s))), headp (after k (cells (vbin k s))))) Q
       (VState (with_lock (vbin k s) (vtable s)) (vpkts s))) →
  wp (bin ← gets (ht_vl_hash k ∘ tsize ∘ ttable ∘ vtable);
      on_vtable (mutex_lock bin);;
      head ← on_vtable (read_bin bin);
      fuel ← gets (chain_fuel ∘ vtable);
      r ← on_vtable (walk fuel k None head);
      f bin r) Q s.
Proof.
  intros R (Hh & _) HQ. pose proof (vr_table _ _ _ R) as RT.
  pose proof (bin_of_range _ _ k RT : 0 <= vbin k s < size_of (vtable s)) as Hb.
  destruct (rep_bin _ _ RT _ Hb) as (p & Hp & Hs). pose proof (with_lock_rep (vbin k s) _ _ RT) as RL.
  apply wp_bind, wp_gets. change ((ht_vl_hash k ∘ tsize ∘ ttable ∘ vtable) s) with (vbin k s).
  apply wp_bind, wp_on_vtable, wp_mutex_lock; [done|rewrite Hh; set_solver|].
  apply wp_bind, wp_on_vtable. eapply wp_read_bin; [exact Hb|exact Hp|].
  apply wp_bind, wp_gets. apply wp_bind, wp_on_vtable.
  eapply (wp_walk _ _ _ _ (cells (vbin k s))); [exact Hs|by eapply (rep_fuel (with_lock _ _))|]. by eapply HQ.
Qed.

(** The test whether the entry found has the key *)
Lemma wp_vl_hit k b (Q : bool → vstate → Prop) t cells vp :
  rep t cells → 0 <= b < size_of t →
  Q (hit_ok k (after k (cells b))) (VState (with_lock b t) vp) →
  wp (on_vtable (hit k (headp (after k (cells b))))) Q (VState (with_lock b t) vp).
Proof.
  intros RT Hb HQ. destruct (rep_bin _ _ RT _ Hb) as (p & _ & Hs).
  apply wp_on_vtable, wp_hit; [by eapply (seg_after (with_lock b t))|exact HQ].
Qed.
Lemma entry_hit k s cells pls :
  vrep s cells pls → hit_ok k (after k (cells (vbin k s))) = true →
  ∃ c r nx, after k (cells (vbin k s)) = c :: r ∧ l_find k (cells (vbin k s)) = Some c ∧
    c ∈ cells (vbin k s) ∧ theap (vtable s) !! caddr c = Some (Node (ckey c) (cval c) nx) ∧
    owns (pheap s) (cval c) (pls (caddr c)).
Proof.
  intros R Hhit. pose proof (vr_table _ _ _ R) as RT. pose proof (hit_find k (cells (vbin k s))) as Hfind.
  rewrite Hhit in Hfind. pose proof (hit_ok_cons _ _ Hhit) as (c & r & E & _). rewrite E in Hfind.
  assert (c ∈ cells (vbin k s)) as Hc by (apply l_find_Some in Hfind as [? _]; [done|apply RT]).
  destruct (rep_cell_live _ _ _ _ RT Hc) as [nx Hnx]. exists c, r, nx. split_and!; [done..|exact (vr_owns _ _ _ R _ c Hc)].
Qed.

(** The packets kept are a list of the same kind. *)
Lemma owns_kept h h' v l sid : owns h v l → (∀ x, x ∈ addrs (c_kept sid l) → h' !! x = h !! x) →
  owns h' (PktEnds (headp (c_kept sid l)) (lastp None (c_kept sid l))) (c_kept sid l).
Proof.
  intros (Hs & _ & Hnd) Hsame. destruct (c_kept_suffix sid l) as [rm E]. rewrite E, addrs_app in Hnd.
  apply NoDup_app in Hnd as (_ & _ & Hnd). rewrite E in Hs. apply seg_split in Hs as [_ Hs].
  split_and!; [by eapply seg_frame|done..].
Qed.
Lemma kept_incl sid l x : x ∈ addrs (c_kept sid l) → x ∈ addrs l.
Proof.
  intros Hx. destruct (c_kept_suffix sid l) as [rm E]. rewrite E, addrs_app. apply elem_of_app. by right.
Qed.

(** The packets up to the one received are gone from the list. *)
Lemma vl_get_finish k sid s cells pls c t' ph' (Q : unit → vstate → Prop) :
  let l := pls (caddr c) in let l' := c_kept sid l in
  vrep s cells pls → vquiet s → l_find k (cells (vbin k s)) = Some c → c ∈ cells (vbin k s) →
  set_post k (PktEnds (headp l') (lastp None l')) (with_lock (vbin k s) (vtable s)) cells t' →
  (∀ x, x ∈ addrs l' ∨ x ∉ addrs l → ph' !! x = pheap s !! x) →
  (∀ x, x ∈ addrs l → x ∉ addrs l' → ph' !! x = None) →
  (∀ s', vpost s' (kupd k (Some (pairs l')) (vmap s cells pls)) → Q tt s') →
  wp (on_vtable (mutex_unlock (vbin k s))) Q (VState t' (set_heap ph' (vpkts s))).
Proof.
  intros l l' R Hq Hfind Hc (Rt' & Hsz & Hcur & Hlv & Hheld & Hmal) Hsame Hgone HQ.
  pose proof Hq as (Hh & Hm & Hvm & Hvh). pose proof (vr_table _ _ _ R) as RT.
  pose proof (bin_of_range _ _ k RT : 0 <= vbin k s < size_of (vtable s)) as Hb.
  pose proof (vr_owns _ _ _ R _ c Hc) as Hown. set (v' := PktEnds (headp l') (lastp None l')) in *.
  pose proof (vmap_set s (VState t' (set_heap ph' (vpkts s))) cells pls k v' l' R Hsz) as Hmap.
  pose proof (vrep_set s cells pls k t' v' l' ph' (brk (vpkts s)) R Rt') as Hrep.
  cbv zeta in Hmap, Hrep. unfold l_target in Hmap, Hrep. rewrite Hfind in Hmap, Hrep. simpl in Hmap, Hrep.
  unfold set_heap. rewrite Hvm, Hvh. eapply (wp_vl_unlock k s);
    [done|done|done|exact Hsz|exact Hb|exact Hheld|by rewrite Hmal| |exact Hmap|exact HQ].
  apply Hrep.
  - eapply owns_kept; [exact Hown|]. intros x Hx. apply Hsame. by left.
  - intros b' d Hd Hne x Hx. assert (x ∉ addrs l) as Hnin.
    { intros Hx'. apply Hne. eapply (vr_disjoint _ _ _ R); [exact Hd|exact Hc|exact Hx|exact Hx']. }
    split; [apply Hsame; by right|]. intros Hx'. by apply Hnin, (kept_incl sid).
  - intros x Hx. destruct (decide (x ∈ addrs l')) as [|Hnl]; [by left|right].
    destruct (decide (x ∈ addrs l)) as [Hin|Hnin]; [rewrite Hgone in Hx by done; by destruct Hx|].
    rewrite Hsame in Hx by (by right). destruct (vr_live _ _ _ R x Hx) as (b' & d & Hd & Hxd).
    exists b', d. split_and!; [done| |done]. intros Ea. by rewrite Ea in Hxd.
  - intros x Hx. apply (vr_brk _ _ _ R). destruct (decide (x ∈ addrs l)) as [Hin|Hnin].
    + destruct Hown as (Hseg & _). by eapply seg_live.
    + by rewrite Hsame in Hx by (by right).
Qed.

Lemma wp_vl_get k sid (Q : receV_lostV → vstate → Prop) s cells pls :
  vrep s cells pls → vquiet s →
  (∀ s', vpost s' (spec_vl_get k sid (vmap s cells pls)).2 →
         Q (spec_vl_get k sid (vmap s cells pls)).1 s') →
  wp (vl_get_rece_lost_volume k sid) Q s.
Proof.
  intros R Hq HQ. pose proof (vr_table _ _ _ R) as RT. pose proof Hq as (Hh & Hm & Hvm & Hvh).
  pose proof (bin_of_range _ _ k RT : 0 <= vbin k s < size_of (vtable s)) as Hb.
  pose proof (with_lock_rep (vbin k s) _ _ RT) as RL.
  unfold vl_get_rece_lost_volume. eapply wp_vl_locate; [exact R|exact Hq|]. intros p Hp Hs. cbv beta iota.
  apply wp_bind, (wp_vl_hit k _ _ _ cells); [done|done|]. unfold spec_vl_get, vmap in HQ.
  pose proof (hit_find k (cells (vbin k s))) as Hfind. destruct (hit_ok _ _) eqn:Hhit; cycle 1.
  { rewrite Hfind in HQ. simpl in HQ. apply wp_bind, wp_ret, wp_bind.
    eapply (wp_vl_unlock k s); [done|exact Hvm|exact Hvh|done|done|done|exact Hm| |reflexivity|].
    - destruct R as [? ? ? ? ?]. constructor; [exact RL|done..].
    - intros s' Hs'. apply wp_ret, HQ. done. }
  destruct (entry_hit k s cells pls R Hhit) as (c & r & nx & E & Ef & Hc & Hnx & Hown). pose proof Hown as (Hseg & Hnew & Hnd).
  rewrite Ef in HQ. simpl in HQ. rewrite E. simpl headp.
  apply wp_bind, wp_bind. apply wp_on_vtable, wp_on_arena. eapply wp_load; [exact Hnx|].
  apply wp_bind, wp_gets. cbn [nvalue].
  apply wp_bind. eapply (wp_account _ _ (pls (caddr c))); [exact Hseg|exact Hnd|by eapply (vrep_fuel s)|].
  intros ph' Hsame Hgone. cbv beta iota. destruct (c_kept_suffix sid (pls (caddr c))) as [rm Erm].
  pose proof (lastp_suffix rm (c_kept sid (pls (caddr c)))) as Elast. rewrite <- Erm in Elast. rewrite Hnew, Elast.
  apply wp_bind, wp_on_vtable. simpl. change (Some (caddr c)) with (headp (c :: r)). rewrite <- E.
  eapply (wp_set_overwrite k _ _ (with_lock (vbin k s) (vtable s))); [exact RL|exact Hp|exact Hs|exact Hhit|].
  intros t' Ht'. apply wp_ret, wp_bind. eapply (vl_get_finish k sid s cells pls c); [done..|].
  intros s' Hs'. apply wp_ret. rewrite (surjective_pairing (account sid _)) in HQ. simpl in HQ.
  apply HQ. rewrite account_pairs. exact Hs'.
Qed.

(** The packets of the flow of [k] *)
Definition list_of k s cells pls : list (cell Z Z) :=
  match l_find k (cells (vbin k s)) with Some c => pls (caddr c) | None => [] end.

Lemma vbrk_fresh s cells pls : vrep s cells pls → pheap s !! brk (vpkts s) = None.
Proof.
  intros R. destruct (pheap s !! brk (vpkts s)) eqn:E; [|done].
  pose proof (vr_brk _ _ _ R _ (mk_is_Some _ _ E)). lia.
Qed.

Lemma list_of_owned s cells pls k x :
  vrep s cells pls → x ∈ addrs (list_of k s cells pls) →
  ∃ c, l_find k (cells (vbin k s)) = Some c ∧ c ∈ cells (vbin k s) ∧ x ∈ addrs (pls (caddr c)).
Proof.
  intros R. unfold list_of. destruct (l_find k _) as [c|] eqn:E.
  - intros Hx. exists c. split_and!; [done| |done].
    apply l_find_Some in E as [? _]; [done|apply (vr_table _ _ _ R)].
  - intros Hx. by apply not_elem_of_nil in Hx.
Qed.

Lemma owns_single h x0 sid vol :
  h !! x0 = None →
  owns (<[x0 := Node sid vol None]> h) (PktEnds (Some x0) (Some x0)) ([] ++ [Cell x0 sid vol]).
Proof.
  intros Hx. split_and!; [|done|apply NoDup_singleton]. by apply (seg_cons_fresh h []).
Qed.

(** The new packet is at the end of its list. *)
Lemma vl_set_finish k sid vol s cells pls t' v' ph' (Q : unit → vstate → Prop) :
  vrep s cells pls → vquiet s →
  set_post k v' (with_lock (vbin k s) (vtable s)) cells t' →
  owns ph' v' (list_of k s cells pls ++ [Cell (brk (vpkts s)) sid vol]) →
  (∀ x, x ∉ addrs (list_of k s cells pls) → x ≠ brk (vpkts s) → ph' !! x = pheap s !! x) →
  (∀ s', vpost s' (spec_vl_set k sid vol (vmap s cells pls)) → Q tt s') →
  wp (on_vtable (mutex_unlock (vbin k s))) Q
    (VState t' (Arena ph' (Pos.succ (brk (vpkts s))) [] ∅)).
Proof.
  intros R Hq (Rt' & Hsz & Hcur & Hlv & Hheld & Hmal) Hown Hsame HQ.
  pose proof Hq as (Hh & Hm & Hvm & Hvh). pose proof (vr_table _ _ _ R) as RT.
  pose proof (vbrk_fresh _ _ _ R) as Hfresh.
  pose proof (bin_of_range _ _ k RT : 0 <= vbin k s < size_of (vtable s)) as Hb.
  set (l := list_of k s cells pls) in *. set (x0 := brk (vpkts s)) in *.
  set (a := caddr (l_target (brk (tarena (vtable s))) k v' (cells (vbin k s)))).
  assert (∀ x, x ∈ addrs (l ++ [Cell x0 sid vol]) ↔ x ∈ addrs l ∨ x = x0) as Hin.
  { intros x. rewrite addrs_app, elem_of_app. split; (intros [?|Hx]; [by left|right]).
    - by apply list_elem_of_singleton in Hx.
    - subst x. apply list_elem_of_here. }
  assert (∀ x b d, d ∈ cells b → caddr d ≠ a → x ∈ addrs (pls (caddr d)) → (x ∉ addrs l) ∧ x ≠ x0) as Hoth.
  { intros x b d Hd Hne Hx. split.
    - intros Hx'. destruct (list_of_owned _ _ _ _ _ R Hx') as (c & Ef & _ & Hxc).
      by apply (other_entries s cells pls k v' b d R Hd Hne c Ef x Hx).
    - intros ->. destruct (vr_owns _ _ _ R b d Hd) as (Hseg & _ & _).
      destruct (seg_live _ _ _ _ _ Hseg Hx). congruence. }
  eapply (wp_vl_unlock k s); [done|done|done|exact Hsz|exact Hb|exact Hheld|by rewrite Hmal| | |exact HQ].
  - apply (vrep_set s cells pls k t' v' (l ++ [Cell x0 sid vol]) ph' (Pos.succ x0) R Rt' Hown).
    + intros b d Hd Hne x Hx. destruct (Hoth x b d Hd Hne Hx) as [Hnl Hn0].
      split; [by apply Hsame|]. rewrite Hin. tauto.
    + intros x Hx. rewrite Hin. destruct (decide (x ∈ addrs l)); [by auto|].
      destruct (decide (x = x0)); [by auto|]. right. rewrite Hsame in Hx by done.
      destruct (vr_live _ _ _ R x Hx) as (b & d & Hd & Hxd). exists b, d. split_and!; [done| |done].
      intros Ea. assert (x ∈ addrs l); [|done]. unfold l, list_of. unfold a, l_target in Ea.
      destruct (l_find k (cells (vbin k s))) as [c|] eqn:Ef; simpl in Ea; [by rewrite <- Ea|].
      destruct (rep_cell_live _ _ _ _ RT Hd) as [r Hr]. pose proof (rep_brk_fresh _ _ RT).
      rewrite <- Ea in *. unfold theap in *. congruence.
    + intros x Hx. destruct (decide (x = x0)) as [->|Hn0]; [lia|].
      destruct (decide (x ∈ addrs l)) as [Hl|Hl].
      * destruct (list_of_owned _ _ _ _ _ R Hl) as (c & _ & Hc & Hxc).
        destruct (vr_owns _ _ _ R _ c Hc) as (Hseg & _ & _).
        pose proof (vr_brk _ _ _ R x (seg_live _ _ _ _ _ Hseg Hxc)). lia.
      * rewrite Hsame in Hx by done. pose proof (vr_brk _ _ _ R x Hx). lia.
  - rewrite (vmap_set s (VState t' (Arena ph' (Pos.succ x0) [] ∅)) cells pls k v'
               (l ++ [Cell x0 sid vol]) R Hsz).
    unfold spec_vl_set. unfold pairs at 1. rewrite fmap_app. simpl.
    assert (default [] (vmap s cells pls k) = pairs l) as ->; [|done].
    unfold vmap, l, list_of. by destruct (l_find k (cells (vbin k s))).
Qed.

(** The new packet, at [x0], is linked behind the newest one. *)
Lemma wp_append_pkt p k0 v nx l x0 sid vol h br m hd t (Q : unit → vstate → Prop) :
  theap t !! p = Some (Node k0 v nx) → owns h v l → h !! x0 = None →
  (∀ v' ph', owns ph' v' (l ++ [Cell x0 sid vol]) → (∀ x, x ∉ addrs l → x ≠ x0 → ph' !! x = h !! x) →
     wp (in_vtable (update (Some p) (set_nvalue v'))) Q (VState t (Arena ph' br m hd))) →
  wp (append_pkt (Some p) (Some x0)) Q (VState t (Arena (<[x0 := Node sid vol None]> h) br m hd)).
Proof.
  destruct t as [[th tb tm tl] tt]. intros Hp (Hseg & Hnew & Hnd) Hfresh HQ. unfold append_pkt. apply wp_bind.
  apply wp_on_vtable, wp_on_arena. eapply wp_load; [exact Hp|]. cbn [nvalue].
  destruct l as [|z l0 _] using rev_ind.
  - simpl in Hseg. rewrite decide_True by done. apply HQ; [by apply owns_single|].
    intros x _ Hx. by rewrite lookup_insert_ne.
  - assert (h !! caddr z = Some (Node (ckey z) (cval z) None)) as Hz.
    { apply seg_app in Hseg as (q & _ & (-> & r' & Hr & ->)). done. }
    rewrite decide_False by (intros Eo; rewrite Eo in Hseg; destruct l0; simpl in Hseg; naive_solver).
    unfold lastp in Hnew. rewrite last_snoc in Hnew. rewrite Hnew. apply wp_bind, wp_on_vpkts. eapply wp_update.
    { simpl. rewrite lookup_insert_ne; [exact Hz|]. congruence. }
    apply HQ.
    + split_and!.
      * apply (seg_insert _ _ l0 z []); [exact Hfresh|by rewrite app_nil_r|by rewrite app_nil_r].
      * simpl. unfold lastp. by rewrite last_snoc.
      * rewrite addrs_app. apply NoDup_app. split_and!; [done| |apply NoDup_singleton].
        intros x Hx Hx'. apply list_elem_of_singleton in Hx' as ->. destruct (seg_live _ _ _ _ _ Hseg Hx). simpl in *. congruence.
    + intros x Hx Hx0. simpl. rewrite !lookup_insert_ne; [done|by apply not_eq_sym|].
      intros <-. apply Hx. rewrite addrs_app. apply elem_of_app. right. apply list_elem_of_here.
Qed.

Lemma wp_vl_set k sid vol (Q : unit → vstate → Prop) s cells pls :
  vrep s cells pls → vquiet s →
  (∀ s', vpost s' (spec_vl_set k sid vol (vmap s cells pls)) → Q tt s') →
  wp (vl_set k sid vol) Q s.
Proof.
  intros R Hq HQ. pose proof (vr_table _ _ _ R) as RT. pose proof Hq as (Hh & Hm & Hvm & Hvh).
  pose proof (bin_of_range _ _ k RT : 0 <= vbin k s < size_of (vtable s)) as Hb.
  pose proof (with_lock_rep (vbin k s) _ _ RT) as RL. pose proof (vbrk_fresh _ _ _ R) as Hfresh.
  unfold vl_set. eapply wp_vl_locate; [exact R|exact Hq|]. intros p Hp Hs. cbv beta iota.
  unfold new_pkt_volume. apply wp_bind, wp_on_vpkts, wp_malloc; [exact Hvm|]. simpl vtable. simpl vpkts.
  apply wp_bind, (wp_vl_hit k _ _ _ cells); [done|done|].
  assert (∀ t' v' ph', set_post k v' (with_lock (vbin k s) (vtable s)) cells t' →
    owns ph' v' (list_of k s cells pls ++ [Cell (brk (vpkts s)) sid vol]) →
    (∀ x, x ∉ addrs (list_of k s cells pls) → x ≠ brk (vpkts s) → ph' !! x = pheap s !! x) →
    wp (on_vtable (mutex_unlock (vbin k s))) Q
      (VState t' (Arena ph' (Pos.succ (brk (vpkts s))) [] (held (vpkts s))))) as Hfin.
  { intros t' v' ph' Hpost Hown Hsame. rewrite Hvh. by eapply vl_set_finish. }
  apply wp_bind. pose proof (hit_find k (cells (vbin k s))) as Hfind. unfold list_of in Hfin.
  destruct (hit_ok _ _) eqn:Hhit.
  - destruct (entry_hit k s cells pls R Hhit) as (c & r & nx & E & Ef & Hc & Hnx & Hown). rewrite Ef in Hfin.
    rewrite E. eapply wp_append_pkt; [exact Hnx|exact Hown|exact Hfresh|]. intros v' ph' Hown' Hsame. apply wp_on_vtable.
    change (Some (caddr c)) with (headp (c :: r)). rewrite <- E.
    eapply (wp_set_overwrite k v' _ (with_lock (vbin k s) (vtable s))); [exact RL|exact Hp|exact Hs|exact Hhit|].
    intros t' Ht'. by eapply Hfin.
  - rewrite Hfind in Hfin. apply wp_bind. rewrite bool_decide_true by done. apply wp_ret, wp_on_vtable. simpl vtable.
    eapply (wp_set_insert k _ _ (with_lock (vbin k s) (vtable s)));
      [exact RL|exact Hm|exact Hp|exact Hs|exact Hhit|].
    intros t' Ht'. eapply Hfin; [exact Ht'|by apply owns_single|].
    intros x _ Hx. simpl. by rewrite lookup_insert_ne.
Qed.

(** ** destory *)

Lemma wp_free_pkts fuel p l (Q : unit → vstate → Prop) s :
  seg (pheap s) p l None → NoDup (addrs l) → (length l < fuel)%nat →
  (∀ h', without (addrs l) (pheap s) h' → Q tt (VState (vtable s) (set_heap h' (vpkts s)))) →
  wp (free_pkts fuel p) Q s.
Proof.
  revert fuel p s. induction l as [|c l IH]; intros fuel p s Hs Hnd Hf HQ.
  - simpl in Hs. subst p.
    assert (Q tt s) as HQ'.
    { destruct s as [t [h b m hd]]. apply (HQ h). intros x. by rewrite decide_False by apply not_elem_of_nil. }
    by destruct fuel.
  - destruct Hs as (-> & r & Hc & Hs). destruct fuel as [|fuel]; [simpl in Hf; lia|].
    change (addrs (c :: l)) with (caddr c :: addrs l) in *. apply NoDup_cons in Hnd as [Hnin Hnd].
    simpl. apply wp_bind. eapply wp_load_pkt; [exact Hc|].
    apply wp_bind, wp_on_vpkts. eapply wp_free; [exact Hc|].
    apply IH; [|done|simpl in Hf; lia|].
    + eapply seg_frame; [|exact Hs]. intros x Hx. unfold pheap. simpl.
      rewrite lookup_delete_ne; [done|]. by intros <-.
    + intros h' Hh'. apply HQ. intros x. rewrite Hh'. unfold pheap. simpl.
      destruct (decide (x = caddr c)) as [->|Hne].
      * rewrite lookup_delete_eq. rewrite (decide_True (P := caddr c ∈ caddr c :: _)) by set_solver.
        by case_decide.
      * rewrite lookup_delete_ne by done. repeat case_decide; try done; set_solver.
Qed.

(** The packets of the entries [l] *)
Definition pkts_of pls (l : list (cell flow_s pkt_ends)) : list loc :=
  l ≫= λ c, addrs (pls (caddr c)).

Lemma elem_of_pkts_of pls l x : x ∈ pkts_of pls l ↔ ∃ c, c ∈ l ∧ x ∈ addrs (pls (caddr c)).
Proof. unfold pkts_of. rewrite list_elem_of_bind. naive_solver. Qed.

Lemma wp_free_entries fuel p l pls (Q : unit → vstate → Prop) s :
  seg (theap (vtable s)) p l None → NoDup (addrs l) → (length l < fuel)%nat →
  (∀ c, c ∈ l → owns (pheap s) (cval c) (pls (caddr c))) →
  (∀ c d x, c ∈ l → d ∈ l → x ∈ addrs (pls (caddr c)) → x ∈ addrs (pls (caddr d)) → caddr c = caddr d) →
  (∀ h ph, (∀ a, h !! a = if decide (a ∈ addrs l) then None else theap (vtable s) !! a) →
     without (pkts_of pls l) (pheap s) ph →
     Q tt (VState (TState (set_heap h (tarena (vtable s))) (ttable (vtable s)))
             (set_heap ph (vpkts s)))) →
  wp (free_entries fuel p) Q s.
Proof.
  revert fuel p s. induction l as [|c l IH]; intros fuel p s Hs Hnd Hf Hown Hdis HQ.
  - simpl in Hs. subst p.
    assert (Q tt s) as HQ'.
    { destruct s as [[[h b m hd] tb] [h' b' m' hd']]. apply (HQ h h').
      - intros x. by rewrite decide_False by apply not_elem_of_nil.
      - intros x. by rewrite decide_False by apply not_elem_of_nil. }
    by destruct fuel.
  - destruct Hs as (-> & r & Hc & Hs). destruct fuel as [|fuel]; [simpl in Hf; lia|].
    change (addrs (c :: l)) with (caddr c :: addrs l) in *. apply NoDup_cons in Hnd as [Hnin Hnd].
    destruct (Hown c) as (Hseg & _ & Hndp); [by apply list_elem_of_here|].
    simpl. apply wp_bind, wp_on_vtable, wp_on_arena. eapply wp_load; [exact Hc|].
    apply wp_bind, wp_gets. apply wp_bind. cbn [nvalue].
    eapply wp_free_pkts; [exact Hseg|done| |].
    { unfold pkt_fuel. apply Nat.lt_succ_r, chain_length; [done|]. intros x Hx. by eapply seg_live. }
    intros ph1 Hph1. apply wp_bind, wp_on_vtable, wp_on_arena. eapply wp_free; [exact Hc|].
    assert (∀ d x, d ∈ l → x ∈ addrs (pls (caddr d)) → x ∉ addrs (pls (caddr c))) as Hsep.
    { intros d x Hd Hx Hx'. apply Hnin. apply elem_of_addrs. exists d. split; [done|].
      apply (Hdis d c x); [by apply list_elem_of_further|by apply list_elem_of_here|done..]. }
    apply IH; [|done|simpl in Hf; lia| | |].
    + eapply seg_frame; [|exact Hs]. intros a Ha. unfold theap. simpl.
      rewrite lookup_delete_ne; [done|]. by intros <-.
    + intros d Hd. eapply owns_frame; [apply Hown; by apply list_elem_of_further|].
      intros x Hx. unfold pheap. simpl. rewrite Hph1, decide_False; [done|]. by eapply Hsep.
    + intros d e x Hd He. apply Hdis; by apply list_elem_of_further.
    + intros h ph Hh Hph. simpl. apply HQ.
      * intros a. rewrite Hh. unfold theap. simpl. destruct (decide (a = caddr c)) as [->|Hne].
        -- rewrite lookup_delete_eq, (decide_True (P := caddr c ∈ caddr c :: _)) by set_solver.
           by case_decide.
        -- rewrite lookup_delete_ne by done. repeat case_decide; try done; set_solver.
      * intros x. rewrite Hph. unfold pheap at 1. simpl. rewrite Hph1.
        repeat case_decide; try done; rewrite ?elem_of_pkts_of in *; set_solver.
Qed.

(** The entries and packets of the bins below [i] have been freed. *)
Definition vfreed_to s cells pls i (u : vstate) : Prop :=
  freed_to (vtable s) cells i (vtable u) ∧
  (∀ b c, i <= b → c ∈ cells b → owns (pheap u) (cval c) (pls (caddr c))) ∧
  (∀ x, is_Some (pheap u !! x) → ∃ b c, i <= b ∧ c ∈ cells b ∧ x ∈ addrs (pls (caddr c))).

Lemma wp_vl_free_bin s cells pls i u :
  vrep s cells pls → 0 <= i < size_of (vtable s) → vfreed_to s cells pls i u →
  wp (p_node ← on_vtable (read_bin i); f ← gets (chain_fuel ∘ vtable); free_entries f p_node)
     (λ _ u', vfreed_to s cells pls (i + 1) u') u.
Proof.
  intros R Hi ((Et & Em & Eh & Hseg & Hlive) & Hown & Hplive).
  pose proof (vr_table _ _ _ R) as RT.
  destruct (rep_bin _ _ RT i Hi) as (p & Hp & _).
  pose proof (Hseg i p ltac:(lia) Hp ltac:(lia)) as Hs.
  pose proof (rep_NoDup _ _ i RT) as Hnd.
  apply wp_bind, wp_on_vtable. eapply wp_read_bin.
  { unfold size_of. rewrite Et. exact Hi. } { rewrite Et. exact Hp. }
  apply wp_bind, wp_gets. eapply (wp_free_entries _ _ (cells i) pls); [exact Hs|done| | | |].
  { simpl. unfold chain_fuel. apply Nat.lt_succ_r, chain_length; [done|]. intros a Ha. by eapply seg_live. }
  { intros c Hc. by apply (Hown i); [lia|]. }
  { intros c d x Hc Hd. by apply (vr_disjoint _ _ _ R i i c d x). }
  intros h ph Hh Hph. simpl in Hh, Hph |- *. unfold pheap in Hph. simpl in Hph. split_and!.
  - split_and!; [done|done|done| |].
    + intros b q Hb Hq Hlt. eapply seg_frame; [|apply (Hseg b q); [lia|done..]].
      intros a Ha. unfold theap. simpl. rewrite Hh. rewrite decide_False; [done|].
      intros Ha'. pose proof (rep_disjoint _ _ _ _ _ RT Ha Ha'). lia.
    + intros a. unfold theap. simpl. rewrite Hh. case_decide as Hin; [by intros []|].
      intros Ha. destruct (Hlive a Ha) as (b & Hb & Hab). exists b. split; [|done].
      destruct (decide (b = i)) as [->|]; [done|lia].
  - intros b c Hb Hc. eapply owns_frame; [apply (Hown b); [lia|done]|].
    intros x Hx. unfold pheap. simpl. rewrite Hph, decide_False; [done|].
    intros Hx'. apply elem_of_pkts_of in Hx' as (d & Hd & Hx').
    pose proof (vr_disjoint _ _ _ R b i c d x Hc Hd Hx Hx') as Ea.
    destruct (rep_addr_inj _ _ _ _ _ _ RT Hc Hd Ea) as [-> _]. lia.
  - intros x. unfold pheap at 1. simpl. rewrite Hph. case_decide as Hin; [by intros []|].
    intros Hx. destruct (Hplive x Hx) as (b & c & Hb & Hc & Hxc). exists b, c. split_and!; [|done|done].
    destruct (decide (b = i)) as [->|]; [|lia]. destruct Hin. apply elem_of_pkts_of. eauto.
Qed.

Lemma wp_vl_free_all (Q : unit → vstate → Prop) s cells pls :
  vrep s cells pls →
  (∀ u, theap (vtable u) = ∅ → pheap u = ∅ →
        held (tarena (vtable u)) = held (tarena (vtable s)) → Q tt u) →
  wp vl_free_all Q s.
Proof.
  intros R HQ. pose proof (vr_table _ _ _ R) as RT. pose proof (rep_size _ _ RT).
  unfold vl_free_all. apply wp_bind, wp_gets.
  change ((tsize ∘ ttable ∘ vtable) s) with (size_of (vtable s)).
  apply (wp_for_range _ _ _ (vfreed_to s cells pls)).
  - split; [by apply rep_freed_0|split].
    + intros b c _ Hc. by eapply (vr_owns _ _ _ R).
    + intros x Hx. destruct (vr_live _ _ _ R x Hx) as (b & c & Hc & Hxc). exists b, c.
      split_and!; [|done|done].
      assert (caddr c ∈ addrs (cells b)) as Ha by (apply elem_of_addrs; eauto).
      pose proof (rep_in_range _ _ _ _ RT Ha). lia.
  - intros i u Hi HI. by eapply wp_vl_free_bin; [|lia|].
  - intros u HI. replace (0 + Z.of_nat (Z.to_nat (size_of (vtable s)))) with (size_of (vtable s)) in HI by lia.
    destruct HI as (HF & _ & Hplive). pose proof HF as (_ & _ & Eh & _). apply HQ; [|..|exact Eh].
    + by eapply freed_all_empty.
    + apply map_eq. intros x. rewrite lookup_empty. destruct (pheap u !! x) eqn:E; [|done].
      destruct (Hplive x) as (b & c & Hb & Hc & _); [by eexists|].
      assert (caddr c ∈ addrs (cells b)) as Ha by (apply elem_of_addrs; eauto).
      pose proof (rep_in_range _ _ _ _ RT Ha). lia.
Qed.

Lemma vl_create_ok size :
  0 < size → ∃ s, ht_vl_create size true = PLive s ∧ vpost s kempty.
Proof.
  intros Hn. destruct (tbl_create_empty (K := flow_s) (V := pkt_ends) size Hn) as (t & Et & He & _).
  destruct He as (RT & Hs & [Hh Hm] & Hheap).
  unfold ht_vl_create. unfold tbl_create in Et |- *. simpl in Et |- *. injection Et as <-.
  eexists. split; [reflexivity|]. exists no_cells, (λ _, []). split_and!; [|by split_and!|done].
  assert (∀ b (c : cell flow_s pkt_ends), c ∉ no_cells b) as Hno by (intros b c Hc; by apply not_elem_of_nil in Hc).
  constructor; simpl; [done|..]; try (intros b; intros; exfalso; by eapply (Hno b)).
  - intros x Hx. unfold pheap in Hx. simpl in Hx. rewrite lookup_empty in Hx. by destruct Hx.
  - intros x Hx. unfold pheap in Hx. simpl in Hx. rewrite lookup_empty in Hx. by destruct Hx.
Qed.
End vrep.
