(* ===== verification/PktListProps.v ===== *)
(** * Properties of the table of sent packets *)
From S2P Require Import Prelude CMonad ChainedTable ChainSpec ChainHeap ChainRefine ChainLife.
From S2P Require Import TableSpec Flow PktListTable PktListSpec.

(** ** Sequences of calls *)

Inductive vcall :=
| VSet (k : flow_s) (sid vol : Z)   (** the sender sends a packet *)
| VAck (k : flow_s) (sid : Z).      (** the receiver reports a packet *)

Definition do_vcall (c : vcall) : cmd (ptr vstate) (list receV_lostV) :=
  match c with
  | VSet k sid vol => ht_vl_set k sid vol;; mret []
  | VAck k sid => r ← ht_vl_get_rece_lost_volume k sid; mret [r]
  end.
Fixpoint do_vcalls (cs : list vcall) : cmd (ptr vstate) (list receV_lostV) :=
  match cs with
  | [] => mret []
  | c :: cs => r ← do_vcall c; rs ← do_vcalls cs; mret (r ++ rs)
  end.

Definition spec_vcall (c : vcall) (m : pkt_map) : list receV_lostV * pkt_map :=
  match c with
  | VSet k sid vol => ([], spec_vl_set k sid vol m)
  | VAck k sid => let '(r, m) := spec_vl_get k sid m in ([r], m)
  end.
Fixpoint spec_vcalls (cs : list vcall) (m : pkt_map) : list receV_lostV * pkt_map :=
  match cs with
  | [] => ([], m)
  | c :: cs =>
      let '(r, m) := spec_vcall c m in
      let '(rs, m) := spec_vcalls cs m in (r ++ rs, m)
  end.

(** The specification does not distinguish equal maps. *)
Lemma spec_vl_get_proper k sid (m m' : pkt_map) :
  m ≡ m' → (spec_vl_get k sid m).1 = (spec_vl_get k sid m').1 ∧
           (spec_vl_get k sid m).2 ≡ (spec_vl_get k sid m').2.
Proof.
  intros E. unfold spec_vl_get. rewrite (E k). destruct (m' k) as [l|]; [|done].
  destruct (account sid l) as [r l']. simpl. split; [done|]. by rewrite E.
Qed.

Lemma spec_vl_set_proper k sid vol (m m' : pkt_map) :
  m ≡ m' → spec_vl_set k sid vol m ≡ spec_vl_set k sid vol m'.
Proof. intros E. unfold spec_vl_set. by rewrite (E k), E. Qed.

Lemma spec_vcalls_proper cs (m m' : pkt_map) :
  m ≡ m' → (spec_vcalls cs m).1 = (spec_vcalls cs m').1 ∧
           (spec_vcalls cs m).2 ≡ (spec_vcalls cs m').2.
Proof.
  revert m m'. induction cs as [|c cs IH]; intros m m' E; simpl; [done|].
  assert ((spec_vcall c m).1 = (spec_vcall c m').1 ∧ (spec_vcall c m).2 ≡ (spec_vcall c m').2) as [E1 E2].
  { destruct c as [k sid vol|k sid]; simpl.
    - split; [done|by apply spec_vl_set_proper].
    - destruct (spec_vl_get_proper k sid m m' E) as [E1 E2].
      destruct (spec_vl_get k sid m), (spec_vl_get k sid m'). simpl in *. by subst. }
  destruct (spec_vcall c m) as [r m1], (spec_vcall c m') as [r' m1']. simpl in *. subst r'.
  destruct (IH m1 m1' E2) as [E3 E4].
  destruct (spec_vcalls cs m1) as [rs m2], (spec_vcalls cs m1') as [rs' m2']. simpl in *. by subst.
Qed.

Lemma wp_do_vcalls cs (Q : list receV_lostV → ptr vstate → Prop) s m :
  vpost s m → (∀ s', vpost s' (spec_vcalls cs m).2 → Q (spec_vcalls cs m).1 (PLive s')) →
  wp (do_vcalls cs) Q (PLive s).
Proof.
  revert s m Q. induction cs as [|c cs IH]; intros s m Q Hv HQ.
  { wp_steps. by apply HQ. }
  simpl do_vcalls. apply wp_bind.
  assert (∀ s', vpost s' (spec_vcall c m).2 →
    wp (rs ← do_vcalls cs; mret ((spec_vcall c m).1 ++ rs)) Q (PLive s')) as Hrest.
  { intros s' Hs'. apply wp_bind. eapply IH; [exact Hs'|]. intros s'' Hs''. apply wp_ret.
    simpl in HQ. destruct (spec_vcall c m) as [r m']. simpl in *.
    destruct (spec_vcalls cs m') as [rs m'']. by apply HQ. }
  destruct Hv as (cells & pls & R & Hq & Em).
  destruct c as [k sid vol|k sid]; simpl do_vcall; apply wp_bind, wp_unless_null.
  - eapply wp_vl_set; [exact R|exact Hq|]. intros s' (cells' & pls' & R' & Hq' & Em').
    apply wp_ret, Hrest. exists cells', pls'. split_and!; [done|done|].
    rewrite Em'. by apply spec_vl_set_proper.
  - eapply wp_vl_get; [exact R|exact Hq|]. intros s' (cells' & pls' & R' & Hq' & Em').
    destruct (spec_vl_get_proper k sid _ _ Em) as [E1 E2]. rewrite E1. rewrite E2 in Em'.
    apply wp_ret. simpl in Hrest. destruct (spec_vl_get k sid m) as [r m']. simpl in *.
    apply Hrest. exists cells', pls'. done.
Qed.

(** C14. The table of sent packets refines a map from flows to lists of
    (sequence number, volume), oldest packet first: after [ht_vl_create] any
    sequence of [ht_vl_set] and [ht_vl_get_rece_lost_volume] calls runs without
    a fault, every answer is the one of the specification ([account]: packets
    older than the acknowledged one are lost, the packet itself is received),
    and the table is left with exactly the unaccounted packets. *)
Theorem vl_refines size (cs : list vcall) :
  0 < size →
  ∃ s s', ht_vl_create size true = PLive s ∧
    do_vcalls cs (PLive s) = Ok ((spec_vcalls cs kempty).1, PLive s') ∧
    vpost s' (spec_vcalls cs kempty).2.
Proof.
  intros Hn. destruct (vl_create_ok size Hn) as (s & E & Hv).
  assert (wp (do_vcalls cs) (λ r p, r = (spec_vcalls cs kempty).1 ∧
    ∃ s', p = PLive s' ∧ vpost s' (spec_vcalls cs kempty).2) (PLive s)) as Hw.
  { eapply wp_do_vcalls; [exact Hv|eauto]. }
  apply wp_run in Hw as (r & p & E' & -> & s' & -> & Hv'). eauto.
Qed.

Definition vflow : flow_s := Flow 1 2 3 4 6.
(** Packets 1 to 4 sent; packet 3 acknowledged, then packet 4 *)
Definition demo_vcalls : list vcall :=
  [VSet vflow 1 100; VSet vflow 2 200; VSet vflow 3 300; VAck vflow 3; VSet vflow 4 50; VAck vflow 4].
Lemma vl_refines_witness :
  0 < 2 ∧ ∃ s s', ht_vl_create 2 true = PLive s ∧
    do_vcalls demo_vcalls (PLive s)
    = Ok ([ReceVLostV 300 300 2; ReceVLostV 50 0 0], PLive s').
Proof.
  split; [lia|]. destruct (vl_refines 2 demo_vcalls) as (s & s' & E & E' & _); [lia|].
  exists s, s'. split; [exact E|exact E'].
Defined.

(** ** Conservation of volume *)

Definition volumes (l : list (Z * Z)) : Z := foldr (λ x n, x.2 + n) 0 l.

(** What a caller has put in for flow [k], and what it was told *)
Fixpoint sent_volume (k : flow_s) (cs : list vcall) : Z :=
  match cs with
  | VSet k' _ vol :: cs =>
      (if decide (flow_compare k k' = 0) then vol else 0) + sent_volume k cs
  | VAck _ _ :: cs => sent_volume k cs
  | [] => 0
  end.
Fixpoint told_volume (k : flow_s) (cs : list vcall) (rs : list receV_lostV) : Z :=
  match cs, rs with
  | VSet _ _ _ :: cs, _ => told_volume k cs rs
  | VAck k' _ :: cs, r :: rs =>
      (if decide (flow_compare k k' = 0) then received_volume r + lost_volume r else 0)
      + told_volume k cs rs
  | _, _ => 0
  end.

Lemma volumes_app l l' : volumes (l ++ l') = volumes l + volumes l'.
Proof. induction l as [|x l IH]; simpl; [done|]. rewrite IH. lia. Qed.

Lemma u32_add_l a b : u32 (u32 a + b) = u32 (a + b).
Proof. unfold wrap. by rewrite Zplus_mod_idemp_l. Qed.
Lemma u32_add_r a b : u32 (a + u32 b) = u32 (a + b).
Proof. unfold wrap. by rewrite Zplus_mod_idemp_r. Qed.

Lemma lost_kept sid l : lost_part sid l ++ kept_part sid l = l.
Proof. induction l as [|[s v] l IH]; simpl; [done|]. case_decide; simpl; by rewrite ?IH. Qed.

Lemma add_lost_volumes l ans :
  received_volume (foldl add_lost ans l) = received_volume ans ∧
  u32 (lost_volume (foldl add_lost ans l)) = u32 (lost_volume ans + volumes l).
Proof.
  revert ans. induction l as [|x l IH]; intros ans; simpl; [split; [done|by rewrite Z.add_0_r]|].
  destruct (IH (add_lost ans x)) as [-> ->]. simpl. split; [done|].
  by rewrite u32_add_l, <- Z.add_assoc.
Qed.

(** One acknowledgement accounts for what it takes from the list. *)
Lemma account_volumes sid l :
  u32 (received_volume (account sid l).1 + lost_volume (account sid l).1 + volumes (account sid l).2)
  = u32 (volumes l).
Proof.
  unfold account. destruct (add_lost_volumes (lost_part sid l) no_volume) as [Hr Hl].
  set (ans := foldl _ _ _) in *. simpl in Hr, Hl.
  transitivity (u32 (volumes (lost_part sid l) + volumes (kept_part sid l)));
    [|by rewrite <- volumes_app, lost_kept].
  destruct (kept_part sid l) as [|[s v] l']; simpl.
  - by rewrite Hr, Z.add_0_l, !Z.add_0_r.
  - case_decide; simpl; rewrite Hr.
    + rewrite Z.add_0_l, <- !Z.add_assoc, u32_add_l.
      replace (v + (lost_volume ans + volumes l')) with (lost_volume ans + (v + volumes l')) by lia.
      by rewrite <- u32_add_l, Hl, u32_add_l.
    + by rewrite Z.add_0_l, <- u32_add_l, Hl, u32_add_l.
Qed.

Lemma spec_vcalls_conserves k cs (m : pkt_map) :
  krespects m →
  u32 (told_volume k cs (spec_vcalls cs m).1 + volumes (default [] ((spec_vcalls cs m).2 k)))
  = u32 (volumes (default [] (m k)) + sent_volume k cs).
Proof.
  revert m. induction cs as [|c cs IH]; intros m Hm; simpl; [by rewrite Z.add_0_r|].
  destruct c as [k' sid vol|k' sid]; simpl.
  - specialize (IH (spec_vl_set k' sid vol m)). destruct (spec_vcalls cs _) as [rs m'].
    simpl in IH |- *. rewrite IH by (by apply kupd_respects). f_equal.
    unfold spec_vl_set. case_decide as E.
    + rewrite (kupd_respects k' _ m Hm k k' E), kupd_eq. simpl.
      rewrite volumes_app, (Hm k k' E). simpl. lia.
    + rewrite kupd_ne by done. lia.
  - unfold spec_vl_get. destruct (m k') as [l|] eqn:El.
    + pose proof (account_volumes sid l) as Ha. destruct (account sid l) as [r l'].
      specialize (IH (kupd k' (Some l') m)). destruct (spec_vcalls cs _) as [rs m'].
      simpl in IH, Ha |- *. specialize (IH (kupd_respects _ _ _ Hm)).
      case_decide as E.
      * rewrite (kupd_respects k' _ m Hm k k' E), kupd_eq in IH. simpl in IH.
        rewrite (Hm k k' E), El. simpl.
        rewrite <- Z.add_assoc, <- u32_add_r, IH, u32_add_r, Z.add_assoc.
        by rewrite <- u32_add_l, Ha, u32_add_l.
      * rewrite kupd_ne in IH by done. by rewrite Z.add_0_l.
    + specialize (IH m Hm). destruct (spec_vcalls cs m) as [rs m']. simpl in IH |- *.
      case_decide; simpl; by rewrite Z.add_0_l.
Qed.

(** No volume is lost track of: after any sequence of calls on a new table,
    what the calls reported received and lost for a flow, and what is still in
    the list of the flow, add up (modulo 2^32, the width of the counters) to
    the volume that was set for the flow. *)
Theorem vl_conserves_volume size (cs : list vcall) :
  0 < size →
  ∃ s rs s' m, ht_vl_create size true = PLive s ∧ do_vcalls cs (PLive s) = Ok (rs, PLive s') ∧
    vpost s' m ∧
    ∀ k, u32 (told_volume k cs rs + volumes (default [] (m k))) = u32 (sent_volume k cs).
Proof.
  intros Hn. destruct (vl_create_ok size Hn) as (s & E & Hv).
  assert (wp (do_vcalls cs) (λ r p, r = (spec_vcalls cs kempty).1 ∧
    ∃ s', p = PLive s' ∧ vpost s' (spec_vcalls cs kempty).2) (PLive s)) as Hw.
  { eapply wp_do_vcalls; [exact Hv|eauto]. }
  apply wp_run in Hw as (r & p & E' & -> & s' & -> & Hv').
  exists s, (spec_vcalls cs kempty).1, s', (spec_vcalls cs kempty).2. split_and!; [done..|].
  intros k. apply (spec_vcalls_conserves k cs kempty). done.
Qed.

Lemma vl_conserves_volume_witness :
  0 < 2 ∧ sent_volume vflow demo_vcalls = 650 ∧
  ∃ s rs s' m, ht_vl_create 2 true = PLive s ∧ do_vcalls demo_vcalls (PLive s) = Ok (rs, PLive s') ∧
    vpost s' m ∧ u32 (told_volume vflow demo_vcalls rs + volumes (default [] (m vflow))) = 650.
Proof.
  split; [lia|]. split; [reflexivity|].
  destruct (vl_conserves_volume 2 demo_vcalls) as (s & rs & s' & m & E & E' & Hm & Hc); [lia|].
  exists s, rs, s', m. split; [exact E|]. split; [exact E'|]. split; [exact Hm|exact (Hc vflow)].
Defined.

(** [ht_vl_destory] on a table reached by any calls frees every packet of
    every flow and every entry exactly once. *)
Theorem vl_destory_frees size (cs : list vcall) :
  0 < size →
  ∃ s r s', ht_vl_create size true = PLive s ∧ do_vcalls cs (PLive s) = Ok (r, PLive s') ∧
    (∃ u, vl_free_all s' = Ok (tt, u) ∧ heap (tarena (vtable u)) = ∅ ∧ heap (vpkts u) = ∅) ∧
    ht_vl_destory (PLive s') = Ok (tt, PFreed).
Proof.
  intros Hn. destruct (vl_create_ok size Hn) as (s & E & Hv).
  assert (wp (do_vcalls cs) (λ r p, ∃ s', p = PLive s' ∧ vpost s' (spec_vcalls cs kempty).2) (PLive s)) as Hw.
  { eapply wp_do_vcalls; [exact Hv|eauto]. }
  apply wp_run in Hw as (r & p & E' & s' & -> & cells & pls & R & (Hh & _) & _).
  exists s, r, s'. split_and!; [exact E|exact E'| |].
  - assert (wp vl_free_all (λ _ u, theap (vtable u) = ∅ ∧ pheap u = ∅) s') as Hf
      by (eapply wp_vl_free_all; eauto).
    apply wp_run in Hf as ([] & u & ? & ? & ?). eauto.
  - assert (wp vl_free_all (λ _ u, held (tarena (vtable u)) = ∅) s') as Hf.
    { eapply wp_vl_free_all; [exact R|]. intros u _ _ ->. done. }
    apply wp_run in Hf as ([] & u & Eu & Hu). unfold ht_vl_destory. rewrite Eu. by rewrite decide_True.
Qed.

Lemma vl_destory_frees_witness :
  0 < 2 ∧ ∃ s r s', ht_vl_create 2 true = PLive s ∧ do_vcalls demo_vcalls (PLive s) = Ok (r, PLive s') ∧
    ht_vl_destory (PLive s') = Ok (tt, PFreed).
Proof.
  split; [lia|]. destruct (vl_destory_frees 2 demo_vcalls) as (s & r & s' & E & E' & _ & Ed); [lia|].
  exists s, r, s'. split; [exact E|split; [exact E'|exact Ed]].
Defined.
