(* ===== verification/Settings.v ===== *)
(** * The experiment's settings (public_lib/cm_experiment_setting.c, sample_model.c)

    The record read from the settings file, the values derived from it, the
    check of the values and the sampling rates.  SettingsFile.v reads the
    file. *)
From S2P Require Import Prelude CMonad CFloat.

(** The macros of cm_experiment_setting.h and sample_setting.h *)
Definition NUM_SWITCHES : Z := 12.
Definition OVER_SAMPLING_RATIO : Z := 8.
Definition SENDER_LOSS_VOLUME_OVER_SAMPLING_RATE : Z := 8.

(** The enumerations; an object of such a type, an unsigned int, can also hold
    a number that is no enumerator, which the file assigns *)
Inductive switch_mem_type_e := UNIFORM | DIVERSE | OTHER_SWITCH_MEM_TYPE (n : Z).
Inductive sender_mem_type_e := INFINITE | FIXED | OTHER_SENDER_MEM_TYPE (n : Z).
Inductive host_switch_sample_e := HOST_SAMPLE | SWITCH_SAMPLE | OTHER_HOST_SWITCH_SAMPLE (n : Z).
Inductive inject_tag_pkt_e :=
  INJECT_PKT_AS_CONDITION | TAG_PKT_AS_CONDITION | OTHER_INJECT_TAG_PKT (n : Z).
#[export] Instance sender_mem_type_eq_dec : EqDecision sender_mem_type_e.
Proof. solve_decision. Defined.
#[export] Instance host_switch_sample_eq_dec : EqDecision host_switch_sample_e.
Proof. solve_decision. Defined.
#[export] Instance inject_tag_pkt_eq_dec : EqDecision inject_tag_pkt_e.
Proof. solve_decision. Defined.

(** [sample_hold_setting_t]; the array of volumes is the list of its
    [NUM_SWITCHES] elements *)
Record sample_hold_setting_t := SampleHoldSetting {
  target_flow_volume_in_sampling : Z;
  switches_interval_volume : list Z;
  max_switch_interval_volume : Z;
  uniform_mem_ratio_to_diverse_mem : c_float;
  default_byte_sampling_rate : c_float
}.

(** [target_flow_setting_t] *)
Record target_flow_setting_t := TargetFlowSetting {
  volume_threshold : Z;
  loss_rate_threshold : c_float;
  loss_volume_threshold : Z;
  selected_loss_volume_threshold : Z
}.

(** [sender_setting_t] *)
Record sender_setting_t := SenderSetting {
  loss_map_mem_type : sender_mem_type_e;
  fix_loss_map_bucket_size : c_float;
  default_loss_byte_sampling_rate : c_float
}.

(** [cm_experiment_setting_t] *)
Record cm_experiment_setting_t := ExperimentSetting {
  interval_msec_len : Z;
  condition_msec_freq : Z;
  replacement : bool;
  switch_mem_type : switch_mem_type_e;
  switch_memory_times : c_float;
  switch_drop_rate : c_float;
  host_or_switch_sample : host_switch_sample_e;
  inject_or_tag_packet : inject_tag_pkt_e;
  sample_hold_setting : sample_hold_setting_t;
  target_flow_setting : target_flow_setting_t;
  sender_setting : sender_setting_t
}.

(** ** [init_other_experiment_setting] *)

(** [1.0 / threshold * ratio] assigned to a [float] *)
Definition over_sampling_rate (threshold ratio : Z) : c_float :=
  float_of_double (double_mul (double_div (double_of_int 1) (double_of_int threshold))
                     (double_of_int ratio)).

(** One round of the loop over the switches: the total and the maximum so far *)
Definition add_switch_volume (acc : Z * Z) (v : Z) : Z * Z :=
  (u64 (acc.1 + v), if decide (v > acc.2) then v else acc.2).

(** [1.0 * all_switches_volume / NUM_SWITCHES / max] assigned to a [float] *)
Definition mem_ratio (all_switches_volume max_volume : Z) : c_float :=
  float_of_double
    (double_div
       (double_div (double_mul (double_of_int 1) (double_of_int all_switches_volume))
          (double_of_int NUM_SWITCHES))
       (double_of_int max_volume)).

Definition init_sample_hold (sh : sample_hold_setting_t) : sample_hold_setting_t :=
  let rate := over_sampling_rate (target_flow_volume_in_sampling sh) OVER_SAMPLING_RATIO in
  let '(all_switches_volume, max_volume) :=
    foldl add_switch_volume (0, 0) (switches_interval_volume sh) in
  let ratio := if decide (max_volume > 0) then mem_ratio all_switches_volume max_volume
               else uniform_mem_ratio_to_diverse_mem sh in
  SampleHoldSetting (target_flow_volume_in_sampling sh) (switches_interval_volume sh)
    max_volume ratio rate.

Definition init_sender (tf : target_flow_setting_t) (se : sender_setting_t) : sender_setting_t :=
  if decide (loss_volume_threshold tf ≠ 0) then
    SenderSetting (loss_map_mem_type se) (fix_loss_map_bucket_size se)
      (over_sampling_rate (loss_volume_threshold tf) SENDER_LOSS_VOLUME_OVER_SAMPLING_RATE)
  else se.

Definition init_other_experiment_setting (s : cm_experiment_setting_t) : cm_experiment_setting_t :=
  ExperimentSetting (interval_msec_len s) (condition_msec_freq s) (replacement s)
    (switch_mem_type s) (switch_memory_times s) (switch_drop_rate s)
    (host_or_switch_sample s) (inject_or_tag_packet s)
    (init_sample_hold (sample_hold_setting s)) (target_flow_setting s)
    (init_sender (target_flow_setting s) (sender_setting s)).

(** [check_value_correct]: the returned 0 or -1 *)
Definition check_value_correct (s : cm_experiment_setting_t) : Z :=
  if decide (interval_msec_len s = 0) then -1
  else if decide (condition_msec_freq s = 0) then -1
  else if float_is_zero (switch_memory_times s) then -1
  else if bool_decide (volume_threshold (target_flow_setting s) = 0)
          && float_is_zero (loss_rate_threshold (target_flow_setting s))
          && bool_decide (loss_volume_threshold (target_flow_setting s) = 0) then -1
  else if existsb (Z.eqb 0) (switches_interval_volume (sample_hold_setting s)) then -1
  else 0.

(** ** sample_model.c *)

(** [float rate * int length] assigned to a [double], at most 1 *)
Definition capped_rate (rate : c_float) (total_pkt_len : Z) : c_double :=
  let rate := double_of_float (float_mul rate (float_of_int total_pkt_len)) in
  if float_ltb (double_of_int 1) rate then double_of_int 1 else rate.

Definition pkt_sample_rate_trad (s : cm_experiment_setting_t) (total_pkt_len : Z) : c_double :=
  capped_rate (default_byte_sampling_rate (sample_hold_setting s)) total_pkt_len.
Definition pkt_sample_rate_trad_sender (s : cm_experiment_setting_t) (total_pkt_len : Z) : c_double :=
  capped_rate (default_loss_byte_sampling_rate (sender_setting s)) total_pkt_len.
