(* ===== verification/ObjStore.v ===== *)
(** * Objects behind stored pointers

    A component that keeps pointers to tables in its fields: the tables are the
    blocks of an arena, an owner (a field, or a field and an index) holds the
    address of its table.  [owned] says that the pointers of the owners are
    valid, distinct, and that no block is lost; running an operation through a
    pointer, destroying a table and creating one keep it. *)
From S2P Require Import Prelude CMonad.

Section objects.
Context {N : Type}.
Implicit Types (m : arena N) (a : loc) (p : option loc).

(** An operation on the object a pointer points to; [null] is the handle the
    operation sees when the pointer is NULL. *)
Definition on_obj {A} (null : N) p (c : cmd N A) : cmd (arena N) A :=
  match p with
  | None => '(r, _) ← lift (c null); mret r
  | Some _ =>
      h ← load p;
      '(r, h) ← lift (c h);
      update p (λ _, h);;
      mret r
  end.

(** The object is destroyed, and its block freed. *)
Definition destory_obj (null : N) p (c : cmd N unit) : cmd (arena N) unit :=
  on_obj null p c;; free p.

Section owned.
Context {O : Type} `{EqDecision O}.
Implicit Types (valid : O → Prop) (ptr : O → option loc) (P : O → N → Prop).

Record owned valid ptr m P : Prop := {
  owned_live o : valid o → ∃ a h, ptr o = Some a ∧ heap m !! a = Some h ∧ P o h;
  owned_inj o o' a : valid o → valid o' → ptr o = Some a → ptr o' = Some a → o = o';
  owned_all a : is_Some (heap m !! a) → ∃ o, valid o ∧ ptr o = Some a;
  owned_brk a : is_Some (heap m !! a) → (a < brk m)%positive;
  owned_mallocs : mallocs m = []
}.

Lemma owned_mono valid ptr m P P' :
  owned valid ptr m P → (∀ o h, valid o → P o h → P' o h) → owned valid ptr m P'.
Proof.
  intros [Hl Hi Ha Hb Hm] HP. split; [|done..]. intros o Ho.
  destruct (Hl o Ho) as (a & h & ? & ? & ?). exists a, h. eauto.
Qed.

Lemma owned_none valid ptr m P : owned valid ptr m P → (∀ o, ¬ valid o) → heap m = ∅.
Proof.
  intros R Hn. apply map_eq. intros a. rewrite lookup_empty.
  destruct (heap m !! a) as [h|] eqn:E; [|done].
  destruct (owned_all _ _ _ _ R a) as (o & Ho & _); [by eexists|]. by destruct (Hn o).
Qed.

Lemma owned_valid valid valid' ptr m P :
  owned valid ptr m P → (∀ o, valid o ↔ valid' o) → owned valid' ptr m P.
Proof.
  intros [Hl Hi Ha Hb Hm] E. split; [| | |done..].
  - intros o Ho. apply Hl. by apply E.
  - intros o o' a Ho Ho'. apply Hi; by apply E.
  - intros a Hx. destruct (Ha a Hx) as (o & Ho & ?). exists o. split; [by apply E|done].
Qed.

(** Running an operation of the object of [o] *)
Lemma wp_on_obj {A} null valid ptr m P o (c : cmd N A) (Q : A → arena N → Prop) :
  owned valid ptr m P → valid o →
  (∀ h, P o h → wp c (λ r h', ∃ P',
     P' o h' ∧ (∀ o' h, o' ≠ o → valid o' → P o' h → P' o' h) ∧
     (∀ m', owned valid ptr m' P' → held m' = held m → Q r m')) h) →
  wp (on_obj null (ptr o) c) Q m.
Proof.
  intros R Ho Hc. destruct (owned_live _ _ _ _ R o Ho) as (a & h & Ep & Eh & Hh).
  specialize (Hc h Hh). rewrite Ep. unfold on_obj. wp_steps.
  eapply wp_load; [exact Eh|]. wp_steps.
  apply wp_run in Hc as (r & h' & Ec & P' & Ph' & Pother & HQ). unfold wp at 1, lift. rewrite Ec. wp_steps.
  eapply wp_update; [exact Eh|]. wp_steps. apply HQ; [|done].
  destruct R as [Hl Hi Ha Hb Hm]. split; simpl.
  - intros o' Ho'. destruct (decide (o' = o)) as [->|Hne].
    + exists a, h'. split; [done|]. split; [apply lookup_insert_eq|done].
    + destruct (Hl o' Ho') as (a' & x & Ep' & Ex & Hx). exists a', x.
      split; [done|]. split; [|by apply Pother]. rewrite lookup_insert_ne; [done|].
      intros <-. by destruct (Hne (Hi o' o a Ho' Ho Ep' Ep)).
  - exact Hi.
  - intros b Hx. apply Ha. rewrite lookup_insert in Hx. case_decide; [|done].
    subst b. by eexists.
  - intros b Hx. apply Hb. rewrite lookup_insert in Hx. case_decide; [|done].
    subst b. by eexists.
  - done.
Qed.

(** Reading the object of [o] *)
Lemma wp_on_obj_read {A} null valid ptr m P o (c : cmd N A) (Q : A → arena N → Prop) :
  owned valid ptr m P → valid o →
  (∀ h, P o h → wp c (λ r h', h' = h ∧ Q r m) h) →
  wp (on_obj null (ptr o) c) Q m.
Proof.
  intros R Ho Hc. destruct (owned_live _ _ _ _ R o Ho) as (a & h & Ep & Eh & Hh).
  specialize (Hc h Hh). rewrite Ep. unfold on_obj. wp_steps.
  eapply wp_load; [exact Eh|]. wp_steps.
  apply wp_run in Hc as (r & h' & Ec & -> & HQ). unfold wp at 1, lift. rewrite Ec. wp_steps.
  eapply wp_update; [exact Eh|]. wp_steps.
  unfold set_heap. rewrite insert_id by done. by destruct m.
Qed.

(** Destroying the object of [o]: its pointer dangles from then on. *)
Lemma wp_destory_obj null valid ptr m P o c (Q : unit → arena N → Prop) :
  owned valid ptr m P → valid o →
  (∀ h (R : unit → N → Prop), P o h → (∀ h', R tt h') → wp c R h) →
  (∀ a m', owned (λ o', valid o' ∧ o' ≠ o) ptr m' P → ptr o = Some a → (a < brk m)%positive →
     heap m' = delete a (heap m) → brk m' = brk m → Q tt m') →
  wp (destory_obj null (ptr o) c) Q m.
Proof.
  intros R Ho Hc HQ. destruct (owned_live _ _ _ _ R o Ho) as (a & h & Ep & Eh & Hh).
  unfold destory_obj. wp_steps. rewrite Ep. unfold on_obj. wp_steps.
  eapply wp_load; [exact Eh|]. wp_steps.
  pose proof (Hc h (λ _ _, True) Hh (λ _, I)) as Hw.
  apply wp_run in Hw as ([] & h' & Ec & _). unfold wp at 1, lift. rewrite Ec. wp_steps.
  eapply wp_update; [exact Eh|]. wp_steps.
  eapply wp_free; [simpl; apply lookup_insert_eq|]. simpl. rewrite delete_insert_eq.
  apply (HQ a); [|done|by apply (owned_brk _ _ _ _ R); eexists|done|done].
  destruct R as [Hl Hi Ha Hb Hm]. split; simpl.
  - intros o' [Ho' Hne]. destruct (Hl o' Ho') as (a' & x & Ep' & Ex & Hx). exists a', x.
    split; [done|]. split; [|done]. rewrite lookup_delete_ne; [done|].
    intros <-. by destruct (Hne (Hi o' o a Ho' Ho Ep' Ep)).
  - intros o1 o2 b [? _] [? _]. by apply Hi.
  - intros b Hx. rewrite lookup_delete in Hx. case_decide as Eb; [by destruct Hx|].
    destruct (Ha b Hx) as (o' & Ho' & Ep'). exists o'. split; [|done]. split; [done|].
    intros ->. congruence.
  - intros b Hx. rewrite lookup_delete in Hx. case_decide as Eb; [by destruct Hx|]. by apply Hb.
  - done.
Qed.

(** A new object, for an owner without one *)
Definition set_ptr (ptr : O → option loc) (o : O) p : O → option loc :=
  λ o', if decide (o' = o) then p else ptr o'.

Lemma owned_new valid ptr m P o h :
  owned valid ptr m P → ¬ valid o → P o h →
  owned (λ o', valid o' ∨ o' = o) (set_ptr ptr o (Some (brk m)))
    (Arena (<[brk m := h]> (heap m)) (Pos.succ (brk m)) [] (held m)) P.
Proof.
  intros [Hl Hi Ha Hb Hm] Ho Hh.
  assert (∀ o' a, valid o' → ptr o' = Some a → a ≠ brk m) as Hfresh.
  { intros o' a Ho' Ea ->. destruct (Hl o' Ho') as (a' & x & Ea' & Ex & _).
    assert (brk m < brk m)%positive; [apply Hb; rewrite Ea in Ea'; injection Ea' as <-; by eexists|lia]. }
  assert (∀ o', valid o' → set_ptr ptr o (Some (brk m)) o' = ptr o') as Eold.
  { intros o' Ho'. unfold set_ptr. rewrite decide_False; [done|]. intros ->. done. }
  assert (set_ptr ptr o (Some (brk m)) o = Some (brk m)) as Enew
    by (unfold set_ptr; by rewrite decide_True).
  split; simpl.
  - intros o' [Ho'| ->].
    + destruct (Hl o' Ho') as (a & x & Ep & Ex & Hx). exists a, x. rewrite Eold by done.
      split; [done|]. split; [|done]. rewrite lookup_insert_ne; [done|]. intros E. by apply (Hfresh o' a).
    + exists (brk m), h. split; [done|]. split; [apply lookup_insert_eq|done].
  - intros o1 o2 a [H1| ->] [H2| ->]; rewrite ?Enew, ?Eold by done.
    + by apply Hi.
    + intros E1 [= <-]. by destruct (Hfresh o1 (brk m)).
    + intros [= <-] E2. by destruct (Hfresh o2 (brk m)).
    + done.
  - intros a Hx. rewrite lookup_insert in Hx. case_decide as E.
    + exists o. split; [by right|]. by rewrite Enew, E.
    + destruct (Ha a Hx) as (o' & Ho' & Ep). exists o'. split; [by left|]. by rewrite Eold.
  - intros a Hx. rewrite lookup_insert in Hx. case_decide as E; [lia|].
    pose proof (Hb a Hx). lia.
  - done.
Qed.
End owned.
End objects.
