(* ===== verification/Sample.v ===== *)
(** * Sample and hold (public_lib/sample_packet.c)

    A packet of a flow that is sampled already is sampled; any other packet is
    sampled with a probability proportional to its length.  The random numbers
    are those of [drand48_r], the 48-bit linear congruential generator of the C
    library, whose state the callers keep. *)
From S2P Require Import Prelude CMonad CFloat ChainedTable Settings.

(** ** [drand48_r] and [srand48_r] *)
Definition drand48_next (x : Z) : Z := (25214903917 * x + 11) mod 2 ^ 48.

(** The number of [[0, 1)] a state stands for: [x / 2^48] *)
Definition drand48_value (x : Z) : c_double := binary_normalize 53 1024 x (-48) false.

Definition drand48_r (x : Z) : c_double * Z := let x := drand48_next x in (drand48_value x, x).
(** [srand48_r(seed, &buffer)] *)
Definition srand48_r (seed : Z) : Z := u32 seed * 2 ^ 16 + 13070.

(** [struct flow_src_t] of a packet, in either build *)
Class PacketFlow (K : Type) := packet_flow_src : Z → Z → K.

(** ** The three functions, over the operations of the table they are given

    [W] is the state of the caller: the table and the random state. *)
Section sample.
Context {W K : Type}.
Context (setting : cm_experiment_setting_t).
Context (drand48 : cmd W c_double).

(** [flow_src_already_sampled], given [ht_kfs_vi_get] on the table *)
Definition flow_src_already_sampled (ht_get : K → cmd W Z) (p_flow_src : K) : cmd W Z :=
  v ← ht_get p_flow_src;
  mret (if decide (v >= 0) then 1 else 0).

(** [sample_packet], given get and set on the table *)
Definition sample_packet (ht_get : K → cmd W Z) (ht_set : K → Z → cmd W unit)
    (flow_src : K) (total_pkt_len : Z) : cmd W Z :=
  already ← flow_src_already_sampled ht_get flow_src;
  if decide (already ≠ 0) then mret 1 else
  let pkt_sample_rate := pkt_sample_rate_trad setting total_pkt_len in
  rand_float ← drand48;
  if float_ltb rand_float pkt_sample_rate then ht_set flow_src 1;; mret 1
  else mret 0.

(** [sample_packet_fixSize_map], given [ht_kfs_fixSize_is_sampled] on the table *)
Definition sample_packet_fixSize_map (is_sampled : K → cmd W bool)
    (flow_src : K) (total_pkt_len : Z) : cmd W Z :=
  sampled ← is_sampled flow_src;
  if (sampled : bool) then mret 1 else
  let pkt_sample_rate := pkt_sample_rate_trad setting total_pkt_len in
  rand_float ← drand48;
  mret (if float_ltb rand_float pkt_sample_rate then 1 else 0).

(** [sample_packet_fixSize_map_sender] *)
Definition sample_packet_fixSize_map_sender (is_sampled : K → cmd W bool)
    (p_flow_src : K) (total_pkt_len : Z) : cmd W Z :=
  sampled ← is_sampled p_flow_src;
  if (sampled : bool) then mret 1 else
  let pkt_sample_rate := pkt_sample_rate_trad_sender setting total_pkt_len in
  rand_float ← drand48;
  mret (if float_ltb rand_float pkt_sample_rate then 1 else 0).
End sample.
