(* ===== verification/Warehouse.v ===== *)
(** * The data warehouse (tcpreplay/src/data_warehouse.c)

    The two buffers of measurement tables of a sender, one recording the
    interval in progress and one holding the last interval, the counters of
    both, and the updates the two threads of the sender make: the sending
    thread adds volumes, the thread reading the receiver's reports adds losses.
    The structure keeps pointers to tables; the tables are the blocks of one
    arena per type, used through the interfaces [FlowTable] and [FixedTable]. *)
From S2P Require Import Prelude CMonad CFloat ChainedTable TableSpec FixSizeTable FixSizeIface.
From S2P Require Import Flow PktListTable ObjStore Settings Sample FlowTables.

(** The macro of data_warehouse.h *)
Definition BUFFER_NUM : Z := 2.

(** [enum selected_level_e] of packet.h *)
Definition NO_SELECTED_LEVEL : Z := 0.
Definition SELECTED_LEVEL : Z := 1.
Definition TARGET_LEVEL : Z := 2.

(** The fields that are arrays of [hashtable_kfs_vi_t*] *)
Inductive vi_field :=
| flow_volume_map | flow_loss_volume_map | flow_selected_level_map
| flow_sample_map | flow_not_sampled_volume_map.
#[export] Instance vi_field_eq_dec : EqDecision vi_field.
Proof. solve_decision. Defined.

(** Where a pointer to an integer table is stored *)
Inductive vi_owner := Buf (f : vi_field) (i : Z) | last_sent_flow_selected_level_map.
#[export] Instance vi_owner_eq_dec : EqDecision vi_owner.
Proof. solve_decision. Defined.

(** The interval information *)
Inductive counter := pkt_num_sent | volume_sent | condition_pkt_num_sent | volume_lost.
#[export] Instance counter_eq_dec : EqDecision counter.
Proof. solve_decision. Defined.

Inductive wmutex := packet_send_mutex | data_warehouse_mutex | mutexs (i : Z).
#[export] Instance wmutex_eq_dec : EqDecision wmutex.
Proof. solve_decision. Defined.

(** An [int] sum: undefined when it does not fit *)
Definition int_add {S} (x y : Z) : cmd S Z :=
  if decide (in_s 32 (x + y)) then mret (x + y) else throw SignedOverflow.

Section warehouse.
Context {K VI VF FX : Type} `{KeyOps K} `{!FlowTable K Z Z VI}.
Context `{!FlowTable K c_float c_float VF} `{!FixedTable K FX}.
(** [cm_experiment_setting] *)
Context (setting : cm_experiment_setting_t).

(** [data_warehouse_t]; the mutexes are represented by the list of those held,
    [dw_mallocs] are the outcomes of the coming allocations of tables *)
Record data_warehouse_t := DataWarehouse {
  dw_vi : arena VI; dw_vf : arena VF; dw_fx : arena FX;
  flow_recePktList_map : ptr vstate;
  vi_ptr : vi_owner → option loc;
  flow_loss_rate_map : Z → option loc;
  fixed_flow_loss_volume_map : Z → option loc;
  active_idx : Z;
  counters : counter → Z → Z;
  locked : list wmutex;
  g_rand_buffer : Z;
  dw_mallocs : list bool
}.

(** *** Field access *)
Definition on_vi {A} (c : cmd (arena VI) A) : cmd data_warehouse_t A :=
  zoom dw_vi (λ m d, DataWarehouse m (dw_vf d) (dw_fx d) (flow_recePktList_map d) (vi_ptr d)
    (flow_loss_rate_map d) (fixed_flow_loss_volume_map d) (active_idx d) (counters d) (locked d)
    (g_rand_buffer d) (dw_mallocs d)) c.
Definition on_vf {A} (c : cmd (arena VF) A) : cmd data_warehouse_t A :=
  zoom dw_vf (λ m d, DataWarehouse (dw_vi d) m (dw_fx d) (flow_recePktList_map d) (vi_ptr d)
    (flow_loss_rate_map d) (fixed_flow_loss_volume_map d) (active_idx d) (counters d) (locked d)
    (g_rand_buffer d) (dw_mallocs d)) c.
Definition on_fx {A} (c : cmd (arena FX) A) : cmd data_warehouse_t A :=
  zoom dw_fx (λ m d, DataWarehouse (dw_vi d) (dw_vf d) m (flow_recePktList_map d) (vi_ptr d)
    (flow_loss_rate_map d) (fixed_flow_loss_volume_map d) (active_idx d) (counters d) (locked d)
    (g_rand_buffer d) (dw_mallocs d)) c.
Definition on_recePktList {A} (c : cmd (ptr vstate) A) : cmd data_warehouse_t A :=
  zoom flow_recePktList_map (λ p d, DataWarehouse (dw_vi d) (dw_vf d) (dw_fx d) p (vi_ptr d)
    (flow_loss_rate_map d) (fixed_flow_loss_volume_map d) (active_idx d) (counters d) (locked d)
    (g_rand_buffer d) (dw_mallocs d)) c.
Definition set_vi_ptr (o : vi_owner) (p : option loc) : cmd data_warehouse_t unit :=
  modify (λ d, DataWarehouse (dw_vi d) (dw_vf d) (dw_fx d) (flow_recePktList_map d)
    (set_ptr (vi_ptr d) o p)
    (flow_loss_rate_map d) (fixed_flow_loss_volume_map d) (active_idx d) (counters d) (locked d)
    (g_rand_buffer d) (dw_mallocs d)).
Definition set_vf_ptr (i : Z) (p : option loc) : cmd data_warehouse_t unit :=
  modify (λ d, DataWarehouse (dw_vi d) (dw_vf d) (dw_fx d) (flow_recePktList_map d) (vi_ptr d)
    (set_ptr (flow_loss_rate_map d) i p) (fixed_flow_loss_volume_map d) (active_idx d) (counters d)
    (locked d) (g_rand_buffer d) (dw_mallocs d)).
Definition set_fx_ptr (i : Z) (p : option loc) : cmd data_warehouse_t unit :=
  modify (λ d, DataWarehouse (dw_vi d) (dw_vf d) (dw_fx d) (flow_recePktList_map d) (vi_ptr d)
    (flow_loss_rate_map d) (set_ptr (fixed_flow_loss_volume_map d) i p) (active_idx d) (counters d)
    (locked d) (g_rand_buffer d) (dw_mallocs d)).
Definition set_active_idx (i : Z) : cmd data_warehouse_t unit :=
  modify (λ d, DataWarehouse (dw_vi d) (dw_vf d) (dw_fx d) (flow_recePktList_map d) (vi_ptr d)
    (flow_loss_rate_map d) (fixed_flow_loss_volume_map d) i (counters d)
    (locked d) (g_rand_buffer d) (dw_mallocs d)).
Definition with_rand (x : Z) (d : data_warehouse_t) : data_warehouse_t :=
  DataWarehouse (dw_vi d) (dw_vf d) (dw_fx d) (flow_recePktList_map d) (vi_ptr d)
    (flow_loss_rate_map d) (fixed_flow_loss_volume_map d) (active_idx d) (counters d)
    (locked d) x (dw_mallocs d).
Definition set_rand (x : Z) : cmd data_warehouse_t unit := modify (with_rand x).
Definition set_mallocs (l : list bool) : cmd data_warehouse_t unit :=
  modify (λ d, DataWarehouse (dw_vi d) (dw_vf d) (dw_fx d) (flow_recePktList_map d) (vi_ptr d)
    (flow_loss_rate_map d) (fixed_flow_loss_volume_map d) (active_idx d) (counters d)
    (locked d) (g_rand_buffer d) l).
Definition set_locked (l : list wmutex) (d : data_warehouse_t) : data_warehouse_t :=
  DataWarehouse (dw_vi d) (dw_vf d) (dw_fx d) (flow_recePktList_map d) (vi_ptr d)
    (flow_loss_rate_map d) (fixed_flow_loss_volume_map d) (active_idx d) (counters d)
    l (g_rand_buffer d) (dw_mallocs d).

(** An index into an array of [BUFFER_NUM] *)
Definition in_buffers (i : Z) : Prop := 0 <= i < BUFFER_NUM.
#[local] Instance in_buffers_dec i : Decision (in_buffers i).
Proof. unfold in_buffers. apply _. Defined.
Definition check_idx (i : Z) : cmd data_warehouse_t unit :=
  if decide (in_buffers i) then mret tt else throw OutOfBounds.

(** [data_warehouse.counter[i] = f(data_warehouse.counter[i])], a [uint64_t] *)
Definition upd_counter (c : counter) (i : Z) (f : Z → Z) : cmd data_warehouse_t unit :=
  check_idx i;;
  modify (λ d, DataWarehouse (dw_vi d) (dw_vf d) (dw_fx d) (flow_recePktList_map d) (vi_ptr d)
    (flow_loss_rate_map d) (fixed_flow_loss_volume_map d) (active_idx d)
    (λ c' i', if decide (c' = c ∧ i' = i) then u64 (f (counters d c i)) else counters d c' i')
    (locked d) (g_rand_buffer d) (dw_mallocs d)).

Definition mutex_ok (m : wmutex) : Prop :=
  match m with mutexs i => 0 <= i < HASH_MAP_SIZE | _ => True end.
#[local] Instance mutex_ok_dec m : Decision (mutex_ok m).
Proof. destruct m; apply _. Defined.
Definition wlock (m : wmutex) : cmd data_warehouse_t unit := λ d,
  if decide (mutex_ok m) then
    if decide (m ∈ locked d) then Fault LockBusy else Ok (tt, set_locked (m :: locked d) d)
  else Fault OutOfBounds.
Definition wunlock (m : wmutex) : cmd data_warehouse_t unit := λ d,
  if decide (mutex_ok m) then
    if decide (m ∈ locked d) then Ok (tt, set_locked (filter (.≠ m) (locked d)) d)
    else Fault LockNotHeld
  else Fault OutOfBounds.

(** The tables through a pointer *)
Definition call_vi {A} (p : option loc) (c : cmd VI A) : cmd data_warehouse_t A :=
  on_vi (on_obj (ft_create false) p c).
Definition call_vf {A} (p : option loc) (c : cmd VF A) : cmd data_warehouse_t A :=
  on_vf (on_obj (ft_create false) p c).
Definition call_fx {A} (p : option loc) (c : cmd FX A) : cmd data_warehouse_t A :=
  on_fx (on_obj fx_null p c).

(** The pointers of buffer [i] *)
Definition read_vi (f : vi_field) (i : Z) : cmd data_warehouse_t (option loc) :=
  check_idx i;; gets (λ d, vi_ptr d (Buf f i)).
Definition read_vf (i : Z) : cmd data_warehouse_t (option loc) :=
  check_idx i;; gets (λ d, flow_loss_rate_map d i).
Definition read_fx (i : Z) : cmd data_warehouse_t (option loc) :=
  check_idx i;; gets (λ d, fixed_flow_loss_volume_map d i).

(** The other buffer *)
Definition other_idx (i : Z) : Z := (i + 1) mod BUFFER_NUM.

(** ** The getters: [data_warehouse_get_*] and [data_warehouse_get_unactive_*] *)
Definition data_warehouse_get (f : vi_field) : cmd data_warehouse_t (option loc) :=
  i ← gets active_idx; read_vi f i.
Definition data_warehouse_get_flow_loss_rate_map : cmd data_warehouse_t (option loc) :=
  i ← gets active_idx; read_vf i.
Definition data_warehouse_get_fixed_flow_loss_volume_map : cmd data_warehouse_t (option loc) :=
  i ← gets active_idx; read_fx i.
Definition data_warehouse_get_unactive (f : vi_field) : cmd data_warehouse_t (option loc) :=
  i ← gets active_idx; read_vi f (other_idx i).
Definition data_warehouse_get_unactive_flow_loss_rate_map : cmd data_warehouse_t (option loc) :=
  i ← gets active_idx; read_vf (other_idx i).
Definition data_warehouse_get_unactive_fixed_flow_loss_volume_map : cmd data_warehouse_t (option loc) :=
  i ← gets active_idx; read_fx (other_idx i).

(** ** The updates *)

(** [update_flow_selected_level_map] *)
Definition update_flow_selected_level_map (p_flow : K) (volume loss_volume : Z) (loss_rate : c_float)
    : cmd data_warehouse_t unit :=
  m ← data_warehouse_get flow_selected_level_map;
  let t := target_flow_setting setting in
  if bool_decide (volume >= volume_threshold t) && float_geb loss_rate (loss_rate_threshold t) then
    if decide (loss_volume >= loss_volume_threshold t) then
      call_vi m (ft_set p_flow TARGET_LEVEL)
    else if decide (loss_volume >= selected_loss_volume_threshold t) then
      call_vi m (ft_set p_flow SELECTED_LEVEL)
    else call_vi m (ft_del p_flow)
  else call_vi m (ft_del p_flow).

(** [drand48_r(&g_rand_buffer, &rand_float)] *)
Definition g_drand48 : cmd data_warehouse_t c_double :=
  x ← gets g_rand_buffer;
  let '(r, x) := drand48_r x in
  set_rand x;; mret r.

(** A negative result of get counts as 0 *)
Definition no_less_than_0 (v : Z) : Z := if decide (v < 0) then 0 else v.

(** The loss volume of the fixed-size map: 0 without an entry *)
Definition fixed_loss (fixed : option loc) (p_flow : K) : cmd data_warehouse_t Z :=
  e ← call_fx fixed (fx_get p_flow);
  mret (match e with Some (value, _) => i32 value | None => 0 end).

(** A loss sampled into the fixed-size map *)
Definition sample_loss (fixed : option loc) (p_flow : K) (loss_volume added_loss_volume : Z)
    : cmd data_warehouse_t unit :=
  sampled ← sample_packet_fixSize_map_sender setting g_drand48
              (λ k, call_fx fixed (fx_is_sampled k)) p_flow loss_volume;
  if decide (sampled ≠ 0) then call_fx fixed (fx_add_value p_flow (u32 added_loss_volume))
  else mret tt.

(** The tables an update reads from the structure before it uses them *)
Record buffer_ptrs := BufferPtrs {
  bp_volume : option loc; bp_loss : option loc; bp_fixed : option loc; bp_rate : option loc
}.
Definition read_buffer_ptrs : cmd data_warehouse_t buffer_ptrs :=
  v ← data_warehouse_get flow_volume_map;
  f ← data_warehouse_get_fixed_flow_loss_volume_map;
  l ← data_warehouse_get flow_loss_volume_map;
  r ← data_warehouse_get_flow_loss_rate_map;
  mret (BufferPtrs v l f r).

(** [update_flow_loss_volume] up to the update itself, and the update, for a
    positive volume; an early [return] ends the update *)
Definition loss_begin (p_flow : K) (added_loss_volume : Z) : cmd data_warehouse_t buffer_ptrs :=
  wlock (mutexs (u32 (key_bin p_flow HASH_MAP_SIZE)));;
  ps ← read_buffer_ptrs;
  i ← gets active_idx;
  upd_counter volume_lost i (λ n, n + added_loss_volume);;
  mret ps.
Definition loss_body (ps : buffer_ptrs) (p_flow : K) (added_loss_volume : Z) : cmd data_warehouse_t unit :=
  volume ← call_vi (bp_volume ps) (ft_get p_flow);
  if decide (volume < 0) then mret tt else
  loss_volume ← call_vi (bp_loss ps) (ft_get p_flow);
  loss_volume ← int_add (no_less_than_0 loss_volume) added_loss_volume;
  call_vi (bp_loss ps) (ft_set p_flow (u32 loss_volume));;
  loss_volume ←
    (if decide (loss_map_mem_type (sender_setting setting) = FIXED) then
       sample_loss (bp_fixed ps) p_flow loss_volume added_loss_volume;;
       fixed_loss (bp_fixed ps) p_flow
     else mret loss_volume);
  let loss_rate := int_ratio loss_volume volume in
  call_vf (bp_rate ps) (ft_set p_flow loss_rate);;
  update_flow_selected_level_map p_flow volume loss_volume loss_rate.
Definition loss_end (p_flow : K) : cmd data_warehouse_t unit :=
  wunlock (mutexs (u32 (key_bin p_flow HASH_MAP_SIZE))).

(** [update_flow_loss_volume] *)
Definition update_flow_loss_volume (p_flow : K) (added_loss_volume : Z) : cmd data_warehouse_t unit :=
  ps ← loss_begin p_flow added_loss_volume;
  (if decide (added_loss_volume > 0) then loss_body ps p_flow added_loss_volume else mret tt);;
  loss_end p_flow.

(** [update_flow_normal_volume], in the same parts *)
Definition normal_begin (p_flow : K) : cmd data_warehouse_t buffer_ptrs :=
  wlock (mutexs (u32 (key_bin p_flow HASH_MAP_SIZE)));;
  read_buffer_ptrs.
Definition normal_body (ps : buffer_ptrs) (p_flow : K) (added_volume : Z) : cmd data_warehouse_t unit :=
  volume ← call_vi (bp_volume ps) (ft_get p_flow);
  volume ← int_add (no_less_than_0 volume) added_volume;
  call_vi (bp_volume ps) (ft_set p_flow (u32 volume));;
  loss_volume ← call_vi (bp_loss ps) (ft_get p_flow);
  loss_volume ←
    (if decide (loss_map_mem_type (sender_setting setting) = FIXED)
     then fixed_loss (bp_fixed ps) p_flow
     else mret (no_less_than_0 loss_volume));
  let loss_rate := int_ratio loss_volume volume in
  call_vf (bp_rate ps) (ft_set p_flow loss_rate);;
  update_flow_selected_level_map p_flow volume loss_volume loss_rate.
Definition update_flow_normal_volume (p_flow : K) (added_volume : Z) : cmd data_warehouse_t unit :=
  ps ← normal_begin p_flow;
  (if decide (added_volume > 0) then normal_body ps p_flow added_volume else mret tt);;
  loss_end p_flow.

(** [update_flow_not_sampled_volume] *)
Definition update_flow_not_sampled_volume (p_flow : K) : cmd data_warehouse_t unit :=
  vm ← data_warehouse_get flow_volume_map;
  nm ← data_warehouse_get flow_not_sampled_volume_map;
  v ← call_vi nm (ft_get p_flow);
  if decide (v < 0) then
    volume ← call_vi vm (ft_get p_flow);
    call_vi nm (ft_set p_flow (u32 (no_less_than_0 volume)))
  else mret tt.

(** [data_ware_rotate_buffer] *)
Definition data_ware_rotate_buffer : cmd data_warehouse_t unit :=
  i ← gets active_idx; set_active_idx ((i + 1) mod BUFFER_NUM).

(** ** Creation and destruction *)

(** The outcome of one [malloc] *)
Definition take_malloc : cmd data_warehouse_t bool :=
  l ← gets dw_mallocs; set_mallocs (tail l);; mret (default true (head l)).

(** [owner = ht_kfs_vi_create(); if (owner == NULL) return -1;] *)
Definition create_vi (o : vi_owner) (next : cmd data_warehouse_t Z) : cmd data_warehouse_t Z :=
  ok ← take_malloc;
  let h := ft_create (K:=K) (V:=Z) ok in
  p ← (if ft_null h then mret None else on_vi (malloc h));
  set_vi_ptr o p;;
  if decide (p = None) then mret (-1) else next.
Definition create_vf (i : Z) (next : cmd data_warehouse_t Z) : cmd data_warehouse_t Z :=
  ok ← take_malloc;
  let h := ft_create (K:=K) (V:=c_float) ok in
  p ← (if ft_null h then mret None else on_vf (malloc h));
  set_vf_ptr i p;;
  if decide (p = None) then mret (-1) else next.
(** The size is converted from a [float]; the table allocates its structure
    and its slots *)
Definition create_fx (i : Z) (next : cmd data_warehouse_t Z) : cmd data_warehouse_t Z :=
  size ← (match int_of_float (fix_loss_map_bucket_size (sender_setting setting)) with
          | Some n => mret n | None => throw SignedOverflow end);
  ok ← take_malloc;
  p ← (if (ok : bool) then
         slots_ok ← take_malloc;
         h ← lift (fx_create (K:=K) size slots_ok);
         on_fx (malloc h)
       else mret None);
  set_fx_ptr i p;;
  if decide (p = None) then mret (-1) else next.

Definition destory_vi (o : vi_owner) : cmd data_warehouse_t unit :=
  p ← gets (λ d, vi_ptr d o); on_vi (destory_obj (ft_create (K:=K) (V:=Z) false) p ft_destory).
Definition destory_vf (i : Z) : cmd data_warehouse_t unit :=
  p ← gets (λ d, flow_loss_rate_map d i);
  on_vf (destory_obj (ft_create (K:=K) (V:=c_float) false) p ft_destory).
Definition destory_fx (i : Z) : cmd data_warehouse_t unit :=
  p ← gets (λ d, fixed_flow_loss_volume_map d i); on_fx (destory_obj fx_null p fx_destory).

Definition reset_counters (i : Z) : cmd data_warehouse_t unit :=
  upd_counter pkt_num_sent i (λ _, 0);;
  upd_counter volume_sent i (λ _, 0);;
  upd_counter condition_pkt_num_sent i (λ _, 0);;
  upd_counter volume_lost i (λ _, 0).

(** [data_warehouse_reset_noactive_buf] *)
Definition reset_destory (na_idx : Z) : cmd data_warehouse_t unit :=
  destory_vi (Buf flow_volume_map na_idx);;
  destory_fx na_idx;;
  destory_vi (Buf flow_loss_volume_map na_idx);;
  destory_vi (Buf flow_selected_level_map na_idx);;
  destory_vf na_idx;;
  destory_vi (Buf flow_sample_map na_idx);;
  destory_vi (Buf flow_not_sampled_volume_map na_idx);;
  destory_vi last_sent_flow_selected_level_map.
Definition reset_create (na_idx : Z) : cmd data_warehouse_t Z :=
  create_vi (Buf flow_volume_map na_idx)
  (create_fx na_idx
  (create_vi (Buf flow_loss_volume_map na_idx)
  (create_vf na_idx
  (create_vi (Buf flow_selected_level_map na_idx)
  (create_vi (Buf flow_sample_map na_idx)
  (create_vi (Buf flow_not_sampled_volume_map na_idx)
  (create_vi last_sent_flow_selected_level_map
  (reset_counters na_idx;; mret 0)))))))).
Definition data_warehouse_reset_noactive_buf : cmd data_warehouse_t Z :=
  i ← gets active_idx;
  let na_idx := (i + 1) mod BUFFER_NUM in
  check_idx na_idx;;
  reset_destory na_idx;;
  reset_create na_idx.

(** [data_warehouse_init], given what [init_tasks_info] returns *)
Definition init_buffer (i : Z) (next : cmd data_warehouse_t Z) : cmd data_warehouse_t Z :=
  create_vi (Buf flow_volume_map i)
  (create_fx i
  (create_vi (Buf flow_loss_volume_map i)
  (create_vf i
  (create_vi (Buf flow_selected_level_map i)
  (create_vi (Buf flow_sample_map i)
  (create_vi (Buf flow_not_sampled_volume_map i)
  (reset_counters i;; next))))))).
Definition data_warehouse_init (tasks_info : Z) : cmd data_warehouse_t Z :=
  if decide (tasks_info ≠ 0) then mret (-1) else
  ok ← take_malloc;
  on_recePktList (λ _, Ok (tt, ht_vl_create HASH_MAP_SIZE ok));;
  p ← gets flow_recePktList_map;
  if is_null p then mret (-1) else
  create_vi last_sent_flow_selected_level_map
  (init_buffer 0 (init_buffer 1
  (set_active_idx 0;; mret 0))).

(** [data_warehouse_destroy] *)
Definition destroy_buffer (i : Z) : cmd data_warehouse_t unit :=
  destory_vi (Buf flow_volume_map i);;
  destory_fx i;;
  destory_vi (Buf flow_loss_volume_map i);;
  destory_vf i;;
  destory_vi (Buf flow_selected_level_map i);;
  destory_vi (Buf flow_sample_map i);;
  destory_vi (Buf flow_not_sampled_volume_map i).
Definition data_warehouse_destroy : cmd data_warehouse_t unit :=
  on_recePktList ht_vl_destory;;
  destory_vi last_sent_flow_selected_level_map;;
  destroy_buffer 0;;
  destroy_buffer 1.

(** The structure before [data_warehouse_init]: static storage is zero *)
Definition dw_zero (mallocs : list bool) : data_warehouse_t :=
  DataWarehouse (Arena ∅ 1%positive [] ∅) (Arena ∅ 1%positive [] ∅) (Arena ∅ 1%positive [] ∅)
    PNull (λ _, None) (λ _, None) (λ _, None) 0 (λ _ _, 0) [] 0 mallocs.
End warehouse.
Arguments data_warehouse_t VI VF FX : clear implicits.
