(* ===== verification/WarehouseSpec.v ===== *)
(** * The data warehouse refines maps

    [wmodel] is what the warehouse records: a map per table, the slots of the
    fixed-size tables, the counters and the random state.  [wrep] relates a
    warehouse to its model; every update acts on the model as the [spec_*]
    function of the same name. *)
From S2P Require Import Prelude CMonad CFloat ChainedTable TableSpec FixSizeTable FixSizeSpec.
From S2P Require Import FixSizeIface Flow PktListTable PktListSpec ObjStore Settings Sample FlowTables Warehouse.

(** An integer table whose get returns the value as an [int], -1 without one *)
Class IntTable (K VI : Type) `{FlowTable K Z Z VI} := int_table_ret o : ft_ret o = int_or_minus1 o.

(** ** The model *)
Section model.
Context {K : Type} `{KeyLaws K}.
Context (setting : cm_experiment_setting_t).
(** The number of slots of the fixed-size tables *)
Context (fsize : Z).

Record wmodel := WModel {
  m_vi : vi_owner → kmap K Z;
  m_vf : Z → kmap K c_float;
  m_fx : Z → Z → option (entry K);
  m_coll : Z → Z;             (** a bound on the collisions counted *)
  m_idx : Z;
  m_cnt : counter → Z → Z;
  m_rand : Z;
  m_list : ptr vstate
}.
Implicit Types (m : wmodel) (k : K).

Definition m_set_vi (o : vi_owner) (f : kmap K Z → kmap K Z) m : wmodel :=
  WModel (λ o', if decide (o' = o) then f (m_vi m o) else m_vi m o') (m_vf m) (m_fx m)
    (m_coll m) (m_idx m) (m_cnt m) (m_rand m) (m_list m).
Definition m_set_vf (i : Z) (f : kmap K c_float → kmap K c_float) m : wmodel :=
  WModel (m_vi m) (λ i', if decide (i' = i) then f (m_vf m i) else m_vf m i') (m_fx m)
    (m_coll m) (m_idx m) (m_cnt m) (m_rand m) (m_list m).
Definition m_set_fx (i : Z) (f : (Z → option (entry K)) → Z → option (entry K)) (n : Z) m : wmodel :=
  WModel (m_vi m) (m_vf m) (λ i', if decide (i' = i) then f (m_fx m i) else m_fx m i')
    (λ i', if decide (i' = i) then n else m_coll m i') (m_idx m) (m_cnt m) (m_rand m) (m_list m).
Definition m_set_idx (i : Z) m : wmodel :=
  WModel (m_vi m) (m_vf m) (m_fx m) (m_coll m) i (m_cnt m) (m_rand m) (m_list m).
Definition m_count (c : counter) (i : Z) (f : Z → Z) m : wmodel :=
  WModel (m_vi m) (m_vf m) (m_fx m) (m_coll m) (m_idx m)
    (λ c' i', if decide (c' = c ∧ i' = i) then u64 (f (m_cnt m c i)) else m_cnt m c' i')
    (m_rand m) (m_list m).
Definition m_set_rand (x : Z) m : wmodel :=
  WModel (m_vi m) (m_vf m) (m_fx m) (m_coll m) (m_idx m) (m_cnt m) x (m_list m).
Definition m_set_list (p : ptr vstate) m : wmodel :=
  WModel (m_vi m) (m_vf m) (m_fx m) (m_coll m) (m_idx m) (m_cnt m) (m_rand m) p.

(** What get returns on a field of the active buffer *)
Definition m_get (f : vi_field) k m : Z := int_or_minus1 (m_vi m (Buf f (m_idx m)) k).

(** The selected level of a flow: none, selected or target *)
Definition flow_level (volume loss_volume : Z) (loss_rate : c_float) : option Z :=
  let t := target_flow_setting setting in
  if bool_decide (volume >= volume_threshold t) && float_geb loss_rate (loss_rate_threshold t) then
    if decide (loss_volume >= loss_volume_threshold t) then Some TARGET_LEVEL
    else if decide (loss_volume >= selected_loss_volume_threshold t) then Some SELECTED_LEVEL
    else None
  else None.

Definition spec_selected_level k (volume loss_volume : Z) (loss_rate : c_float) m : wmodel :=
  m_set_vi (Buf flow_selected_level_map (m_idx m)) (kupd k (flow_level volume loss_volume loss_rate)) m.

Definition is_fixed : bool := bool_decide (loss_map_mem_type (sender_setting setting) = FIXED).

(** The loss volume the rate and the level of [k] are computed from *)
Definition m_fixed_loss k m : Z :=
  match slots_get fsize k (m_fx m (m_idx m)) with Some (v, _) => i32 v | None => 0 end.
Definition m_loss k m : Z :=
  if is_fixed then m_fixed_loss k m else no_less_than_0 (m_get flow_loss_volume_map k m).

(** The rate and the level of a flow recomputed *)
Definition spec_classify k (volume : Z) m : wmodel :=
  let loss_volume := m_loss k m in
  let loss_rate := int_ratio loss_volume volume in
  spec_selected_level k volume loss_volume loss_rate
    (m_set_vf (m_idx m) (kupd k (Some loss_rate)) m).

Definition spec_normal k (added : Z) m : wmodel :=
  if decide (added > 0) then
    let volume := no_less_than_0 (m_get flow_volume_map k m) + added in
    spec_classify k volume
      (m_set_vi (Buf flow_volume_map (m_idx m)) (kupd k (Some (u32 volume))) m)
  else m.
(** No [int] overflows in an update. *)
Definition normal_ok k (added : Z) m : Prop :=
  added > 0 → in_s 32 (no_less_than_0 (m_get flow_volume_map k m) + added).

(** The fixed-size map after a loss: the flow is sampled if it has a volume
    there already or with a probability proportional to its loss volume *)
Definition spec_sample_loss k (loss_volume added : Z) m : wmodel :=
  let i := m_idx m in
  let add m := m_set_fx i (slots_add fsize k (u32 added)) (m_coll m i + 1) m in
  if slots_sampled fsize k (m_fx m i) then add m
  else
    let '(r, x) := drand48_r (m_rand m) in
    let m := m_set_rand x m in
    if float_ltb r (pkt_sample_rate_trad_sender setting loss_volume) then add m else m.

(** A loss of a flow with a volume *)
Definition spec_loss_body k (added : Z) m : wmodel :=
  let volume := m_get flow_volume_map k m in
  if decide (volume < 0) then m else
  let loss_volume := no_less_than_0 (m_get flow_loss_volume_map k m) + added in
  let m := m_set_vi (Buf flow_loss_volume_map (m_idx m)) (kupd k (Some (u32 loss_volume))) m in
  let m := if is_fixed then spec_sample_loss k loss_volume added m else m in
  let loss_volume := if is_fixed then m_fixed_loss k m else loss_volume in
  let loss_rate := int_ratio loss_volume volume in
  spec_selected_level k volume loss_volume loss_rate
    (m_set_vf (m_idx m) (kupd k (Some loss_rate)) m).
Definition spec_loss k (added : Z) m : wmodel :=
  let m := m_count volume_lost (m_idx m) (λ n, n + added) m in
  if decide (added > 0) then spec_loss_body k added m else m.
Definition loss_ok k (added : Z) m : Prop :=
  added > 0 → 0 <= m_get flow_volume_map k m →
  in_s 32 (no_less_than_0 (m_get flow_loss_volume_map k m) + added) ∧
  m_coll m (m_idx m) < 2 ^ 31 - 1.

Definition spec_not_sampled k m : wmodel :=
  if decide (m_get flow_not_sampled_volume_map k m < 0) then
    m_set_vi (Buf flow_not_sampled_volume_map (m_idx m))
      (kupd k (Some (u32 (no_less_than_0 (m_get flow_volume_map k m))))) m
  else m.

Definition spec_rotate m : wmodel := m_set_idx (other_idx (m_idx m)) m.

(** A buffer, and the condition sent last, emptied *)
Definition reset_owner (i : Z) (o : vi_owner) : Prop :=
  match o with Buf _ j => j = i | last_sent_flow_selected_level_map => True end.
#[export] Instance reset_owner_dec i o : Decision (reset_owner i o).
Proof. destruct o; simpl; apply _. Defined.
Definition spec_reset m : wmodel :=
  let i := other_idx (m_idx m) in
  WModel (λ o, if decide (reset_owner i o) then kempty else m_vi m o)
    (λ i', if decide (i' = i) then kempty else m_vf m i')
    (λ i', if decide (i' = i) then λ _, None else m_fx m i')
    (λ i', if decide (i' = i) then 0 else m_coll m i')
    (m_idx m)
    (λ c i', if decide (i' = i) then 0 else m_cnt m c i')
    (m_rand m) (m_list m).
End model.
Arguments wmodel K : clear implicits.

(** ** The relation *)
Section wrep.
Context {K VI VF FX : Type} `{KeyLaws K}.
Context `{!FlowTable K Z Z VI} `{!FlowTableLaws K Z Z VI} `{!IntTable K VI}.
Context `{!FlowTable K c_float c_float VF} `{!FlowTableLaws K c_float c_float VF}.
Context `{!FixedTable K FX} `{!FixedTableLaws K FX}.
Context (setting : cm_experiment_setting_t) (fsize : Z).
Implicit Types (d : data_warehouse_t VI VF FX) (m : wmodel K) (k : K).

(** Where the pointers of the warehouse are *)
Record wptrs := WPtrs {
  pt_vi : vi_owner → option loc; pt_vf : Z → option loc; pt_fx : Z → option loc
}.
Implicit Types (P : wptrs).

Definition vi_valid (o : vi_owner) : Prop :=
  match o with Buf _ i => in_buffers i | last_sent_flow_selected_level_map => True end.

(** A table at rest that holds a map *)
Definition holds {V R T} `{!FlowTable K V R T} (mp : kmap K V) (h : T) : Prop :=
  ∃ ps, ft_view h mp ps ∧ ft_rest h.

(** A warehouse with the mutexes [l] held *)
Record wrep (l : list wmutex) P d m : Prop := {
  wr_vi : owned vi_valid (vi_ptr d) (dw_vi d) (λ o, holds (m_vi m o));
  wr_vf : owned in_buffers (flow_loss_rate_map d) (dw_vf d) (λ i, holds (m_vf m i));
  wr_fx : owned in_buffers (fixed_flow_loss_volume_map d) (dw_fx d)
            (λ i h, fx_view h fsize (m_fx m i) (m_coll m i));
  wr_ptrs : P = WPtrs (vi_ptr d) (flow_loss_rate_map d) (fixed_flow_loss_volume_map d);
  wr_idx : active_idx d = m_idx m;
  wr_idx_ok : in_buffers (m_idx m);
  wr_cnt c i : counters d c i = m_cnt m c i;
  wr_rand : g_rand_buffer d = m_rand m;
  wr_list : flow_recePktList_map d = m_list m;
  wr_locked : locked d = l;
  wr_mallocs : dw_mallocs d = []
}.

Lemma other_in_buffers i : in_buffers (other_idx i).
Proof. unfold in_buffers, other_idx. apply Z.mod_pos_bound. done. Qed.

(** *** Calls through a pointer *)
Lemma wp_on_vi {A} (c : cmd (arena VI) A) (Q : A → data_warehouse_t VI VF FX → Prop) d :
  wp c (λ r a, Q r (DataWarehouse a (dw_vf d) (dw_fx d) (flow_recePktList_map d) (vi_ptr d)
    (flow_loss_rate_map d) (fixed_flow_loss_volume_map d) (active_idx d) (counters d) (locked d)
    (g_rand_buffer d) (dw_mallocs d))) (dw_vi d) → wp (on_vi c) Q d.
Proof. intros Hw. unfold on_vi. by apply wp_zoom. Qed.

Lemma wp_call_vi_get l P d m o k (Q : Z → data_warehouse_t VI VF FX → Prop) :
  wrep l P d m → vi_valid o → Q (int_or_minus1 (m_vi m o k)) d →
  wp (call_vi (pt_vi P o) (ft_get k)) Q d.
Proof.
  intros R Ho HQ. rewrite (wr_ptrs _ _ _ _ R). simpl. apply wp_on_vi.
  eapply wp_on_obj_read; [apply R|done|]. intros h (ps & Hv & Hr).
  eapply ft_get_ok; [exact Hv|]. split; [done|]. rewrite int_table_ret. by destruct d.
Qed.

Lemma wp_call_vi_upd l P d m o (c : cmd VI unit) f (Q : unit → data_warehouse_t VI VF FX → Prop) :
  wrep l P d m → vi_valid o →
  (∀ h, holds (m_vi m o) h → wp c (λ _ h', holds (f (m_vi m o)) h') h) →
  (∀ d', wrep l P d' (m_set_vi o f m) → Q tt d') →
  wp (call_vi (pt_vi P o) c) Q d.
Proof.
  intros R Ho Hc HQ. rewrite (wr_ptrs _ _ _ _ R). simpl. apply wp_on_vi.
  eapply wp_on_obj; [apply R|done|]. intros h Hh. eapply wp_mono; [by apply Hc|].
  intros [] h' Hh'. exists (λ o', holds (m_vi (m_set_vi o f m) o')). simpl. split_and!.
  - by rewrite decide_True.
  - intros o' x Hne _ Hx. by rewrite decide_False.
  - intros a Ra _. apply HQ. destruct R. by split.
Qed.

Lemma wp_vi_set l P d m o k v (Q : unit → data_warehouse_t VI VF FX → Prop) :
  wrep l P d m → vi_valid o →
  (∀ d', wrep l P d' (m_set_vi o (kupd k (Some v)) m) → Q tt d') →
  wp (call_vi (pt_vi P o) (ft_set k v)) Q d.
Proof.
  intros R Ho HQ. eapply wp_call_vi_upd; [done|done| |done].
  intros h (ps & Hv & Hr). eapply ft_set_ok; [exact Hv|]. intros h' ps' Hv' Hr'.
  exists ps'. auto.
Qed.

Lemma wp_vi_del l P d m o k (Q : unit → data_warehouse_t VI VF FX → Prop) :
  wrep l P d m → vi_valid o →
  (∀ d', wrep l P d' (m_set_vi o (kupd k None) m) → Q tt d') →
  wp (call_vi (pt_vi P o) (ft_del k)) Q d.
Proof.
  intros R Ho HQ. eapply wp_call_vi_upd; [done|done| |done].
  intros h (ps & Hv & Hr). eapply ft_del_ok; [exact Hv|]. intros h' ps' Hv' Hr'.
  exists ps'. auto.
Qed.

Lemma wp_vf_set l P d m i k v (Q : unit → data_warehouse_t VI VF FX → Prop) :
  wrep l P d m → in_buffers i →
  (∀ d', wrep l P d' (m_set_vf i (kupd k (Some v)) m) → Q tt d') →
  wp (call_vf (pt_vf P i) (ft_set k v)) Q d.
Proof.
  intros R Hi HQ. rewrite (wr_ptrs _ _ _ _ R). simpl. unfold call_vf, on_vf. apply wp_zoom.
  eapply wp_on_obj; [apply R|done|]. intros h (ps & Hv & Hr).
  eapply ft_set_ok; [exact Hv|]. intros h' ps' Hv' Hr'.
  exists (λ i', holds (m_vf (m_set_vf i (kupd k (Some v)) m) i')). simpl. split_and!.
  - rewrite decide_True by done. exists ps'. auto.
  - intros o' x Hne _ Hx. by rewrite decide_False.
  - intros a Ra _. apply HQ. destruct R. by split.
Qed.

Lemma wp_fx_get l P d m i k (Q : option (Z * Z) → data_warehouse_t VI VF FX → Prop) :
  wrep l P d m → in_buffers i → Q (slots_get fsize k (m_fx m i)) d →
  wp (call_fx (pt_fx P i) (fx_get k)) Q d.
Proof.
  intros R Hi HQ. rewrite (wr_ptrs _ _ _ _ R). simpl. unfold call_fx, on_fx. apply wp_zoom.
  eapply wp_on_obj_read; [apply R|done|]. intros h Hv.
  eapply fx_get_ok; [exact Hv|]. split; [done|]. by destruct d.
Qed.

Lemma wp_fx_is_sampled l P d m i k (Q : bool → data_warehouse_t VI VF FX → Prop) :
  wrep l P d m → in_buffers i →
  Q (slots_sampled fsize k (m_fx m i)) d →
  wp (call_fx (pt_fx P i) (fx_is_sampled k)) Q d.
Proof.
  intros R Hi HQ. rewrite (wr_ptrs _ _ _ _ R). simpl. unfold call_fx, on_fx. apply wp_zoom.
  eapply wp_on_obj_read; [apply R|done|]. intros h Hv.
  eapply fx_is_sampled_ok; [exact Hv|]. split; [done|]. by destruct d.
Qed.

Lemma wp_fx_add l P d m i k delta (Q : unit → data_warehouse_t VI VF FX → Prop) :
  wrep l P d m → in_buffers i → m_coll m i < 2 ^ 31 - 1 →
  (∀ d', wrep l P d' (m_set_fx i (slots_add fsize k delta) (m_coll m i + 1) m) → Q tt d') →
  wp (call_fx (pt_fx P i) (fx_add_value k delta)) Q d.
Proof.
  intros R Hi Hn HQ. rewrite (wr_ptrs _ _ _ _ R). simpl. unfold call_fx, on_fx. apply wp_zoom.
  eapply wp_on_obj; [apply R|done|]. intros h Hv.
  eapply fx_add_value_ok; [exact Hv|done|]. intros h' Hv'.
  set (m' := m_set_fx i (slots_add fsize k delta) (m_coll m i + 1) m) in *.
  exists (λ i' h, fx_view h fsize (m_fx m' i') (m_coll m' i')). simpl. split_and!.
  - by rewrite !decide_True.
  - intros o' x Hne _ Hx. by rewrite !decide_False.
  - intros a Ra _. apply HQ. destruct R. by split.
Qed.

(** *** Locks, pointers, counters *)
Lemma bin_mutex_ok k : mutex_ok (mutexs (u32 (key_bin k HASH_MAP_SIZE))).
Proof.
  pose proof (bin_range k HASH_MAP_SIZE ltac:(done)) as Hb. simpl.
  rewrite wrap_small; [done|]. unfold HASH_MAP_SIZE in *. split; simpl; lia.
Qed.

Lemma wp_wlock l P d m x (Q : unit → data_warehouse_t VI VF FX → Prop) :
  wrep l P d m → mutex_ok x → x ∉ l →
  (∀ d', wrep (x :: l) P d' m → Q tt d') → wp (wlock x) Q d.
Proof.
  intros R Hx Hl HQ. unfold wp, wlock. rewrite decide_True by done. rewrite (wr_locked _ _ _ _ R).
  rewrite decide_False by done. apply HQ. destruct R. by split.
Qed.

Lemma wp_wunlock l P d m x (Q : unit → data_warehouse_t VI VF FX → Prop) :
  wrep (x :: l) P d m → mutex_ok x → x ∉ l →
  (∀ d', wrep l P d' m → Q tt d') → wp (wunlock x) Q d.
Proof.
  intros R Hx Hl HQ. unfold wp, wunlock. rewrite decide_True by done. rewrite (wr_locked _ _ _ _ R).
  rewrite decide_True by set_solver.
  assert (filter (.≠ x) (x :: l) = l) as E.
  { rewrite filter_cons_False by (by intros Hn; apply Hn).
    clear -Hl. induction l as [|y l IH]; [done|]. rewrite filter_cons_True by set_solver.
    f_equal. apply IH. set_solver. }
  rewrite E. apply HQ. destruct R. by split.
Qed.

Lemma wp_check_idx i (Q : unit → data_warehouse_t VI VF FX → Prop) d :
  in_buffers i → Q tt d → wp (check_idx i) Q d.
Proof. intros Hi HQ. unfold check_idx. rewrite decide_True by done. by apply wp_ret. Qed.

(** The pointers of the active buffer *)
Lemma wp_get_vi l P d m f (Q : option loc → data_warehouse_t VI VF FX → Prop) :
  wrep l P d m → Q (pt_vi P (Buf f (m_idx m))) d → wp (data_warehouse_get f) Q d.
Proof.
  intros R HQ. unfold data_warehouse_get, read_vi. wp_steps. rewrite (wr_idx _ _ _ _ R).
  apply wp_check_idx; [apply R|]. wp_steps. by rewrite (wr_ptrs _ _ _ _ R) in HQ.
Qed.

Definition active_ptrs P m : buffer_ptrs :=
  BufferPtrs (pt_vi P (Buf flow_volume_map (m_idx m))) (pt_vi P (Buf flow_loss_volume_map (m_idx m)))
    (pt_fx P (m_idx m)) (pt_vf P (m_idx m)).

Lemma wp_read_buffer_ptrs l P d m (Q : buffer_ptrs → data_warehouse_t VI VF FX → Prop) :
  wrep l P d m → Q (active_ptrs P m) d → wp read_buffer_ptrs Q d.
Proof.
  intros R HQ. unfold read_buffer_ptrs. wp_steps. eapply wp_get_vi; [exact R|]. wp_steps.
  unfold data_warehouse_get_fixed_flow_loss_volume_map, read_fx. wp_steps. rewrite (wr_idx _ _ _ _ R).
  apply wp_check_idx; [apply R|]. wp_steps. eapply wp_get_vi; [exact R|]. wp_steps.
  unfold data_warehouse_get_flow_loss_rate_map, read_vf. wp_steps. rewrite (wr_idx _ _ _ _ R).
  apply wp_check_idx; [apply R|]. wp_steps.
  unfold active_ptrs in HQ. by rewrite (wr_ptrs _ _ _ _ R) in HQ |- *.
Qed.

Lemma wp_upd_counter l P d m c i f (Q : unit → data_warehouse_t VI VF FX → Prop) :
  wrep l P d m → in_buffers i → (∀ d', wrep l P d' (m_count c i f m) → Q tt d') →
  wp (upd_counter c i f) Q d.
Proof.
  intros R Hi HQ. unfold upd_counter. wp_steps. apply wp_check_idx; [done|]. wp_steps.
  apply HQ. destruct R. split; simpl; try done.
  intros c' i'. by rewrite !wr_cnt0.
Qed.

(** *** The selected level *)
Lemma wp_selected_level l P d m k volume loss rate (Q : unit → data_warehouse_t VI VF FX → Prop) :
  wrep l P d m →
  (∀ d', wrep l P d' (spec_selected_level setting k volume loss rate m) → Q tt d') →
  wp (update_flow_selected_level_map setting k volume loss rate) Q d.
Proof.
  intros R HQ. pose proof (wr_idx_ok _ _ _ _ R) as Hi.
  unfold update_flow_selected_level_map. wp_steps. eapply wp_get_vi; [exact R|]. wp_steps.
  unfold spec_selected_level, flow_level in HQ. cbv zeta in HQ.
  destruct (_ && _); [repeat case_decide|].
  - by eapply wp_vi_set.
  - by eapply wp_vi_set.
  - by eapply wp_vi_del.
  - by eapply wp_vi_del.
Qed.

Lemma wp_int_add {S} x y (Q : Z → S → Prop) s : in_s 32 (x + y) → Q (x + y) s → wp (int_add x y) Q s.
Proof. intros Hi HQ. unfold int_add. rewrite decide_True by done. by apply wp_ret. Qed.

Lemma wp_fixed_loss l P d m k (Q : Z → data_warehouse_t VI VF FX → Prop) :
  wrep l P d m → Q (m_fixed_loss fsize k m) d →
  wp (fixed_loss (pt_fx P (m_idx m)) k) Q d.
Proof.
  intros R HQ. unfold fixed_loss. wp_steps. eapply wp_fx_get; [exact R|apply R|]. wp_steps. exact HQ.
Qed.

(** *** The updates *)
Lemma wp_normal_body l P d m k added (Q : unit → data_warehouse_t VI VF FX → Prop) :
  wrep l P d m → added > 0 → normal_ok k added m →
  (∀ d', wrep l P d' (spec_normal setting fsize k added m) → Q tt d') →
  wp (normal_body setting (active_ptrs P m) k added) Q d.
Proof.
  intros R Ha Hok HQ. pose proof (wr_idx_ok _ _ _ _ R) as Hi.
  unfold spec_normal in HQ. rewrite decide_True in HQ by done. specialize (Hok Ha).
  unfold normal_body, active_ptrs. simpl bp_volume. wp_steps.
  eapply wp_call_vi_get; [exact R|done|]. wp_steps. apply wp_int_add; [exact Hok|]. wp_steps.
  eapply wp_vi_set; [exact R|done|]. clear d R. intros d R. wp_steps. simpl bp_loss.
  eapply wp_call_vi_get; [exact R|done|]. wp_steps.
  set (volume := no_less_than_0 _ + added) in *.
  set (m1 := m_set_vi _ _ m) in *. assert (m_idx m1 = m_idx m) as E1 by done.
  clearbody m1 volume. rewrite <- E1 in Hi |- *. clear E1 Hok.
  assert (∀ loss, loss = m_loss setting fsize k m1 →
    wp (call_vf (pt_vf P (m_idx m1)) (ft_set k (int_ratio loss volume));;
        update_flow_selected_level_map setting k volume loss (int_ratio loss volume)) Q d) as Hrest.
  { intros loss ->. wp_steps. eapply wp_vf_set; [exact R|done|]. intros d' R'. wp_steps.
    eapply wp_selected_level; [exact R'|]. exact HQ. }
  destruct (decide (loss_map_mem_type (sender_setting setting) = FIXED)) as [E|E].
  - eapply wp_fixed_loss; [exact R|]. apply Hrest. unfold m_loss, is_fixed. by rewrite bool_decide_true.
  - apply wp_ret. apply Hrest. unfold m_loss, is_fixed. by rewrite bool_decide_false.
Qed.

Lemma wp_g_drand48 l P d m (Q : c_double → data_warehouse_t VI VF FX → Prop) :
  wrep l P d m →
  (∀ d', wrep l P d' (m_set_rand (drand48_r (m_rand m)).2 m) → Q (drand48_r (m_rand m)).1 d') →
  wp g_drand48 Q d.
Proof.
  intros R HQ. unfold g_drand48. wp_steps. rewrite (wr_rand _ _ _ _ R).
  destruct (drand48_r (m_rand m)) as [r x]. wp_steps. apply HQ. destruct R. by split.
Qed.

(** Sampling a loss, and recording it in the fixed-size map *)
Lemma wp_sample_loss l P d m k loss added (Q : unit → data_warehouse_t VI VF FX → Prop) :
  wrep l P d m → m_coll m (m_idx m) < 2 ^ 31 - 1 →
  (∀ d', wrep l P d' (spec_sample_loss setting fsize k loss added m) → Q tt d') →
  wp (sample_loss setting (pt_fx P (m_idx m)) k loss added) Q d.
Proof.
  intros R Hn HQ. pose proof (wr_idx_ok _ _ _ _ R) as Hi.
  unfold spec_sample_loss in HQ. cbv zeta in HQ. unfold sample_loss, sample_packet_fixSize_map_sender. wp_steps.
  eapply wp_fx_is_sampled; [exact R|done|]. destruct (slots_sampled _ _ _).
  { wp_steps. rewrite decide_True by done. by eapply wp_fx_add. }
  wp_steps. eapply wp_g_drand48; [exact R|]. intros d' R'.
  destruct (drand48_r (m_rand m)) as [r x]. simpl in R' |- *. wp_steps.
  destruct (float_ltb _ _).
  - rewrite decide_True by done. eapply (wp_fx_add _ _ _ _ (m_idx m)); [exact R'|done|done|exact HQ].
  - rewrite decide_False by (intros E; by apply E). apply wp_ret. by apply HQ.
Qed.

Lemma wp_loss_body l P d m k added (Q : unit → data_warehouse_t VI VF FX → Prop) :
  wrep l P d m → added > 0 → loss_ok k added m →
  (∀ d', wrep l P d' (spec_loss_body setting fsize k added m) → Q tt d') →
  wp (loss_body setting (active_ptrs P m) k added) Q d.
Proof.
  intros R Ha Hok HQ. pose proof (wr_idx_ok _ _ _ _ R) as Hi.
  unfold spec_loss_body in HQ. unfold loss_body, active_ptrs. simpl bp_volume. wp_steps.
  eapply wp_call_vi_get; [exact R|done|].
  change (int_or_minus1 (m_vi m (Buf flow_volume_map (m_idx m)) k)) with (m_get flow_volume_map k m).
  cbv zeta in HQ. case_decide as Hv; [by apply HQ|].
  destruct (Hok Ha ltac:(lia)) as [Hl Hn]. simpl bp_loss. wp_steps.
  eapply wp_call_vi_get; [exact R|done|]. wp_steps. apply wp_int_add; [exact Hl|]. wp_steps.
  eapply wp_vi_set; [exact R|done|]. clear d R. intros d R. wp_steps. simpl bp_fixed. simpl bp_rate.
  fold (m_get flow_loss_volume_map k m) in R |- *.
  set (loss := no_less_than_0 _ + added) in *. set (volume := m_get flow_volume_map k m) in *.
  set (m1 := m_set_vi _ _ m) in *. assert (m_idx m1 = m_idx m) as E1 by done.
  assert (m_coll m1 = m_coll m) as E2 by done.
  clearbody m1 volume loss. rewrite <- E1 in Hi, Hn |- *. rewrite <- E2 in Hn. clear E1 E2 Hok.
  assert (∀ d' m2 loss', m_idx m2 = m_idx m1 → wrep l P d' m2 →
    (∀ d'', wrep l P d'' (spec_selected_level setting k volume loss' (int_ratio loss' volume)
       (m_set_vf (m_idx m2) (kupd k (Some (int_ratio loss' volume))) m2)) → Q tt d'') →
    wp (call_vf (pt_vf P (m_idx m1)) (ft_set k (int_ratio loss' volume));;
        update_flow_selected_level_map setting k volume loss' (int_ratio loss' volume)) Q d') as Hrest.
  { intros d' m2 loss' <- R' HQ'. wp_steps. eapply wp_vf_set; [exact R'|apply R'|]. intros d'' R''. wp_steps.
    eapply wp_selected_level; [exact R''|]. exact HQ'. }
  unfold is_fixed in HQ.
  destruct (decide (loss_map_mem_type (sender_setting setting) = FIXED)) as [E|E].
  - rewrite bool_decide_true in HQ by done. wp_steps.
    eapply wp_sample_loss; [exact R|done|]. intros d' R'.
    assert (m_idx (spec_sample_loss setting fsize k loss added m1) = m_idx m1) as E2.
    { unfold spec_sample_loss. cbv zeta. repeat case_match; done. }
    rewrite <- E2 at 1. eapply wp_fixed_loss; [exact R'|].
    by eapply Hrest.
  - rewrite bool_decide_false in HQ by done. apply wp_ret. by eapply Hrest.
Qed.

Lemma wp_update_flow_normal_volume P d m k added (Q : unit → data_warehouse_t VI VF FX → Prop) :
  wrep [] P d m → normal_ok k added m →
  (∀ d', wrep [] P d' (spec_normal setting fsize k added m) → Q tt d') →
  wp (update_flow_normal_volume setting k added) Q d.
Proof.
  intros R Hok HQ. unfold update_flow_normal_volume, normal_begin. wp_steps.
  eapply wp_wlock; [exact R|apply bin_mutex_ok|set_solver|]. clear d R. intros d R. wp_steps.
  eapply wp_read_buffer_ptrs; [exact R|]. wp_steps.
  assert (∀ d', wrep [mutexs (u32 (key_bin k HASH_MAP_SIZE))] P d' (spec_normal setting fsize k added m) →
    wp (loss_end k) Q d') as Hend.
  { intros d' R'. eapply wp_wunlock; [exact R'|apply bin_mutex_ok|set_solver|exact HQ]. }
  case_decide as Ha.
  - eapply wp_normal_body; [exact R|done|done|exact Hend].
  - apply wp_ret, Hend. unfold spec_normal. by rewrite decide_False.
Qed.

Lemma wp_update_flow_loss_volume P d m k added (Q : unit → data_warehouse_t VI VF FX → Prop) :
  wrep [] P d m → loss_ok k added m →
  (∀ d', wrep [] P d' (spec_loss setting fsize k added m) → Q tt d') →
  wp (update_flow_loss_volume setting k added) Q d.
Proof.
  intros R Hok HQ. unfold update_flow_loss_volume, loss_begin. wp_steps.
  eapply wp_wlock; [exact R|apply bin_mutex_ok|set_solver|]. clear d R. intros d R. wp_steps.
  eapply wp_read_buffer_ptrs; [exact R|]. wp_steps. rewrite (wr_idx _ _ _ _ R).
  eapply wp_upd_counter; [exact R|apply R|]. intros d' R'. wp_steps. unfold spec_loss in HQ. cbv zeta in HQ.
  set (m1 := m_count _ _ _ m) in *.
  assert (∀ d', wrep [mutexs (u32 (key_bin k HASH_MAP_SIZE))] P d'
    (if decide (added > 0) then spec_loss_body setting fsize k added m1 else m1) →
    wp (loss_end k) Q d') as Hend.
  { intros d'' R''. eapply wp_wunlock; [exact R''|apply bin_mutex_ok|set_solver|exact HQ]. }
  case_decide as Ha.
  - eapply (wp_loss_body _ _ _ m1); [exact R'|done|exact Hok|exact Hend].
  - apply wp_ret, Hend, R'.
Qed.

Lemma wp_update_flow_not_sampled_volume l P d m k (Q : unit → data_warehouse_t VI VF FX → Prop) :
  wrep l P d m → (∀ d', wrep l P d' (spec_not_sampled k m) → Q tt d') →
  wp (update_flow_not_sampled_volume k) Q d.
Proof.
  intros R HQ. pose proof (wr_idx_ok _ _ _ _ R) as Hi. unfold update_flow_not_sampled_volume. wp_steps.
  eapply wp_get_vi; [exact R|]. wp_steps. eapply wp_get_vi; [exact R|]. wp_steps.
  eapply wp_call_vi_get; [exact R|done|].
  fold (m_get flow_not_sampled_volume_map k m). unfold spec_not_sampled in HQ.
  case_decide; [|by apply wp_ret, HQ]. wp_steps. eapply wp_call_vi_get; [exact R|done|]. wp_steps.
  eapply wp_vi_set; [exact R|done|exact HQ].
Qed.

Lemma wp_rotate l P d m (Q : unit → data_warehouse_t VI VF FX → Prop) :
  wrep l P d m → (∀ d', wrep l P d' (spec_rotate m) → Q tt d') → wp data_ware_rotate_buffer Q d.
Proof.
  intros R HQ. unfold data_ware_rotate_buffer. wp_steps. apply HQ. rewrite (wr_idx _ _ _ _ R).
  destruct R. split; simpl; try done. apply other_in_buffers.
Qed.
End wrep.

(** ** Creation and destruction *)
Section lifecycle.
Context {K VI VF FX : Type} `{KeyLaws K}.
Context `{!FlowTable K Z Z VI} `{!FlowTableLaws K Z Z VI} `{!IntTable K VI}.
Context `{!FlowTable K c_float c_float VF} `{!FlowTableLaws K c_float c_float VF}.
Context `{!FixedTable K FX} `{!FixedTableLaws K FX}.
Context (setting : cm_experiment_setting_t) (fsize : Z).
Context (fsize_ok : int_of_float (fix_loss_map_bucket_size (sender_setting setting)) = Some fsize).
Context (fsize_pos : 0 < fsize).
Implicit Types (d : data_warehouse_t VI VF FX) (m : wmodel K) (k : K).
Implicit Types (V : vi_owner → Prop) (F X : Z → Prop).

(** A warehouse some tables of which do not exist: [V], [F] and [X] are the
    owners that have one, [D] are addresses of integer tables that were freed,
    [pv] are the pointers to integer tables, [ml] the outcomes of the coming allocations *)
Record wpart V F X (D : loc → Prop) (pv : vi_owner → option loc) (ml : list bool) (l : list wmutex) d m : Prop := {
  pa_vi : owned V (vi_ptr d) (dw_vi d) (λ o, holds (m_vi m o));
  pa_vf : owned F (flow_loss_rate_map d) (dw_vf d) (λ i, holds (m_vf m i));
  pa_fx : owned X (fixed_flow_loss_volume_map d) (dw_fx d)
            (λ i h, fx_view h fsize (m_fx m i) (m_coll m i));
  pa_idx : active_idx d = m_idx m;
  pa_cnt c i : counters d c i = m_cnt m c i;
  pa_rand : g_rand_buffer d = m_rand m;
  pa_list : flow_recePktList_map d = m_list m;
  pa_locked : locked d = l;
  pa_ptr : vi_ptr d = pv;
  pa_mallocs : dw_mallocs d = ml;
  pa_dead a : D a → heap (dw_vi d) !! a = None ∧ (a < brk (dw_vi d))%positive
}.

Lemma wrep_part l P d m : wrep fsize l P d m → wpart vi_valid in_buffers in_buffers (λ _, False) (pt_vi P) [] l d m.
Proof. intros []. subst. by split. Qed.

Definition ptrs_of d : wptrs :=
  WPtrs (vi_ptr d) (flow_loss_rate_map d) (fixed_flow_loss_volume_map d).

(** Only what the owners have is seen of a model. *)
Lemma part_wrep V F X (D : loc → Prop) pv l d m m' :
  wpart V F X D pv [] l d m → (∀ o, V o ↔ vi_valid o) → (∀ i, F i ↔ in_buffers i) → (∀ i, X i ↔ in_buffers i) →
  (∀ o, vi_valid o → m_vi m o = m_vi m' o) → (∀ i, in_buffers i → m_vf m i = m_vf m' i) →
  (∀ i, in_buffers i → m_fx m i = m_fx m' i ∧ m_coll m i = m_coll m' i) →
  (∀ c i, m_cnt m c i = m_cnt m' c i) →
  m_idx m = m_idx m' → m_rand m = m_rand m' → m_list m = m_list m' → in_buffers (m_idx m') →
  wrep fsize l (ptrs_of d) d m'.
Proof.
  intros [Rv Rf Rx Ri Rc Rr Rl Rk _ Rm _] EV EF EX Ev Ef Ex Ec Ei Er El Hi.
  split; [| | |done|congruence|done|by intros c i; rewrite Rc|congruence..].
  - eapply (owned_mono vi_valid); [by eapply owned_valid|]. intros o h Ho. simpl. by rewrite (Ev o Ho).
  - eapply (owned_mono in_buffers); [by eapply owned_valid|]. intros o h Ho. simpl. by rewrite (Ef o Ho).
  - eapply (owned_mono in_buffers); [by eapply owned_valid|]. intros o h Ho. simpl.
    by destruct (Ex o Ho) as [-> ->].
Qed.

Lemma wp_destory_vi V F X (D : loc → Prop) pv ml l d m o (Q : unit → data_warehouse_t VI VF FX → Prop) :
  wpart V F X D pv ml l d m → V o →
  (∀ d', wpart (λ o', V o' ∧ o' ≠ o) F X (λ a, D a ∨ pv o = Some a) pv ml l d' m → Q tt d') → wp (destory_vi o) Q d.
Proof.
  intros R Ho HQ. unfold destory_vi. wp_steps. apply wp_on_vi. eapply wp_destory_obj; [apply R|done| |].
  - intros h Q' (ps & Hv & _) HQ'. by eapply ft_destory_ok.
  - intros a ar Ra Ea Hlt Eh Eb. apply HQ. destruct R. split; simpl; try done. rewrite Eh, Eb.
    intros b [Hb|Hb]; [|assert (b = a) as -> by congruence; by rewrite lookup_delete_eq].
    destruct (pa_dead0 b Hb) as [En Hl]. split; [|done]. by rewrite lookup_delete_None; right.
Qed.

Lemma wp_destory_vf V F X (D : loc → Prop) pv ml l d m i (Q : unit → data_warehouse_t VI VF FX → Prop) :
  wpart V F X D pv ml l d m → F i →
  (∀ d', wpart V (λ i', F i' ∧ i' ≠ i) X D pv ml l d' m → Q tt d') → wp (destory_vf i) Q d.
Proof.
  intros R Ho HQ. unfold destory_vf, on_vf. wp_steps. eapply wp_destory_obj; [apply R|done| |].
  - intros h Q' (ps & Hv & _) HQ'. by eapply ft_destory_ok.
  - intros a ar Ra _ _ _ _. apply HQ. destruct R. by split.
Qed.

Lemma wp_destory_fx V F X (D : loc → Prop) pv ml l d m i (Q : unit → data_warehouse_t VI VF FX → Prop) :
  wpart V F X D pv ml l d m → X i →
  (∀ d', wpart V F (λ i', X i' ∧ i' ≠ i) D pv ml l d' m → Q tt d') → wp (destory_fx i) Q d.
Proof.
  intros R Ho HQ. unfold destory_fx, on_fx. wp_steps. eapply wp_destory_obj; [apply R|done| |].
  - intros h Q' Hv HQ'. eapply fx_destory_ok; [exact Hv|exact HQ'].
  - intros a ar Ra _ _ _ _. apply HQ. destruct R. by split.
Qed.

Lemma wp_take_malloc V F X (D : loc → Prop) pv ml l d m (Q : bool → data_warehouse_t VI VF FX → Prop) :
  wpart V F X D pv ml l d m → (∀ d', wpart V F X D pv (tail ml) l d' m → Q (default true (head ml)) d') →
  wp take_malloc Q d.
Proof.
  intros R HQ. unfold take_malloc. wp_steps. rewrite (pa_mallocs _ _ _ _ _ _ _ _ _ R). simpl. wp_steps.
  apply HQ. destruct R. by split.
Qed.

Lemma wp_take_malloc_ok V F X (D : loc → Prop) pv l d m (Q : bool → data_warehouse_t VI VF FX → Prop) :
  wpart V F X D pv [] l d m → (∀ d', wpart V F X D pv [] l d' m → Q true d') → wp take_malloc Q d.
Proof. intros R HQ. by eapply wp_take_malloc. Qed.

(** Only the pointer of [o] is new. *)
Lemma wp_create_vi_ptr V F X (D : loc → Prop) pv l d m o next (Q : Z → data_warehouse_t VI VF FX → Prop) :
  wpart V F X D pv [] l d m → ¬ V o →
  (∀ d' a, wpart (λ o', V o' ∨ o' = o) F X D (set_ptr pv o (Some a)) [] l d' (m_set_vi o (λ _, kempty) m) →
     wp next Q d') →
  wp (create_vi o next) Q d.
Proof.
  intros R Ho Hn. unfold create_vi. wp_steps. eapply wp_take_malloc_ok; [exact R|]. clear d R. intros d R.
  cbv zeta. assert (ft_view (ft_create true : VI) kempty [] ∧ ft_rest (ft_create true : VI)) as [Hv Hr]
    by apply ft_create_ok.
  rewrite (ft_view_null _ _ _ Hv). wp_steps. apply wp_on_vi.
  pose proof (pa_vi _ _ _ _ _ _ _ _ _ R) as Rv. eapply wp_malloc; [apply Rv|].
  wp_steps. rewrite decide_False by done. eapply (Hn _ (brk (dw_vi d))). destruct R. subst pv.
  split; simpl; try done.
  - apply owned_new; [|done|rewrite decide_True by done; by exists []].
    eapply owned_mono; [exact Rv|]. intros o' h Ho' Hh. rewrite decide_False; [done|by intros ->].
  - intros a Ha. destruct (pa_dead0 a Ha) as [En Hl]. split; [|lia].
    rewrite lookup_insert_ne by lia. done.
Qed.

Lemma wp_create_vi V F X (D : loc → Prop) pv l d m o next (Q : Z → data_warehouse_t VI VF FX → Prop) :
  wpart V F X D pv [] l d m → ¬ V o →
  (∀ d' pv', wpart (λ o', V o' ∨ o' = o) F X D pv' [] l d' (m_set_vi o (λ _, kempty) m) → wp next Q d') →
  wp (create_vi o next) Q d.
Proof. intros R Ho Hn. eapply wp_create_vi_ptr; [exact R|done|]. intros d' a. apply Hn. Qed.

Lemma wp_create_vf V F X (D : loc → Prop) pv l d m i next (Q : Z → data_warehouse_t VI VF FX → Prop) :
  wpart V F X D pv [] l d m → ¬ F i →
  (∀ d', wpart V (λ i', F i' ∨ i' = i) X D pv [] l d' (m_set_vf i (λ _, kempty) m) → wp next Q d') →
  wp (create_vf i next) Q d.
Proof.
  intros R Ho Hn. unfold create_vf. wp_steps. eapply wp_take_malloc_ok; [exact R|]. clear d R. intros d R.
  cbv zeta. assert (ft_view (ft_create true : VF) kempty [] ∧ ft_rest (ft_create true : VF)) as [Hv Hr]
    by apply ft_create_ok.
  rewrite (ft_view_null _ _ _ Hv). unfold on_vf. wp_steps.
  pose proof (pa_vf _ _ _ _ _ _ _ _ _ R) as Rv. eapply wp_malloc; [apply Rv|].
  wp_steps. rewrite decide_False by done. apply Hn. destruct R. split; simpl; try done.
  apply owned_new; [|done|rewrite decide_True by done; by exists []].
  eapply owned_mono; [exact Rv|]. intros o' h Ho' Hh. rewrite decide_False; [done|by intros ->].
Qed.

Lemma wp_create_fx V F X (D : loc → Prop) pv l d m i next (Q : Z → data_warehouse_t VI VF FX → Prop) :
  wpart V F X D pv [] l d m → ¬ X i →
  (∀ d', wpart V F (λ i', X i' ∨ i' = i) D pv [] l d' (m_set_fx i (λ _ _, None) 0 m) → wp next Q d') →
  wp (create_fx setting i next) Q d.
Proof.
  intros R Ho Hn. unfold create_fx. rewrite fsize_ok. wp_steps.
  eapply wp_take_malloc_ok; [exact R|]. clear d R. intros d R. wp_steps.
  eapply wp_take_malloc_ok; [exact R|]. clear d R. intros d R. wp_steps.
  destruct (fx_create_ok (K:=K) (F:=FX) fsize fsize_pos) as (h & Eh & Hv).
  unfold wp at 1, lift. rewrite Eh. unfold on_fx. wp_steps.
  pose proof (pa_fx _ _ _ _ _ _ _ _ _ R) as Rv. eapply wp_malloc; [apply Rv|].
  wp_steps. rewrite decide_False by done. apply Hn. destruct R. split; simpl; try done.
  apply owned_new; [|done|by rewrite !decide_True].
  eapply owned_mono; [exact Rv|]. intros o' x Ho' Hx. rewrite !decide_False; [done|by intros ->..].
Qed.

Lemma wp_reset_counters V F X (D : loc → Prop) pv ml l d m i (Q : unit → data_warehouse_t VI VF FX → Prop) :
  wpart V F X D pv ml l d m → in_buffers i →
  (∀ d', wpart V F X D pv ml l d' (WModel (m_vi m) (m_vf m) (m_fx m) (m_coll m) (m_idx m)
     (λ c i', if decide (i' = i) then 0 else m_cnt m c i') (m_rand m) (m_list m)) → Q tt d') →
  wp (reset_counters i) Q d.
Proof.
  intros R Hi HQ. unfold reset_counters, upd_counter. wp_steps.
  do 4 (apply wp_check_idx; [done|]; wp_steps).
  apply HQ. destruct R. split; simpl; try done.
  intros c i'. rewrite <- pa_cnt0. repeat case_decide; destruct_and?; simplify_eq; try done.
  exfalso. destruct c; naive_solver.
Qed.

Lemma wp_reset_destory (D : loc → Prop) pv ml l d m na (Q : unit → data_warehouse_t VI VF FX → Prop) :
  wpart vi_valid in_buffers in_buffers D pv ml l d m → in_buffers na →
  (∀ V F X D' d', wpart V F X D' pv ml l d' m →
     (∀ o, V o ↔ vi_valid o ∧ ¬ reset_owner na o) → (∀ i, F i ↔ in_buffers i ∧ i ≠ na) →
     (∀ i, X i ↔ in_buffers i ∧ i ≠ na) → (∀ f a, pv (Buf f na) = Some a → D' a) → Q tt d') →
  wp (reset_destory na) Q d.
Proof.
  intros R Hn HQ. unfold reset_destory. wp_steps.
  eapply wp_destory_vi; [exact R|done|]. clear d R. intros d R. wp_steps.
  eapply wp_destory_fx; [exact R|done|]. clear d R. intros d R. wp_steps.
  eapply wp_destory_vi; [exact R|done|]. clear d R. intros d R. wp_steps.
  eapply wp_destory_vi; [exact R|done|]. clear d R. intros d R. wp_steps.
  eapply wp_destory_vf; [exact R|done|]. clear d R. intros d R. wp_steps.
  eapply wp_destory_vi; [exact R|done|]. clear d R. intros d R. wp_steps.
  eapply wp_destory_vi; [exact R|done|]. clear d R. intros d R. wp_steps.
  eapply wp_destory_vi; [exact R|done|]. clear d R. intros d R. wp_steps.
  eapply HQ; [exact R|..].
  - intros o. destruct o as [f j|]; simpl; [destruct f|]; naive_solver.
  - done.
  - done.
  - intros f a Ea. destruct f; naive_solver.
Qed.

Lemma wp_reset l P d m (Q : Z → data_warehouse_t VI VF FX → Prop) :
  wrep fsize l P d m →
  (∀ P' d', wrep fsize l P' d' (spec_reset m) →
     (∀ f a, pt_vi P (Buf f (other_idx (m_idx m))) = Some a → heap (dw_vi d') !! a = None) → Q 0 d') →
  wp (data_warehouse_reset_noactive_buf setting) Q d.
Proof.
  intros R HQ. pose proof (wr_idx_ok _ _ _ _ _ R) as Hi. pose proof (other_in_buffers (m_idx m)) as Hn.
  unfold data_warehouse_reset_noactive_buf. wp_steps. rewrite (wr_idx _ _ _ _ _ R).
  fold (other_idx (m_idx m)). set (na := other_idx (m_idx m)) in *.
  apply wp_check_idx; [done|]. wp_steps. apply wrep_part in R.
  eapply wp_reset_destory; [exact R|done|]. clear d R. intros V F X D d R EV EF EX HD. wp_steps.
  assert (∀ f, ¬ V (Buf f na)) as HV by (intros f [_ []]%EV; done).
  assert (¬ V last_sent_flow_selected_level_map) as HL by (intros [_ []]%EV; done).
  assert (¬ F na ∧ ¬ X na) as [HF HX] by (rewrite EF, EX; naive_solver).
  unfold reset_create.
  eapply wp_create_vi; [exact R|naive_solver|]. clear d R. intros d pv1 R.
  eapply wp_create_fx; [exact R|naive_solver|]. clear d R. intros d R.
  eapply wp_create_vi; [exact R|naive_solver|]. clear d R. intros d pv2 R.
  eapply wp_create_vf; [exact R|naive_solver|]. clear d R. intros d R.
  eapply wp_create_vi; [exact R|naive_solver|]. clear d R. intros d pv3 R.
  eapply wp_create_vi; [exact R|naive_solver|]. clear d R. intros d pv4 R.
  eapply wp_create_vi; [exact R|naive_solver|]. clear d R. intros d pv5 R.
  eapply wp_create_vi; [exact R|naive_solver|]. clear d R. intros d pv6 R. wp_steps.
  eapply wp_reset_counters; [exact R|done|]. clear d R. intros d R. wp_steps.
  eapply HQ; [|intros f a Ea; apply (pa_dead _ _ _ _ _ _ _ _ _ R); by eapply HD].
  eapply part_wrep; [exact R|..]; simpl; [| | | | | |done..].
  - intros o. rewrite EV. destruct o as [f j|]; simpl; [|naive_solver].
    destruct (decide (j = na)) as [->|]; [destruct f; naive_solver|naive_solver].
  - intros j. rewrite EF. destruct (decide (j = na)); naive_solver.
  - intros j. rewrite EX. destruct (decide (j = na)); naive_solver.
  - intros o Ho. destruct o as [[] j|]; simpl; repeat case_decide; simplify_eq; done.
  - intros j Hj. subst na. by repeat case_decide.
  - intros j Hj. subst na. by repeat case_decide.
Qed.

(** The model of a new warehouse *)
Definition m_init : wmodel K :=
  WModel (λ _, kempty) (λ _, kempty) (λ _ _, None) (λ _, 0) 0 (λ _ _, 0) 0
    (ht_vl_create HASH_MAP_SIZE true).

Lemma wp_init_buffer V F X (D : loc → Prop) pv l d m i next (Q : Z → data_warehouse_t VI VF FX → Prop) :
  wpart V F X D pv [] l d m → in_buffers i → (∀ f, ¬ V (Buf f i)) → ¬ F i → ¬ X i →
  (∀ V' F' X' d' pv' m', wpart V' F' X' D pv' [] l d' m' →
     (∀ o, V' o ↔ V o ∨ ∃ f, o = Buf f i) → (∀ j, F' j ↔ F j ∨ j = i) → (∀ j, X' j ↔ X j ∨ j = i) →
     (∀ o, m_vi m' o = m_vi m o ∨ m_vi m' o = kempty) → (∀ j, m_vf m' j = m_vf m j ∨ m_vf m' j = kempty) →
     (∀ j, m_fx m' j = m_fx m j ∧ m_coll m' j = m_coll m j ∨ m_fx m' j = (λ _, None) ∧ m_coll m' j = 0) →
     (∀ c j, m_cnt m' c j = if decide (j = i) then 0 else m_cnt m c j) →
     m_idx m' = m_idx m → m_rand m' = m_rand m → m_list m' = m_list m → wp next Q d') →
  wp (init_buffer setting i next) Q d.
Proof.
  intros R Hi HV HF HX Hn. unfold init_buffer.
  eapply wp_create_vi; [exact R|naive_solver|]. clear d R. intros d pv1 R.
  eapply wp_create_fx; [exact R|naive_solver|]. clear d R. intros d R.
  eapply wp_create_vi; [exact R|naive_solver|]. clear d R. intros d pv2 R.
  eapply wp_create_vf; [exact R|naive_solver|]. clear d R. intros d R.
  eapply wp_create_vi; [exact R|naive_solver|]. clear d R. intros d pv3 R.
  eapply wp_create_vi; [exact R|naive_solver|]. clear d R. intros d pv4 R.
  eapply wp_create_vi; [exact R|naive_solver|]. clear d R. intros d pv5 R. wp_steps.
  eapply wp_reset_counters; [exact R|done|]. clear d R. intros d R. wp_steps.
  eapply Hn; [exact R|..]; simpl; try done.
  - intros o. split; [naive_solver|]. intros [?|[[] ->]]; tauto.
  - intros o. repeat case_decide; auto.
  - intros j. repeat case_decide; auto.
  - intros j. repeat case_decide; auto.
Qed.

(** With the state [x] of the random numbers *)
Lemma init_seeded x :
  wp (data_warehouse_init setting 0) (λ r d, r = 0 ∧ ∃ P, wrep fsize [] P d (m_set_rand x m_init)) (with_rand x (dw_zero [])).
Proof.
  unfold data_warehouse_init. rewrite decide_False by (intros E; by apply E).
  set (m0 := m_set_rand x m_init).
  assert (wpart (λ _, False) (λ _, False) (λ _, False) (λ _, False) (λ _, None) [] []
    (with_rand x (dw_zero (VI:=VI) (VF:=VF) (FX:=FX) []))
    (WModel (m_vi m0) (m_vf m0) (m_fx m0) (m_coll m0) 0 (m_cnt m0) (m_rand m0) PNull)) as R.
  { split; try done; split; try done; intros a [? Ha]; simpl in Ha; by rewrite lookup_empty in Ha. }
  wp_steps. eapply wp_take_malloc_ok; [exact R|]. clear R. intros d R. wp_steps.
  unfold on_recePktList. wp_step. apply wp_run. eexists tt, _. split; [reflexivity|]. wp_steps. simpl.
  eapply (wp_create_vi (λ _, False) (λ _, False) (λ _, False) (λ _, False) (λ _, None) [] _ m0); [|tauto|].
  { destruct R. by split. }
  clear d R. intros d pv1 R.
  eapply wp_init_buffer; [exact R|done|naive_solver|tauto|tauto|].
  clear d R. intros V1 F1 X1 d pv2 m1 R1 EV1 EF1 EX1 Ev1 Ef1 Ex1 Ec1 Ei1 Er1 El1.
  eapply wp_init_buffer; [exact R1|done|intros f [[[]|?]|[??]]%EV1; congruence|
    intros [[]|?]%EF1; lia|intros [[]|?]%EX1; lia|].
  clear d R1. intros V2 F2 X2 d pv3 m2 R2 EV2 EF2 EX2 Ev2 Ef2 Ex2 Ec2 Ei2 Er2 El2.
  wp_steps. split; [done|]. eexists. simpl in *.
  eapply (part_wrep V2 F2 X2 (λ _, False) pv3 _ _ (m_set_idx 0 m2)); [by destruct R2; split|..]; simpl.
  - intros o. rewrite EV2, EV1. destruct o as [f j|]; simpl; [|naive_solver].
    unfold in_buffers, BUFFER_NUM. split; [naive_solver lia|]. intros Hj.
    assert (j = 0 ∨ j = 1) as [-> | ->] by lia; naive_solver.
  - intros j. rewrite EF2, EF1. unfold in_buffers, BUFFER_NUM. lia.
  - intros j. rewrite EX2, EX1. unfold in_buffers, BUFFER_NUM. lia.
  - intros o _. destruct (Ev2 o) as [->|]; [|done]. destruct (Ev1 o) as [->|]; [|done]. by case_decide.
  - intros j _. destruct (Ef2 j) as [->|]; [|done]. by destruct (Ef1 j).
  - intros j _. destruct (Ex2 j) as [[-> ->]|]; [|done]. by destruct (Ex1 j).
  - intros c j. rewrite Ec2, Ec1. by repeat case_decide.
  - done.
  - congruence.
  - congruence.
  - done.
Qed.

Lemma init_ok :
  wp (data_warehouse_init setting 0) (λ r d, r = 0 ∧ ∃ P, wrep fsize [] P d m_init) (dw_zero []).
Proof. exact (init_seeded 0). Qed.

(** [data_warehouse_destroy] leaves no table. *)
Lemma wp_destroy l P d m s (pm : pkt_map) (Q : unit → data_warehouse_t VI VF FX → Prop) :
  wrep fsize l P d m → m_list m = PLive s → vpost s pm →
  (∀ d', heap (dw_vi d') = ∅ → heap (dw_vf d') = ∅ → heap (dw_fx d') = ∅ →
         flow_recePktList_map d' = PFreed → Q tt d') →
  wp data_warehouse_destroy Q d.
Proof.
  intros R El Hs HQ. pose proof R as R0. apply wrep_part in R.
  assert (in_buffers 0 ∧ in_buffers 1) as [Hi0 Hi1] by (unfold in_buffers, BUFFER_NUM; lia).
  assert (ht_vl_destory (PLive s) = Ok (tt, PFreed)) as Ed.
  { destruct Hs as (cells & pls & Rs & (Hh & _) & _).
    assert (wp vl_free_all (λ _ u, held (tarena (vtable u)) = ∅) s) as Hf.
    { eapply wp_vl_free_all; [exact Rs|]. intros u _ _ ->. done. }
    apply wp_run in Hf as ([] & u & Eu & Hu). unfold ht_vl_destory. rewrite Eu. by rewrite decide_True. }
  unfold data_warehouse_destroy, destroy_buffer. wp_step. unfold on_recePktList. wp_step.
  rewrite (wr_list _ _ _ _ _ R0), El. apply wp_run. exists tt, PFreed. split; [done|]. cbn beta.
  set (d1 := DataWarehouse _ _ _ _ _ _ _ _ _ _ _ _).
  assert (wpart vi_valid in_buffers in_buffers (λ _, False) (pt_vi P) [] l d1 (m_set_list PFreed m)) as R1
    by (destruct R; by split).
  clearbody d1. clear R R0. wp_steps.
  eapply wp_destory_vi; [exact R1|done|]. clear d1 R1. intros d1 R. wp_steps.
  do 2 (
    eapply wp_destory_vi; [exact R|done|]; clear d1 R; intros d1 R; wp_steps;
    eapply wp_destory_fx; [exact R|naive_solver lia|]; clear d1 R; intros d1 R; wp_steps;
    eapply wp_destory_vi; [exact R|done|]; clear d1 R; intros d1 R; wp_steps;
    eapply wp_destory_vf; [exact R|naive_solver lia|]; clear d1 R; intros d1 R; wp_steps;
    do 3 (eapply wp_destory_vi; [exact R|done|]; clear d1 R; intros d1 R; wp_steps)).
  assert (∀ i, in_buffers i → i = 0 ∨ i = 1) as Htwo by (unfold in_buffers, BUFFER_NUM; lia).
  apply HQ; [| | |apply R].
  - eapply owned_none; [apply R|]. intros [[] i|] Ho; [| | | | |naive_solver];
      destruct (Htwo i) as [-> | ->]; naive_solver.
  - eapply owned_none; [apply R|]. intros i Ho. destruct (Htwo i) as [-> | ->]; naive_solver.
  - eapply owned_none; [apply R|]. intros i Ho. destruct (Htwo i) as [-> | ->]; naive_solver.
Qed.

(** A reset whose first allocation fails: the old tables are gone, and only
    the pointer of the first one says so. *)
Definition with_mallocs (ml : list bool) d : data_warehouse_t VI VF FX :=
  DataWarehouse (dw_vi d) (dw_vf d) (dw_fx d) (flow_recePktList_map d) (vi_ptr d)
    (flow_loss_rate_map d) (fixed_flow_loss_volume_map d) (active_idx d) (counters d)
    (locked d) (g_rand_buffer d) ml.

Lemma wp_reset_no_memory P l d m (Q : Z → data_warehouse_t VI VF FX → Prop) :
  wrep fsize l P d m →
  (∀ d', vi_ptr d' = set_ptr (pt_vi P) (Buf flow_volume_map (other_idx (m_idx m))) None →
     (∀ f a, pt_vi P (Buf f (other_idx (m_idx m))) = Some a → heap (dw_vi d') !! a = None) →
     active_idx d' = m_idx m → locked d' = l → Q (-1) d') →
  wp (data_warehouse_reset_noactive_buf setting) Q (with_mallocs [false] d).
Proof.
  intros R HQ. pose proof (other_in_buffers (m_idx m)) as Hn.
  unfold data_warehouse_reset_noactive_buf. wp_steps. simpl active_idx.
  rewrite (wr_idx _ _ _ _ _ R). fold (other_idx (m_idx m)).
  apply wp_check_idx; [done|]. wp_steps.
  assert (wpart vi_valid in_buffers in_buffers (λ _, False) (pt_vi P) [false] l (with_mallocs [false] d) m) as R'
    by (destruct R; subst; by split).
  eapply wp_reset_destory; [exact R'|done|]. clear d R R'. intros V F X D d R _ _ _ HD.
  unfold reset_create. unfold create_vi at 1. wp_steps. eapply wp_take_malloc; [exact R|].
  clear d R. intros d R. simpl default. cbv zeta.
  rewrite (ft_create_null (K:=K) (V:=Z) (H:=VI)). wp_steps. rewrite decide_True by done. wp_steps.
  apply HQ; simpl.
  - by rewrite (pa_ptr _ _ _ _ _ _ _ _ _ R).
  - intros f a Ea. apply (pa_dead _ _ _ _ _ _ _ _ _ R). by eapply HD.
  - apply R.
  - apply R.
Qed.
End lifecycle.
