(* ===== verification/WarehouseIter.v ===== *)
(** * Iterating over the tables of the warehouse

    The threads that report and that send conditions walk through tables with
    [ht_*_next] while they read others.  [witer] is [wrep] with iterations in
    progress: for the tables under way it says which entries are still to come. *)
From S2P Require Import Prelude CMonad CFloat ChainedTable TableSpec FixSizeTable FixSizeSpec.
From S2P Require Import FixSizeIface Flow PktListTable PktListSpec ObjStore Settings Sample FlowTables.
From S2P Require Import Warehouse WarehouseSpec.

(** An update of a function at a point *)
Definition fupd {A B} `{EqDecision A} (a : A) (b : B) (f : A → B) : A → B :=
  λ a', if decide (a' = a) then b else f a'.
Lemma fupd_eq {A B} `{EqDecision A} (a : A) (b : B) f : fupd a b f a = b.
Proof. unfold fupd. by rewrite decide_True. Qed.
Lemma fupd_ne {A B} `{EqDecision A} (a a' : A) (b : B) f : a' ≠ a → fupd a b f a' = f a'.
Proof. intros Hne. unfold fupd. by rewrite decide_False. Qed.

Section witer.
Context {K VI VF FX : Type} `{KeyLaws K}.
Context `{!FlowTable K Z Z VI} `{!FlowTableLaws K Z Z VI} `{!IntTable K VI}.
Context `{!FlowTable K c_float c_float VF} `{!FlowTableLaws K c_float c_float VF}.
Context `{!FixedTable K FX} `{!FixedTableLaws K FX}.
(** The number of slots of the fixed-size tables, and what the coming allocations give *)
Context (fsize : Z) (ml : list bool).
Implicit Types (d : data_warehouse_t VI VF FX) (m : wmodel K) (k : K) (P : wptrs).

(** A table that holds a map, at rest ([None]) or with entries to come *)
Definition pends {V R T} `{!FlowTable K V R T} (mp : kmap K V) (p : option (list (K * V))) (h : T) : Prop :=
  match p with None => holds mp h | Some es => ft_view h mp es end.

Lemma pends_view {V R T} `{!FlowTable K V R T} `{!FlowTableLaws K V R T} (mp : kmap K V) p (h : T) :
  pends mp p h → ∃ es, ft_view h mp es.
Proof. destruct p as [es|]; [by exists es|]. intros (ps & ? & ?). by exists ps. Qed.

(** The iterations in progress, of the integer and of the float tables *)
Definition pending_vi : Type := vi_owner → option (list (K * Z)).
Definition pending_vf : Type := Z → option (list (K * c_float)).

Record witer (pv : pending_vi) (pf : pending_vf) (l : list wmutex) P d m : Prop := {
  wi_vi : owned vi_valid (vi_ptr d) (dw_vi d) (λ o, pends (m_vi m o) (pv o));
  wi_vf : owned in_buffers (flow_loss_rate_map d) (dw_vf d) (λ i, pends (m_vf m i) (pf i));
  wi_fx : owned in_buffers (fixed_flow_loss_volume_map d) (dw_fx d)
            (λ i h, fx_view h fsize (m_fx m i) (m_coll m i));
  wi_ptrs : P = WPtrs (vi_ptr d) (flow_loss_rate_map d) (fixed_flow_loss_volume_map d);
  wi_idx : active_idx d = m_idx m;
  wi_idx_ok : in_buffers (m_idx m);
  wi_cnt c i : counters d c i = m_cnt m c i;
  wi_rand : g_rand_buffer d = m_rand m;
  wi_list : flow_recePktList_map d = m_list m;
  wi_locked : locked d = l;
  wi_mallocs : dw_mallocs d = ml
}.

Definition no_vi : pending_vi := λ _, None.
Definition no_vf : pending_vf := λ _, None.

Lemma witer_ext pv pv' pf pf' l P d m :
  witer pv pf l P d m → (∀ o, pv o = pv' o) → (∀ i, pf i = pf' i) → witer pv' pf' l P d m.
Proof.
  intros R Ev Ef. destruct R. split; try done.
  - eapply owned_mono; [done|]. intros o h _. simpl. by rewrite Ev.
  - eapply owned_mono; [done|]. intros o h _. simpl. by rewrite Ef.
Qed.

(** *** The integer tables *)
Lemma wi_vi_get pv pf l P d m o k (Q : Z → data_warehouse_t VI VF FX → Prop) :
  witer pv pf l P d m → vi_valid o → Q (int_or_minus1 (m_vi m o k)) d →
  wp (call_vi (pt_vi P o) (ft_get k)) Q d.
Proof.
  intros R Ho HQ. rewrite (wi_ptrs _ _ _ _ _ _ R). simpl. apply wp_on_vi.
  eapply wp_on_obj_read; [apply R|done|]. intros h [es Hv]%pends_view.
  eapply ft_get_ok; [exact Hv|]. split; [done|]. rewrite int_table_ret. by destruct d.
Qed.

Lemma wi_vi_next pv pf l P d m o es (Q : option (K * Z) → data_warehouse_t VI VF FX → Prop) :
  witer pv pf l P d m → vi_valid o → pv o = Some es →
  match es with
  | [] => ∀ d', witer (fupd o None pv) pf l P d' m → Q None d'
  | e :: es => ∀ d', witer (fupd o (Some es) pv) pf l P d' m → Q (Some e) d'
  end →
  wp (call_vi (pt_vi P o) ft_next) Q d.
Proof.
  intros R Ho Hes HQ. rewrite (wi_ptrs _ _ _ _ _ _ R). simpl. apply wp_on_vi.
  eapply wp_on_obj; [apply R|done|]. intros h Hh. cbn beta in Hh; rewrite Hes in Hh.
  assert (∀ p h' r, pends (m_vi m o) p h' →
    (∀ d', witer (fupd o p pv) pf l P d' m → Q r d') →
    ∃ F', F' o h' ∧ (∀ o' x, o' ≠ o → vi_valid o' → pends (m_vi m o') (pv o') x → F' o' x) ∧
      (∀ m' : arena VI, owned vi_valid (vi_ptr d) m' F' → held m' = held (dw_vi d) → Q r (DataWarehouse m' (dw_vf d)
        (dw_fx d) (flow_recePktList_map d) (vi_ptr d) (flow_loss_rate_map d) (fixed_flow_loss_volume_map d)
        (active_idx d) (counters d) (locked d) (g_rand_buffer d) (dw_mallocs d)))) as Hpost.
  { intros p h' r Hh' HQr. exists (λ o', pends (m_vi m o') (fupd o p pv o')). split_and!.
    - by rewrite fupd_eq.
    - intros o' x Hne _. by rewrite fupd_ne.
    - intros a Ra _. apply HQr. destruct R. by split. }
  eapply ft_next_ok; [exact Hh|]. destruct es as [|e es].
  - intros h' ps' Hv' Hr'. apply (Hpost None); [|exact HQ]. exists ps'. auto.
  - intros h' Hv'. by apply (Hpost (Some es)).
Qed.

(** An iteration of a table at rest goes through all its entries. *)
Lemma wi_vi_start pv pf l P d m o :
  witer pv pf l P d m → vi_valid o → pv o = None →
  ∃ es, lists (m_vi m o) es ∧ witer (fupd o (Some es) pv) pf l P d m.
Proof.
  intros R Ho Hn. destruct (owned_live _ _ _ _ (wi_vi _ _ _ _ _ _ R) o Ho) as (a & h & Ep & Eh & Hh).
  cbn beta in Hh; rewrite Hn in Hh. destruct Hh as (es & Hv & Hr). exists es. split; [by eapply ft_rest_lists|].
  destruct R as [Rv Rf Rx Rp Ri Rio Rc Rr Rl Rk Rm]. split; try done.
  destruct Rv as [Hl Hi Ha Hb Hm]. split; try done. intros o' Ho'. unfold fupd. case_decide as E.
  - subst o'. exists a, h. done.
  - by apply Hl.
Qed.

Lemma wi_vi_set pv pf l P d m o k v (Q : unit → data_warehouse_t VI VF FX → Prop) :
  witer pv pf l P d m → vi_valid o → pv o = None →
  (∀ d', witer pv pf l P d' (m_set_vi o (kupd k (Some v)) m) → Q tt d') →
  wp (call_vi (pt_vi P o) (ft_set k v)) Q d.
Proof.
  intros R Ho Hn HQ. rewrite (wi_ptrs _ _ _ _ _ _ R). simpl. apply wp_on_vi.
  eapply wp_on_obj; [apply R|done|]. intros h Hh. cbn beta in Hh; rewrite Hn in Hh. destruct Hh as (ps & Hv & Hr).
  eapply ft_set_ok; [exact Hv|]. intros h' ps' Hv' Hr'.
  exists (λ o', pends (m_vi (m_set_vi o (kupd k (Some v)) m) o') (pv o')). simpl. split_and!.
  - rewrite decide_True, Hn by done. exists ps'. auto.
  - intros o' x Hne _ Hx. by rewrite decide_False.
  - intros a Ra _. apply HQ. destruct R. by split.
Qed.

Lemma wi_respects pv pf l P d m o :
  witer pv pf l P d m → vi_valid o → krespects (m_vi m o).
Proof.
  intros R Ho. destruct (owned_live _ _ _ _ (wi_vi _ _ _ _ _ _ R) o Ho) as (a & h & _ & _ & Hh).
  apply pends_view in Hh as [es Hv]. by eapply ft_view_respects.
Qed.

(** *** The float and the fixed-size tables *)
Lemma wi_vf_get pv pf l P d m i k (Q : c_float → data_warehouse_t VI VF FX → Prop) :
  witer pv pf l P d m → in_buffers i → Q (ft_ret (V:=c_float) (m_vf m i k)) d →
  wp (call_vf (pt_vf P i) (ft_get k)) Q d.
Proof.
  intros R Hi HQ. rewrite (wi_ptrs _ _ _ _ _ _ R). simpl. unfold call_vf, on_vf. apply wp_zoom.
  eapply wp_on_obj_read; [apply R|done|]. intros h [es Hv]%pends_view.
  eapply ft_get_ok; [exact Hv|]. split; [done|]. by destruct d.
Qed.

Lemma wi_vf_next pv pf l P d m i es (Q : option (K * c_float) → data_warehouse_t VI VF FX → Prop) :
  witer pv pf l P d m → in_buffers i → pf i = Some es →
  match es with
  | [] => ∀ d', witer pv (fupd i None pf) l P d' m → Q None d'
  | e :: es => ∀ d', witer pv (fupd i (Some es) pf) l P d' m → Q (Some e) d'
  end →
  wp (call_vf (pt_vf P i) ft_next) Q d.
Proof.
  intros R Ho Hes HQ. rewrite (wi_ptrs _ _ _ _ _ _ R). simpl. unfold call_vf, on_vf. apply wp_zoom.
  eapply wp_on_obj; [apply R|done|]. intros h Hh. cbn beta in Hh; rewrite Hes in Hh.
  assert (∀ p h' r, pends (m_vf m i) p h' →
    (∀ d', witer pv (fupd i p pf) l P d' m → Q r d') →
    ∃ F', F' i h' ∧ (∀ o' x, o' ≠ i → in_buffers o' → pends (m_vf m o') (pf o') x → F' o' x) ∧
      (∀ m' : arena VF, owned in_buffers (flow_loss_rate_map d) m' F' → held m' = held (dw_vf d) → Q r (DataWarehouse
        (dw_vi d) m' (dw_fx d) (flow_recePktList_map d) (vi_ptr d) (flow_loss_rate_map d)
        (fixed_flow_loss_volume_map d) (active_idx d) (counters d) (locked d) (g_rand_buffer d)
        (dw_mallocs d)))) as Hpost.
  { intros p h' r Hh' HQr. exists (λ o', pends (m_vf m o') (fupd i p pf o')). split_and!.
    - by rewrite fupd_eq.
    - intros o' x Hne _. by rewrite fupd_ne.
    - intros a Ra _. apply HQr. destruct R. by split. }
  eapply ft_next_ok; [exact Hh|]. destruct es as [|e es].
  - intros h' ps' Hv' Hr'. apply (Hpost None); [|exact HQ]. exists ps'. auto.
  - intros h' Hv'. by apply (Hpost (Some es)).
Qed.

Lemma wi_vf_start pv pf l P d m i :
  witer pv pf l P d m → in_buffers i → pf i = None →
  ∃ es, lists (m_vf m i) es ∧ witer pv (fupd i (Some es) pf) l P d m.
Proof.
  intros R Ho Hn. destruct (owned_live _ _ _ _ (wi_vf _ _ _ _ _ _ R) i Ho) as (a & h & Ep & Eh & Hh).
  cbn beta in Hh; rewrite Hn in Hh. destruct Hh as (es & Hv & Hr). exists es. split; [by eapply ft_rest_lists|].
  destruct R as [Rv Rf Rx Rp Ri Rio Rc Rr Rl Rk Rm]. split; try done.
  destruct Rf as [Hl Hi Ha Hb Hm]. split; try done. intros o' Ho'. unfold fupd. case_decide as E.
  - subst o'. exists a, h. done.
  - by apply Hl.
Qed.

Lemma wi_fx_get pv pf l P d m i k (Q : option (Z * Z) → data_warehouse_t VI VF FX → Prop) :
  witer pv pf l P d m → in_buffers i → Q (slots_get fsize k (m_fx m i)) d →
  wp (call_fx (pt_fx P i) (fx_get k)) Q d.
Proof.
  intros R Hi HQ. rewrite (wi_ptrs _ _ _ _ _ _ R). simpl. unfold call_fx, on_fx. apply wp_zoom.
  eapply wp_on_obj_read; [apply R|done|]. intros h Hv.
  eapply fx_get_ok; [exact Hv|]. split; [done|]. by destruct d.
Qed.

(** *** Locks, pointers and counters *)
Lemma wi_wlock pv pf l P d m x (Q : unit → data_warehouse_t VI VF FX → Prop) :
  witer pv pf l P d m → mutex_ok x → x ∉ l →
  (∀ d', witer pv pf (x :: l) P d' m → Q tt d') → wp (wlock x) Q d.
Proof.
  intros R Hx Hl HQ. unfold wp, wlock. rewrite decide_True by done. rewrite (wi_locked _ _ _ _ _ _ R).
  rewrite decide_False by done. apply HQ. destruct R. by split.
Qed.

Lemma wi_get_vi pv pf l P d m f (Q : option loc → data_warehouse_t VI VF FX → Prop) :
  witer pv pf l P d m → Q (pt_vi P (Buf f (m_idx m))) d → wp (data_warehouse_get f) Q d.
Proof.
  intros R HQ. unfold data_warehouse_get, read_vi. wp_steps. rewrite (wi_idx _ _ _ _ _ _ R).
  apply wp_check_idx; [apply R|]. wp_steps. by rewrite (wi_ptrs _ _ _ _ _ _ R) in HQ.
Qed.

Lemma wi_upd_counter pv pf l P d m c i f (Q : unit → data_warehouse_t VI VF FX → Prop) :
  witer pv pf l P d m → in_buffers i → (∀ d', witer pv pf l P d' (m_count c i f m) → Q tt d') →
  wp (upd_counter c i f) Q d.
Proof.
  intros R Hi HQ. unfold upd_counter. wp_steps. apply wp_check_idx; [done|]. wp_steps.
  apply HQ. destruct R. split; simpl; try done. intros c' i'. by rewrite !wi_cnt0.
Qed.
End witer.

Section witer_more.
Context {K VI VF FX : Type} `{KeyLaws K}.
Context `{!FlowTable K Z Z VI} `{!FlowTableLaws K Z Z VI} `{!IntTable K VI}.
Context `{!FlowTable K c_float c_float VF} `{!FlowTableLaws K c_float c_float VF}.
Context `{!FixedTable K FX} `{!FixedTableLaws K FX}.
Context (fsize : Z) (ml : list bool).
Implicit Types (d : data_warehouse_t VI VF FX) (m : wmodel K) (k : K) (P : wptrs).

(** Equal maps hold alike. *)
Lemma pends_proper {V R T} `{!FlowTable K V R T} `{!FlowTableLaws K V R T} (mp mp' : kmap K V) p (h : T) :
  mp ≡ mp' → pends mp p h → pends mp' p h.
Proof.
  intros E. destruct p as [es|]; simpl; [by apply ft_view_proper|].
  intros (ps & Hv & Hr). exists ps. split; [by eapply ft_view_proper|done].
Qed.

Lemma witer_set_equiv pv pf l P d m o f f' :
  f ≡ f' → witer fsize ml pv pf l P d (m_set_vi o (λ _, f) m) → witer fsize ml pv pf l P d (m_set_vi o (λ _, f') m).
Proof.
  intros E []. split; try done. eapply owned_mono; [done|]. intros o' h _. simpl.
  case_decide; [by apply pends_proper|done].
Qed.

(** Models that agree *)
Lemma witer_model pv pf l P d m m' :
  witer fsize ml pv pf l P d m → (∀ o, m_vi m o = m_vi m' o) → (∀ i, m_vf m i = m_vf m' i) →
  (∀ i, m_fx m i = m_fx m' i ∧ m_coll m i = m_coll m' i) → (∀ c i, m_cnt m c i = m_cnt m' c i) →
  m_idx m = m_idx m' → m_rand m = m_rand m' → m_list m = m_list m' → witer fsize ml pv pf l P d m'.
Proof.
  intros [] Ev Ef Ex Ec Ei Er El. split; try congruence.
  - eapply owned_mono; [done|]. intros o h _. simpl. by rewrite Ev.
  - eapply owned_mono; [done|]. intros o h _. simpl. by rewrite Ef.
  - eapply owned_mono; [done|]. intros o h _. simpl. by destruct (Ex o) as [-> ->].
Qed.

(** The end of the only iteration under way *)
Lemma witer_done o l P d m :
  witer fsize ml (fupd o None (fupd o (Some []) no_vi)) no_vf l P d m → witer fsize ml no_vi no_vf l P d m.
Proof. intros R. eapply witer_ext; [exact R| |done]. intros o'. unfold fupd, no_vi. by repeat case_decide. Qed.
Lemma witer_next o es es' l P d m :
  witer fsize ml (fupd o (Some es') (fupd o (Some es) no_vi)) no_vf l P d m →
  witer fsize ml (fupd o (Some es') no_vi) no_vf l P d m.
Proof. intros R. eapply witer_ext; [exact R| |done]. intros o'. unfold fupd, no_vi. by repeat case_decide. Qed.

(** An iteration through table [o]: the rule of a [while (next(...) == 0)] loop *)
Lemma wi_vi_step o es l P d m (Q : option (K * Z) → data_warehouse_t VI VF FX → Prop) :
  vi_valid o → witer fsize ml (fupd o (Some es) no_vi) no_vf l P d m →
  match es with
  | [] => ∀ d', witer fsize ml no_vi no_vf l P d' m → Q None d'
  | e :: es => ∀ d', witer fsize ml (fupd o (Some es) no_vi) no_vf l P d' m → Q (Some e) d'
  end →
  wp (call_vi (pt_vi P o) ft_next) Q d.
Proof.
  intros Ho R HQ. eapply wi_vi_next; [exact R|done|by rewrite fupd_eq|]. destruct es as [|e es].
  - intros d' R'. apply HQ. eapply witer_ext; [exact R'| |done].
    intros o'. unfold fupd, no_vi. by repeat case_decide.
  - intros d' R'. apply HQ. by eapply witer_next.
Qed.
Lemma wi_vi_begin o l P d m :
  witer fsize ml no_vi no_vf l P d m → vi_valid o →
  ∃ es, lists (m_vi m o) es ∧ witer fsize ml (fupd o (Some es) no_vi) no_vf l P d m.
Proof. intros R Ho. by eapply wi_vi_start. Qed.

(** No iteration under way, and memory *)
Lemma wrep_witer l P d m : wrep fsize l P d m ↔ witer fsize [] no_vi no_vf l P d m.
Proof. split; intros []; by split. Qed.
Lemma wrep_mallocs l P d m : wrep fsize l P d m → witer fsize ml no_vi no_vf l P (with_mallocs ml d) m.
Proof. intros []. by split. Qed.
End witer_more.
