(* ===== verification/WarehouseRecords.v ===== *)
(** * What the warehouse records

    The operations of the warehouse as a type, the model they compute, and what
    the tables of a buffer say of the updates since they were emptied: the
    volume sent and the loss reported for every flow, exactly; and the loss
    rate and the level, from that loss or, with the fixed-size loss map, from
    what the map's slot holds of it. *)
From S2P Require Import Prelude CMonad CFloat ChainedTable ChainSpec TableSpec FixSizeTable FixSizeSpec.
From S2P Require Import FixSizeIface Flow PktListTable PktListSpec ObjStore Settings Sample FlowTables.
From S2P Require Import Warehouse WarehouseSpec.

(** ** Sequences of operations *)
Section ops.
Context {K : Type} `{KeyLaws K}.

Inductive wop :=
| WNormal (k : K) (added : Z)
| WLoss (k : K) (added : Z)
| WNotSampled (k : K)
| WRotate
| WReset.

(** The operations of an interval *)
Definition is_update (o : wop) : bool :=
  match o with WNormal _ _ | WLoss _ _ | WNotSampled _ => true | _ => false end.

Section run.
Context {VI VF FX : Type} `{!FlowTable K Z Z VI}.
Context `{!FlowTable K c_float c_float VF} `{!FixedTable K FX}.
Context (setting : cm_experiment_setting_t).

(** The result of the reset is ignored, as the thread that rotates ignores it. *)
Definition do_wop (o : wop) : cmd (data_warehouse_t VI VF FX) unit :=
  match o with
  | WNormal k n => update_flow_normal_volume setting k n
  | WLoss k n => update_flow_loss_volume setting k n
  | WNotSampled k => update_flow_not_sampled_volume k
  | WRotate => data_ware_rotate_buffer
  | WReset => data_warehouse_reset_noactive_buf setting;; mret tt
  end.
Fixpoint do_wops (os : list wop) : cmd (data_warehouse_t VI VF FX) unit :=
  match os with [] => mret tt | o :: os => do_wop o;; do_wops os end.
End run.

Context (setting : cm_experiment_setting_t) (fsize : Z).
Definition spec_wop (o : wop) (m : wmodel K) : wmodel K :=
  match o with
  | WNormal k n => spec_normal setting fsize k n m
  | WLoss k n => spec_loss setting fsize k n m
  | WNotSampled k => spec_not_sampled k m
  | WRotate => spec_rotate m
  | WReset => spec_reset m
  end.
Definition spec_wops (os : list wop) (m : wmodel K) : wmodel K := foldl (λ m o, spec_wop o m) m os.

(** No operation overflows an [int]. *)
Definition wop_ok (o : wop) (m : wmodel K) : Prop :=
  match o with WNormal k n => normal_ok k n m | WLoss k n => loss_ok k n m | _ => True end.
Fixpoint wops_ok (os : list wop) (m : wmodel K) : Prop :=
  match os with [] => True | o :: os => wop_ok o m ∧ wops_ok os (spec_wop o m) end.

Lemma wops_ok_app os os' m : wops_ok os m → wops_ok os' (spec_wops os m) → wops_ok (os ++ os') m.
Proof. revert m. induction os as [|o os IH]; intros m; simpl; [done|]. intros [??] ?. auto. Qed.
Lemma spec_wops_app os os' m : spec_wops (os ++ os') m = spec_wops os' (spec_wops os m).
Proof. apply foldl_app. Qed.

(** An update changes at most the level of one flow, and not what was sent last. *)
Lemma update_levels o m :
  is_update o → let m' := spec_wop o m in
  m_idx m' = m_idx m ∧
  m_vi m' last_sent_flow_selected_level_map = m_vi m last_sent_flow_selected_level_map ∧
  (m_vi m' (Buf flow_selected_level_map (m_idx m)) = m_vi m (Buf flow_selected_level_map (m_idx m)) ∨
   ∃ k v, v ∈ [None; Some SELECTED_LEVEL; Some TARGET_LEVEL] ∧
     m_vi m' (Buf flow_selected_level_map (m_idx m)) = kupd k v (m_vi m (Buf flow_selected_level_map (m_idx m)))).
Proof.
  assert (∀ v l r, flow_level setting v l r ∈ [None; Some SELECTED_LEVEL; Some TARGET_LEVEL]) as Hlv.
  { intros v l r. unfold flow_level. repeat case_match; set_solver. }
  assert (∀ k v l r m m', m_idx m' = m_idx m →
    m_vi m' (Buf flow_selected_level_map (m_idx m)) = m_vi m (Buf flow_selected_level_map (m_idx m)) →
    ∃ k' v', v' ∈ [None; Some SELECTED_LEVEL; Some TARGET_LEVEL] ∧
      m_vi (spec_selected_level setting k v l r m') (Buf flow_selected_level_map (m_idx m))
      = kupd k' v' (m_vi m (Buf flow_selected_level_map (m_idx m)))) as Hsel.
  { intros k v l r m1 m2 Ei Ev. exists k, (flow_level setting v l r). split; [apply Hlv|].
    unfold spec_selected_level. simpl. by rewrite Ei, decide_True, Ev. }
  destruct o as [k n|k n|k| |]; simpl; intros Ho; try done.
  - unfold spec_normal. case_decide; [|auto]. split; [done|]. split; [done|]. right.
    by apply Hsel.
  - unfold spec_loss, spec_loss_body, spec_sample_loss. cbv zeta.
    repeat case_match; (split; [done|split; [done|]]); auto; right;
      by apply Hsel.
  - unfold spec_not_sampled. case_decide; auto.
Qed.

Lemma spec_wops_list os m : m_list (spec_wops os m) = m_list m.
Proof.
  unfold spec_wops. revert m. induction os as [|o os IH]; intros m; [done|]. cbn [foldl]. rewrite IH.
  destruct o as [k n|k n|k| |]; simpl; try done.
  - unfold spec_normal. by case_decide.
  - unfold spec_loss, spec_loss_body, spec_sample_loss. cbv zeta. by repeat case_match.
  - unfold spec_not_sampled. by case_decide.
Qed.
End ops.
Arguments wop K : clear implicits.

(** ** The tables of an interval

    What one interval reports: the volume sent for a flow, and the loss
    reported after the first volume *)
Section tallies.
Context {K : Type} `{KeyLaws K}.
Context (setting : cm_experiment_setting_t) (fsize : Z).
Implicit Types (k : K) (m : wmodel K).

Inductive update := Sent (k : K) (n : Z) | Lost (k : K) (n : Z).
Definition update_op (u : update) : wop K :=
  match u with Sent k n => WNormal k n | Lost k n => WLoss k n end.
Definition amount (u : update) : Z := match u with Sent _ n | Lost _ n => Z.max 0 n end.
Definition total (us : list update) : Z := foldr (λ u n, amount u + n) 0 us.

(** The volume and the loss of flow [k] after one more update *)
Definition tally_step k (t : Z * Z) (u : update) : Z * Z :=
  match u with
  | Sent k' n => if decide (key_compare k k' = 0 ∧ 0 < n) then (t.1 + n, t.2) else t
  | Lost k' n => if decide (key_compare k k' = 0 ∧ 0 < n ∧ 0 < t.1) then (t.1, t.2 + n) else t
  end.
Definition tally k (us : list update) : Z * Z := foldl (tally_step k) (0, 0) us.

Definition entry_of (n : Z) : option Z := if decide (0 < n) then Some n else None.

(** The loss that the slot of the fixed-size map holds for a flow, and the loss
    that the rate and the level of a flow that has lost [l] are computed from *)
Definition slot_loss (i : Z) k m : Z :=
  match slots_get fsize k (m_fx m i) with Some (v, _) => i32 v | None => 0 end.
Definition loss_seen (i l : Z) k m : Z := if is_fixed setting then slot_loss i k m else l.

(** Buffer [i] holds what the updates [us] tell: the volumes and the losses of
    the flows and what follows from them; a slot of the fixed-size map never
    holds more than its flow has lost. *)
Record records (i : Z) (us : list update) m : Prop := {
  rc_flow k : let '(v, l) := tally k us in let s := loss_seen i l k m in
    m_vi m (Buf flow_volume_map i) k = entry_of v ∧
    m_vi m (Buf flow_loss_volume_map i) k = entry_of l ∧
    m_vf m i k = (if decide (0 < v) then Some (int_ratio s v) else None) ∧
    m_vi m (Buf flow_selected_level_map i) k =
      (if decide (0 < v) then flow_level setting v s (int_ratio s v) else None);
  rc_slot b e : m_fx m i b = Some e → 0 <= evalue e <= (tally (ekey e) us).2;
  rc_coll : m_coll m i <= total us
}.

Lemma tally_bounds k us : let '(v, l) := tally k us in 0 <= v <= total us ∧ 0 <= l <= total us.
Proof.
  unfold tally, total. induction us as [|u us IH] using rev_ind; [simpl; lia|].
  rewrite foldl_app, foldr_app. simpl.
  assert (∀ n, foldr (λ u n, amount u + n) n us = foldr (λ u n, amount u + n) 0 us + n) as Hf.
  { clear. induction us as [|x us IH]; intros n; simpl; [lia|]. rewrite IH. lia. }
  rewrite Hf. destruct (foldl _ _ us) as [v l]. destruct u as [k' n|k' n]; simpl; case_decide; lia.
Qed.

Lemma tally_respects k k' us : key_compare k k' = 0 → tally k us = tally k' us.
Proof.
  intros E. unfold tally. generalize (0, 0). induction us as [|u us IH]; intros t; simpl; [done|].
  rewrite IH. f_equal. destruct u as [k2 n|k2 n]; simpl; by rewrite (compare_eq_l k k' k2 E).
Qed.

Lemma total_snoc us u : total (us ++ [u]) = total us + amount u.
Proof. induction us as [|x us IH]; simpl; [lia|]. rewrite IH. lia. Qed.

Lemma int_entry n :
  0 <= n < 2 ^ 31 → int_or_minus1 (entry_of n) = if decide (0 < n) then n else -1.
Proof. intros Hn. unfold entry_of. case_decide; [|done]. simpl. apply i32_of_u32_low. lia. Qed.
Lemma int_of_entry n : 0 <= n < 2 ^ 31 → no_less_than_0 (int_or_minus1 (entry_of n)) = n.
Proof. intros Hn. rewrite int_entry by done. unfold no_less_than_0. repeat case_decide; lia. Qed.

Lemma entry_of_pos n : 0 < n < 2 ^ 31 → Some (u32 n) = entry_of n.
Proof.
  intros Hn. unfold entry_of. rewrite decide_True by lia. f_equal. apply wrap_small.
  unfold in_u. simpl. lia.
Qed.

Lemma in_s32 n : 0 <= n < 2 ^ 31 → in_s 32 n.
Proof. intros. unfold in_s. simpl. lia. Qed.

Lemma tally_snoc k us u : tally k (us ++ [u]) = tally_step k (tally k us) u.
Proof. unfold tally. by rewrite foldl_app. Qed.
Lemma tally_grows k us u : (tally k us).2 <= (tally k (us ++ [u])).2.
Proof. rewrite tally_snoc. destruct (tally k us). destruct u; simpl; case_decide; simpl; lia. Qed.

(** *** The loss that is seen *)
Lemma loss_seen_exact i l k m :
  loss_map_mem_type (sender_setting setting) = INFINITE → loss_seen i l k m = l.
Proof. intros E. unfold loss_seen, is_fixed. by rewrite E. Qed.
Lemma slot_loss_respects i k k' m : key_compare k k' = 0 → slot_loss i k m = slot_loss i k' m.
Proof.
  intros E. unfold slot_loss, slots_get. rewrite (bin_eq k k' fsize E). unfold get_of.
  destruct (m_fx m i _) as [e|]; [|done]. by rewrite (compare_eq_l k k' (ekey e) E).
Qed.
Lemma slot_loss_bounds i us m k :
  records i us m → total us < 2 ^ 31 → 0 <= slot_loss i k m <= (tally k us).2.
Proof.
  intros R Hb. pose proof (tally_bounds k us) as Ht. unfold slot_loss, slots_get, get_of.
  destruct (m_fx m i _) as [e|] eqn:E; [|destruct (tally k us); simpl; lia]. apply (rc_slot _ _ _ R) in E.
  case_decide as Ek; [|destruct (tally k us); simpl; lia].
  rewrite <- (tally_respects k (ekey e) us Ek) in E. destruct (tally k us). cbn [snd] in *.
  rewrite i32_of_u32_low by lia. lia.
Qed.
Lemma loss_seen_bounds i us m k :
  records i us m → total us < 2 ^ 31 → 0 <= loss_seen i (tally k us).2 k m <= (tally k us).2.
Proof.
  intros R Hb. unfold loss_seen. destruct (is_fixed setting); [by apply slot_loss_bounds|].
  pose proof (tally_bounds k us) as Ht. destruct (tally k us). simpl. lia.
Qed.

Lemma normal_ok_of us m k n :
  records (m_idx m) us m → total (us ++ [Sent k n]) < 2 ^ 31 → normal_ok k n m.
Proof.
  intros [R _ _] Hb Hn. rewrite total_snoc in Hb. simpl in Hb. unfold m_get. specialize (R k).
  pose proof (tally_bounds k us) as Ht. destruct (tally k us) as [v l]. destruct R as (-> & _).
  rewrite int_of_entry by lia. apply in_s32. lia.
Qed.
Lemma loss_ok_of us m k n :
  records (m_idx m) us m → total (us ++ [Lost k n]) < 2 ^ 31 → loss_ok k n m.
Proof.
  intros [R _ Hc] Hb Hn _. rewrite total_snoc in Hb. simpl in Hb. unfold m_get. specialize (R k).
  pose proof (tally_bounds k us) as Ht. destruct (tally k us) as [v l]. destruct R as (_ & -> & _).
  rewrite int_of_entry by lia. split; [apply in_s32; lia|lia].
Qed.

(** *** A volume *)
Lemma records_sent us m k n :
  records (m_idx m) us m → total (us ++ [Sent k n]) < 2 ^ 31 →
  records (m_idx m) (us ++ [Sent k n]) (spec_normal setting fsize k n m).
Proof.
  intros [R Rs Rc] Hb. rewrite total_snoc in Hb. simpl in Hb. unfold spec_normal.
  assert (∀ b e, m_fx m (m_idx m) b = Some e → 0 <= evalue e <= (tally (ekey e) (us ++ [Sent k n])).2) as Rs'.
  { intros b e E. pose proof (tally_grows (ekey e) us (Sent k n)). specialize (Rs b e E). lia. }
  assert (m_coll m (m_idx m) <= total (us ++ [Sent k n])) as Rc' by (rewrite total_snoc; simpl; lia).
  destruct (decide (n > 0)) as [Hn|Hn].
  2:{ split; [|done..]. intros k'. rewrite tally_snoc. simpl. rewrite decide_False by lia.
    specialize (R k'). by destruct (tally k' us). }
  split; [|done..]. intros k'. rewrite tally_snoc. simpl.
  pose proof (R k) as Rk. pose proof (tally_bounds k us) as Ht.
  unfold spec_classify, spec_selected_level, m_loss, m_get. simpl.
  pose proof (tally_respects k' k us) as Hresp.
  destruct (tally k us) as [v l] eqn:Et. destruct Rk as (Ev & El & _ & _). simpl.
  rewrite Ev, El, !int_of_entry by lia.
  specialize (R k'). destruct (tally k' us) as [v' l'] eqn:Et'. cbn [fst snd].
  destruct (decide (key_compare k' k = 0 ∧ 0 < n)) as [[E _]|E].
  - injection (Hresp E) as -> ->. unfold loss_seen, kupd in *. cbn [m_vi m_vf m_set_vi m_set_vf].
    rewrite (slot_loss_respects _ k' k _ E). repeat (rewrite (decide_True (P := 0 < v + n)) by lia).
    repeat (rewrite decide_True by done). change (m_fixed_loss fsize k m) with (slot_loss (m_idx m) k m) in *.
    destruct R as (_ & R2 & _). repeat case_decide; simplify_eq; split_and!; try done; by rewrite entry_of_pos by lia.
  - assert (key_compare k' k ≠ 0) as Ene by (intros ?; apply E; split; [done|lia]).
    unfold kupd, loss_seen, slot_loss in *. cbn [m_vi m_vf m_fx m_set_vi m_set_vf].
    repeat (rewrite (decide_False (P := key_compare k' k = 0)) by done).
    destruct R as (R1 & R2 & R3 & R4).
    repeat case_decide; simplify_eq; done.
Qed.

(** *** A loss *)
(** What [add_value] does to the slots *)
Lemma slots_add_other k k' n o :
  key_compare k' k ≠ 0 → slots_get fsize k' (slots_add fsize k n o) = slots_get fsize k' o.
Proof.
  intros Hne. unfold slots_get, slots_add. case_decide as E; [|done]. rewrite E. unfold act_add, get_of.
  destruct (o (key_bin k fsize)) as [e|]; cbn [act_slot alloc ekey]; [|by rewrite decide_False].
  case_decide as Ee; [|done]. cbn [act_slot ekey].
  rewrite (compare_anti k (ekey e)) in Ee. rewrite !decide_False; [done|..];
    rewrite (compare_eq_r k' (ekey e) k) by lia; done.
Qed.
Lemma slots_add_bounds k n o (T T' : K → Z) :
  (∀ b e, o b = Some e → 0 <= evalue e <= T (ekey e)) → (∀ k', T k' <= T' k') →
  (∀ k', key_compare k k' = 0 → 0 <= T k' ∧ T k' + n <= T' k' < 2 ^ 31) → 0 <= n →
  ∀ b e, slots_add fsize k n o b = Some e → 0 <= evalue e <= T' (ekey e).
Proof.
  intros Ho HT Hk Hn b e. unfold slots_add. case_decide as Eb; [|intros E; specialize (Ho b e E); specialize (HT (ekey e)); lia].
  unfold act_add. destruct (o b) as [e'|] eqn:E; cbn [act_slot alloc].
  - specialize (Ho b e' E). case_decide as Ek; cbn [act_slot]; intros [= <-]; cbn [evalue ekey].
    + specialize (Hk _ Ek). rewrite (wrap_small 32) by (unfold in_u; lia). lia.
    + specialize (HT (ekey e')). lia.
  - intros [= <-]. cbn [evalue ekey]. specialize (Hk k (compare_refl k)). lia.
Qed.

(** What a sampled loss does to the fixed-size map *)
Lemma sample_loss_effect k loss n m :
  let m' := spec_sample_loss setting fsize k loss n m in
  m_vi m' = m_vi m ∧ m_vf m' = m_vf m ∧ m_idx m' = m_idx m ∧ m_list m' = m_list m ∧
  (∀ j, j ≠ m_idx m → m_fx m' j = m_fx m j ∧ m_coll m' j = m_coll m j) ∧ m_coll m' (m_idx m) <= m_coll m (m_idx m) + 1 ∧
  (m_fx m' (m_idx m) = m_fx m (m_idx m) ∨ m_fx m' (m_idx m) = slots_add fsize k (u32 n) (m_fx m (m_idx m))).
Proof.
  unfold spec_sample_loss. destruct (drand48_r (m_rand m)) as [r x].
  repeat case_match; cbn [m_vi m_vf m_idx m_list m_fx m_coll m_set_fx m_set_rand]; split_and!; try done; try lia;
    intros; rewrite ?decide_False by done; rewrite ?decide_True by done; auto; lia.
Qed.

Lemma tally_lost_some k k' n us :
  0 < n → tally k' (us ++ [Lost k n])
  = let '(v, l) := tally k' us in (v, if decide (key_compare k' k = 0 ∧ 0 < v) then l + n else l).
Proof.
  intros Hn. rewrite tally_snoc. destruct (tally k' us) as [v l]. simpl. repeat case_decide; naive_solver.
Qed.

Lemma records_lost_some us m k n :
  records (m_idx m) us m → 0 < n → total us + n < 2 ^ 31 → 0 < (tally k us).1 →
  records (m_idx m) (us ++ [Lost k n]) (spec_loss_body setting fsize k n m).
Proof.
  intros [R Rs Rc] Hn Hb Hv. unfold spec_loss_body, m_get.
  pose proof (R k) as Rk. pose proof (tally_bounds k us) as Ht. pose proof (tally_respects k) as Hresp.
  destruct (tally k us) as [v l] eqn:Et. destruct Rk as (Ev & El & _ & _). cbn [fst] in Hv.
  rewrite Ev, El, int_of_entry, int_entry by lia. rewrite (decide_True (P := 0 < v)) by done.
  rewrite (decide_False (P := v < 0)) by lia. cbn zeta.
  set (m2 := m_set_vi _ _ m). set (m3 := if is_fixed setting then _ else m2).
  set (seen := if is_fixed setting then _ else l + n).
  assert (m_vi m3 = m_vi m2 ∧ m_vf m3 = m_vf m ∧ m_idx m3 = m_idx m ∧ m_coll m3 (m_idx m) <= m_coll m (m_idx m) + 1 ∧
    (m_fx m3 (m_idx m) = m_fx m (m_idx m) ∨ m_fx m3 (m_idx m) = slots_add fsize k n (m_fx m (m_idx m))))
    as (E1 & E2 & E3 & E4 & E5).
  { unfold m3. destruct (is_fixed setting); [|split_and!; try done; [simpl; lia|by left]].
    destruct (sample_loss_effect k (l + n) n m2) as (? & ? & ? & _ & _ & ? & Hfx).
    rewrite (wrap_small 32 n) in Hfx by (unfold in_u; lia). split_and!; done. }
  assert (∀ k', tally k' (us ++ [Lost k n]) = if decide (key_compare k' k = 0) then (v, l + n) else tally k' us) as Etl.
  { intros k'. rewrite tally_lost_some by done. case_decide as E.
    - rewrite <- (Hresp k' us) by (by apply compare_eq_sym). rewrite Et, decide_True by done. done.
    - destruct (tally k' us). by rewrite decide_False by tauto. }
  assert (seen = loss_seen (m_idx m) (l + n) k m3) as Eseen
    by (unfold seen, loss_seen, m_fixed_loss, slot_loss; by rewrite E3). clearbody m3 seen.
  unfold spec_selected_level. cbn [m_vi m_vf m_fx m_coll m_idx m_set_vi m_set_vf].
  split; cbn [m_vi m_vf m_fx m_coll m_idx m_set_vi m_set_vf].
  - intros k'. rewrite Etl, E1, E2, E3. specialize (R k'). unfold m2. cbn [m_vi m_set_vi]. unfold kupd.
    destruct (decide (key_compare k' k = 0)) as [E|E].
    + rewrite <- (Hresp k' us) in R by (by apply compare_eq_sym). rewrite Et in R.
      assert (loss_seen (m_idx m) (l + n) k' (m_set_vi (Buf flow_selected_level_map (m_idx m3))
        (kupd k (flow_level setting v seen (int_ratio seen v))) (m_set_vf (m_idx m3) (kupd k (Some (int_ratio seen v))) m3)) = seen) as Es.
      { rewrite Eseen. unfold loss_seen. destruct (is_fixed setting); [|done].
        exact (slot_loss_respects (m_idx m) k' k m3 E). }
      unfold kupd in Es. rewrite E3 in Es. cbv zeta. rewrite Es.
      destruct R as (R1 & _). repeat case_decide; simplify_eq; split_and!; try done; by rewrite entry_of_pos by lia.
    + destruct (tally k' us) as [v' l']. cbv zeta in R |- *.
      assert (∀ f g, loss_seen (m_idx m) l' k' (m_set_vi (Buf flow_selected_level_map (m_idx m)) f (m_set_vf (m_idx m) g m3))
        = loss_seen (m_idx m) l' k' m) as Es.
      { intros f g. unfold loss_seen, slot_loss. cbn [m_fx m_set_vi m_set_vf].
        destruct E5 as [-> | ->]; [done|]. by rewrite slots_add_other. }
      rewrite Es. destruct R as (R1 & R2 & R3 & R4). repeat case_decide; simplify_eq; done.
  - intros b e. destruct E5 as [-> | ->].
    + intros He. pose proof (tally_grows (ekey e) us (Lost k n)). specialize (Rs b e He). lia.
    + apply (slots_add_bounds _ _ _ (λ k', (tally k' us).2) (λ k', (tally k' (us ++ [Lost k n])).2)); [done| | |lia].
      * intros k'. apply tally_grows.
      * intros k' E. rewrite Etl, decide_True by (by apply compare_eq_sym).
        rewrite <- (Hresp k' us) by done. rewrite Et. simpl. lia.
  - rewrite total_snoc. simpl. lia.
Qed.

Lemma records_lost us m k n :
  records (m_idx m) us m → total (us ++ [Lost k n]) < 2 ^ 31 →
  records (m_idx m) (us ++ [Lost k n]) (spec_loss setting fsize k n m).
Proof.
  intros R Hb. rewrite total_snoc in Hb. simpl in Hb. unfold spec_loss. cbv zeta.
  set (m1 := m_count volume_lost (m_idx m) (λ x, x + n) m). assert (records (m_idx m1) us m1) as R1 by (by destruct R).
  change (m_idx m) with (m_idx m1). clearbody m1. clear m R.
  assert (0 < n → (tally k us).1 <= 0 → records (m_idx m1) (us ++ [Lost k n]) m1 ∧ spec_loss_body setting fsize k n m1 = m1) as Hnone.
  { intros Hn Hv. pose proof (tally_bounds k us). destruct (R1) as [R Rs Rc]. split; [split|].
    - intros k'. rewrite tally_lost_some by done. specialize (R k').
      pose proof (tally_respects k' k us) as Hresp. destruct (tally k' us) as [v l].
      rewrite decide_False; [exact R|]. intros [E Hv']. rewrite <- (Hresp E) in Hv. simpl in Hv. lia.
    - intros b e He. pose proof (tally_grows (ekey e) us (Lost k n)). specialize (Rs b e He). lia.
    - rewrite total_snoc. simpl. lia.
    - unfold spec_loss_body, m_get. specialize (R k). destruct (tally k us) as [v l]. cbn [fst] in *.
      destruct R as (-> & _). rewrite int_entry by lia. rewrite (decide_False (P := 0 < v)) by lia. by rewrite decide_True by done. }
  destruct (decide (n > 0)) as [Hn|Hn].
  - destruct (decide (0 < (tally k us).1)); [apply records_lost_some; [done|lia..|done]|].
    destruct Hnone as [Hr ->]; [lia|lia|done].
  - destruct R1 as [R Rs Rc].
    assert (∀ k', tally k' (us ++ [Lost k n]) = tally k' us) as E
      by (intros k'; rewrite tally_snoc; destruct (tally k' us); simpl; by rewrite decide_False by lia).
    split; [intros k'; rewrite E; apply R|intros b e He; rewrite E; by apply (Rs b)|].
    rewrite total_snoc. simpl. lia.
Qed.
End tallies.
Arguments update K : clear implicits.

(** ** Intervals *)
Section intervals.
Context {K : Type} `{KeyLaws K}.
Context (setting : cm_experiment_setting_t) (fsize : Z).
Implicit Types (k : K) (m : wmodel K) (us : list (update K)).
Local Abbreviation records := (records setting fsize).

(** Buffer [j] is the same in both models. *)
Record same_buffer (j : Z) m m' : Prop := {
  sb_vi f : m_vi m' (Buf f j) = m_vi m (Buf f j);
  sb_vf : m_vf m' j = m_vf m j;
  sb_fx : m_fx m' j = m_fx m j;
  sb_coll : m_coll m' j = m_coll m j
}.
Lemma same_buffer_trans j m m' m'' : same_buffer j m m' → same_buffer j m' m'' → same_buffer j m m''.
Proof. intros [E1 E2 E3 E4] [F1 F2 F3 F4]. split; [intros f; by rewrite F1|by rewrite F2|by rewrite F3|by rewrite F4]. Qed.

Lemma records_same i us m m' : same_buffer i m m' → records i us m → records i us m'.
Proof.
  intros [Ev Ef Ex Ec] [R Rs Rc]. split; [|rewrite Ex; exact Rs|rewrite Ec; exact Rc]. intros k. specialize (R k).
  destruct (tally k us) as [v l]. unfold loss_seen, slot_loss in *. by rewrite !Ev, Ef, Ex.
Qed.
Lemma records_set_idx i us j m : records i us m → records i us (m_set_idx j m).
Proof. by apply records_same. Qed.
Lemma records_set_list i us p m : records i us m → records i us (m_set_list p m).
Proof. by apply records_same. Qed.
Lemma records_nothing i m :
  (∀ f, m_vi m (Buf f i) = kempty) → m_vf m i = kempty → m_fx m i = (λ _, None) → m_coll m i = 0 → records i [] m.
Proof.
  intros Ev Ef Ex Ec. split; [|by rewrite Ex|rewrite Ec; done]. intros k. simpl. by rewrite !Ev, Ef.
Qed.

Definition spec_update (u : update K) m : wmodel K := spec_wop setting fsize (update_op u) m.

(** An update stays in its buffer. *)
Lemma same_buffer_classified j k v l r m : j ≠ m_idx m →
  same_buffer j m (spec_selected_level setting k v l r (m_set_vf (m_idx m) (kupd k (Some r)) m)).
Proof.
  intros Hj. unfold spec_selected_level. split; [intros f|..]; cbn [m_vi m_vf m_fx m_coll m_idx m_set_vi m_set_vf]; try done;
    by rewrite decide_False by congruence.
Qed.
Lemma same_buffer_set_vi j f mp m : j ≠ m_idx m → same_buffer j m (m_set_vi (Buf f (m_idx m)) mp m).
Proof. intros Hj. split; try done. intros f'. cbn [m_vi m_set_vi]. by rewrite decide_False by congruence. Qed.

Lemma spec_update_frame u m :
  m_idx (spec_update u m) = m_idx m ∧ ∀ j, j ≠ m_idx m → same_buffer j m (spec_update u m).
Proof.
  unfold spec_update. destruct u as [k n|k n]; cbn [update_op spec_wop].
  - unfold spec_normal, spec_classify. case_decide; [|by split]. cbv zeta. split; [done|]. intros j Hj.
    eapply same_buffer_trans; [by apply same_buffer_set_vi|]. by apply same_buffer_classified.
  - unfold spec_loss, spec_loss_body. cbv zeta. set (m1 := m_count _ _ _ m).
    case_decide; [|by split]. case_decide; [by split|]. set (m2 := m_set_vi _ _ m1). set (loss := _ + n).
    assert (∀ j, j ≠ m_idx m → same_buffer j m m2) as Hs2
      by (intros j Hj; eapply (same_buffer_trans _ _ m1); [by split|by apply same_buffer_set_vi]).
    destruct (sample_loss_effect setting fsize k loss n m2) as (E1 & E2 & E3 & _ & E5 & _).
    set (m3 := if is_fixed setting then _ else m2).
    assert (m_idx m3 = m_idx m ∧ ∀ j, j ≠ m_idx m → same_buffer j m m3) as [Ei Hs3].
    { unfold m3. destruct (is_fixed setting); [|by split]. split; [by rewrite E3|]. intros j Hj.
      eapply same_buffer_trans; [by apply Hs2|]. destruct (E5 j Hj). by split; [intros f; rewrite E1|rewrite E2|..]. }
    clearbody m3. split; [done|]. intros j Hj. eapply same_buffer_trans; [by apply Hs3|].
    apply same_buffer_classified. by rewrite Ei.
Qed.

Lemma records_update us u m :
  records (m_idx m) us m → total (us ++ [u]) < 2 ^ 31 →
  wop_ok (update_op u) m ∧ records (m_idx m) (us ++ [u]) (spec_update u m).
Proof.
  intros R Hb. destruct u as [k n|k n].
  - split; [by eapply normal_ok_of|by apply records_sent].
  - split; [by eapply loss_ok_of|by apply records_lost].
Qed.

Lemma spec_updates us0 us m :
  records (m_idx m) us0 m → total (us0 ++ us) < 2 ^ 31 →
  wops_ok setting fsize (map update_op us) m ∧
  let m' := spec_wops setting fsize (map update_op us) m in
  records (m_idx m) (us0 ++ us) m' ∧ m_idx m' = m_idx m ∧ ∀ j, j ≠ m_idx m → same_buffer j m m'.
Proof.
  revert us0 m. induction us as [|u us IH]; intros us0 m R Hb; simpl.
  { rewrite app_nil_r. done. }
  replace (us0 ++ u :: us) with ((us0 ++ [u]) ++ us) in Hb |- * by (by rewrite <- app_assoc).
  assert (total (us0 ++ [u]) < 2 ^ 31) as Hb1.
  { assert (∀ l l', total (K:=K) l <= total (l ++ l')) as Hle; [|by eapply Z.le_lt_trans; [apply Hle|]].
    clear. induction l as [|x l IH]; intros l'; simpl; [|specialize (IH l'); lia].
    induction l' as [|x l' IH]; simpl; [lia|]. destruct x; simpl; lia. }
  destruct (spec_update_frame u m) as (Ei & Hs). destruct (records_update us0 u m R Hb1) as [Hok R'].
  destruct (IH (us0 ++ [u]) (spec_update u m)) as (Hok' & R'' & Ei' & Hs'); [by rewrite Ei|done|].
  rewrite Ei in R'', Ei', Hs'. split_and!; try done.
  intros j Hj. eapply same_buffer_trans; [by apply Hs|by apply Hs'].
Qed.

(** An interval: its updates, the rotation and the reset *)
Definition interval_ops us : list (wop K) := map update_op us ++ [WRotate; WReset].

Lemma other_other i : in_buffers i → other_idx (other_idx i) = i.
Proof.
  unfold in_buffers, BUFFER_NUM. intros Hi. assert (i = 0 ∨ i = 1) as [-> | ->] by lia; reflexivity.
Qed.
Lemma other_ne i : in_buffers i → other_idx i ≠ i.
Proof.
  unfold in_buffers, BUFFER_NUM. intros Hi. assert (i = 0 ∨ i = 1) as [-> | ->] by lia; done.
Qed.

(** Both buffers are empty. *)
Definition fresh m : Prop :=
  in_buffers (m_idx m) ∧ records (m_idx m) [] m ∧ records (other_idx (m_idx m)) [] m.

Lemma fresh_init : fresh (m_init (K:=K)).
Proof. split; [done|]. split; by apply records_nothing. Qed.
Lemma records_reset m : records (other_idx (m_idx m)) [] (spec_reset m).
Proof. apply records_nothing; [intros f|..]; simpl; by rewrite decide_True. Qed.

(** The updates of an interval, from an empty warehouse *)
Lemma interval_updates us m :
  fresh m → total us < 2 ^ 31 →
  let m' := spec_wops setting fsize (map update_op us) m in
  wops_ok setting fsize (map update_op us) m ∧ m_idx m' = m_idx m ∧
  records (m_idx m) us m' ∧ records (other_idx (m_idx m)) [] m'.
Proof.
  intros (Hi & R & R') Hb. destruct (spec_updates [] us m R Hb) as (Hok & R1 & Ei & Hs).
  split_and!; [done|done|done|]. eapply records_same; [apply Hs, other_ne, Hi|done].
Qed.

(** A rotation leaves both buffers empty if the other one was. *)
Lemma fresh_rotated m :
  in_buffers (m_idx m) → records (other_idx (m_idx m)) [] m → fresh (spec_reset (spec_rotate m)).
Proof.
  intros Hi R. unfold fresh. change (m_idx (spec_reset (spec_rotate m))) with (other_idx (m_idx m)). split_and!.
  - apply other_in_buffers.
  - eapply (records_same _ _ m); [|exact R]. pose proof (other_ne (m_idx m) Hi).
    split; [intros f|..]; simpl; rewrite other_other by done; by rewrite decide_False.
  - exact (records_reset (spec_rotate m)).
Qed.

Lemma interval_fresh us m :
  fresh m → total us < 2 ^ 31 →
  wops_ok setting fsize (interval_ops us) m ∧ fresh (spec_wops setting fsize (interval_ops us) m).
Proof.
  intros Hf Hb. pose proof Hf as (Hi & _). destruct (interval_updates us m Hf Hb) as (Hok & Ei & R & R').
  unfold interval_ops. rewrite spec_wops_app. split; [by apply wops_ok_app|].
  apply fresh_rotated; rewrite ?Ei; done.
Qed.

Lemma past_fresh (past : list (list (update K))) m :
  fresh m → (∀ us, us ∈ past → total us < 2 ^ 31) →
  wops_ok setting fsize (past ≫= interval_ops) m ∧ fresh (spec_wops setting fsize (past ≫= interval_ops) m).
Proof.
  revert m. induction past as [|us past IH]; intros m Hf Hb; [done|]. simpl.
  destruct (interval_fresh us m Hf) as [Hok Hf']; [apply Hb; set_solver|].
  destruct (IH _ Hf') as [Hok' Hf'']; [intros; apply Hb; set_solver|].
  rewrite spec_wops_app. split; [by apply wops_ok_app|done].
Qed.
End intervals.

