(* ===== verification/Bytes.v ===== *)
(** * Byte buffers

    A packet in memory is a list of bytes.  Multi-byte fields are read and
    written in the byte order of the host, which is little-endian; [ntohs] and
    [ntohl] reverse the bytes. *)
From S2P Require Import Prelude CMonad.

Definition byte (x : Z) : Prop := in_u 8 x.

Definition read8 (i : Z) : cmd (list Z) Z := λ b,
  match (if decide (0 <= i) then b !! Z.to_nat i else None) with
  | Some x => Ok (x, b)
  | None => Fault OutOfBounds
  end.
Definition write8 (i x : Z) : cmd (list Z) unit := λ b,
  if decide (0 <= i < Z.of_nat (length b)) then Ok (tt, <[Z.to_nat i := u8 x]> b)
  else Fault OutOfBounds.

(** A [uint16_t] and a [uint32_t] at an offset *)
Definition read16 (i : Z) : cmd (list Z) Z :=
  lo ← read8 i; hi ← read8 (i + 1); mret (lo + Z.shiftl hi 8).
Definition write16 (i x : Z) : cmd (list Z) unit :=
  write8 i x;; write8 (i + 1) (Z.shiftr x 8).
Definition read32 (i : Z) : cmd (list Z) Z :=
  lo ← read16 i; hi ← read16 (i + 2); mret (lo + Z.shiftl hi 16).
Definition write32 (i x : Z) : cmd (list Z) unit :=
  write16 i x;; write16 (i + 2) (Z.shiftr x 16).

(** [ntohs], [htons], [ntohl] and [htonl] on a little-endian host *)
Definition ntohs (x : Z) : Z := Z.lor (Z.shiftl (Z.land x 255) 8) (Z.shiftr x 8).
Definition ntohl (x : Z) : Z :=
  Z.lor (Z.shiftl (ntohs (Z.land x 65535)) 16) (ntohs (Z.shiftr x 16)).

(** [1 << n] and [x << n] on an [int] *)
Definition shl_int {S} (x n : Z) : cmd S Z :=
  if decide (0 <= x ∧ 0 <= n < 32 ∧ Z.shiftl x n < 2 ^ 31) then mret (Z.shiftl x n)
  else throw SignedOverflow.

Definition bytes_of (b : list Z) : Prop := Forall byte b.
#[export] Instance bytes_of_dec b : Decision (bytes_of b).
Proof. unfold bytes_of, byte. apply _. Defined.

(** A packet of a trace file: the captured and the real length, and the captured
    bytes; the time stamp is left out *)
Record pcap_pkt := PcapPkt { ph_caplen : Z; ph_len : Z; ph_data : list Z }.

(** ** Rules *)
Lemma wp_read8 i x b (Q : Z → list Z → Prop) :
  0 <= i → b !! Z.to_nat i = Some x → Q x b → wp (read8 i) Q b.
Proof. intros Hi Hx HQ. unfold wp, read8. rewrite decide_True by done. by rewrite Hx. Qed.

Lemma wp_write8 i x b (Q : unit → list Z → Prop) :
  0 <= i < Z.of_nat (length b) → Q tt (<[Z.to_nat i := u8 x]> b) → wp (write8 i x) Q b.
Proof. intros Hi HQ. unfold wp, write8. by rewrite decide_True. Qed.

(** The 16-bit field at an offset *)
Definition field16 (i : Z) (b : list Z) : Z :=
  default 0 (b !! Z.to_nat i) + Z.shiftl (default 0 (b !! Z.to_nat (i + 1))) 8.
Definition set_field16 (i x : Z) (b : list Z) : list Z :=
  <[Z.to_nat (i + 1) := u8 (Z.shiftr x 8)]> (<[Z.to_nat i := u8 x]> b).

Lemma wp_read16 i b (Q : Z → list Z → Prop) :
  0 <= i → i + 1 < Z.of_nat (length b) → Q (field16 i b) b → wp (read16 i) Q b.
Proof.
  intros Hi Hl HQ. destruct (lookup_lt_is_Some_2 b (Z.to_nat i)) as [lo Elo]; [lia|].
  destruct (lookup_lt_is_Some_2 b (Z.to_nat (i + 1))) as [hi Ehi]; [lia|].
  unfold read16. wp_steps. eapply wp_read8; [done|exact Elo|]. wp_steps.
  eapply wp_read8; [lia|exact Ehi|]. wp_steps. unfold field16 in HQ. by rewrite Elo, Ehi in HQ.
Qed.

Lemma wp_write16 i x b (Q : unit → list Z → Prop) :
  0 <= i → i + 1 < Z.of_nat (length b) → Q tt (set_field16 i x b) → wp (write16 i x) Q b.
Proof.
  intros Hi Hl HQ. unfold write16. wp_steps. apply wp_write8; [lia|]. wp_steps.
  apply wp_write8; [rewrite length_insert; lia|]. exact HQ.
Qed.

Lemma length_set_field16 i x b : length (set_field16 i x b) = length b.
Proof. unfold set_field16. by rewrite !length_insert. Qed.

Lemma field16_set i x b :
  0 <= i → i + 1 < Z.of_nat (length b) → in_u 16 x → field16 i (set_field16 i x b) = x.
Proof.
  intros Hi Hl [Hx1 Hx2]. unfold field16, set_field16.
  rewrite list_lookup_insert_ne by lia. rewrite list_lookup_insert_eq by lia.
  rewrite list_lookup_insert_eq by (rewrite length_insert; lia). simpl.
  rewrite Z.shiftr_div_pow2, Z.shiftl_mul_pow2 by lia. unfold wrap.
  change (2 ^ 8) with 256. change (2 ^ 16) with 65536 in Hx2.
  rewrite (Z.mod_small (x / 256)) by (split; [apply Z.div_pos; lia|apply Z.div_lt_upper_bound; lia]).
  pose proof (Z.div_mod x 256 ltac:(lia)). lia.
Qed.

(** Writing a field leaves the others alone. *)
Lemma field16_set_ne i j x b :
  0 <= i → 0 <= j → i + 1 < j ∨ j + 1 < i → field16 j (set_field16 i x b) = field16 j b.
Proof.
  intros Hi Hj Hne. unfold field16, set_field16. by rewrite !list_lookup_insert_ne by lia.
Qed.
Lemma lookup_set_field16_ne i k x b :
  0 <= i → (k ≠ Z.to_nat i) → (k ≠ Z.to_nat (i + 1)) → set_field16 i x b !! k = b !! k.
Proof. intros Hi H1 H2. unfold set_field16. by rewrite !list_lookup_insert_ne by congruence. Qed.

Lemma bytes_set_field16 i x b : bytes_of b → bytes_of (set_field16 i x b).
Proof.
  intros Hb. unfold set_field16. apply Forall_insert; [apply Forall_insert; [done|]|];
    by apply wrap_in_u.
Qed.

Lemma field16_range i b : bytes_of b → in_u 16 (field16 i b).
Proof.
  intros Hb. assert (∀ k, 0 <= default 0 (b !! k) < 256) as Hd.
  { intros k. destruct (b !! k) as [x|] eqn:E; [|simpl; lia].
    simpl. by apply (Forall_lookup_1 byte b k x Hb E). }
  unfold field16. rewrite Z.shiftl_mul_pow2 by lia. unfold in_u.
  change (2 ^ 8) with 256. change (2 ^ 16) with 65536.
  pose proof (Hd (Z.to_nat i)). pose proof (Hd (Z.to_nat (i + 1))). lia.
Qed.
