(* ===== verification/VlanTag.v ===== *)
(** * Tags in the VLAN field of a packet (tcpreplay/src/vlan_tag.c, packet.h)

    What the sender tells the switches travels in the 16-bit priority and VLAN
    identifier field of the 802.1Q header: whether the packet is sampled, the
    selected level of its flow and which switches should read the tags. *)
From S2P Require Import Prelude CMonad Bytes.

(** Constants of dlt_names.h and tcpr.h *)
Definition DLT_JUNIPER_ETHER : Z := 178.
Definition ETHERTYPE_VLAN : Z := 33024.   (* 0x8100 *)
Definition ETHERTYPE_IP : Z := 2048.      (* 0x0800 *)

(** The macros of packet.h *)
Definition TAG_VLAN_PACKET_SAMPLED_VAL : Z := 1.
Definition SELECTED_FLOW_VAL_MASK : Z := 6.
Definition TAG_VLAN_SELECTED_FLOW_VAL {S} (selected_level : Z) : cmd S Z :=
  v ← shl_int selected_level 1; mret (Z.land v SELECTED_FLOW_VAL_MASK).
Definition GET_VLAN_SELECTED_FLOW_VAL (vlan_val : Z) : Z :=
  Z.shiftr (Z.land vlan_val SELECTED_FLOW_VAL_MASK) 1.
Definition TAG_VLAN_FOR_SWITCH_I {S} (i : Z) : cmd S Z :=
  if decide (i < 1) then shl_int 1 (i + 3) else shl_int 1 (i + 4).

(** The offsets of [ether_type] in [eth_hdr_t], and of [vlan_priority_c_vid]
    and [vlan_len] in [struct tcpr_802_1q_hdr] *)
Definition off_ether_type : Z := 12.
Definition off_vlan_priority_c_vid : Z := 14.
Definition off_vlan_len : Z := 16.

(** The length of what precedes the Ethernet header; the same lines open every
    function of the file *)
Definition l2_offset (datalink : Z) : cmd (list Z) Z :=
  if decide (datalink = DLT_JUNIPER_ETHER) then
    b3 ← read8 3;
    if decide (Z.land b3 128 = 128) then
      n ← read16 4; mret (ntohs n + 6)
    else mret 4
  else mret 0.

(** The field, of a packet with a VLAN header; [None] without one *)
Definition vlan_field (datalink : Z) : cmd (list Z) (option Z) :=
  l2_len ← l2_offset datalink;
  t ← read16 (l2_len + off_ether_type);
  mret (if decide (ntohs t = ETHERTYPE_VLAN) then Some (l2_len + off_vlan_priority_c_vid) else None).

(** [vlan_hdr->vlan_priority_c_vid |= v] *)
Definition or_field (off v : Z) : cmd (list Z) unit :=
  x ← read16 off; write16 off (u16 (Z.lor x v)).

(** [tag_packet_as_sampled] *)
Definition tag_packet_as_sampled (datalink : Z) : cmd (list Z) unit :=
  f ← vlan_field datalink;
  match f with Some off => or_field off TAG_VLAN_PACKET_SAMPLED_VAL | None => mret tt end.

(** [check_packet_tagged_as_sampled] *)
Definition check_packet_tagged_as_sampled (datalink : Z) : cmd (list Z) bool :=
  f ← vlan_field datalink;
  match f with
  | Some off => x ← read16 off; mret (bool_decide (Z.land x TAG_VLAN_PACKET_SAMPLED_VAL ≠ 0))
  | None => mret false
  end.

(** [tag_selected_flow_level_in_normal_packet] *)
Definition tag_selected_flow_level_in_normal_packet (datalink selected_level : Z) : cmd (list Z) unit :=
  f ← vlan_field datalink;
  match f with
  | Some off => v ← TAG_VLAN_SELECTED_FLOW_VAL selected_level; or_field off v
  | None => mret tt
  end.

(** [tag_packet_for_switches]; the array and its length are the list *)
Fixpoint tag_switches (off : Z) (switchides : list Z) : cmd (list Z) unit :=
  match switchides with
  | [] => mret tt
  | switchid :: switchides =>
      v ← TAG_VLAN_FOR_SWITCH_I (switchid - 1);
      or_field off v;;
      tag_switches off switchides
  end.
Definition tag_packet_for_switches (datalink : Z) (switchides : list Z) : cmd (list Z) unit :=
  f ← vlan_field datalink;
  match f with Some off => tag_switches off switchides | None => mret tt end.

(** For a condition packet, on its VLAN header alone: [tag_packet_selected_level]
    and [tag_packet_as_unselected] *)
Definition tag_packet_selected_level (selected_level : Z) : cmd (list Z) unit :=
  v ← TAG_VLAN_SELECTED_FLOW_VAL selected_level;
  write16 off_vlan_priority_c_vid (u16 v).
Definition tag_packet_as_unselected : cmd (list Z) unit := tag_packet_selected_level 0.
