(* ===== verification/ConditionSender.v ===== *)
(** * The condition sender (tcpreplay/src/condition_sender.c)

    Every [condition_msec_freq] milliseconds a thread tells the switches which
    flows are selected: it sends one packet for every flow whose level differs
    from the one sent last, then remembers what it has sent.  [sendpacket] is
    tcpreplay's: it gives the number of bytes it has put on the wire. *)
From S2P Require Import Prelude CMonad CFloat ChainedTable TableSpec FixSizeTable FixSizeIface.
From S2P Require Import Flow PktListTable ObjStore Settings Sample FlowTables Warehouse Bytes VlanTag.

(** [condition_t]; the FLOW_SRC build has no [dstip] *)
Record condition_t := Condition { c_srcip : Z; c_dstip : option Z }.
Class FlowCondition (K : Type) := flow_condition : K → condition_t.

(** ** The packet

    A byte of [g_pkt_buffer] is [None] where the header structures, which live
    on the stack, are not assigned. *)
Abbreviation raw_packet := (list (option Z)).
(** A [uint16_t] and a [uint32_t] in memory *)
Definition mem16 (x : Z) : list Z := [u8 x; u8 (Z.shiftr x 8)].
Definition mem32 (x : Z) : list Z := mem16 (u16 x) ++ mem16 (u16 (Z.shiftr x 16)).
Definition uninit (n : nat) : raw_packet := replicate n None.
Definition set (b : list Z) : raw_packet := Some <$> b.

Definition CONDITION_MAC : list Z := [124; 122; 145; 134; 179; 232].   (* 7c:7a:91:86:b3:e8 *)
(** [ethernet_header_vlan], before its tag is set *)
Definition vlan_hdr_of_condition : list Z :=
  CONDITION_MAC ++ CONDITION_MAC ++ mem16 (ntohs 33024) ++ [0; 0] ++ mem16 (ntohs 2048).
Definition ip_hdr_of_condition (c : condition_t) : raw_packet :=
  set [69]                          (* ip_v, ip_hl *)
  ++ uninit 1                       (* ip_tos *)
  ++ set (mem16 (ntohs (20 + 8)))   (* ip_len *)
  ++ uninit 2                       (* ip_id *)
  ++ set (mem16 16384)              (* ip_off, in host order *)
  ++ set [64; 17]                   (* ip_ttl, ip_p *)
  ++ uninit 2                       (* ip_sum *)
  ++ set (mem32 (ntohl (c_srcip c)))
  ++ match c_dstip c with Some ip => set (mem32 (ntohl ip)) | None => uninit 4 end.
Definition udp_hdr_of_condition : raw_packet :=
  set (mem16 1) ++ set (mem16 1) ++ set (mem16 (ntohs 8)) ++ uninit 2.

(** What [send_udp_condition_pkt] puts into [g_pkt_buffer] *)
Definition condition_pkt (c : condition_t) (selected_level : Z) : res raw_packet :=
  match tag_packet_selected_level selected_level vlan_hdr_of_condition with
  | Ok (_, vlan) => Ok (set vlan ++ ip_hdr_of_condition c ++ udp_hdr_of_condition)
  | Fault e => Fault e
  end.
Definition CONDITION_PKT_LEN : Z := 18 + 20 + 8.

Section sender.
Context {K VI VF FX : Type} `{KeyOps K} `{!FlowTable K Z Z VI}.
Context `{!FlowTable K c_float c_float VF} `{!FixedTable K FX} `{!FlowCondition K}.
(** The replay context has an interface to send on. *)
Context (intf1 : bool).
(** What [sendpacket] returns for a packet, given those sent before *)
Context (sendpacket : list raw_packet → raw_packet → Z).

(** The warehouse and the packets on the wire, oldest first *)
Record cond_state := CondState { cs_dw : data_warehouse_t VI VF FX; cs_wire : list raw_packet }.
Definition on_cdw {A} (c : cmd (data_warehouse_t VI VF FX) A) : cmd cond_state A :=
  zoom cs_dw (λ d s, CondState d (cs_wire s)) c.

(** [send_udp_condition_pkt] *)
Definition send_udp_condition_pkt (p_condition : condition_t) (selected_level : Z) : cmd cond_state Z :=
  if intf1 then
    pkt ← lift (condition_pkt p_condition selected_level);
    wire ← gets cs_wire;
    if decide (sendpacket wire pkt < CONDITION_PKT_LEN) then mret (-1)
    else modify (λ s, CondState (cs_dw s) (cs_wire s ++ [pkt]));; mret 0
  else mret (-1).

(** The packet of one entry; its result is not looked at, and the counter
    advances all the same *)
Definition send_and_count (key : K) (level : Z) : cmd cond_state unit :=
  send_udp_condition_pkt (flow_condition key) level;;
  on_cdw (i ← gets active_idx; upd_counter condition_pkt_num_sent i (λ n, n + 1)).

Definition last_sent : cmd (data_warehouse_t VI VF FX) (option loc) :=
  gets (λ d, vi_ptr d last_sent_flow_selected_level_map).

(** 1. the flows whose level is new or has changed *)
Fixpoint plus_conditions (fuel : nat) (flow_selected_level : option loc) : cmd cond_state unit :=
  match fuel with
  | O => throw OutOfFuel
  | S fuel =>
      e ← on_cdw (call_vi flow_selected_level ft_next);
      match e with
      | None => mret tt
      | Some (key, value) =>
          let selected_level := i32 value in
          last ← on_cdw last_sent;
          pre_selected_level ← on_cdw (call_vi last (ft_get key));
          (if decide (pre_selected_level = selected_level) then mret tt
           else send_and_count key selected_level);;
          plus_conditions fuel flow_selected_level
      end
  end.

(** 2. the flows that are no longer selected *)
Fixpoint minus_conditions (fuel : nat) (flow_selected_level : option loc) : cmd cond_state unit :=
  match fuel with
  | O => throw OutOfFuel
  | S fuel =>
      last ← on_cdw last_sent;
      e ← on_cdw (call_vi last ft_next);
      match e with
      | None => mret tt
      | Some (key, _) =>
          level ← on_cdw (call_vi flow_selected_level (ft_get key));
          (if decide (level > 0) then mret tt else send_and_count key NO_SELECTED_LEVEL);;
          minus_conditions fuel flow_selected_level
      end
  end.

(** 3. the copy into the table sent last *)
Fixpoint copy_conditions (fuel : nat) (flow_selected_level : option loc) : cmd (data_warehouse_t VI VF FX) unit :=
  match fuel with
  | O => throw OutOfFuel
  | S fuel =>
      e ← call_vi flow_selected_level ft_next;
      match e with
      | None => mret tt
      | Some (key, value) =>
          last ← last_sent;
          call_vi last (ft_set key value);;
          copy_conditions fuel flow_selected_level
      end
  end.
Definition renew_last_sent (fuel : nat) (flow_selected_level : option loc) : cmd (data_warehouse_t VI VF FX) Z :=
  destory_vi last_sent_flow_selected_level_map;;
  create_vi last_sent_flow_selected_level_map (copy_conditions fuel flow_selected_level;; mret 0).

(** One turn of the loop of [send_condition_to_network], after its sleep;
    [false] when the thread returns *)
Definition send_conditions (fuel : nat) : cmd cond_state bool :=
  on_cdw (wlock packet_send_mutex);;
  on_cdw (wlock data_warehouse_mutex);;
  flow_selected_level ← on_cdw (data_warehouse_get flow_selected_level_map);
  plus_conditions fuel flow_selected_level;;
  minus_conditions fuel flow_selected_level;;
  r ← on_cdw (renew_last_sent fuel flow_selected_level);
  if decide (r ≠ 0) then mret false
  else
    on_cdw (wunlock data_warehouse_mutex);;
    on_cdw (wunlock packet_send_mutex);;
    mret true.
End sender.
Arguments cond_state VI VF FX : clear implicits.
