(* ===== verification/Config.v ===== *)
(** * The configured sender

    The instances the sender is built with: flows of source and destination
    address (the FLOW_SRC_DST build), tables of HASH_MAP_SIZE bins, and, for
    the function that lacks its [return], a build that leaves the value
    computed last in the return register.  The witnesses of the properties of
    the sender use it, with the settings [demo_setting]. *)
From S2P Require Import Prelude CMonad CFloat ChainedTable TableSpec FixSizeTable FixSizeIface.
From S2P Require Import Flow ObjStore Settings Sample FlowTables Warehouse WarehouseSpec ConditionSender.

#[export] Instance return_last : FlowSrcDst.ReturnReg := λ h, h.
#[export] Instance return_last_ok : FlowSrcDst.ReturnRegOk.
Proof. by intros h n Hh. Qed.

Abbreviation flow_src := FlowSrcDst.flow_src_t.
Abbreviation vi_handle := (KfsVi.hashtable_kfs_vi_t flow_src).
Abbreviation vf_handle := (KfsVf.hashtable_kfs_vf_t flow_src).
Abbreviation fx_handle := (ptr (fstate flow_src)).
Abbreviation sender_warehouse := (data_warehouse_t vi_handle vf_handle fx_handle).

#[export] Instance sender_vi : FlowTable flow_src Z Z vi_handle := kfs_vi_table HASH_MAP_SIZE.
#[export] Instance sender_vf : FlowTable flow_src c_float c_float vf_handle := kfs_vf_table HASH_MAP_SIZE.
#[export] Instance sender_vi_laws : FlowTableLaws flow_src Z Z vi_handle.
Proof. by apply kfs_vi_laws. Qed.
#[export] Instance sender_vf_laws : FlowTableLaws flow_src c_float c_float vf_handle.
Proof. by apply kfs_vf_laws. Qed.
#[export] Instance sender_int_table : IntTable flow_src vi_handle.
Proof. done. Qed.

(** A flow, and settings: flows of at least 1000 bytes that lose at least a
    tenth of their volume are targets if they lose 200 bytes and selected if
    they lose 100; the fixed-size maps have 10 slots. *)
Definition demo_flow : flow_src := FlowSrcDst.FlowSrcT 167772161 184549377.
Definition demo_setting : cm_experiment_setting_t :=
  ExperimentSetting 5000 100 true UNIFORM (float_of_int 1) (float_of_int 0) HOST_SAMPLE
    TAG_PKT_AS_CONDITION
    (SampleHoldSetting 1000 (replicate 12 1000) 1000 (float_of_int 1) (over_sampling_rate 1000 8))
    (TargetFlowSetting 1000 (int_ratio 1 10) 200 100)
    (SenderSetting INFINITE (float_of_int 10) (over_sampling_rate 200 8)).
Lemma demo_bucket_size : int_of_float (fix_loss_map_bucket_size (sender_setting demo_setting)) = Some 10.
Proof. reflexivity. Qed.

(** [flow_src] of a packet *)
#[export] Instance sender_packet_flow : PacketFlow flow_src := FlowSrcDst.FlowSrcT.
(** The condition of a flow, in the FLOW_SRC_DST and the FLOW_SRC build *)
#[export] Instance sender_condition : FlowCondition flow_src :=
  λ k, Condition (FlowSrcDst.srcip k) (Some (FlowSrcDst.dstip k)).
Definition src_condition : FlowCondition FlowSrc.flow_src_t := λ k, Condition (FlowSrc.srcip k) None.
