(* ===== verification/WarehouseProps.v ===== *)
(** * Properties of the data warehouse *)
From S2P Require Import Prelude CMonad CFloat ChainedTable TableSpec FixSizeTable FixSizeSpec.
From S2P Require Import FixSizeIface Flow PktListTable PktListSpec ObjStore Settings Sample FlowTables.
From S2P Require Import Warehouse WarehouseSpec WarehouseRecords Config.

(** ** The properties *)
Section properties.
Context {K VI VF FX : Type} `{KeyLaws K}.
Context `{!FlowTable K Z Z VI} `{!FlowTableLaws K Z Z VI} `{!IntTable K VI}.
Context `{!FlowTable K c_float c_float VF} `{!FlowTableLaws K c_float c_float VF}.
Context `{!FixedTable K FX} `{!FixedTableLaws K FX}.
Context (setting : cm_experiment_setting_t) (fsize : Z).
Context (fsize_ok : int_of_float (fix_loss_map_bucket_size (sender_setting setting)) = Some fsize).
Context (fsize_pos : 0 < fsize).
Implicit Types (d : data_warehouse_t VI VF FX) (m : wmodel K) (k : K) (P : wptrs).

Lemma wp_do_wop P d m o (Q : unit → data_warehouse_t VI VF FX → Prop) :
  wrep fsize [] P d m → wop_ok o m →
  (∀ P' d', wrep fsize [] P' d' (spec_wop setting fsize o m) → Q tt d') →
  wp (do_wop setting o) Q d.
Proof.
  intros R Hok HQ. destruct o as [k n|k n|k| |]; simpl.
  - eapply wp_update_flow_normal_volume; [exact R|exact Hok|by eauto].
  - eapply wp_update_flow_loss_volume; [exact R|exact Hok|by eauto].
  - eapply wp_update_flow_not_sampled_volume; [exact R|by eauto].
  - eapply wp_rotate; [exact R|by eauto].
  - wp_steps. eapply wp_reset; [done|done|exact R|]. intros P' d' R' _. wp_steps. by eapply HQ.
Qed.

Lemma wp_do_wops P d m os (Q : unit → data_warehouse_t VI VF FX → Prop) :
  wrep fsize [] P d m → wops_ok setting fsize os m →
  (∀ P' d', wrep fsize [] P' d' (spec_wops setting fsize os m) → Q tt d') →
  wp (do_wops setting os) Q d.
Proof.
  revert P d m. induction os as [|o os IH]; intros P d m R Hok HQ; simpl.
  { apply wp_ret. by eapply HQ. }
  destruct Hok as [Ho Hos]. wp_steps. eapply wp_do_wop; [exact R|done|].
  intros P' d' R'. by eapply IH.
Qed.

(** A warehouse after some operations *)
Lemma warehouse_after (os : list (wop K)) :
  wops_ok setting fsize os m_init →
  ∃ (d : data_warehouse_t VI VF FX) P, wrep fsize [] P d (spec_wops setting fsize os m_init).
Proof.
  intros Hok. pose proof (init_ok (VI:=VI) (VF:=VF) (FX:=FX) setting fsize fsize_ok fsize_pos) as Hi.
  apply wp_run in Hi as (r & d0 & _ & _ & P & R).
  assert (wp (do_wops setting os) (λ _ d, ∃ P, wrep fsize [] P d (spec_wops setting fsize os m_init)) d0) as Hw
    by (eapply wp_do_wops; eauto).
  apply wp_run in Hw as ([] & d & _ & P' & R'). eauto.
Qed.

(** C9. The warehouse refines its model of maps: from the zeroed structure,
    [data_warehouse_init] succeeds, and then any sequence of updates, rotations
    and resets that overflows no [int] runs without a fault (no lock taken
    twice, no access to a missing table) and leaves every table holding exactly
    the map the sequence computes. *)
Theorem warehouse_refines (os : list (wop K)) :
  wops_ok setting fsize os m_init →
  ∃ d0 d, data_warehouse_init setting 0 (dw_zero (VI:=VI) (VF:=VF) (FX:=FX) []) = Ok (0, d0) ∧
    do_wops setting os d0 = Ok (tt, d) ∧
    ∃ P, wrep fsize [] P d (spec_wops setting fsize os m_init).
Proof.
  intros Hok. pose proof (init_ok (VI:=VI) (VF:=VF) (FX:=FX) setting fsize fsize_ok fsize_pos) as Hi.
  apply wp_run in Hi as (r & d0 & E & -> & P & R).
  assert (wp (do_wops setting os) (λ _ d, ∃ P, wrep fsize [] P d (spec_wops setting fsize os m_init)) d0) as Hw
    by (eapply wp_do_wops; eauto).
  apply wp_run in Hw as ([] & d & E' & HP). eauto 6.
Qed.

(** The target flows of an interval are the flows over the thresholds:
    after any earlier intervals, the updates [us] of an interval, the rotation
    and the updates [us'] of the next one, the buffer being reported holds for
    every flow its total volume in [us] and the losses reported for it after its
    first packet, exactly, and the loss rate and the selected level
    ([flow_level]) that the volume and the loss seen have: all of the loss
    without the fixed-size loss map, and with it what the slot of the flow holds,
    which is never more than the flow has lost.  The buffer in use holds the
    same for [us']: neither the earlier intervals nor the other buffer leave a
    trace.  (With volumes that fit an [int].) *)
Theorem interval_reports (past : list (list (update K))) (us us' : list (update K)) :
  (∀ u, u ∈ us :: us' :: past → total u < 2 ^ 31) →
  ∃ d0 d P m, data_warehouse_init setting 0 (dw_zero (VI:=VI) (VF:=VF) (FX:=FX) []) = Ok (0, d0) ∧
    do_wops setting ((past ≫= interval_ops) ++ map update_op us ++ [WRotate] ++ map update_op us') d0
    = Ok (tt, d) ∧
    wrep fsize [] P d m ∧
    records setting fsize (other_idx (m_idx m)) us m ∧ records setting fsize (m_idx m) us' m.
Proof.
  intros Hb. pose proof (init_ok (VI:=VI) (VF:=VF) (FX:=FX) setting fsize fsize_ok fsize_pos) as Hi.
  apply wp_run in Hi as (r & d0 & E & -> & P & R).
  set (os := (past ≫= interval_ops) ++ map update_op us ++ [WRotate] ++ map update_op us').
  pose proof (fresh_init (K:=K) setting fsize) as Hf.
  destruct (past_fresh setting fsize past m_init Hf) as [Hok1 Hf1].
  { intros u Hu. apply Hb. set_solver. }
  set (m1 := spec_wops setting fsize (past ≫= interval_ops) m_init) in *.
  destruct (interval_updates setting fsize us m1 Hf1) as (Hok2 & Ei2 & R2 & R2').
  { apply Hb. set_solver. }
  set (m2 := spec_wops setting fsize (map update_op us) m1) in *.
  destruct (spec_updates setting fsize [] us' (spec_rotate m2)) as (Hok3 & R3 & Ei3 & Hs3).
  { simpl. rewrite Ei2. by apply records_set_idx. } { apply Hb. set_solver. }
  simpl in R3, Ei3, Hs3. rewrite Ei2 in R3, Ei3, Hs3.
  pose proof Hf1 as (Hi1 & _).
  assert (wops_ok setting fsize os m_init) as Hok.
  { apply wops_ok_app; [done|]. apply wops_ok_app; [done|]. simpl. split; [done|exact Hok3]. }
  assert (spec_wops setting fsize os m_init =
          spec_wops setting fsize (map update_op us') (spec_rotate m2)) as Em
    by (unfold os; rewrite !spec_wops_app; done).
  assert (wp (do_wops setting os) (λ _ d, ∃ P, wrep fsize [] P d (spec_wops setting fsize os m_init)) d0) as Hw
    by (eapply wp_do_wops; eauto).
  apply wp_run in Hw as ([] & d & E' & P' & R'). rewrite Em in R'.
  exists d0, d, P'. eexists. split_and!; [done|done|exact R'| |].
  - rewrite Ei3, other_other by done. eapply records_same; [apply Hs3; by apply not_eq_sym, other_ne|].
    by apply records_set_idx.
  - rewrite Ei3. exact R3.
Qed.

Lemma normal_begin_ok P d m k :
  wrep fsize [] P d m →
  wp (normal_begin k) (λ ps d', ps = active_ptrs P m ∧
    wrep fsize [mutexs (u32 (key_bin k HASH_MAP_SIZE))] P d' m) d.
Proof.
  intros R. unfold normal_begin. wp_steps.
  eapply wp_wlock; [exact R|apply bin_mutex_ok|set_solver|]. intros d' R'. wp_steps.
  by eapply wp_read_buffer_ptrs.
Qed.

(** A volume that does not fit is undefined behaviour: when the volume of
    the flow in the interval plus the added one exceeds the largest [int], the
    update overflows a signed integer. *)
Theorem volume_overflow P d m k added :
  wrep fsize [] P d m → 0 < added → 2 ^ 31 <= no_less_than_0 (m_get flow_volume_map k m) + added →
  update_flow_normal_volume setting k added d = Fault SignedOverflow.
Proof.
  intros R Ha Hov. pose proof (normal_begin_ok P d m k R) as Hw.
  apply wp_run in Hw as (ps & d' & E & -> & R'). unfold update_flow_normal_volume.
  rewrite (bind_ok _ _ _ _ _ E). rewrite decide_True by lia. apply bind_fault.
  assert (wp (call_vi (bp_volume (active_ptrs P m)) (ft_get k))
    (λ r d'', r = m_get flow_volume_map k m ∧ d'' = d') d') as Hg
    by (eapply wp_call_vi_get; [exact R'|apply R|done]).
  unfold normal_body. rewrite (bind_ok _ _ _ _ _ (wp_exact _ _ _ _ Hg)). apply bind_fault.
  unfold int_add. rewrite decide_False; [done|]. unfold in_s. simpl in *. lia.
Qed.

(** A call through a pointer whose table was freed *)
Lemma call_vi_dangling {A} a (c : cmd VI A) d :
  heap (dw_vi d) !! a = None → call_vi (Some a) c d = Fault Dangling.
Proof.
  intros E. unfold call_vi, on_vi, zoom, on_obj. rewrite (bind_fault _ _ _ Dangling); [done|].
  unfold load. by rewrite E.
Qed.

(** A call through NULL *)
Lemma call_vi_null {A} (c : cmd VI A) r d :
  c (ft_create false) = Ok (r, ft_create false) → call_vi None c d = Ok (r, d).
Proof.
  intros E. unfold call_vi, on_vi, zoom, on_obj, lift. unfold mbind, cmd_bind. rewrite E. by destruct d.
Qed.

(** C36. An update races the rotation: a thread that has taken the mutex of its
    flow and read the pointers of the active buffer, and is then overtaken by
    the rotation and the reset (which take none of the flows' mutexes), uses a
    table that was freed. *)
Theorem update_races_reset P d m k added :
  wrep fsize [] P d m → 0 < added →
  ∃ ps d1 d2, normal_begin k d = Ok (ps, d1) ∧
    do_wops setting [WRotate; WReset] d1 = Ok (tt, d2) ∧
    normal_body setting ps k added d2 = Fault Dangling.
Proof.
  intros R Ha. pose proof (normal_begin_ok P d m k R) as Hw.
  apply wp_run in Hw as (ps & d1 & E & -> & R1). pose proof (wr_idx_ok _ _ _ _ _ R) as Hi.
  assert (wp (do_wops setting [WRotate; WReset])
    (λ _ d2, ∀ a, pt_vi P (Buf flow_volume_map (m_idx m)) = Some a → heap (dw_vi d2) !! a = None) d1) as Hw.
  { simpl. wp_steps. eapply wp_rotate; [exact R1|]. intros d' R'. wp_steps.
    eapply wp_reset; [done|done|exact R'|]. intros P' d2 _ Hd. wp_steps. intros a Ea.
    apply (Hd flow_volume_map). simpl. by rewrite other_other. }
  apply wp_run in Hw as ([] & d2 & E2 & Hd). exists (active_ptrs P m), d1, d2. split_and!; [done|done|].
  destruct (owned_live _ _ _ _ (wr_vi _ _ _ _ _ R) (Buf flow_volume_map (m_idx m)) Hi) as (a & h & Ea & _).
  unfold normal_body. apply bind_fault. simpl. rewrite (wr_ptrs _ _ _ _ _ R). simpl. rewrite Ea.
  apply call_vi_dangling, Hd. rewrite (wr_ptrs _ _ _ _ _ R). exact Ea.
Qed.

(** A reset without memory breaks the warehouse: when the first allocation
    of [data_warehouse_reset_noactive_buf] fails it returns -1, which the
    thread that calls it ignores, and leaves the pointers to the tables it
    freed; the first update after the next rotation uses one of them. *)
Theorem reset_without_memory P d m k added :
  wrep fsize [] P d m → 0 < added < 2 ^ 31 →
  ∃ d1, data_warehouse_reset_noactive_buf setting (with_mallocs [false] d) = Ok (-1, d1) ∧
    do_wops setting [WRotate; WNormal k added] d1 = Fault Dangling.
Proof.
  intros R Ha. set (na := other_idx (m_idx m)). pose proof (other_in_buffers (m_idx m)) as Hn. fold na in Hn.
  assert (wp (data_warehouse_reset_noactive_buf setting) (λ r d', r = -1 ∧
     vi_ptr d' = set_ptr (pt_vi P) (Buf flow_volume_map na) None ∧
     (∀ f a, pt_vi P (Buf f na) = Some a → heap (dw_vi d') !! a = None) ∧
     active_idx d' = m_idx m ∧ locked d' = []) (with_mallocs [false] d)) as Hw
    by (by eapply wp_reset_no_memory).
  apply wp_run in Hw as (r & d1 & E & -> & Ep & Hd & Ei & El). exists d1. split; [done|].
  assert (wp (do_wop setting WRotate) (λ _ d', wp (normal_begin k) (λ ps d', bp_volume ps = None ∧
     bp_loss ps = pt_vi P (Buf flow_loss_volume_map na) ∧ dw_vi d' = dw_vi d1) d') d1) as Hw.
  { simpl. unfold data_ware_rotate_buffer, normal_begin, set_active_idx. wp_steps.
    rewrite Ei. fold (other_idx (m_idx m)). fold na. apply wp_run. eexists tt, _. split.
    { unfold wlock. cbv beta. rewrite decide_True by apply bin_mutex_ok. simpl. rewrite El. reflexivity. }
    unfold read_buffer_ptrs, data_warehouse_get, data_warehouse_get_fixed_flow_loss_volume_map,
      data_warehouse_get_flow_loss_rate_map, read_vi, read_fx, read_vf. wp_steps.
    do 4 (apply wp_check_idx; [exact Hn|]; wp_steps). simpl. rewrite Ep. unfold set_ptr.
    by rewrite decide_True. }
  apply wp_run in Hw as ([] & d1' & E1 & Hw). apply wp_run in Hw as (ps & d2 & E2 & Ev & El2 & Eh).
  cbn [do_wops]. rewrite (bind_ok _ _ _ _ _ E1). apply bind_fault. simpl do_wop.
  unfold update_flow_normal_volume. rewrite (bind_ok _ _ _ _ _ E2).
  rewrite decide_True by lia. apply bind_fault.
  destruct (owned_live _ _ _ _ (wr_vi _ _ _ _ _ R) (Buf flow_loss_volume_map na) Hn) as (a & h & Ea & _).
  assert (pt_vi P (Buf flow_loss_volume_map na) = Some a) as Ea' by (rewrite (wr_ptrs _ _ _ _ _ R); exact Ea).
  unfold normal_body. rewrite Ev, El2, Ea'.
  rewrite (bind_ok _ _ _ _ _ (call_vi_null _ _ _ (ft_get_null k))), int_table_ret. simpl.
  change (no_less_than_0 (-1)) with 0.
  rewrite (bind_ok _ _ d2 added d2) by (unfold int_add; rewrite decide_True; [done|by apply in_s32; lia]).
  rewrite (bind_ok _ _ _ _ _ (call_vi_null _ _ _ (ft_set_null k (u32 added)))).
  apply bind_fault, call_vi_dangling. rewrite Eh. by eapply Hd.
Qed.

(** C37. [data_warehouse_destroy] frees everything: after any sequence of
    operations no table of any type is left. *)
Theorem destroy_frees_all (os : list (wop K)) :
  wops_ok setting fsize os m_init →
  ∃ d0 d d', data_warehouse_init setting 0 (dw_zero (VI:=VI) (VF:=VF) (FX:=FX) []) = Ok (0, d0) ∧
    do_wops setting os d0 = Ok (tt, d) ∧ data_warehouse_destroy d = Ok (tt, d') ∧
    heap (dw_vi d') = ∅ ∧ heap (dw_vf d') = ∅ ∧ heap (dw_fx d') = ∅ ∧ flow_recePktList_map d' = PFreed.
Proof.
  intros Hok. pose proof (init_ok (VI:=VI) (VF:=VF) (FX:=FX) setting fsize fsize_ok fsize_pos) as Hi.
  apply wp_run in Hi as (r & d0 & E & -> & P & R).
  assert (wp (do_wops setting os) (λ _ d, ∃ P, wrep fsize [] P d (spec_wops setting fsize os m_init)) d0) as Hw
    by (eapply wp_do_wops; eauto).
  apply wp_run in Hw as ([] & d & E' & P' & R').
  destruct (vl_create_ok HASH_MAP_SIZE ltac:(done)) as (s & Es & Hs).
  assert (m_list (spec_wops setting fsize os m_init) = PLive s) as El.
  { rewrite <- Es. apply spec_wops_list. }
  assert (wp data_warehouse_destroy (λ _ d', heap (dw_vi d') = ∅ ∧ heap (dw_vf d') = ∅ ∧
    heap (dw_fx d') = ∅ ∧ flow_recePktList_map d' = PFreed) d) as Hw
    by (eapply wp_destroy; [exact R'|exact El|exact Hs|done]).
  apply wp_run in Hw as ([] & d' & E'' & ?). eauto 10.
Qed.
End properties.

(** ** Witnesses *)

(** An interval in which the flow becomes a target, and the next one *)
Definition demo_ops : list (wop flow_src) :=
  [WNormal demo_flow 1500; WLoss demo_flow 300; WNotSampled demo_flow; WRotate; WReset; WNormal demo_flow 64].

Lemma warehouse_refines_witness :
  ∃ d0 d : sender_warehouse, data_warehouse_init demo_setting 0 (dw_zero []) = Ok (0, d0) ∧
    do_wops demo_setting demo_ops d0 = Ok (tt, d).
Proof.
  destruct (warehouse_refines (VI:=vi_handle) (VF:=vf_handle) (FX:=fx_handle) demo_setting 10
    demo_bucket_size ltac:(done) demo_ops) as (d0 & d & E & E' & _).
  - simpl. unfold normal_ok, loss_ok. split_and!; try done; intros; lazy; intuition congruence.
  - exists d0, d. split; [exact E|exact E'].
Defined.

Lemma interval_reports_witness :
  tally demo_flow [Sent demo_flow 1500; Lost demo_flow 300] = (1500, 300) ∧
  flow_level demo_setting 1500 300 (int_ratio 300 1500) = Some TARGET_LEVEL ∧
  ∃ (d : sender_warehouse) P m,
    wrep 10 [] P d m ∧
    records demo_setting 10 (other_idx (m_idx m)) [Sent demo_flow 1500; Lost demo_flow 300] m ∧
    records demo_setting 10 (m_idx m) [Sent demo_flow 64] m.
Proof.
  split; [reflexivity|]. split; [vm_compute; reflexivity|].
  destruct (interval_reports (VI:=vi_handle) (VF:=vf_handle) (FX:=fx_handle) demo_setting 10
    demo_bucket_size ltac:(done) [[Sent demo_flow 70]] [Sent demo_flow 1500; Lost demo_flow 300]
    [Sent demo_flow 64]) as (d0 & d & P & m & _ & _ & R & R1 & R2).
  - intros u Hu. repeat (apply elem_of_cons in Hu as [->|Hu]; [reflexivity|]). by apply not_elem_of_nil in Hu.
  - exists d, P, m. split; [exact R|]. split; [exact R1|exact R2].
Defined.

Lemma demo_warehouse (os : list (wop flow_src)) :
  wops_ok demo_setting 10 os m_init →
  ∃ (d : sender_warehouse) P, wrep 10 [] P d (spec_wops demo_setting 10 os m_init).
Proof. intros Hok. by apply (warehouse_after demo_setting 10 demo_bucket_size). Qed.

Lemma volume_overflow_witness :
  ∃ d : sender_warehouse, update_flow_normal_volume demo_setting demo_flow 2 d = Fault SignedOverflow.
Proof.
  destruct (demo_warehouse [WNormal demo_flow (2 ^ 31 - 1)]) as (d & P & R); [split; [intros _; split; lazy; congruence|done]|]. exists d.
  eapply (volume_overflow demo_setting 10 demo_bucket_size ltac:(done) P d _ demo_flow 2 R); [done|]. lazy. congruence.
Defined.

Lemma update_races_reset_witness :
  ∃ (d d1 d2 : sender_warehouse) ps, normal_begin demo_flow d = Ok (ps, d1) ∧
    do_wops demo_setting [WRotate; WReset] d1 = Ok (tt, d2) ∧
    normal_body demo_setting ps demo_flow 64 d2 = Fault Dangling.
Proof.
  destruct (demo_warehouse [WNormal demo_flow 100]) as (d & P & R); [split; [intros _; split; lazy; congruence|done]|].
  destruct (update_races_reset demo_setting 10 demo_bucket_size ltac:(done) P d _ demo_flow 64 R)
    as (ps & d1 & d2 & E1 & E2 & E3); [done|].
  exists d, d1, d2, ps. split; [exact E1|]. split; [exact E2|exact E3].
Defined.

Lemma reset_without_memory_witness :
  ∃ d d1 : sender_warehouse,
    data_warehouse_reset_noactive_buf demo_setting (with_mallocs [false] d) = Ok (-1, d1) ∧
    do_wops demo_setting [WRotate; WNormal demo_flow 64] d1 = Fault Dangling.
Proof.
  destruct (demo_warehouse [WNormal demo_flow 100]) as (d & P & R); [split; [intros _; split; lazy; congruence|done]|].
  destruct (reset_without_memory demo_setting 10 P d _ demo_flow 64 R) as (d1 & E1 & E2); [done|].
  exists d, d1. split; [exact E1|exact E2].
Defined.

Lemma destroy_frees_all_witness :
  ∃ d d' : sender_warehouse, data_warehouse_destroy d = Ok (tt, d') ∧ heap (dw_vi d') = ∅.
Proof.
  destruct (destroy_frees_all (VI:=vi_handle) (VF:=vf_handle) (FX:=fx_handle) demo_setting 10
    demo_bucket_size ltac:(done) []) as (d0 & d & d' & _ & _ & E & Eh & _); [done|].
  exists d, d'. split; [exact E|exact Eh].
Defined.
