(* ===== verification/VlanProps.v ===== *)
(** * Properties of the VLAN tags *)
From S2P Require Import Prelude CMonad Bytes VlanTag.

(** ** Where the field is *)
Definition l2_of (datalink : Z) (b : list Z) : Z :=
  if decide (datalink = DLT_JUNIPER_ETHER) then
    if decide (Z.land (default 0 (b !! 3%nat)) 128 = 128) then ntohs (field16 4 b) + 6 else 4
  else 0.
(** A packet long enough for its headers *)
Definition has_headers (datalink : Z) (b : list Z) : Prop :=
  bytes_of b ∧ l2_of datalink b + 18 <= Z.of_nat (length b).
Definition is_vlan (datalink : Z) (b : list Z) : Prop :=
  ntohs (field16 (l2_of datalink b + off_ether_type) b) = ETHERTYPE_VLAN.
#[export] Instance is_vlan_dec datalink b : Decision (is_vlan datalink b).
Proof. unfold is_vlan. apply _. Defined.
Definition vlan_off (datalink : Z) (b : list Z) : Z := l2_of datalink b + off_vlan_priority_c_vid.
(** The value of the field *)
Definition vlan_tag (datalink : Z) (b : list Z) : Z := field16 (vlan_off datalink b) b.

Lemma ntohs_nonneg x : 0 <= x → 0 <= ntohs x.
Proof.
  intros Hx. unfold ntohs. apply Z.lor_nonneg. split.
  - apply Z.shiftl_nonneg, Z.land_nonneg. by right.
  - by apply Z.shiftr_nonneg.
Qed.

Lemma l2_nonneg datalink b : bytes_of b → 0 <= l2_of datalink b.
Proof.
  intros Hb. unfold l2_of. repeat case_decide; try lia.
  pose proof (ntohs_nonneg (field16 4 b)). destruct (field16_range 4 b Hb). lia.
Qed.

Lemma wp_vlan_field datalink b (Q : option Z → list Z → Prop) :
  has_headers datalink b →
  Q (if decide (is_vlan datalink b) then Some (vlan_off datalink b) else None) b →
  wp (vlan_field datalink) Q b.
Proof.
  intros [Hb Hl] HQ. pose proof (l2_nonneg datalink b Hb) as H0.
  assert (wp (l2_offset datalink) (λ n b', n = l2_of datalink b ∧ b' = b) b) as Hl2.
  { unfold l2_offset. unfold l2_of in Hl, H0 |- *. case_decide; [|by wp_steps]. wp_steps.
    destruct (lookup_lt_is_Some_2 b 3) as [x Ex]; [repeat case_decide; lia|].
    eapply wp_read8; [done|exact Ex|]. rewrite Ex in Hl, H0 |- *. simpl default in *.
    case_decide; [|by wp_steps]. wp_steps. apply wp_read16; [done|lia|]. by wp_steps. }
  unfold vlan_field. wp_steps. eapply wp_mono; [exact Hl2|]. intros n b' [-> ->]. wp_steps.
  apply wp_read16; unfold off_ether_type; [lia|lia|]. wp_steps. exact HQ.
Qed.

(** The packet with another value of the field *)
Definition set_tag (datalink x : Z) (b : list Z) : list Z := set_field16 (vlan_off datalink b) x b.

Section frame.
Context (datalink : Z) (b : list Z) (Hb : has_headers datalink b).

Lemma vlan_off_bounds : 14 <= vlan_off datalink b ∧ vlan_off datalink b + 1 < Z.of_nat (length b).
Proof.
  destruct Hb as [Hy Hl]. pose proof (l2_nonneg datalink b Hy).
  unfold vlan_off, off_vlan_priority_c_vid. lia.
Qed.

Lemma l2_of_set x : l2_of datalink (set_tag datalink x b) = l2_of datalink b.
Proof.
  pose proof vlan_off_bounds as [Ho _]. unfold l2_of, set_tag.
  rewrite field16_set_ne by lia. by rewrite lookup_set_field16_ne by lia.
Qed.

Lemma set_tag_headers x : has_headers datalink (set_tag datalink x b).
Proof.
  destruct Hb as [Hy Hl]. split; [by apply bytes_set_field16|].
  rewrite l2_of_set. unfold set_tag. by rewrite length_set_field16.
Qed.

Lemma set_tag_vlan x : is_vlan datalink (set_tag datalink x b) ↔ is_vlan datalink b.
Proof.
  pose proof vlan_off_bounds as [Ho _]. unfold is_vlan. rewrite l2_of_set. unfold set_tag.
  unfold vlan_off, off_vlan_priority_c_vid, off_ether_type in *. by rewrite field16_set_ne by lia.
Qed.

Lemma vlan_tag_set x : in_u 16 x → vlan_tag datalink (set_tag datalink x b) = x.
Proof.
  intros Hx. unfold vlan_tag, vlan_off at 1. rewrite l2_of_set. fold (vlan_off datalink b).
  pose proof vlan_off_bounds. apply field16_set; [lia|lia|done].
Qed.

Lemma set_tag_twice x y : set_tag datalink y (set_tag datalink x b) = set_tag datalink y b.
Proof.
  unfold set_tag at 1, vlan_off at 1. rewrite l2_of_set. fold (vlan_off datalink b).
  unfold set_tag, set_field16. pose proof vlan_off_bounds.
  rewrite (list_insert_insert_ne _ (Z.to_nat (vlan_off datalink b))) by lia.
  rewrite list_insert_insert_eq, list_insert_insert_eq. done.
Qed.

Lemma set_tag_id : set_tag datalink (vlan_tag datalink b) b = b.
Proof.
  destruct Hb as [Hy _]. pose proof vlan_off_bounds as [Ho Hl].
  unfold set_tag, set_field16, vlan_tag. set (o := vlan_off datalink b) in *. unfold field16.
  destruct (lookup_lt_is_Some_2 b (Z.to_nat o)) as [lo Elo]; [lia|].
  destruct (lookup_lt_is_Some_2 b (Z.to_nat (o + 1))) as [hi Ehi]; [lia|].
  rewrite Elo, Ehi. simpl default. rewrite Z.shiftl_mul_pow2 by lia. change (2 ^ 8) with 256.
  destruct (Forall_lookup_1 byte _ _ _ Hy Elo), (Forall_lookup_1 byte _ _ _ Hy Ehi).
  change (2 ^ 8) with 256 in *. unfold wrap. change (2 ^ 8) with 256.
  replace ((lo + hi * 256) mod 256) with lo by (rewrite Z.mod_add by lia; rewrite Z.mod_small; lia).
  rewrite Z.shiftr_div_pow2 by lia. change (2 ^ 8) with 256. rewrite Z.div_add by lia.
  rewrite (Z.div_small lo) by lia. rewrite Z.add_0_l, Z.mod_small by lia.
  rewrite (list_insert_id b) by done. by apply list_insert_id.
Qed.
End frame.

(** ** The tags as bits *)
Definition field_bits (x : Z) (i : Z) : bool := Z.testbit x i.

(** The bit of a switch *)
Definition switch_bit (switchid : Z) : Z := if decide (switchid <= 1) then switchid + 2 else switchid + 3.

Lemma wp_switch_val {S} switchid (Q : Z → S → Prop) s :
  1 <= switchid <= 12 → Q (2 ^ switch_bit switchid) s → wp (TAG_VLAN_FOR_SWITCH_I (switchid - 1)) Q s.
Proof.
  intros Hi HQ. unfold TAG_VLAN_FOR_SWITCH_I, shl_int. unfold switch_bit in HQ.
  assert (∀ n, 0 <= n <= 15 → 0 <= 1 ∧ 0 <= n < 32 ∧ Z.shiftl 1 n < 2 ^ 31) as Hok.
  { intros n Hn. split_and!; [lia..|]. rewrite Z.shiftl_1_l. apply Z.pow_lt_mono_r; lia. }
  destruct (decide (switchid - 1 < 1)).
  - rewrite decide_True in HQ by lia. rewrite decide_True by (apply Hok; lia).
    apply wp_ret. rewrite Z.shiftl_1_l. by replace (switchid - 1 + 3) with (switchid + 2) by lia.
  - rewrite decide_False in HQ by lia. rewrite decide_True by (apply Hok; lia).
    apply wp_ret. rewrite Z.shiftl_1_l. by replace (switchid - 1 + 4) with (switchid + 3) by lia.
Qed.

Lemma in_u_bits w x : 0 <= w → in_u w x ↔ 0 <= x ∧ ∀ i, w <= i → Z.testbit x i = false.
Proof.
  intros Hw. unfold in_u. split.
  - intros [H0 H1]. split; [done|]. intros i Hi. destruct (decide (x = 0)) as [->|]; [apply Z.testbit_0_l|].
    apply Z.bits_above_log2; [done|]. assert (Z.log2 x < w) by (apply Z.log2_lt_pow2; lia). lia.
  - intros [H0 Hb]. split; [done|]. destruct (decide (x = 0)) as [->|]; [by apply Z.pow_pos_nonneg|].
    apply Z.log2_lt_pow2; [lia|]. destruct (decide (w <= Z.log2 x)); [|lia].
    pose proof (Hb (Z.log2 x) ltac:(lia)) as Hf. rewrite Z.bit_log2 in Hf by lia. done.
Qed.

Lemma in_u_lor w x y : 0 <= w → in_u w x → in_u w y → in_u w (Z.lor x y).
Proof.
  intros Hw Hx Hy. apply (in_u_bits w x Hw) in Hx as [Hx Hx']. apply (in_u_bits w y Hw) in Hy as [Hy Hy'].
  apply in_u_bits; [done|]. split; [by apply Z.lor_nonneg|]. intros i Hi. by rewrite Z.lor_spec, Hx', Hy'.
Qed.

(** [vlan_priority_c_vid |= v] *)
Lemma wp_or_field datalink b v (Q : unit → list Z → Prop) :
  has_headers datalink b → in_u 16 v →
  Q tt (set_tag datalink (Z.lor (vlan_tag datalink b) v) b) → wp (or_field (vlan_off datalink b) v) Q b.
Proof.
  intros Hb Hv HQ. pose proof (vlan_off_bounds datalink b Hb). unfold or_field. wp_steps.
  apply wp_read16; [lia|lia|]. wp_steps. apply wp_write16; [lia|lia|].
  rewrite wrap_small by (apply in_u_lor; [lia|apply field16_range, Hb|done]). exact HQ.
Qed.

Definition switches_mask (switchides : list Z) : Z :=
  foldr (λ id m, Z.lor (2 ^ switch_bit id) m) 0 switchides.

Lemma switch_bit_bounds id : 1 <= id <= 12 → 3 <= switch_bit id <= 15.
Proof. intros Hi. unfold switch_bit. case_decide; lia. Qed.

Lemma pow_in_u id : 1 <= id <= 12 → in_u 16 (2 ^ switch_bit id).
Proof.
  intros Hi. pose proof (switch_bit_bounds id Hi). unfold in_u. split; [apply Z.pow_nonneg; lia|].
  apply Z.pow_lt_mono_r; lia.
Qed.

Lemma wp_tag_switches datalink b ids (Q : unit → list Z → Prop) :
  has_headers datalink b → Forall (λ id, 1 <= id <= 12) ids →
  Q tt (set_tag datalink (Z.lor (vlan_tag datalink b) (switches_mask ids)) b) →
  wp (tag_switches (vlan_off datalink b) ids) Q b.
Proof.
  intros Hb Hids. revert b Hb Q. induction Hids as [|id ids Hid Hids IH]; intros b Hb Q HQ; simpl in *.
  - apply wp_ret. rewrite Z.lor_0_r, set_tag_id in HQ; done.
  - wp_steps. apply wp_switch_val; [done|]. wp_steps. apply wp_or_field; [done|by apply pow_in_u|]. wp_steps.
    set (b' := set_tag _ _ b). assert (has_headers datalink b') as Hb' by by apply set_tag_headers.
    assert (vlan_off datalink b' = vlan_off datalink b) as Eo by (unfold vlan_off, b'; by rewrite l2_of_set).
    rewrite <- Eo. apply IH; [done|]. unfold b' at 2. rewrite set_tag_twice by done.
    unfold b'. rewrite vlan_tag_set; [by rewrite <- Z.lor_assoc|done|].
    apply in_u_lor; [lia|apply field16_range, Hb|by apply pow_in_u].
Qed.

Lemma switch_bit_inj id id' : 1 <= id <= 12 → 1 <= id' <= 12 → switch_bit id = switch_bit id' → id = id'.
Proof. intros ??. unfold switch_bit. repeat case_decide; lia. Qed.

Lemma testbit_pow2 n i : 0 <= n → Z.testbit (2 ^ n) i = bool_decide (n = i).
Proof. intros Hn. rewrite Z.pow2_bits_eqb by done. by case_bool_decide; [apply Z.eqb_eq|apply Z.eqb_neq]. Qed.

Lemma switches_mask_bit ids i :
  Forall (λ id, 1 <= id <= 12) ids → Z.testbit (switches_mask ids) i = bool_decide (i ∈ map switch_bit ids).
Proof.
  induction 1 as [|id ids Hid Hids IH]; cbn [switches_mask foldr map].
  - rewrite Z.testbit_0_l, bool_decide_false; [done|]. apply not_elem_of_nil.
  - fold (switches_mask ids). pose proof (switch_bit_bounds id Hid).
    rewrite Z.lor_spec, IH, testbit_pow2 by lia. rewrite <- bool_decide_or.
    apply bool_decide_ext. rewrite elem_of_cons. intuition congruence.
Qed.

Lemma switches_mask_switch ids id :
  Forall (λ id, 1 <= id <= 12) ids → 1 <= id <= 12 →
  Z.testbit (switches_mask ids) (switch_bit id) = bool_decide (id ∈ ids).
Proof.
  intros Hids Hid. rewrite switches_mask_bit by done. apply bool_decide_ext.
  rewrite list_elem_of_fmap. split; [|eauto]. intros (id' & E & Hid').
  rewrite (switch_bit_inj id id'); [done|done|by eapply Forall_forall in Hids|done].
Qed.

(** No tag of a switch touches the other tags. *)
Lemma switches_mask_low ids i :
  Forall (λ id, 1 <= id <= 12) ids → i < 3 → Z.testbit (switches_mask ids) i = false.
Proof.
  intros Hids Hi. rewrite switches_mask_bit by done. apply bool_decide_false.
  rewrite list_elem_of_fmap. intros (id & -> & Hid). eapply Forall_forall in Hids; [|exact Hid].
  pose proof (switch_bit_bounds id Hids). lia.
Qed.

Lemma switches_mask_in_u ids : Forall (λ id, 1 <= id <= 12) ids → in_u 16 (switches_mask ids).
Proof.
  induction 1 as [|id ids Hid Hids IH]; cbn [switches_mask foldr]; [done|].
  by apply in_u_lor; [|apply pow_in_u|].
Qed.

(** ** The three tags of a packet *)

(** What the sender tags: the switches, then the sampled bit, then the level *)
Definition tag_all (datalink : Z) (ids : list Z) (sampled : bool) (level : Z) : cmd (list Z) unit :=
  tag_packet_for_switches datalink ids;;
  (if sampled then tag_packet_as_sampled datalink else mret tt);;
  (if decide (level > 0) then tag_selected_flow_level_in_normal_packet datalink level else mret tt).

Lemma GET_lor x y :
  GET_VLAN_SELECTED_FLOW_VAL (Z.lor x y)
  = Z.lor (GET_VLAN_SELECTED_FLOW_VAL x) (GET_VLAN_SELECTED_FLOW_VAL y).
Proof. unfold GET_VLAN_SELECTED_FLOW_VAL. by rewrite Z.land_lor_distr_l, Z.shiftr_lor. Qed.

(** Bits that read as level 0 *)
Lemma GET_0 x : (∀ i, 0 <= i < 3 → 0 < i → Z.testbit x i = false) → GET_VLAN_SELECTED_FLOW_VAL x = 0.
Proof.
  intros Hx. unfold GET_VLAN_SELECTED_FLOW_VAL. apply Z.bits_inj'. intros i Hi.
  rewrite Z.shiftr_spec, Z.land_spec, Z.testbit_0_l by done.
  destruct (decide (i = 0)) as [->|]; [by rewrite Hx by lia|].
  destruct (decide (i = 1)) as [->|]; [by rewrite Hx by lia|].
  replace (Z.testbit SELECTED_FLOW_VAL_MASK (i + 1)) with false; [apply andb_false_r|].
  symmetry. apply Z.bits_above_log2; [done|]. change (Z.log2 SELECTED_FLOW_VAL_MASK) with 2. lia.
Qed.

Lemma level_cases (level : Z) (P : Z → Prop) :
  0 <= level <= 3 → P 0 → P 1 → P 2 → P 3 → P level.
Proof.
  intros Hl H0 H1 H2 H3. assert (level = 0 ∨ level = 1 ∨ level = 2 ∨ level = 3) as [->|[->|[->| ->]]] by lia; done.
Qed.

Lemma wp_level_val {S} level (Q : Z → S → Prop) s :
  0 <= level <= 3 → Q (2 * level) s → wp (TAG_VLAN_SELECTED_FLOW_VAL level) Q s.
Proof. intros Hl HQ. revert HQ. by apply (level_cases level). Qed.

Lemma GET_level level : 0 <= level <= 3 → GET_VLAN_SELECTED_FLOW_VAL (2 * level) = level.
Proof. intros Hl. by apply (level_cases level). Qed.

(** A bit above the level *)
Lemma level_bits_high level i : 0 <= level <= 3 → 3 <= i → Z.testbit (2 * level) i = false.
Proof.
  intros Hl Hi. destruct (decide (level = 0)) as [->|]; [apply Z.testbit_0_l|].
  apply Z.bits_above_log2; [lia|]. assert (Z.log2 (2 * level) < 3) by (apply Z.log2_lt_pow2; lia). lia.
Qed.

Lemma wp_tag (c : option Z → cmd (list Z) unit) v datalink b (Q : unit → list Z → Prop) :
  has_headers datalink b → is_vlan datalink b → in_u 16 v →
  c (Some (vlan_off datalink b)) = or_field (vlan_off datalink b) v →
  Q tt (set_tag datalink (Z.lor (vlan_tag datalink b) v) b) →
  wp (f ← vlan_field datalink; c f) Q b.
Proof.
  intros Hb Hv Hin Ec HQ. wp_steps. apply wp_vlan_field; [done|]. rewrite decide_True by done. rewrite Ec.
  by apply wp_or_field.
Qed.

(** The field after [tag_all] *)
Definition tagged (ids : list Z) (sampled : bool) (level x : Z) : Z :=
  Z.lor (Z.lor (Z.lor x (switches_mask ids)) (if sampled then 1 else 0))
    (if decide (level > 0) then 2 * level else 0).

Lemma wp_tag_all datalink b ids (sampled : bool) level (Q : unit → list Z → Prop) :
  has_headers datalink b → is_vlan datalink b → Forall (λ id, 1 <= id <= 12) ids → 0 <= level <= 3 →
  Q tt (set_tag datalink (tagged ids sampled level (vlan_tag datalink b)) b) →
  wp (tag_all datalink ids sampled level) Q b.
Proof.
  intros Hb Hv Hids Hl HQ. unfold tag_all, tagged in *.
  assert (in_u 16 (vlan_tag datalink b)) as Ht by (apply field16_range, Hb).
  pose proof (switches_mask_in_u ids Hids) as Hm.
  wp_step. unfold tag_packet_for_switches. wp_step. apply wp_vlan_field; [done|].
  rewrite decide_True by done. apply wp_tag_switches; [done..|].
  set (x1 := Z.lor (vlan_tag datalink b) (switches_mask ids)) in *.
  assert (in_u 16 x1) as H1 by (by apply in_u_lor). cbn beta. wp_step.
  assert (∀ x, in_u 16 x → wp (if decide (level > 0)
      then tag_selected_flow_level_in_normal_packet datalink level else mret tt)
    (λ _ b', b' = set_tag datalink (Z.lor x (if decide (level > 0) then 2 * level else 0)) b)
    (set_tag datalink x b)) as Hlevel.
  { intros x Hx. case_decide; [|apply wp_ret; by rewrite Z.lor_0_r].
    unfold tag_selected_flow_level_in_normal_packet. wp_step. apply wp_vlan_field; [by apply set_tag_headers|].
    rewrite decide_True by (by apply set_tag_vlan). wp_step. apply wp_level_val; [done|].
    apply wp_or_field; [by apply set_tag_headers|by apply (level_cases level)|].
    by rewrite set_tag_twice, vlan_tag_set by done. }
  assert (wp (if sampled then tag_packet_as_sampled datalink else mret tt)
    (λ _ b', b' = set_tag datalink (Z.lor x1 (if sampled then 1 else 0)) b) (set_tag datalink x1 b)) as Hs.
  { destruct sampled; [|apply wp_ret; by rewrite Z.lor_0_r].
    unfold tag_packet_as_sampled. eapply (wp_tag _ 1); [by apply set_tag_headers|by apply set_tag_vlan|done|done|].
    by rewrite set_tag_twice, vlan_tag_set by done. }
  eapply wp_mono; [exact Hs|]. intros [] b' ->. cbn beta.
  eapply wp_mono; [apply Hlevel|]; [destruct sampled; apply in_u_lor; done|]. intros [] b' ->. exact HQ.
Qed.

(** C20. Tags decode to what was tagged: on a VLAN packet, tagging switches with
    identifiers 1 to 12, the sampled bit and a level of at most 3 sets exactly
    these: afterwards the packet checks as sampled if it was or is tagged so,
    the level read is the bitwise or of the old and the new one, a switch's bit
    is set if it was or the switch is listed, and no other byte of the packet
    has changed.  In particular on an untagged packet the tags read back as they
    were written. *)
Theorem tags_roundtrip datalink b ids (sampled : bool) level :
  has_headers datalink b → is_vlan datalink b → Forall (λ id, 1 <= id <= 12) ids → 0 <= level <= 3 →
  ∃ b', tag_all datalink ids sampled level b = Ok (tt, b') ∧
    check_packet_tagged_as_sampled datalink b'
    = Ok (Z.testbit (vlan_tag datalink b) 0 || sampled, b') ∧
    GET_VLAN_SELECTED_FLOW_VAL (vlan_tag datalink b')
    = Z.lor (GET_VLAN_SELECTED_FLOW_VAL (vlan_tag datalink b)) level ∧
    (∀ id, 1 <= id <= 12 → Z.testbit (vlan_tag datalink b') (switch_bit id)
       = Z.testbit (vlan_tag datalink b) (switch_bit id) || bool_decide (id ∈ ids)) ∧
    b' = set_tag datalink (vlan_tag datalink b') b.
Proof.
  intros Hb Hv Hids Hl. set (x := vlan_tag datalink b). set (t := tagged ids sampled level x).
  assert (in_u 16 x) as Hx by (apply field16_range, Hb).
  assert (in_u 16 t) as Ht.
  { apply in_u_lor; [done|apply in_u_lor; [done| |by destruct sampled]|].
    - apply in_u_lor; [done|done|by apply switches_mask_in_u].
    - case_decide; [by apply (level_cases level)|done]. }
  exists (set_tag datalink t b). split_and!.
  - apply wp_exact. by apply wp_tag_all.
  - apply wp_exact. unfold check_packet_tagged_as_sampled. wp_step. apply wp_vlan_field; [by apply set_tag_headers|].
    rewrite decide_True by (by apply set_tag_vlan). wp_step.
    pose proof (vlan_off_bounds _ _ (set_tag_headers datalink b Hb t)).
    apply wp_read16; [lia|lia|]. apply wp_ret. split; [|done]. fold (vlan_tag datalink (set_tag datalink t b)).
    rewrite vlan_tag_set by done. unfold TAG_VLAN_PACKET_SAMPLED_VAL.
    change 1 with (Z.ones 1). rewrite Z.land_ones by lia. change (2 ^ 1) with 2.
    rewrite (Zmod_even t), <- Z.negb_odd, <- Z.bit0_odd. unfold t, tagged.
    rewrite !Z.lor_spec, (switches_mask_low ids 0) by (done || lia). rewrite orb_false_r.
    assert (Z.testbit (if decide (level > 0) then 2 * level else 0) 0 = false) as ->
      by (apply (level_cases level); done).
    rewrite orb_false_r. by destruct (Z.testbit x 0), sampled.
  - rewrite vlan_tag_set by done. unfold t, tagged. rewrite !GET_lor.
    rewrite (GET_0 (switches_mask ids)) by (intros; apply switches_mask_low; [done|lia]).
    assert (GET_VLAN_SELECTED_FLOW_VAL (if sampled then 1 else 0) = 0) as -> by (by destruct sampled).
    assert (GET_VLAN_SELECTED_FLOW_VAL (if decide (level > 0) then 2 * level else 0) = level) as ->
      by (apply (level_cases level); done).
    by rewrite !Z.lor_0_r.
  - intros id Hid. pose proof (switch_bit_bounds id Hid). rewrite vlan_tag_set by done. unfold t, tagged.
    rewrite !Z.lor_spec, switches_mask_switch by done.
    assert (Z.testbit (if decide (level > 0) then 2 * level else 0) (switch_bit id) = false) as ->.
    { case_decide; [apply level_bits_high; lia|apply Z.testbit_0_l]. }
    assert (Z.testbit (if sampled then 1 else 0) (switch_bit id) = false) as ->.
    { destruct sampled; [apply Z.bits_above_log2; simpl; lia|apply Z.testbit_0_l]. }
    by rewrite !orb_false_r.
  - by rewrite vlan_tag_set.
Qed.

(** A packet without a VLAN header is left alone, and is never sampled. *)
Theorem untagged_packets datalink b ids level :
  has_headers datalink b → ¬ is_vlan datalink b →
  tag_packet_for_switches datalink ids b = Ok (tt, b) ∧
  tag_packet_as_sampled datalink b = Ok (tt, b) ∧
  tag_selected_flow_level_in_normal_packet datalink level b = Ok (tt, b) ∧
  check_packet_tagged_as_sampled datalink b = Ok (false, b).
Proof.
  intros Hb Hv.
  assert (∀ A (c : option Z → cmd (list Z) A) r, c None = mret r → (f ← vlan_field datalink; c f) b = Ok (r, b)) as Hn.
  { intros A c r Ec. apply wp_exact. wp_step. apply wp_vlan_field; [done|]. rewrite decide_False by done.
    rewrite Ec. by apply wp_ret. }
  split_and!; by apply Hn.
Qed.

(** C38. The field has room for 12 switches: the tag of a switch with an
    identifier from 13 to 27 is lost without a trace, since its bit lies above
    the 16 of the field, and from 28 on the shift is undefined. *)
Theorem switch_tag_bounds datalink b id :
  has_headers datalink b → is_vlan datalink b → 13 <= id →
  tag_packet_for_switches datalink [id] b = if decide (id <= 27) then Ok (tt, b) else Fault SignedOverflow.
Proof.
  intros Hb Hv Hid.
  assert (wp (vlan_field datalink) (λ r b', r = Some (vlan_off datalink b) ∧ b' = b) b) as Hf
    by (apply wp_vlan_field; [done|]; by rewrite decide_True).
  unfold tag_packet_for_switches. rewrite (bind_ok _ _ _ _ _ (wp_exact _ _ _ _ Hf)). simpl tag_switches.
  unfold TAG_VLAN_FOR_SWITCH_I. rewrite decide_False by lia. unfold shl_int.
  assert (2 ^ 16 <= 2 ^ (id - 1 + 4)) as H16 by (apply Z.pow_le_mono_r; lia).
  destruct (decide (id <= 27)).
  - assert (2 ^ (id - 1 + 4) < 2 ^ 31) by (apply Z.pow_lt_mono_r; lia).
    rewrite decide_True by (rewrite Z.shiftl_1_l; lia). apply wp_exact. wp_step. apply wp_ret.
    pose proof (vlan_off_bounds datalink b Hb). wp_step. unfold or_field. wp_step.
    apply wp_read16; [lia|lia|]. apply wp_write16; [lia|lia|]. cbn beta. apply wp_ret. split; [done|].
    fold (vlan_tag datalink b). assert (in_u 16 (vlan_tag datalink b)) as Ht by (apply field16_range, Hb).
    replace (u16 (Z.lor (vlan_tag datalink b) (Z.shiftl 1 (id - 1 + 4)))) with (vlan_tag datalink b);
      [by apply set_tag_id|].
    symmetry. unfold wrap. rewrite <- Z.land_ones by lia. rewrite Z.land_lor_distr_l.
    rewrite !Z.land_ones by lia. rewrite (Z.mod_small (vlan_tag datalink b)) by done.
    rewrite Z.shiftl_1_l. replace (2 ^ (id - 1 + 4)) with (2 ^ (id - 1 - 12) * 2 ^ 16)
      by (rewrite <- Z.pow_add_r by lia; f_equal; lia).
    by rewrite Z.mod_mul, Z.lor_0_r.
  - rewrite decide_False; [done|]. intros (_ & ? & Hs). rewrite Z.shiftl_1_l in Hs.
    assert (2 ^ 31 <= 2 ^ (id - 1 + 4)) by (apply Z.pow_le_mono_r; lia). lia.
Qed.

(** ** Witnesses *)

(** An Ethernet header with an 802.1Q tag and the start of an IPv4 header *)
Definition demo_packet : list Z := replicate 12 17 ++ [129; 0; 0; 0; 8; 0] ++ replicate 20 0.
Definition demo_untagged : list Z := replicate 12 17 ++ [8; 0] ++ replicate 24 0.

Lemma demo_headers : has_headers 1 demo_packet ∧ is_vlan 1 demo_packet.
Proof. split; [split; [by apply (bool_decide_unpack (bytes_of _)); vm_compute|vm_compute; congruence]|reflexivity]. Qed.

Lemma tags_roundtrip_witness :
  ∃ b', tag_all 1 [1; 4; 12] true 2 demo_packet = Ok (tt, b') ∧
    check_packet_tagged_as_sampled 1 b' = Ok (true, b') ∧
    GET_VLAN_SELECTED_FLOW_VAL (vlan_tag 1 b') = 2.
Proof.
  destruct (tags_roundtrip 1 demo_packet [1; 4; 12] true 2) as (b' & E & Ec & El & _).
  - apply demo_headers. - apply demo_headers. - repeat constructor; lia. - lia.
  - exists b'. split; [exact E|]. split; [exact Ec|exact El].
Defined.

Lemma untagged_packets_witness :
  ¬ is_vlan 1 demo_untagged ∧ tag_packet_as_sampled 1 demo_untagged = Ok (tt, demo_untagged).
Proof.
  split; [vm_compute; congruence|].
  apply (untagged_packets 1 demo_untagged [1] 2).
  - split; [by apply (bool_decide_unpack (bytes_of _)); vm_compute|vm_compute; congruence].
  - vm_compute. congruence.
Defined.

Lemma switch_tag_bounds_witness :
  tag_packet_for_switches 1 [13] demo_packet = Ok (tt, demo_packet) ∧
  tag_packet_for_switches 1 [28] demo_packet = Fault SignedOverflow.
Proof.
  split.
  - apply (switch_tag_bounds 1 demo_packet 13); [apply demo_headers|apply demo_headers|lia].
  - apply (switch_tag_bounds 1 demo_packet 28); [apply demo_headers|apply demo_headers|lia].
Defined.
