(* ===== verification/CText.v ===== *)
(** * C strings and text files

    Text is a list of characters (their codes), without the terminating NUL.
    The functions of the C library the sources use on it, and those of
    public_lib/general_functions.c. *)
From stdpp Require Import strings.
From S2P Require Import Prelude CMonad.

Abbreviation text := (list Z).

(** A C string literal *)
Definition txt (s : string) : text := (λ c, Z.of_N (Ascii.N_of_ascii c)) <$> String.list_ascii_of_string s.

(** Characters *)
Definition NL : Z := 10.
Definition SP : Z := 32.
Definition HASH : Z := 35.
Definition isspace (c : Z) : bool := bool_decide (c = 32 ∨ 9 <= c <= 13).
Definition isdigit (c : Z) : bool := bool_decide (48 <= c <= 57).

(** ** [strtol(s, NULL, 10)] *)
Fixpoint skip_space (s : text) : text :=
  match s with c :: s' => if isspace c then skip_space s' else s | [] => [] end.
Fixpoint digits (acc : Z) (s : text) : Z :=
  match s with c :: s' => if isdigit c then digits (acc * 10 + (c - 48)) s' else acc | [] => acc end.
Definition clamp_long (x : Z) : Z := Z.max (- 2 ^ 63) (Z.min x (2 ^ 63 - 1)).
Definition strtol (s : text) : Z :=
  match skip_space s with
  | 45 :: s => clamp_long (- digits 0 s)
  | 43 :: s => clamp_long (digits 0 s)
  | s => clamp_long (digits 0 s)
  end.
(** [strtoul(s, NULL, 10)]: a minus sign negates modulo 2^64 *)
Definition clamp_ulong (x : Z) : Z := Z.min x (2 ^ 64 - 1).
Definition strtoul (s : text) : Z :=
  match skip_space s with
  | 45 :: s => if decide (digits 0 s < 2 ^ 64) then u64 (- digits 0 s) else 2 ^ 64 - 1
  | 43 :: s => clamp_ulong (digits 0 s)
  | s => clamp_ulong (digits 0 s)
  end.
(** [(int)strtol(s, NULL, 10)], which is also [atoi(s)] *)
Definition strtol_int (s : text) : Z := i32 (strtol s).

(** ** [getline] until the end of a file: every line with its newline *)
Fixpoint lines_from (cur : text) (s : text) : list text :=
  match s with
  | [] => if decide (cur = []) then [] else [cur]
  | c :: s => if decide (c = NL) then (cur ++ [c]) :: lines_from [] s else lines_from (cur ++ [c]) s
  end.
Definition lines (s : text) : list text := lines_from [] s.

(** ** [strtok] until NULL: the maximal runs of characters other than the
    delimiter *)
Fixpoint tokens_from (cur : text) (delim : Z) (s : text) : list text :=
  match s with
  | [] => if decide (cur = []) then [] else [cur]
  | c :: s =>
      if decide (c = delim) then
        if decide (cur = []) then tokens_from [] delim s else cur :: tokens_from [] delim s
      else tokens_from (cur ++ [c]) delim s
  end.
Definition strtok_all (delim : Z) (s : text) : list text := tokens_from [] delim s.

(** ** [str_split]: the tokens, NULL when the array cannot be allocated; the
    assertions compare their number with the number of delimiters *)
Definition count_delims (delim : Z) (s : text) : Z :=
  Z.of_nat (length (filter (.= delim) s)).
(** [last_comma < (a_str + strlen(a_str) - 1)]; without a delimiter the pointer
    compared is NULL *)
Definition ends_with_token (delim : Z) (s : text) : bool :=
  match last s with Some c => bool_decide (c ≠ delim) | None => true end.
Definition str_split (a_str : text) (a_delim : Z) (mem : bool) : res (option (list text)) :=
  let count := count_delims a_delim a_str + (if ends_with_token a_delim a_str then 1 else 0) + 1 in
  if mem then
    let result := strtok_all a_delim a_str in
    if decide (Z.of_nat (length result) = count - 1) then Ok (Some result) else Fault AssertFail
  else Ok None.

(** ** Decimal numbers *)
Fixpoint dec_fuel (fuel : nat) (n : Z) (acc : text) : text :=
  match fuel with
  | O => acc
  | S fuel =>
      let acc := (48 + n mod 10) :: acc in
      if decide (n < 10) then acc else dec_fuel fuel (n / 10) acc
  end.
(** The digits of [n] *)
Definition dec (n : Z) : text := dec_fuel (S (Z.to_nat (Z.log2 n))) n [].

(** Texts joined by a character *)
Fixpoint join (d : Z) (ts : list text) : text :=
  match ts with [] => [] | [t] => t | t :: ts => t ++ d :: join d ts end.

(** ** [ip_to_str]: the dotted decimal of an address *)

(** [inet_ntoa], of the address in host byte order *)
Definition ip_bytes (ip : Z) : list Z :=
  [Z.shiftr ip 24 mod 256; Z.shiftr ip 16 mod 256; Z.shiftr ip 8 mod 256; ip mod 256].
Definition inet_ntoa (ip : Z) : text := join 46 (dec <$> ip_bytes ip).

(** The buffer is cleared as far as [buffer_len] and the characters are copied
    without their NUL. *)
Definition ip_to_str (ip : Z) (buffer : text) (buffer_len : nat) : res text :=
  let temp := inet_ntoa ip in
  if decide (buffer_len <= length buffer)%nat then
    let buffer := replicate buffer_len 0 ++ drop buffer_len buffer in
    if decide (length temp <= length buffer)%nat then Ok (temp ++ drop (length temp) buffer)
    else Fault OutOfBounds
  else Fault OutOfBounds.

(** *** Reading back a decimal number *)
Lemma digits_app acc s s' :
  Forall (λ c, isdigit c = true) s → digits acc (s ++ s') = digits (digits acc s) s'.
Proof.
  intros Hs. revert acc. induction Hs as [|c s Hc _ IH]; intros acc; simpl; [done|]. by rewrite Hc.
Qed.

Lemma dec_fuel_spec fuel n acc :
  0 <= n → n < 10 ^ Z.of_nat fuel →
  Forall (λ c, isdigit c = true) acc →
  Forall (λ c, isdigit c = true) (dec_fuel fuel n acc) ∧
  ∃ p, dec_fuel fuel n acc = p ++ acc ∧ digits 0 p = n ∧ Forall (λ c, isdigit c = true) p ∧
       (fuel ≠ 0%nat → p ≠ []).
Proof.
  revert n acc. induction fuel as [|fuel IH]; intros n acc Hn Hf Hacc.
  - simpl in *. split; [done|]. exists []. simpl. split_and!; [done|lia|done|done].
  - assert (isdigit (48 + n mod 10) = true) as Hd.
    { unfold isdigit. apply bool_decide_true. pose proof (Z.mod_pos_bound n 10). lia. }
    cbn [dec_fuel]. cbv zeta. case_decide as H10.
    + split; [by constructor|]. exists [48 + n mod 10]. split_and!; [done| |by repeat constructor|done].
      cbn [digits]. rewrite Hd. rewrite Z.mod_small by lia. lia.
    + destruct (IH (n / 10) ((48 + n mod 10) :: acc)) as (H1 & p & E & Ep & Hp & _).
      * apply Z.div_pos; lia.
      * apply Z.div_lt_upper_bound; [lia|]. rewrite Nat2Z.inj_succ, Z.pow_succ_r in Hf by lia. lia.
      * by constructor.
      * split; [done|]. exists (p ++ [48 + n mod 10]). split_and!.
        -- by rewrite E, <- app_assoc.
        -- rewrite digits_app by done. rewrite Ep. cbn [digits]. rewrite Hd.
           pose proof (Z.div_mod n 10). lia.
        -- apply Forall_app. by repeat constructor.
        -- intros _. by destruct p.
Qed.

Lemma dec_spec n :
  0 <= n → Forall (λ c, isdigit c = true) (dec n) ∧ digits 0 (dec n) = n ∧ dec n ≠ [].
Proof.
  intros Hn. destruct (dec_fuel_spec (S (Z.to_nat (Z.log2 n))) n []) as (H1 & p & E & Ep & _ & Hne).
  - done.
  - rewrite Nat2Z.inj_succ, Z2Nat.id by apply Z.log2_nonneg.
    destruct (decide (n = 0)) as [->|]; [done|].
    eapply Z.lt_le_trans; [apply Z.log2_spec; lia|]. apply Z.pow_le_mono_l. lia.
  - constructor.
  - fold (dec n) in H1, E. rewrite app_nil_r in E. rewrite E in *. auto.
Qed.

(** A text that does not start with a digit *)
Definition no_digit (s : text) : Prop := match s with c :: _ => isdigit c = false | [] => True end.

Lemma digits_stop acc s : no_digit s → digits acc s = acc.
Proof. destruct s as [|c s]; simpl; [done|]. by intros ->. Qed.

Lemma digit_not_space c : isdigit c = true → isspace c = false ∧ c ≠ 45 ∧ c ≠ 43.
Proof.
  unfold isdigit, isspace. intros Hc%bool_decide_eq_true. split_and!; [|lia..].
  apply bool_decide_false. lia.
Qed.

(** A decimal number reads back, whatever follows it. *)
Lemma strtol_dec n s : 0 <= n < 2 ^ 63 → no_digit s → strtol (dec n ++ s) = n.
Proof.
  intros Hn Hs. destruct (dec_spec n ltac:(lia)) as (Hd & En & Hne).
  destruct (dec n) as [|c t] eqn:E; [done|]. apply Forall_cons_1 in Hd as Hc. destruct Hc as [Hc _].
  destruct (digit_not_space c Hc) as (Hsp & H45 & H43).
  assert (strtol ((c :: t) ++ s) = clamp_long (digits 0 ((c :: t) ++ s))) as ->.
  { unfold strtol. simpl skip_space. rewrite Hsp.
    destruct c as [|p|p]; try done. by do 6 (destruct p; try done). }
  rewrite digits_app, En, digits_stop by done. unfold clamp_long. lia.
Qed.

Lemma strtoul_dec n s : 0 <= n < 2 ^ 64 → no_digit s → strtoul (dec n ++ s) = n.
Proof.
  intros Hn Hs. destruct (dec_spec n ltac:(lia)) as (Hd & En & Hne).
  destruct (dec n) as [|c t] eqn:E; [done|]. apply Forall_cons_1 in Hd as Hc. destruct Hc as [Hc _].
  destruct (digit_not_space c Hc) as (Hsp & H45 & H43).
  assert (strtoul ((c :: t) ++ s) = clamp_ulong (digits 0 ((c :: t) ++ s))) as ->.
  { unfold strtoul. simpl skip_space. rewrite Hsp.
    destruct c as [|p|p]; try done. by do 6 (destruct p; try done). }
  rewrite digits_app, En, digits_stop by done. unfold clamp_ulong. lia.
Qed.

Lemma strtol_int_dec n s : 0 <= n < 2 ^ 31 → no_digit s → strtol_int (dec n ++ s) = n.
Proof.
  intros Hn Hs. unfold strtol_int. rewrite strtol_dec; [|split; lia|done]. apply i32_of_u32_low. lia.
Qed.

(** *** Splitting joined texts *)
Definition token_ok (d : Z) (t : text) : Prop := t ≠ [] ∧ d ∉ t.

Lemma tokens_from_app cur d t s : d ∉ t → tokens_from cur d (t ++ s) = tokens_from (cur ++ t) d s.
Proof.
  revert cur. induction t as [|c t IH]; intros cur Hd; simpl; [by rewrite app_nil_r|].
  rewrite decide_False by set_solver. rewrite IH by set_solver. by rewrite <- app_assoc.
Qed.

Lemma strtok_join d ts : Forall (token_ok d) ts → strtok_all d (join d ts) = ts.
Proof.
  unfold strtok_all. induction 1 as [|t ts [Hne Hd] Hts IH]; [done|].
  destruct ts as [|t' ts].
  - simpl. rewrite <- (app_nil_r t) at 1. rewrite tokens_from_app by done. simpl. by rewrite decide_False.
  - change (join d (t :: t' :: ts)) with (t ++ d :: join d (t' :: ts)).
    rewrite tokens_from_app by done. cbn [tokens_from]. rewrite decide_True by done.
    simpl app. rewrite decide_False by done. by rewrite IH.
Qed.

Lemma count_delims_app d s s' : count_delims d (s ++ s') = count_delims d s + count_delims d s'.
Proof. unfold count_delims. rewrite filter_app, length_app. lia. Qed.
Lemma count_delims_none d s : d ∉ s → count_delims d s = 0.
Proof.
  intros Hd. unfold count_delims. induction s as [|c s IH]; [done|].
  rewrite filter_cons_False by set_solver. apply IH. set_solver.
Qed.

Lemma count_delims_join d ts :
  ts ≠ [] → Forall (token_ok d) ts → count_delims d (join d ts) = Z.of_nat (length ts) - 1.
Proof.
  intros Hne. induction 1 as [|t ts [_ Hd] Hts IH]; [done|]. destruct ts as [|t' ts].
  - simpl. by rewrite count_delims_none.
  - change (join d (t :: t' :: ts)) with (t ++ [d] ++ join d (t' :: ts)).
    rewrite !count_delims_app, count_delims_none, IH by done.
    assert (count_delims d [d] = 1) as -> by (unfold count_delims; by rewrite filter_cons_True).
    simpl length. lia.
Qed.

Lemma ends_join d ts : Forall (token_ok d) ts → ends_with_token d (join d ts) = true.
Proof.
  unfold ends_with_token. induction 1 as [|t ts [Hne Hd] Hts IH]; [done|]. destruct ts as [|t' ts].
  - simpl. destruct (last t) as [c|] eqn:E; [|done]. apply bool_decide_true. intros ->.
    apply Hd. apply last_Some in E as [l ->]. set_solver.
  - change (join d (t :: t' :: ts)) with (t ++ [d] ++ join d (t' :: ts)).
    rewrite !last_app. destruct (last (join d (t' :: ts))) eqn:E; [done|]. exfalso.
    apply last_None in E. inversion Hts as [|?? [Hne' _] _]; subst. destruct ts; simpl in E; [done|].
    by destruct t'.
Qed.

Lemma str_split_join d ts :
  ts ≠ [] → Forall (token_ok d) ts → str_split (join d ts) d true = Ok (Some ts).
Proof.
  intros Hne Hts. unfold str_split. rewrite strtok_join, count_delims_join, ends_join by done.
  by rewrite decide_True by lia.
Qed.

(** A number has no other characters than its digits. *)
Lemma dec_not c n : 0 <= n → isdigit c = false → c ∉ dec n.
Proof.
  intros Hn Hc Hin. destruct (dec_spec n Hn) as (Hd & _). rewrite Forall_forall in Hd.
  by rewrite (Hd c Hin) in Hc.
Qed.

(** The newline of a line belongs to its last token. *)
Lemma join_snoc_nl d (ts : list text) t : join d (ts ++ [t]) ++ [NL] = join d (ts ++ [t ++ [NL]]).
Proof.
  induction ts as [|u ts IH]; [done|].
  change ((u :: ts) ++ [t]) with (u :: (ts ++ [t])). change ((u :: ts) ++ [t ++ [NL]]) with (u :: (ts ++ [t ++ [NL]])).
  destruct (ts ++ [t]) as [|x xs] eqn:E1; [by destruct ts|].
  destruct (ts ++ [t ++ [NL]]) as [|y ys] eqn:E2; [by destruct ts|].
  change (join d (u :: x :: xs)) with (u ++ d :: join d (x :: xs)).
  change (join d (u :: y :: ys)) with (u ++ d :: join d (y :: ys)). by rewrite <- IH, <- app_assoc.
Qed.

(** *** Reading lines *)
Lemma lines_from_app cur t s : NL ∉ t → lines_from cur (t ++ s) = lines_from (cur ++ t) s.
Proof.
  revert cur. induction t as [|c t IH]; intros cur Hd; simpl; [by rewrite app_nil_r|].
  rewrite decide_False by set_solver. rewrite IH by set_solver. by rewrite <- app_assoc.
Qed.

Lemma lines_concat (ls : list text) :
  Forall (λ l, NL ∉ l) ls → lines (mjoin ((λ l, l ++ [NL]) <$> ls)) = (λ l, l ++ [NL]) <$> ls.
Proof.
  unfold lines. induction 1 as [|l ls Hl Hls IH]; [done|]. cbn [fmap list_fmap mjoin list_join].
  rewrite <- app_assoc, lines_from_app by done. cbn [app lines_from].
  rewrite decide_True by done. f_equal. exact IH.
Qed.

(** *** The text of an address *)
Lemma dec_byte_length n : 0 <= n < 256 → (length (dec n) <= 3)%nat.
Proof.
  intros Hn. assert (Forall (λ i : nat, (length (dec (Z.of_nat i)) <= 3)%nat) (seq 0 256)) as Hall.
  { apply (bool_decide_unpack _). by vm_compute. }
  rewrite Forall_forall in Hall. rewrite <- (Z2Nat.id n) by lia. apply Hall, elem_of_seq. lia.
Qed.

Lemma length_join4 d (t1 t2 t3 t4 : text) :
  length (join d [t1; t2; t3; t4]) = (length t1 + length t2 + length t3 + length t4 + 3)%nat.
Proof. simpl. rewrite !length_app. simpl. rewrite !length_app. simpl. rewrite !length_app. simpl. lia. Qed.

Lemma ip_bytes_range ip : Forall (λ b, 0 <= b < 256) (ip_bytes ip).
Proof. unfold ip_bytes. repeat constructor; by apply Z.mod_pos_bound. Qed.

(** With the callers' buffers of 100 characters the text fits, ends with a NUL
    and its four numbers are the bytes of the address. *)
Lemma ip_to_str_ok ip buffer :
  length buffer = 100%nat →
  ∃ n, (85 <= n)%nat ∧ ip_to_str ip buffer 100 = Ok (inet_ntoa ip ++ replicate n 0) ∧
       strtol <$> strtok_all 46 (inet_ntoa ip) = ip_bytes ip.
Proof.
  intros Hb. pose proof (ip_bytes_range ip) as Hr.
  assert (length (inet_ntoa ip) <= 15)%nat as Hl.
  { unfold inet_ntoa, ip_bytes in *. cbn [fmap list_fmap]. rewrite length_join4.
    repeat (apply Forall_cons in Hr as [?%dec_byte_length Hr]). lia. }
  exists (100 - length (inet_ntoa ip))%nat. split_and!; [lia| |].
  - unfold ip_to_str. cbv zeta. rewrite decide_True by lia. rewrite (drop_ge buffer), app_nil_r by lia.
    rewrite length_replicate, decide_True by lia. by rewrite drop_replicate.
  - unfold inet_ntoa. rewrite strtok_join.
    + rewrite <- list_fmap_compose. rewrite <- (list_fmap_id (ip_bytes ip)) at 2.
      apply list_fmap_ext. intros i b Hi. apply (Forall_lookup_1 _ _ _ _ Hr) in Hi. simpl.
      rewrite <- (app_nil_r (dec b)). apply strtol_dec; [lia|done].
    + apply Forall_fmap. eapply Forall_impl; [exact Hr|]. intros b Hb'. simpl in Hb'.
      split; [exact (proj2 (proj2 (dec_spec b ltac:(lia))))|]. apply dec_not; [lia|done].
Qed.
