(* ===== verification/TaskManager.v ===== *)
(** * The tasks of a sender (tcpreplay/src/task_manager.c)

    The measurement tasks read from the task file: which pairs of hosts are
    monitored, and by which switches.  Printing the tasks is left out. *)
From S2P Require Import Prelude CMonad CText Flow.

(** The macros of task_manager.h and packet.h *)
Definition MAX_TASK_NUM : Z := 200.
Definition MAX_MONITORS : Z := 12.
Definition IP_MASK : Z := 4278190080.              (* 0xFF000000 *)
Definition START_IP : Z := 167772160.              (* 0x0A000000 *)
Definition ONE_SENDER_IP_NUM : Z := 16777216.      (* 0x01000000 *)

(** An [int] expression *)
Definition int_result {S} (x : Z) : cmd S Z :=
  if decide (in_s 32 x) then mret x else throw SignedOverflow.
Definition ITH_SENDER_START_IP {S} (i : Z) : cmd S Z :=
  n ← int_result (ONE_SENDER_IP_NUM * i); int_result (START_IP + n).

(** [task_t]; [monitor_switch_ids] holds the [num_monitors] identifiers set *)
Record task_t := Task {
  taskid : Z; sender_host : Z; receiver_host : Z;
  monitor_switch_ids : list Z;
  srcip_prefix : Z; dstip_prefix : Z
}.
Definition num_monitors (t : task_t) : Z := Z.of_nat (length (monitor_switch_ids t)).
Definition no_task : task_t := Task 0 0 0 [] 0 0.

(** [task_manager_t]: the [num_tasks] tasks set *)
Definition task_manager_t : Type := list task_t.
Definition num_tasks (m : task_manager_t) : Z := Z.of_nat (length m).

(** One token: the [i]-th field of the task *)
Definition read_field (i : nat) (token : text) (t : task_t) : res task_t :=
  let v := strtol_int token in
  match i with
  | 0%nat => Ok (Task v (sender_host t) (receiver_host t) (monitor_switch_ids t)
                (srcip_prefix t) (dstip_prefix t))
  | 1%nat => Ok (Task (taskid t) v (receiver_host t) (monitor_switch_ids t)
                (srcip_prefix t) (dstip_prefix t))
  | 2%nat => Ok (Task (taskid t) (sender_host t) v (monitor_switch_ids t)
                (srcip_prefix t) (dstip_prefix t))
  | _ => if decide (num_monitors t < MAX_MONITORS)
         then Ok (Task (taskid t) (sender_host t) (receiver_host t)
                   (monitor_switch_ids t ++ [v]) (srcip_prefix t) (dstip_prefix t))
         else Fault OutOfBounds
  end.
Fixpoint read_fields (i : nat) (tokens : list text) (t : task_t) : res task_t :=
  match tokens with
  | [] => Ok t
  | token :: tokens =>
      match read_field i token t with Ok t => read_fields (S i) tokens t | Fault e => Fault e end
  end.

(** [read_one_task_from_one_line]: the returned 0 or -1 and the task; [mem] is
    the outcome of the allocation of the tokens, which is not tested *)
Definition read_one_task_from_one_line (line_buffer : text) (mem : bool) : res (Z * task_t) :=
  match str_split line_buffer SP mem with
  | Fault e => Fault e
  | Ok None => Fault NullDeref
  | Ok (Some tokens) =>
      match read_fields 0 tokens no_task with
      | Fault e => Fault e
      | Ok t => Ok (if decide (num_monitors t = 0) then -1 else 0, t)
      end
  end.

(** The loop over the lines of the file *)
Fixpoint read_lines (ls : list text) (hostid : Z) (m : task_manager_t) : res (Z * task_manager_t) :=
  match ls with
  | [] => Ok (0, m)
  | line_buffer :: ls =>
      if decide (head line_buffer = Some HASH) then read_lines ls hostid m else
      match read_one_task_from_one_line line_buffer true with
      | Fault e => Fault e
      | Ok (ret, task) =>
          if decide (ret = 0) then
            if decide (sender_host task = hostid) then
              if decide (num_tasks m < MAX_TASK_NUM) then read_lines ls hostid (m ++ [task])
              else Fault OutOfBounds
            else read_lines ls hostid m
          else Ok (-1, m)
      end
  end.

(** [read_tasks_from_file]; [None] when the file cannot be opened *)
Definition read_tasks_from_file (file : option text) (hostid : Z) : res (Z * task_manager_t) :=
  match file with None => Ok (-1, []) | Some s => read_lines (lines s) hostid [] end.

(** [init_task_srcip_dstip_prefixes] *)
Definition init_prefix (t : task_t) : res task_t :=
  match (s ← ITH_SENDER_START_IP (sender_host t - 1); d ← ITH_SENDER_START_IP (receiver_host t - 1);
         mret (u32 s, u32 d)) tt with
  | Ok ((s, d), _) => Ok (Task (taskid t) (sender_host t) (receiver_host t) (monitor_switch_ids t) s d)
  | Fault e => Fault e
  end.
Fixpoint init_task_srcip_dstip_prefixes (m : task_manager_t) : res task_manager_t :=
  match m with
  | [] => Ok []
  | t :: m =>
      match init_prefix t with
      | Fault e => Fault e
      | Ok t => match init_task_srcip_dstip_prefixes m with Ok m => Ok (t :: m) | Fault e => Fault e end
      end
  end.

(** The text before a character *)
Fixpoint before (d : Z) (s : text) : text :=
  match s with c :: s => if decide (c = d) then [] else c :: before d s | [] => [] end.

(** [get_mininet_host_name]: the part of the device's name before the dash; the
    buffer of 100 characters is not checked *)
Definition get_mininet_host_name (dev : option text) : res (option text) :=
  match dev with
  | None => Ok None
  | Some dev =>
      if decide (45 ∈ dev) then
        if decide (Z.of_nat (length dev) <= 100) then Ok (Some (before 45 dev))
        else Fault OutOfBounds
      else Ok None
  end.

(** [init_tasks_info] *)
Definition init_tasks_info (dev file : option text) : res (Z * task_manager_t) :=
  match get_mininet_host_name dev with
  | Fault e => Fault e
  | Ok None => Ok (-1, [])
  | Ok (Some hostname) =>
      (* [hostname+1] of an empty name lies behind its NUL *)
      if decide (hostname = []) then Fault Uninit else
      let hostid := strtol_int (tail hostname) in
      match read_tasks_from_file file hostid with
      | Fault e => Fault e
      | Ok (ret, m) =>
          if decide (ret ≠ 0) then Ok (-1, m) else
          match init_task_srcip_dstip_prefixes m with Ok m => Ok (0, m) | Fault e => Fault e end
      end
  end.

(** [get_task_of_traffic], in the FLOW_SRC_DST build; the FLOW_SRC build
    returns NULL for every flow *)
Definition task_matches (p_flow : FlowSrcDst.flow_src_t) (t : task_t) : bool :=
  bool_decide (Z.land (FlowSrcDst.srcip p_flow) IP_MASK = srcip_prefix t) &&
  bool_decide (Z.land (FlowSrcDst.dstip p_flow) IP_MASK = dstip_prefix t).
Fixpoint get_task_of_traffic (m : task_manager_t) (p_flow : FlowSrcDst.flow_src_t) : option task_t :=
  match m with
  | [] => None
  | t :: m => if task_matches p_flow t then Some t else get_task_of_traffic m p_flow
  end.
Definition get_task_of_traffic_src (m : task_manager_t) (p_flow : FlowSrc.flow_src_t) : option task_t := None.
