(* ===== verification/TaskProps.v ===== *)
(** * Properties of the task manager *)
From S2P Require Import Prelude CMonad CText Flow TaskManager.

(** ** The file of tasks, as it is written *)
Inductive file_line := TaskLine (t : task_t) | CommentLine (s : text).

Definition task_numbers (t : task_t) : list Z :=
  taskid t :: sender_host t :: receiver_host t :: monitor_switch_ids t.
Definition render_line (l : file_line) : text :=
  match l with
  | TaskLine t => join SP (map dec (task_numbers t))
  | CommentLine s => HASH :: s
  end ++ [NL].
Definition render_file (ls : list file_line) : text := mjoin (map render_line ls).

Definition task_ok (t : task_t) : Prop :=
  Forall (λ n, 0 <= n < 2 ^ 31) (task_numbers t) ∧ 1 <= num_monitors t <= MAX_MONITORS ∧
  srcip_prefix t = 0 ∧ dstip_prefix t = 0.
Definition line_ok (l : file_line) : Prop :=
  match l with TaskLine t => task_ok t | CommentLine s => NL ∉ s end.
Definition tasks_of (hostid : Z) (ls : list file_line) : task_manager_t :=
  omap (λ l, match l with
             | TaskLine t => if decide (sender_host t = hostid) then Some t else None
             | CommentLine _ => None end) ls.

(** A token: a number and what follows it *)
Definition tok (p : Z * text) : text := dec p.1 ++ p.2.
Definition tok_ok (p : Z * text) : Prop := 0 <= p.1 < 2 ^ 31 ∧ no_digit p.2 ∧ SP ∉ p.2.

Lemma tok_value p : tok_ok p → strtol_int (tok p) = p.1.
Proof. intros (Hn & Hs & _). by apply strtol_int_dec. Qed.

Lemma tok_token p : tok_ok p → token_ok SP (tok p).
Proof.
  intros (Hn & _ & Hs). destruct (dec_spec p.1 ltac:(lia)) as (_ & _ & Hne). unfold tok. split.
  - by destruct (dec p.1).
  - rewrite not_elem_of_app. split; [by apply dec_not; [lia|]|done].
Qed.

Lemma read_monitors i ps t :
  (3 <= i)%nat → Forall tok_ok ps → num_monitors t + Z.of_nat (length ps) <= MAX_MONITORS →
  read_fields i (map tok ps) t
  = Ok (Task (taskid t) (sender_host t) (receiver_host t) (monitor_switch_ids t ++ map fst ps)
          (srcip_prefix t) (dstip_prefix t)).
Proof.
  intros Hi Hps. revert i t Hi. induction Hps as [|p ps Hp Hps IH]; intros i t Hi Hnum; simpl.
  - rewrite app_nil_r. by destruct t.
  - do 3 (destruct i as [|i]; [lia|]). cbn [read_field]. simpl in Hnum.
    rewrite decide_True by lia. rewrite tok_value, IH by (done || lia ||
      (unfold num_monitors in *; simpl; rewrite length_app; simpl; lia)).
    simpl. by rewrite <- app_assoc.
Qed.

Lemma read_rendered_task t :
  task_ok t → read_one_task_from_one_line (render_line (TaskLine t)) true = Ok (0, t).
Proof.
  intros (Hnums & Hmon & Hsp & Hdp). unfold read_one_task_from_one_line, render_line.
  destruct t as [ti sh rh ms sp dp]. unfold num_monitors, task_numbers in *. cbn [taskid sender_host receiver_host monitor_switch_ids srcip_prefix dstip_prefix] in *. subst sp dp.
  destruct (exists_last (l := ms)) as (ms' & m & ->); [intros ->; simpl in *; lia|].
  set (ns := ti :: sh :: rh :: ms').
  change (ti :: sh :: rh :: ms' ++ [m]) with (ns ++ [m]) in *.
  set (ps := map (λ n, (n, [] : text)) ns ++ [(m, [NL])]).
  assert (join SP (map dec (ns ++ [m])) ++ [NL] = join SP (map tok ps)) as ->.
  { rewrite map_app. change (map dec [m]) with [dec m]. rewrite join_snoc_nl. unfold ps. rewrite map_app, map_map. do 2 f_equal.
    apply map_ext. intros n. unfold tok. simpl. by rewrite app_nil_r. }
  assert (Forall tok_ok ps) as Hps.
  { apply Forall_app in Hnums as [Hns Hm]. apply Forall_cons_1 in Hm as [Hm _]. apply Forall_app. split.
    - apply Forall_fmap. eapply Forall_impl; [exact Hns|]. intros n Hn. split; [exact Hn|]. split; [done|set_solver].
    - apply Forall_singleton. split; [exact Hm|]. split; [done|]. by intros ?%list_elem_of_singleton. }
  rewrite str_split_join; [|by unfold ps, ns|].
  2:{ apply Forall_fmap. eapply Forall_impl; [exact Hps|]. apply tok_token. }
  unfold ps, ns in *. simpl map in *. apply Forall_cons_1 in Hps as [H1 Hps].
  apply Forall_cons_1 in Hps as [H2 Hps]. apply Forall_cons_1 in Hps as [H3 Hps].
  cbn [app map read_fields read_field]. rewrite !tok_value by done.
  rewrite read_monitors; [|lia|done|].
  - simpl. unfold num_monitors. simpl. rewrite map_app, map_map, map_id. simpl.
    rewrite decide_False; [done|]. lia.
  - unfold num_monitors. simpl. rewrite length_app, length_map in *. simpl in *. lia.
Qed.

(** ** Reading the file back *)
Lemma read_rendered ls hostid m :
  Forall line_ok ls → num_tasks (m ++ tasks_of hostid ls) <= MAX_TASK_NUM →
  read_lines (map render_line ls) hostid m = Ok (0, m ++ tasks_of hostid ls).
Proof.
  intros Hls. revert m. induction Hls as [|l ls Hl Hls IH]; intros m Hm.
  { simpl. by rewrite app_nil_r. }
  cbn [map]. destruct l as [t|s].
  - assert (head (render_line (TaskLine t)) ≠ Some HASH) as Hh.
    { unfold render_line. destruct Hl as (Hn & _). apply Forall_cons_1 in Hn as [Hn _].
      destruct (dec_spec (taskid t) ltac:(lia)) as (Hd & _ & Hne). unfold task_numbers. simpl.
      destruct (dec (taskid t)) as [|c r]; [done|]. simpl. intros [= ->].
      apply Forall_cons_1 in Hd as [Hd _]. done. }
    cbn [read_lines]. rewrite decide_False by done. rewrite read_rendered_task by done.
    rewrite decide_True by done. unfold tasks_of in *. simpl in *. case_decide.
    + rewrite decide_True.
      * rewrite IH; by rewrite <- app_assoc.
      * unfold num_tasks in *. rewrite length_app in Hm. simpl in Hm. lia.
    + by apply IH.
  - cbn [read_lines]. unfold tasks_of in *. simpl in *. by apply IH.
Qed.

(** C24. The task file is read back as it was written: a file of task lines (the
    numbers of a task separated by spaces) and comments is read without an
    error, and gives exactly the tasks of this host, in order; fields, monitors
    and their number are those written.  (Up to 12 monitors a task and 200
    tasks a host, the sizes of the arrays.) *)
Theorem tasks_read_back ls hostid :
  Forall line_ok ls → num_tasks (tasks_of hostid ls) <= MAX_TASK_NUM →
  read_tasks_from_file (Some (render_file ls)) hostid = Ok (0, tasks_of hostid ls).
Proof.
  intros Hls Hn. unfold read_tasks_from_file.
  assert (lines (render_file ls) = map render_line ls) as ->; [|by apply (read_rendered ls hostid [])].
  assert (∀ l, line_ok l → ∃ s, render_line l = s ++ [NL] ∧ NL ∉ s) as Hline.
  { intros [t|s] Hl; [|exists (HASH :: s); split; [done|]; set_solver].
    eexists. split; [reflexivity|]. destruct Hl as (Hn' & _). clear -Hn'.
    induction (task_numbers t) as [|n ns IH]; [simpl; set_solver|].
    apply Forall_cons in Hn' as [Hn Hns]. assert (NL ∉ dec n) as Hd by (by apply dec_not; [lia|]).
    destruct ns as [|n' ns]; [done|].
    change (join SP (map dec (n :: n' :: ns))) with (dec n ++ SP :: join SP (map dec (n' :: ns))).
    specialize (IH Hns). rewrite not_elem_of_app, not_elem_of_cons. done. }
  unfold render_file. clear Hn.
  assert (∃ ss, map render_line ls = (λ l, l ++ [NL]) <$> ss ∧ Forall (λ l, NL ∉ l) ss) as (ss & -> & Hss).
  { induction Hls as [|l ls Hl Hls (ss & E & Hss)]; [by exists []|].
    destruct (Hline l Hl) as (s & Es & Hs). exists (s :: ss). simpl. rewrite Es, E.
    split; [done|by constructor]. }
  by apply lines_concat.
Qed.

(** ** Looking a task up *)

(** The host an address belongs to: 10.0.0.0/8 is host 1, 11.0.0.0/8 host 2... *)
Definition host_of (ip : Z) : Z := ip / 2 ^ 24 - 9.
Definition host_ok (h : Z) : Prop := 1 <= h <= 118.
Definition with_prefixes (t : task_t) : task_t :=
  Task (taskid t) (sender_host t) (receiver_host t) (monitor_switch_ids t)
    ((sender_host t + 9) * 2 ^ 24) ((receiver_host t + 9) * 2 ^ 24).

Lemma land_IP_MASK ip : in_u 32 ip → Z.land ip IP_MASK = (ip / 2 ^ 24) * 2 ^ 24.
Proof.
  intros [H0 H1]. rewrite <- Z.shiftr_div_pow2, <- Z.shiftl_mul_pow2 by lia.
  apply Z.bits_inj'. intros i Hi. rewrite Z.land_spec, Z.shiftl_spec by done.
  change IP_MASK with (Z.shiftl (Z.ones 8) 24). rewrite Z.shiftl_spec by done.
  destruct (decide (i < 24)) as [Hlt|Hge].
  - rewrite !(Z.testbit_neg_r _ (i - 24)) by lia. apply andb_false_r.
  - rewrite Z.shiftr_spec by lia. replace (i - 24 + 24) with i by lia.
    destruct (decide (i < 32)) as [Hlt|Hge'].
    + rewrite Z.ones_spec_low by lia. apply andb_true_r.
    + rewrite Z.ones_spec_high by lia. rewrite andb_false_r. symmetry.
      destruct (decide (ip = 0)) as [->|]; [apply Z.testbit_0_l|]. apply Z.bits_above_log2; [done|].
      assert (Z.log2 ip < 32) by (apply Z.log2_lt_pow2; lia). lia.
Qed.

Lemma init_prefix_ok t :
  host_ok (sender_host t) → host_ok (receiver_host t) → init_prefix t = Ok (with_prefixes t).
Proof.
  unfold host_ok. intros Hs Hr. unfold init_prefix.
  assert (∀ h, 1 <= h <= 118 → ITH_SENDER_START_IP (h - 1) tt = Ok ((h + 9) * 2 ^ 24, tt)) as Hip.
  { intros h Hh. unfold ITH_SENDER_START_IP, int_result, mbind, cmd_bind, ONE_SENDER_IP_NUM, START_IP.
    assert (∀ x, 0 <= x < 2 ^ 31 → in_s 32 x) as Hin by (intros x Hx; unfold in_s; simpl in *; lia).
    rewrite (decide_True (P := in_s 32 (16777216 * (h - 1)))) by (apply Hin; lia).
    unfold mret, cmd_ret. rewrite decide_True by (apply Hin; lia). do 2 f_equal. lia. }
  rewrite (bind_ok _ _ _ _ _ (Hip _ Hs)), (bind_ok _ _ _ _ _ (Hip _ Hr)). unfold mret, cmd_ret.
  unfold with_prefixes. rewrite !wrap_small by (unfold in_u; lia). done.
Qed.

Lemma matches_iff flow t :
  in_u 32 (FlowSrcDst.srcip flow) → in_u 32 (FlowSrcDst.dstip flow) →
  task_matches flow (with_prefixes t) =
  bool_decide (sender_host t = host_of (FlowSrcDst.srcip flow) ∧
               receiver_host t = host_of (FlowSrcDst.dstip flow)).
Proof.
  intros Hs Hd. unfold task_matches. rewrite !land_IP_MASK by done. rewrite <- bool_decide_and.
  apply bool_decide_ext. unfold with_prefixes, host_of. simpl srcip_prefix. simpl dstip_prefix. lia.
Qed.

(** The task of a packet is the one of its hosts: once the prefixes are
    initialised, for tasks between hosts 1 to 118, [get_task_of_traffic] finds
    the first task whose sender owns the source address (the address block
    10.0.0.0/8 belongs to host 1, and so on) and whose receiver owns the
    destination address, and NULL when the pair of hosts has no task. *)
Theorem task_lookup m flow :
  Forall (λ t, host_ok (sender_host t) ∧ host_ok (receiver_host t)) m →
  in_u 32 (FlowSrcDst.srcip flow) → in_u 32 (FlowSrcDst.dstip flow) →
  ∃ m', init_task_srcip_dstip_prefixes m = Ok m' ∧
    get_task_of_traffic m' flow =
    with_prefixes <$> find (λ t, bool_decide (sender_host t = host_of (FlowSrcDst.srcip flow) ∧
                                              receiver_host t = host_of (FlowSrcDst.dstip flow))) m.
Proof.
  intros Hm Hs Hd. exists (map with_prefixes m). split.
  - induction Hm as [|t m [Ht1 Ht2] Hm IH]; simpl; [done|]. by rewrite init_prefix_ok, IH.
  - clear Hm. induction m as [|t m IH]; simpl; [done|]. rewrite matches_iff by done.
    by case_bool_decide.
Qed.

(** ** Witnesses *)

(** The start of the repository's task file *)
Definition demo_tasks : list file_line :=
  [CommentLine [32; 113; 51]; TaskLine (Task 1 1 7 [4; 6] 0 0); TaskLine (Task 13 3 5 [4; 6] 0 0);
   TaskLine (Task 14 3 7 [4; 6] 0 0)].

Lemma tasks_read_back_witness :
  render_line (TaskLine (Task 1 1 7 [4; 6] 0 0)) = [49; 32; 49; 32; 55; 32; 52; 32; 54; 10] ∧
  read_tasks_from_file (Some (render_file demo_tasks)) 3
  = Ok (0, [Task 13 3 5 [4; 6] 0 0; Task 14 3 7 [4; 6] 0 0]).
Proof.
  split; [reflexivity|]. apply (tasks_read_back demo_tasks 3).
  - repeat constructor; try done. simpl. set_solver.
  - done.
Defined.

Lemma task_lookup_witness :
  ∃ m', init_task_srcip_dstip_prefixes [Task 13 3 5 [4; 6] 0 0; Task 14 3 7 [4; 6] 0 0] = Ok m' ∧
    get_task_of_traffic m' (FlowSrcDst.FlowSrcT 201326593 268435457)
    = Some (with_prefixes (Task 14 3 7 [4; 6] 0 0)).
Proof.
  destruct (task_lookup [Task 13 3 5 [4; 6] 0 0; Task 14 3 7 [4; 6] 0 0]
    (FlowSrcDst.FlowSrcT 201326593 268435457)) as (m' & E & El).
  - repeat constructor; unfold host_ok; simpl; lia.
  - done.
  - done.
  - exists m'. split; [exact E|exact El].
Defined.
