(* ===== verification/SendPacket.v ===== *)
(** * The sending path (cm_handle_ipv4_packet of tcpreplay/src/send_packets.c)

    What the sender does to each packet before it leaves: it records the packet
    as sent, samples it, tags its VLAN header for the switches that monitor its
    task, and accounts for its volume. *)
From S2P Require Import Prelude CMonad CFloat ChainedTable TableSpec FixSizeTable FixSizeIface.
From S2P Require Import Flow PktListTable ObjStore Settings Sample FlowTables Warehouse.
From S2P Require Import Bytes VlanTag TaskManager.

(** Sizes and offsets of the header structures of tcpr.h *)
Definition TCPR_IPV4_H : Z := 20.
Definition sizeof_eth_hdr : Z := 14.
Definition sizeof_ipv4_hdr : Z := 20.
Definition off_ip_p : Z := 9.
Definition off_ip_src : Z := 12.
Definition off_ip_dst : Z := 16.
Definition off_th_sport : Z := 0.
Definition off_th_dport : Z := 2.
Definition off_th_seq : Z := 4.

(** [while (ether_type == ETHERTYPE_VLAN) ...]: the type and the length of the
    headers in the end *)
Fixpoint skip_vlans (fuel : nat) (ether_type l2_len : Z) : cmd (list Z) (Z * Z) :=
  if decide (ether_type = ETHERTYPE_VLAN) then
    match fuel with
    | O => throw OutOfFuel
    | S fuel =>
        t ← read16 (l2_len + off_vlan_len);
        skip_vlans fuel (ntohs t) (l2_len + 4)
    end
  else mret (ether_type, l2_len).

(** The headers of an IPv4 packet: the flow and the sequence number, [None] for
    any other type *)
Definition parse_ipv4 (datalink : Z) : cmd (list Z) (option (flow_s * Z)) :=
  l2_len ← l2_offset datalink;
  t ← read16 (l2_len + off_ether_type);
  fuel ← gets (length (A:=Z));
  '(ether_type, l2_len) ← skip_vlans fuel (ntohs t) l2_len;
  let l2_len := l2_len + sizeof_eth_hdr in
  if decide (ether_type = ETHERTYPE_IP) then
    srcip ← read32 (l2_len + off_ip_src);
    dstip ← read32 (l2_len + off_ip_dst);
    protocol ← read8 (l2_len + off_ip_p);
    let tcp_hdr := l2_len + sizeof_ipv4_hdr in
    sport ← read16 (tcp_hdr + off_th_sport);
    dport ← read16 (tcp_hdr + off_th_dport);
    seqid ← read32 (tcp_hdr + off_th_seq);
    mret (Some (Flow (ntohl srcip) (ntohl dstip) (ntohs sport) (ntohs dport) protocol, ntohl seqid))
  else mret None.

Section send.
Context {K VI VF FX : Type} `{KeyOps K} `{!FlowTable K Z Z VI}.
Context `{!FlowTable K c_float c_float VF} `{!FixedTable K FX} `{!PacketFlow K}.
Context (setting : cm_experiment_setting_t).
(** [get_task_of_traffic] on the tasks of this host *)
Context (task_of_traffic : K → option task_t).

(** The warehouse and the packet's buffer *)
Record send_state := SendState { ss_dw : data_warehouse_t VI VF FX; ss_buf : list Z }.
Definition on_dw {A} (c : cmd (data_warehouse_t VI VF FX) A) : cmd send_state A :=
  zoom ss_dw (λ d s, SendState d (ss_buf s)) c.
Definition on_buf {A} (c : cmd (list Z) A) : cmd send_state A :=
  zoom ss_buf (λ b s, SendState (ss_dw s) b) c.

(** The choice to sample a packet, at the sender *)
Definition sample_at_host (flow_selected_level : option loc) (flow_src : K) (total_pkt_len : Z)
    : cmd (data_warehouse_t VI VF FX) Z :=
  level ← call_vi flow_selected_level (ft_get flow_src);
  if decide (level > NO_SELECTED_LEVEL) then mret 1
  else
    m ← data_warehouse_get flow_sample_map;
    sample_packet setting g_drand48 (λ k, call_vi m (ft_get k)) (λ k v, call_vi m (ft_set k v))
      flow_src total_pkt_len.

(** What is done to a packet of a task *)
Definition tag_task_packet (p_task : task_t) (datalink : Z) (flow_src : K) (total_pkt_len : Z)
    : cmd send_state unit :=
  on_buf (tag_packet_for_switches datalink (monitor_switch_ids p_task));;
  levels ← on_dw (data_warehouse_get flow_selected_level_map);
  (if decide (host_or_switch_sample setting = HOST_SAMPLE) then
     sampled ← on_dw (sample_at_host levels flow_src total_pkt_len);
     if decide (sampled ≠ 0) then
       on_buf (tag_packet_as_sampled datalink);;
       on_dw (update_flow_not_sampled_volume flow_src)
     else mret tt
   else mret tt);;
  (if decide (host_or_switch_sample setting = HOST_SAMPLE ∧
              inject_or_tag_packet setting = TAG_PKT_AS_CONDITION) then
     selected_level ← on_dw (call_vi levels (ft_get flow_src));
     if decide (selected_level > NO_SELECTED_LEVEL) then
       on_buf (tag_selected_flow_level_in_normal_packet datalink selected_level)
     else mret tt
   else mret tt).

(** [cm_handle_ipv4_packet] *)
Definition cm_handle_ipv4_packet (total_pkt_len datalink : Z) : cmd send_state unit :=
  if decide (u32 total_pkt_len < TCPR_IPV4_H) then mret tt else
  p ← on_buf (parse_ipv4 datalink);
  match p with
  | None => mret tt
  | Some (flow, seqid) =>
      let len := u16 total_pkt_len in
      on_dw (on_recePktList (ht_vl_set flow seqid len));;
      let flow_src := packet_flow_src (f_srcip flow) (f_dstip flow) in
      (match task_of_traffic flow_src with
       | Some p_task => tag_task_packet p_task datalink flow_src total_pkt_len
       | None => mret tt
       end);;
      on_dw (update_flow_normal_volume setting flow_src total_pkt_len;;
             i ← gets active_idx;
             upd_counter pkt_num_sent i (λ n, n + 1);;
             i ← gets active_idx;
             upd_counter volume_sent i (λ n, n + len))
  end.
End send.
Arguments send_state VI VF FX : clear implicits.
