(* ===== verification/FrameSpec.v ===== *)
(** * Frames: the packets the parser of send_packets.c reads

    [frame] lays out a packet with any number of VLAN headers; [parse_ipv4]
    reads back the flow and the sequence number it was laid out with. *)
From S2P Require Import Prelude CMonad CFloat ChainedTable TableSpec FixSizeTable FixSizeIface.
From S2P Require Import Flow PktListTable ObjStore Settings Sample FlowTables Warehouse.
From S2P Require Import Bytes VlanTag VlanProps TaskManager SendPacket.

(** Big-endian fields *)
Definition be16 (x : Z) : list Z := [x / 256; x mod 256].
Definition be32 (x : Z) : list Z := be16 (x / 65536) ++ be16 (x mod 65536).

(** A VLAN header per tag; a tag is given as [vlan_priority_c_vid] reads it *)
Definition vlan_hdrs (tags : list Z) : list Z :=
  flat_map (λ t, [129; 0; t mod 256; t / 256]) tags.

(** What the layout leaves open: what precedes the Ethernet header, the two
    Ethernet addresses, the IP header before the protocol, the IP checksum and
    what follows the sequence number *)
Record filler := Filler {
  fl_pre : list Z; fl_mac : list Z; fl_ip : list Z; fl_sum : list Z; fl_rest : list Z
}.
Definition ip_part (ety : list Z) (fl : filler) (f : flow_s) (seqid : Z) : list Z :=
  ety ++ fl_ip fl ++ [f_protocol f] ++ fl_sum fl ++ be32 (f_srcip f) ++ be32 (f_dstip f)
  ++ be16 (f_src_port f) ++ be16 (f_dst_port f) ++ be32 seqid ++ fl_rest fl.
Definition eth_frame (ety : list Z) (fl : filler) (tags : list Z) (f : flow_s) (seqid : Z) : list Z :=
  (fl_pre fl ++ fl_mac fl) ++ vlan_hdrs tags ++ ip_part ety fl f seqid.
Definition frame : filler → list Z → flow_s → Z → list Z := eth_frame [8; 0].

Definition filler_ok (datalink : Z) (fl : filler) (b : list Z) : Prop :=
  bytes_of (fl_pre fl) ∧ bytes_of (fl_mac fl) ∧ bytes_of (fl_ip fl) ∧ bytes_of (fl_sum fl) ∧
  bytes_of (fl_rest fl) ∧ l2_of datalink b = Z.of_nat (length (fl_pre fl)) ∧
  length (fl_mac fl) = 12%nat ∧ length (fl_ip fl) = 9%nat ∧ length (fl_sum fl) = 2%nat.
Definition flow_ok (f : flow_s) : Prop :=
  in_u 32 (f_srcip f) ∧ in_u 32 (f_dstip f) ∧ in_u 16 (f_src_port f) ∧ in_u 16 (f_dst_port f) ∧
  byte (f_protocol f).

(** ** Fields *)
Lemma bytes_be16 x : in_u 16 x → bytes_of (be16 x).
Proof.
  intros [H0 H1]. simpl in H1. change (2 ^ 16) with 65536 in H1.
  repeat constructor; try (apply Z.mod_pos_bound; lia); [by apply Z.div_pos|].
  change (2 ^ 8) with 256. apply Z.div_lt_upper_bound; lia.
Qed.
Lemma in_u_halves x : in_u 32 x → in_u 16 (x / 65536) ∧ in_u 16 (x mod 65536).
Proof.
  intros [H0 H1]. change (2 ^ 32) with 4294967296 in H1. unfold in_u. change (2 ^ 16) with 65536.
  split; [|apply Z.mod_pos_bound; lia]. split; [by apply Z.div_pos|]. apply Z.div_lt_upper_bound; lia.
Qed.
Lemma bytes_be32 x : in_u 32 x → bytes_of (be32 x).
Proof.
  intros Hx. apply in_u_halves in Hx as [??]. unfold be32. apply Forall_app. split; by apply bytes_be16.
Qed.
Lemma bytes_tag t : in_u 16 t → bytes_of [129; 0; t mod 256; t / 256].
Proof.
  intros Ht. apply bytes_be16 in Ht. unfold be16, bytes_of in *. rewrite !Forall_cons in *.
  unfold byte, in_u in *. simpl. intuition lia.
Qed.

(** Bits side by side do not carry. *)
Lemma nocarry n a b : 0 <= n → 0 <= b < 2 ^ n → Z.land (Z.shiftl a n) b = 0.
Proof.
  intros Hn [Hb0 Hb1]. apply Z.bits_inj'. intros i Hi. rewrite Z.land_spec, Z.testbit_0_l, Z.shiftl_spec by done.
  destruct (decide (i < n)) as [Hin|Hin]; [by rewrite (Z.testbit_neg_r a) by lia|].
  destruct (decide (b = 0)) as [->|]; [by rewrite Z.testbit_0_l, andb_false_r|].
  rewrite (Z.bits_above_log2 b i), andb_false_r; [done|exact Hb0|]. apply Z.log2_lt_pow2; [lia|].
  apply Z.lt_le_trans with (2 ^ n); [done|apply Z.pow_le_mono_r; lia].
Qed.
Lemma lor_bytes n a b : 0 <= n → 0 <= b < 2 ^ n → Z.lor (Z.shiftl a n) b = a * 2 ^ n + b.
Proof.
  intros Hn Hb. rewrite <- Z.lxor_lor by (by apply nocarry).
  rewrite <- Z.add_nocarry_lxor by (by apply nocarry). by rewrite Z.shiftl_mul_pow2.
Qed.

Lemma ntohs_bytes a b : byte a → byte b → ntohs (a + Z.shiftl b 8) = a * 256 + b.
Proof.
  intros [Ha0 Ha1] [Hb0 Hb1]. change (2 ^ 8) with 256 in *.
  unfold ntohs. rewrite (Z.shiftl_mul_pow2 b), Z.shiftr_div_pow2 by lia.
  change 255 with (Z.ones 8). rewrite Z.land_ones by lia. change (2 ^ 8) with 256.
  rewrite Z.mod_add, Z.mod_small, Z.div_add, Z.div_small, Z.add_0_l by lia. by rewrite lor_bytes.
Qed.

Lemma ntohs_be16 x a b : in_u 16 x → be16 x = [a; b] → ntohs (a + Z.shiftl b 8) = x.
Proof.
  intros Hx E. pose proof (bytes_be16 x Hx) as Hb. rewrite E in Hb.
  unfold bytes_of in Hb. rewrite !Forall_cons in Hb. destruct Hb as (Ha & Hb & _).
  rewrite ntohs_bytes by done. injection E as <- <-. rewrite (Z.div_mod x 256) at 3 by lia. lia.
Qed.

(** *** Reading at the end of a known part *)
Lemma lookup_after (pre b : list Z) n (o : Z) :
  o = Z.of_nat (length pre) → 0 <= n → (pre ++ b) !! Z.to_nat (o + n) = b !! Z.to_nat n.
Proof. intros -> Hn. rewrite lookup_app_r by lia. f_equal. lia. Qed.

Lemma wp_read8_after pre b n o x (Q : Z → list Z → Prop) :
  o = Z.of_nat (length pre) + n → 0 <= n → b !! Z.to_nat n = Some x → Q x (pre ++ b) →
  wp (read8 o) Q (pre ++ b).
Proof. intros -> Hn Hx HQ. eapply wp_read8; [lia| |exact HQ]. by rewrite lookup_after by lia. Qed.

Lemma wp_read16_after pre b n o x y (Q : Z → list Z → Prop) :
  o = Z.of_nat (length pre) + n → 0 <= n → b !! Z.to_nat n = Some x → b !! Z.to_nat (n + 1) = Some y →
  Q (x + Z.shiftl y 8) (pre ++ b) → wp (read16 o) Q (pre ++ b).
Proof.
  intros Ho Hn Hx Hy HQ. unfold read16. wp_steps. eapply (wp_read8_after _ _ n); [done|lia|exact Hx|].
  wp_steps. eapply (wp_read8_after _ _ (n + 1)); [lia|lia|exact Hy|]. wp_steps. exact HQ.
Qed.

(** A field in network byte order, with the bytes around it given *)
Lemma wp_read16_be pre b n o x (Q : Z → list Z → Prop) :
  o = Z.of_nat (length pre) + n → 0 <= n → take 2 (drop (Z.to_nat n) b) = be16 x → in_u 16 x →
  (∀ v, ntohs v = x → Q v (pre ++ b)) → wp (read16 o) Q (pre ++ b).
Proof.
  intros Ho Hn Hb Hx HQ.
  eapply (wp_read16_after _ _ n _ (x / 256) (x mod 256)); [done|done| | |].
  - rewrite <- (Nat.add_0_r (Z.to_nat n)), <- lookup_drop, <- (lookup_take_lt _ 2) by lia. by rewrite Hb.
  - rewrite Z2Nat.inj_add, <- lookup_drop, <- (lookup_take_lt _ 2) by lia. by rewrite Hb.
  - apply HQ. by apply (ntohs_be16 x).
Qed.

Lemma wp_read32_be pre b n o x (Q : Z → list Z → Prop) :
  o = Z.of_nat (length pre) + n → 0 <= n → take 4 (drop (Z.to_nat n) b) = be32 x → in_u 32 x →
  (∀ v, ntohl v = x → Q v (pre ++ b)) → wp (read32 o) Q (pre ++ b).
Proof.
  intros Ho Hn Hb Hx HQ. pose proof (in_u_halves x Hx) as [H1 H2].
  assert (∀ i, (i < 4)%nat → b !! (Z.to_nat n + i)%nat = be32 x !! i) as Hl.
  { intros i Hi. by rewrite <- lookup_drop, <- (lookup_take_lt _ 4), Hb by lia. }
  unfold read32. wp_step.
  eapply (wp_read16_after _ _ n _ (x / 65536 / 256) ((x / 65536) mod 256)); [done|done| | |].
  { rewrite <- (Nat.add_0_r (Z.to_nat n)). by rewrite Hl by lia. }
  { rewrite Z2Nat.inj_add by lia. by rewrite Hl by (simpl; lia). }
  wp_steps. eapply (wp_read16_after _ _ (n + 2) _ (x mod 65536 / 256) ((x mod 65536) mod 256)); [lia|lia| | |].
  { rewrite Z2Nat.inj_add by lia. by rewrite Hl by (simpl; lia). }
  { rewrite <- Z.add_assoc, Z2Nat.inj_add by lia. by rewrite Hl by (simpl; lia). }
  wp_steps. apply HQ. pose proof (ntohs_be16 (x / 65536) _ _ H1 eq_refl) as E1.
  pose proof (ntohs_be16 (x mod 65536) _ _ H2 eq_refl) as E2.
  set (u := x / 65536 / 256 + _) in *. set (w := x mod 65536 / 256 + _) in *.
  assert (0 <= u < 65536) as Hu.
  { apply bytes_be16 in H1. unfold bytes_of, be16 in H1. rewrite !Forall_cons in H1. unfold byte, in_u in H1.
    unfold u. rewrite Z.shiftl_mul_pow2 by lia. change (2 ^ 8) with 256 in *. lia. }
  unfold ntohl. rewrite (Z.shiftl_mul_pow2 w), Z.shiftr_div_pow2 by lia.
  change 65535 with (Z.ones 16). rewrite Z.land_ones by lia. change (2 ^ 16) with 65536.
  rewrite Z.mod_add, (Z.mod_small u), Z.div_add, (Z.div_small u), Z.add_0_l, E1, E2 by lia.
  rewrite lor_bytes by (lia || apply H2). change (2 ^ 16) with 65536.
  rewrite (Z.div_mod x 65536) at 3 by lia. lia.
Qed.

(** ** The parser *)
Lemma length_vlan_hdrs tags : length (vlan_hdrs tags) = (4 * length tags)%nat.
Proof.
  induction tags as [|t tags IH]; [done|]. cbn [vlan_hdrs flat_map]. rewrite length_app.
  fold (vlan_hdrs tags). rewrite IH. simpl. lia.
Qed.

(** The type field in front of the IP header or of a VLAN header *)
Lemma wp_skip_vlans tags : ∀ pre (t1 t2 : Z) tail l2 ety fuel,
  (length tags <= fuel)%nat → l2 + 12 = Z.of_nat (length pre) →
  ety = ntohs (match tags with [] => t1 + Z.shiftl t2 8 | _ => 129 + Z.shiftl 0 8 end) →
  ntohs (t1 + Z.shiftl t2 8) ≠ ETHERTYPE_VLAN →
  let b := pre ++ vlan_hdrs tags ++ t1 :: t2 :: tail in
  wp (skip_vlans fuel ety l2)
    (λ r s, r = (ntohs (t1 + Z.shiftl t2 8), l2 + 4 * Z.of_nat (length tags)) ∧ s = b) b.
Proof.
  induction tags as [|t tags IH]; intros pre t1 t2 tail l2 ety fuel Hf Hl -> Hne b.
  - destruct fuel; cbn [skip_vlans]; rewrite decide_False by done; apply wp_ret; (split; [f_equal; simpl; lia|done]).
  - destruct fuel as [|fuel]; [simpl in Hf; lia|]. cbn [skip_vlans]. rewrite decide_True by reflexivity. unfold b. wp_step.
    cbn [vlan_hdrs flat_map]. fold (vlan_hdrs tags). rewrite <- app_assoc.
    set (h := [129; 0; t mod 256; t / 256]).
    assert (pre ++ h ++ vlan_hdrs tags ++ t1 :: t2 :: tail
            = (pre ++ h) ++ vlan_hdrs tags ++ t1 :: t2 :: tail) as -> by apply app_assoc.
    assert (length (pre ++ h) = (length pre + 4)%nat) as Hlen by (rewrite length_app; done).
    assert (∀ ety', ety' = ntohs (match tags with [] => t1 + Z.shiftl t2 8 | _ => 129 + Z.shiftl 0 8 end) →
      wp (skip_vlans fuel ety' (l2 + 4)) (λ r s, r = (ntohs (t1 + Z.shiftl t2 8),
           l2 + 4 * Z.of_nat (length (t :: tags))) ∧ s = (pre ++ h) ++ vlan_hdrs tags ++ t1 :: t2 :: tail)
        ((pre ++ h) ++ vlan_hdrs tags ++ t1 :: t2 :: tail)) as Hnext.
    { intros ety' ->. simpl in Hf. eapply wp_mono; [apply (IH (pre ++ h)); [lia|lia|done|done]|].
      intros r s [-> ->]. split; [|done]. f_equal. simpl length. lia. }
    destruct tags as [|t' tags].
    + eapply (wp_read16_after (pre ++ h) _ 0); [unfold off_vlan_len; lia|lia|done|done|]. by apply Hnext.
    + eapply (wp_read16_after (pre ++ h) _ 0); [unfold off_vlan_len; lia|lia|done|done|]. by apply Hnext.
Qed.

Lemma bytes_vlan_hdrs tags : Forall (in_u 16) tags → bytes_of (vlan_hdrs tags).
Proof.
  induction 1 as [|t tags Ht _ IH]; [constructor|]. cbn [vlan_hdrs flat_map].
  apply Forall_app. split; [by apply bytes_tag|done].
Qed.

Lemma eth_frame_headers datalink ety fl tags f seqid :
  length ety = 2%nat → bytes_of ety → Forall (in_u 16) tags → flow_ok f → in_u 32 seqid →
  let b := eth_frame ety fl tags f seqid in filler_ok datalink fl b → has_headers datalink b.
Proof.
  intros Hety Hye Htags (Hs & Hd & Hsp & Hdp & Hp) Hq b (B1 & B2 & B3 & B4 & B5 & Hl2 & L1 & L2 & L3).
  pose proof (bytes_vlan_hdrs tags Htags) as Hv.
  split.
  - unfold b, eth_frame, ip_part, bytes_of in *. rewrite !Forall_app. repeat split; try done;
      try (by apply bytes_be16); try (by apply bytes_be32). by constructor.
  - rewrite Hl2. unfold b, eth_frame, ip_part. rewrite !length_app, Hety, L1, L2, L3. simpl. lia.
Qed.

Lemma wp_l2_offset datalink b (Q : Z → list Z → Prop) :
  has_headers datalink b → Q (l2_of datalink b) b → wp (l2_offset datalink) Q b.
Proof.
  intros [Hy Hl] HQ. unfold l2_of in *. unfold l2_offset. case_decide; [|by apply wp_ret].
  destruct (lookup_lt_is_Some_2 b 3) as [b3 E3]; [|].
  { case_decide; [|lia]. pose proof (ntohs_nonneg (field16 4 b)). destruct (field16_range 4 b Hy). lia. }
  wp_steps. eapply wp_read8; [lia|exact E3|]. rewrite E3 in *. simpl default in *. case_decide; [|by apply wp_ret].
  pose proof (ntohs_nonneg (field16 4 b)). destruct (field16_range 4 b Hy).
  wp_steps. apply wp_read16; [lia|lia|]. by wp_steps.
Qed.

(** The parser on a frame of any type but 802.1Q *)
Lemma wp_parse datalink e1 e2 fl tags f seqid (Q : option (flow_s * Z) → list Z → Prop) :
  byte e1 → byte e2 → ntohs (e1 + Z.shiftl e2 8) ≠ ETHERTYPE_VLAN →
  Forall (in_u 16) tags → flow_ok f → in_u 32 seqid →
  let b := eth_frame [e1; e2] fl tags f seqid in
  filler_ok datalink fl b →
  Q (if decide (ntohs (e1 + Z.shiftl e2 8) = ETHERTYPE_IP) then Some (f, seqid) else None) b →
  wp (parse_ipv4 datalink) Q b.
Proof.
  intros He1 He2 Hne Htags Hf Hq b Hfl HQ.
  assert (has_headers datalink b) as Hh.
  { apply eth_frame_headers; [done|unfold bytes_of; by rewrite !Forall_cons|done|done|done|exact Hfl]. }
  pose proof Hf as (Hs & Hd & Hsp & Hdp & Hp).
  destruct Hfl as (_ & _ & _ & _ & _ & Hl2 & L1 & L2 & L3).
  unfold parse_ipv4. wp_step. apply wp_l2_offset; [done|]. rewrite Hl2. wp_step.
  set (pre := fl_pre fl ++ fl_mac fl). set (lp := Z.of_nat (length (fl_pre fl))).
  assert (Z.of_nat (length pre) = lp + 12) as Hpre by (unfold pre, lp; rewrite length_app; lia).
  eapply (wp_read16_after pre _ 0 _
    (match tags with [] => e1 | _ => 129 end) (match tags with [] => e2 | _ => 0 end));
    [unfold off_ether_type; lia|lia|by destruct tags|by destruct tags|].
  change (pre ++ _) with b. wp_steps.
  eapply wp_mono; [apply (wp_skip_vlans tags pre e1 e2 (drop 2 (ip_part [e1; e2] fl f seqid)))|].
  { unfold b, eth_frame. rewrite !length_app, length_vlan_hdrs. simpl. lia. }
  { lia. } { by destruct tags. } { done. }
  intros [ty l2] s [E ->]. injection E as -> ->. cbn beta iota.
  case_decide; [|by wp_steps].
  change (pre ++ vlan_hdrs tags ++ _) with b. clear Hh.
  assert (b = (pre ++ vlan_hdrs tags) ++ ip_part [e1; e2] fl f seqid) as -> by apply app_assoc.
  assert (Z.of_nat (length (pre ++ vlan_hdrs tags)) = lp + 12 + 4 * Z.of_nat (length tags)) as Hbase
    by (rewrite length_app, length_vlan_hdrs; lia).
  set (base := pre ++ vlan_hdrs tags) in *. clearbody base.
  unfold sizeof_eth_hdr, off_ip_src, off_ip_dst, off_ip_p, sizeof_ipv4_hdr, off_th_sport, off_th_dport, off_th_seq.
  unfold ip_part in *. destruct (fl_ip fl) as [|x1 [|x2 [|x3 [|x4 [|x5 [|x6 [|x7 [|x8 [|x9 [|]]]]]]]]]]; try done.
  destruct (fl_sum fl) as [|y1 [|y2 [|]]]; try done.
  wp_step. eapply (wp_read32_be base _ 14); [lia|lia|reflexivity|done|]. intros v1 E1.
  wp_step. eapply (wp_read32_be base _ 18); [lia|lia|reflexivity|done|]. intros v2 E2.
  wp_step. eapply (wp_read8_after base _ 11); [lia|lia|reflexivity|].
  wp_step. eapply (wp_read16_be base _ 22); [lia|lia|reflexivity|done|]. intros v3 E3.
  wp_step. eapply (wp_read16_be base _ 24); [lia|lia|reflexivity|done|]. intros v4 E4.
  wp_step. eapply (wp_read32_be base _ 26); [lia|lia|reflexivity|done|]. intros v5 E5.
  apply wp_ret. rewrite E1, E2, E3, E4, E5. destruct f. exact HQ.
Qed.

(** ** The tag of a frame *)
Definition retag (g : Z → Z) (tags : list Z) : list Z :=
  match tags with [] => [] | t :: tags => g t :: tags end.

(** What the tests below share about a frame *)
Record frame_ok (datalink : Z) (fl : filler) (tags : list Z) (f : flow_s) (seqid : Z) : Prop := {
  fr_tags : Forall (in_u 16) tags;
  fr_flow : flow_ok f;
  fr_seqid : in_u 32 seqid;
  fr_filler : filler_ok datalink fl (frame fl tags f seqid)
}.

Section tag.
Context (datalink : Z) (fl : filler) (f : flow_s) (seqid : Z).
Implicit Types (tags : list Z).
Local Abbreviation fr tags := (frame fl tags f seqid).
Local Abbreviation ok tags := (frame_ok datalink fl tags f seqid).

Lemma frame_headers tags : ok tags → has_headers datalink (fr tags).
Proof. intros []. by apply eth_frame_headers; [|unfold bytes_of; rewrite !Forall_cons| | | |]. Qed.

Lemma frame_lookup tags n :
  ok tags → 0 <= n →
  fr tags !! Z.to_nat (l2_of datalink (fr tags) + 12 + n)
  = (vlan_hdrs tags ++ ip_part [8; 0] fl f seqid) !! Z.to_nat n.
Proof.
  intros [_ _ _ (_ & _ & _ & _ & _ & Hl2 & L1 & _)] Hn. rewrite Hl2. unfold frame at 1, eth_frame.
  apply lookup_after; [|done]. rewrite length_app. lia.
Qed.
Lemma frame_field tags n :
  ok tags → 0 <= n →
  field16 (l2_of datalink (fr tags) + 12 + n) (fr tags)
  = field16 n (vlan_hdrs tags ++ ip_part [8; 0] fl f seqid).
Proof.
  intros Hok Hn. unfold field16. rewrite frame_lookup by done.
  rewrite <- (Z.add_assoc _ n 1), frame_lookup by (done || lia). done.
Qed.

Lemma frame_is_vlan tags : ok tags → is_vlan datalink (fr tags) ↔ tags ≠ [].
Proof.
  intros Hok. unfold is_vlan. pose proof (frame_field tags 0 Hok ltac:(done)) as E. rewrite Z.add_0_r in E.
  unfold off_ether_type. rewrite E. by destruct tags.
Qed.

Lemma frame_tag t tags : ok (t :: tags) → vlan_tag datalink (fr (t :: tags)) = t.
Proof.
  intros Hok. unfold vlan_tag, vlan_off, off_vlan_priority_c_vid.
  replace (l2_of datalink (fr (t :: tags)) + 14) with (l2_of datalink (fr (t :: tags)) + 12 + 2) by lia.
  rewrite frame_field by (done || lia). unfold field16. simpl. rewrite Z.shiftl_mul_pow2 by lia.
  change (2 ^ 8) with 256. rewrite (Z.div_mod t 256) at 3 by lia. lia.
Qed.

Lemma frame_set_tag t tags x :
  ok (t :: tags) → in_u 16 x → set_tag datalink x (fr (t :: tags)) = fr (x :: tags).
Proof.
  intros Hok Hx. pose proof (frame_tag t tags Hok) as Ht.
  destruct Hok as [_ _ _ (_ & _ & _ & _ & _ & Hl2 & L1 & _)].
  unfold set_tag, vlan_off, off_vlan_priority_c_vid. rewrite Hl2. clear Hl2 Ht. unfold frame, eth_frame, set_field16.
  set (pre := fl_pre fl ++ fl_mac fl).
  assert (Z.of_nat (length pre) = Z.of_nat (length (fl_pre fl)) + 12) as Hpre
    by (unfold pre; rewrite length_app; lia).
  cbn [vlan_hdrs flat_map]. fold (vlan_hdrs tags).
  replace (Z.to_nat (Z.of_nat (length (fl_pre fl)) + 14 + 1)) with (length pre + 3)%nat by lia.
  replace (Z.to_nat (Z.of_nat (length (fl_pre fl)) + 14)) with (length pre + 2)%nat by lia.
  assert (u8 (Z.shiftr x 8) = x / 256) as Ehi.
  { rewrite Z.shiftr_div_pow2 by lia. apply wrap_small.
    apply bytes_be16 in Hx. unfold bytes_of, be16 in Hx. rewrite !Forall_cons in Hx. apply Hx. }
  rewrite !insert_app_r, Ehi. done.
Qed.

Lemma frame_ok_retag g tags : ok tags → (∀ t, in_u 16 t → in_u 16 (g t)) → ok (retag g tags).
Proof.
  intros Hok Hg. destruct tags as [|t tags]; [done|]. simpl.
  pose proof (fr_tags _ _ _ _ _ Hok) as Ht. rewrite Forall_cons in Ht. destruct Ht as [Ht Hts].
  pose proof (frame_set_tag t tags (g t) Hok (Hg t Ht)) as E. pose proof (frame_headers _ Hok) as Hh.
  destruct Hok as [_ Hf Hs Hfl]. split; [by constructor; [apply Hg|]|done|done|].
  unfold filler_ok in *. rewrite <- E, l2_of_set by done. intuition.
Qed.

(** A command that tags the field of the first VLAN header, if there is one *)
Lemma wp_tag_frame (c : option Z → cmd (list Z) unit) v tags (Q : unit → list Z → Prop) :
  ok tags → in_u 16 v → c None = mret tt →
  (∀ b (Q' : unit → list Z → Prop), has_headers datalink b →
     Q' tt (set_tag datalink (Z.lor (vlan_tag datalink b) v) b) → wp (c (Some (vlan_off datalink b))) Q' b) →
  Q tt (fr (retag (λ t, Z.lor t v) tags)) → wp (o ← vlan_field datalink; c o) Q (fr tags).
Proof.
  intros Hok Hv Hnone Hsome HQ. pose proof (frame_headers _ Hok) as Hh. wp_step.
  apply wp_vlan_field; [done|]. destruct tags as [|t tags].
  - rewrite decide_False by (intros E%frame_is_vlan; [by apply E|exact Hok]). rewrite Hnone. by apply wp_ret.
  - rewrite decide_True by (by apply (frame_is_vlan (t :: tags))). apply Hsome; [done|].
    pose proof (fr_tags _ _ _ _ _ Hok) as Ht. rewrite Forall_cons in Ht.
    rewrite frame_tag by done. rewrite frame_set_tag; [exact HQ|done|]. apply in_u_lor; [done|apply Ht|done].
Qed.
End tag.
