(* ===== verification/SendProps.v ===== *)
(** * Properties of the sending path *)
From S2P Require Import Prelude CMonad CFloat ChainedTable TableSpec FixSizeTable FixSizeIface.
From S2P Require Import Flow PktListTable PktListSpec PktListProps ObjStore Settings Sample FlowTables.
From S2P Require Import Warehouse WarehouseSpec WarehouseRecords WarehouseProps Config Bytes VlanTag VlanProps TaskManager.
From S2P Require Import SendPacket FrameSpec.

(** ** Specification: the sampling decision and the packet's effects on the model *)
Section spec.
Context {K : Type} `{KeyLaws K}.
Context (setting : cm_experiment_setting_t) (fsize : Z).
Implicit Types (m : wmodel K) (k : K).

(** [sample_packet] *)
Definition spec_sample k (len : Z) m : bool * wmodel K :=
  if decide (m_get flow_sample_map k m >= 0) then (true, m)
  else
    let '(r, x) := drand48_r (m_rand m) in
    let m := m_set_rand x m in
    if float_ltb r (pkt_sample_rate_trad setting len)
    then (true, m_set_vi (Buf flow_sample_map (m_idx m)) (kupd k (Some 1)) m)
    else (false, m).

Definition spec_sample_at_host k (len : Z) m : bool * wmodel K :=
  if decide (m_get flow_selected_level_map k m > NO_SELECTED_LEVEL) then (true, m)
  else spec_sample k len m.

(** Whether a packet of a task is tagged as sampled, and the level it is tagged with *)
Definition spec_sampled k (len : Z) m : bool * wmodel K :=
  if decide (host_or_switch_sample setting = HOST_SAMPLE) then
    let '(sampled, m) := spec_sample_at_host k len m in
    (sampled, if sampled then spec_not_sampled k m else m)
  else (false, m).
Definition spec_level_tag k m : Z :=
  if decide (host_or_switch_sample setting = HOST_SAMPLE ∧
             inject_or_tag_packet setting = TAG_PKT_AS_CONDITION)
  then m_get flow_selected_level_map k m else 0.

Definition spec_level_bits k m : Z :=
  if decide (spec_level_tag k m > 0) then 2 * spec_level_tag k m else 0.

(** The model after a packet of flow [k] *)
Definition spec_account k (len : Z) m : wmodel K :=
  let m := spec_normal setting fsize k len m in
  let m := m_count pkt_num_sent (m_idx m) (λ n, n + 1) m in
  m_count volume_sent (m_idx m) (λ n, n + u16 len) m.

(** The tag and the model after the handler *)
Definition spec_task k (len : Z) (t : task_t) m : (Z → Z) * wmodel K :=
  let '(sampled, m) := spec_sampled k len m in
  (tagged (monitor_switch_ids t) sampled (spec_level_tag k m), m).
Definition spec_send k (len : Z) (ot : option task_t) m : (Z → Z) * wmodel K :=
  let '(g, m) := match ot with Some t => spec_task k len t m | None => (λ x, x, m) end in
  (g, spec_account k len m).

(** The levels recorded are those of the code. *)
Definition levels_ok m : Prop := ∀ k i,
  m_vi m (Buf flow_selected_level_map i) k ∈ [None; Some SELECTED_LEVEL; Some TARGET_LEVEL].
End spec.

Section wps.
Context {K VI VF FX : Type} `{KeyLaws K}.
Context `{!FlowTable K Z Z VI} `{!FlowTableLaws K Z Z VI} `{!IntTable K VI}.
Context `{!FlowTable K c_float c_float VF} `{!FlowTableLaws K c_float c_float VF}.
Context `{!FixedTable K FX} `{!FixedTableLaws K FX} `{!PacketFlow K}.
Context (setting : cm_experiment_setting_t) (fsize : Z).
Implicit Types (d : data_warehouse_t VI VF FX) (m : wmodel K) (k : K) (P : wptrs).

Lemma wp_sample l P d m k len (Q : Z → data_warehouse_t VI VF FX → Prop) :
  wrep fsize l P d m →
  (∀ d', wrep fsize l P d' (spec_sample setting k len m).2 →
         Q (if (spec_sample setting k len m).1 then 1 else 0) d') →
  wp (sample_packet setting g_drand48 (λ k, call_vi (pt_vi P (Buf flow_sample_map (m_idx m))) (ft_get k))
        (λ k v, call_vi (pt_vi P (Buf flow_sample_map (m_idx m))) (ft_set k v)) k len) Q d.
Proof.
  intros R HQ. pose proof (wr_idx_ok _ _ _ _ _ R) as Hi. unfold spec_sample in HQ.
  unfold sample_packet, flow_src_already_sampled. wp_steps.
  eapply wp_call_vi_get; [exact R|done|]. fold (m_get flow_sample_map k m). wp_steps.
  destruct (decide (m_get flow_sample_map k m >= 0)) as [Hs|Hs].
  - rewrite decide_True by done. apply wp_ret. by apply HQ.
  - rewrite decide_False by (intros E; by apply E). wp_steps. eapply wp_g_drand48; [exact R|].
    intros d' R'. destruct (drand48_r (m_rand m)) as [r x]. simpl in R', HQ |- *. destruct (float_ltb _ _).
    + wp_steps. eapply wp_vi_set; [exact R'|exact Hi|]. intros d'' R''. wp_steps. by apply HQ.
    + apply wp_ret. by apply HQ.
Qed.

Lemma spec_sample_idx k len m : m_idx (spec_sample setting k len m).2 = m_idx m.
Proof. unfold spec_sample. by repeat case_match. Qed.

Lemma wp_sample_at_host l P d m k len (Q : Z → data_warehouse_t VI VF FX → Prop) :
  wrep fsize l P d m →
  (∀ d', wrep fsize l P d' (spec_sample_at_host setting k len m).2 →
         Q (if (spec_sample_at_host setting k len m).1 then 1 else 0) d') →
  wp (sample_at_host setting (pt_vi P (Buf flow_selected_level_map (m_idx m))) k len) Q d.
Proof.
  intros R HQ. pose proof (wr_idx_ok _ _ _ _ _ R) as Hi. unfold spec_sample_at_host in HQ.
  unfold sample_at_host. wp_steps. eapply wp_call_vi_get; [exact R|done|].
  fold (m_get flow_selected_level_map k m). case_decide; [by apply wp_ret, HQ|].
  wp_steps. eapply wp_get_vi; [exact R|]. by eapply wp_sample.
Qed.

(** The accounting at the end of the handler *)
Lemma wp_account_packet P d m k len (Q : unit → data_warehouse_t VI VF FX → Prop) :
  wrep fsize [] P d m → normal_ok k len m →
  (∀ d', wrep fsize [] P d' (spec_account setting fsize k len m) → Q tt d') →
  wp (update_flow_normal_volume setting k len;; i ← gets active_idx;
      upd_counter pkt_num_sent i (λ n, n + 1);; i ← gets active_idx;
      upd_counter volume_sent i (λ n, n + u16 len)) Q d.
Proof.
  intros R Hok HQ. wp_steps. eapply wp_update_flow_normal_volume; [exact R|done|].
  clear d R. intros d R. wp_steps. rewrite (wr_idx _ _ _ _ _ R).
  eapply wp_upd_counter; [exact R|apply R|]. clear d R. intros d R. wp_steps. rewrite (wr_idx _ _ _ _ _ R).
  eapply wp_upd_counter; [exact R|apply R|]. exact HQ.
Qed.

(** Sampling leaves the other tables alone. *)
Lemma spec_sampled_same k len m :
  let m' := (spec_sampled setting k len m).2 in
  m_idx m' = m_idx m ∧
  ∀ f i, f ≠ flow_sample_map → f ≠ flow_not_sampled_volume_map → m_vi m' (Buf f i) = m_vi m (Buf f i).
Proof.
  assert (∀ m, let m' := (spec_sample_at_host setting k len m).2 in m_idx m' = m_idx m ∧
    ∀ f i, f ≠ flow_sample_map → f ≠ flow_not_sampled_volume_map → m_vi m' (Buf f i) = m_vi m (Buf f i)) as Hs.
  { intros m0. unfold spec_sample_at_host, spec_sample. repeat case_match; simpl; try done.
    split; [done|]. intros f i Hf1 Hf2. rewrite decide_False; [done|congruence]. }
  intros m'. unfold m', spec_sampled. case_decide; [|done]. specialize (Hs m).
  destruct (spec_sample_at_host setting k len m) as [[] m1]; simpl in *; [|done].
  unfold spec_not_sampled. case_decide; [|done]. destruct Hs as [Hi Hf]. split; [done|].
  intros f i Hf1 Hf2. simpl. rewrite decide_False; [by apply Hf|congruence].
Qed.
Lemma spec_sampled_get f k k' len m :
  f ≠ flow_sample_map → f ≠ flow_not_sampled_volume_map →
  m_get f k' (spec_sampled setting k len m).2 = m_get f k' m.
Proof.
  intros Hf1 Hf2. destruct (spec_sampled_same k len m) as [Ei Ef]. unfold m_get. by rewrite Ei, Ef.
Qed.

(** *** The tags *)
Section tags.
Context (datalink : Z) (fl : filler) (f : flow_s) (seqid : Z).
Local Abbreviation fr tags := (frame fl tags f seqid).
Local Abbreviation ok tags := (frame_ok datalink fl tags f seqid).

Lemma wp_frame_switches tags ids (Q : unit → list Z → Prop) :
  ok tags → Forall (λ id, 1 <= id <= 12) ids →
  Q tt (fr (retag (λ t, Z.lor t (switches_mask ids)) tags)) →
  wp (tag_packet_for_switches datalink ids) Q (fr tags).
Proof.
  intros Hok Hids HQ. eapply wp_tag_frame; [done|by apply switches_mask_in_u|done| |exact HQ].
  intros b Q' Hb HQ'. by apply wp_tag_switches.
Qed.
Lemma wp_frame_sampled tags (Q : unit → list Z → Prop) :
  ok tags → Q tt (fr (retag (λ t, Z.lor t 1) tags)) → wp (tag_packet_as_sampled datalink) Q (fr tags).
Proof.
  intros Hok HQ. eapply (wp_tag_frame _ _ _ _ _ 1); [done|done|done| |exact HQ].
  intros b Q' Hb HQ'. by apply wp_or_field.
Qed.
Lemma wp_frame_level tags level (Q : unit → list Z → Prop) :
  ok tags → 0 <= level <= 3 → Q tt (fr (retag (λ t, Z.lor t (2 * level)) tags)) →
  wp (tag_selected_flow_level_in_normal_packet datalink level) Q (fr tags).
Proof.
  intros Hok Hl HQ. eapply (wp_tag_frame _ _ _ _ _ (2 * level)); [done|by apply (level_cases level)|done| |exact HQ].
  intros b Q' Hb HQ'. wp_step. apply wp_level_val; [done|]. apply wp_or_field; [done| |done].
  by apply (level_cases level).
Qed.

(** *** The packet of a task *)
Lemma wp_tag_task P d m (t : task_t) k len tags (Q : unit → send_state VI VF FX → Prop) :
  wrep fsize [] P d m → ok tags → Forall (λ id, 1 <= id <= 12) (monitor_switch_ids t) →
  m_get flow_selected_level_map k m <= 3 →
  (∀ d', wrep fsize [] P d' (spec_task setting k len t m).2 →
     Q tt (SendState d' (fr (retag (spec_task setting k len t m).1 tags)))) →
  wp (tag_task_packet setting t datalink k len) Q (SendState d (fr tags)).
Proof.
  intros R Hok Hids Hlv HQ. unfold tag_task_packet. wp_step. unfold on_buf. wp_step.
  apply wp_frame_switches; [done..|]. cbn [ss_dw ss_buf].
  set (tags1 := retag (λ t, Z.lor t (switches_mask _)) tags).
  assert (ok tags1) as Hok1.
  { apply frame_ok_retag; [done|]. intros x Hx. apply in_u_lor; [done|done|by apply switches_mask_in_u]. }
  unfold on_dw. wp_steps. eapply wp_get_vi; [exact R|]. cbn [ss_dw ss_buf]. wp_step.
  unfold spec_task in HQ. pose proof (spec_sampled_get flow_selected_level_map k k len m) as Hget.
  destruct (spec_sampled setting k len m) as [sampled m1] eqn:E. cbn [snd fst] in HQ, Hget.
  specialize (Hget ltac:(done) ltac:(done)).
  set (tags2 := if sampled then retag (λ t, Z.lor t 1) tags1 else tags1).
  assert (ok tags2) as Hok2.
  { unfold tags2. destruct sampled; [|done]. apply frame_ok_retag; [done|]. intros x Hx. by apply in_u_lor. }
  assert (∀ d', wrep fsize [] P d' m1 →
    wp (if decide (host_or_switch_sample setting = HOST_SAMPLE ∧ inject_or_tag_packet setting = TAG_PKT_AS_CONDITION)
        then selected_level ← zoom ss_dw (λ d s, SendState d (ss_buf s))
               (call_vi (pt_vi P (Buf flow_selected_level_map (m_idx m))) (ft_get k));
             if decide (selected_level > NO_SELECTED_LEVEL)
             then zoom ss_buf (λ b s, SendState (ss_dw s) b) (tag_selected_flow_level_in_normal_packet datalink selected_level)
             else mret tt
        else mret tt) Q (SendState d' (fr tags2))) as Hrest.
  { intros d' R'. assert (m_idx m1 = m_idx m) as Ei.
    { pose proof (spec_sampled_same k len m) as [Ei _]. by rewrite E in Ei. }
    assert (∀ g, g = (λ x, Z.lor x (spec_level_bits setting k m1)) → Q tt (SendState d' (fr (retag g tags2)))) as HQ'.
    { intros g ->. specialize (HQ d' R'). unfold spec_level_bits. unfold tags2, tags1.
      revert HQ. unfold tagged. destruct tags as [|x tags]; destruct sampled; simpl; try done; by rewrite Z.lor_0_r. }
    unfold spec_level_bits, spec_level_tag in HQ'. clear HQ E.
    destruct (decide (host_or_switch_sample setting = HOST_SAMPLE ∧ inject_or_tag_packet setting = TAG_PKT_AS_CONDITION)).
    - wp_steps. rewrite <- Ei. eapply wp_call_vi_get; [exact R'|apply R'|]. fold (m_get flow_selected_level_map k m1).
      wp_steps. unfold NO_SELECTED_LEVEL. destruct (decide (m_get flow_selected_level_map k m1 > 0)).
      + wp_steps. apply wp_frame_level; [done|lia|]. by apply HQ'.
      + wp_steps. specialize (HQ' _ eq_refl). revert HQ'. destruct tags2; simpl; by rewrite ?Z.lor_0_r.
    - wp_steps. specialize (HQ' _ eq_refl). revert HQ'. rewrite decide_False by lia. destruct tags2; simpl; by rewrite ?Z.lor_0_r. }
  unfold spec_sampled in E. destruct (decide (host_or_switch_sample setting = HOST_SAMPLE)).
  - wp_steps. eapply wp_sample_at_host; [exact R|]. intros d' R'.
    destruct (spec_sample_at_host setting k len m) as [sm m2]. cbn [fst snd] in R' |- *. injection E as <- <-.
    destruct sm; cbn [ss_dw ss_buf]; [rewrite (decide_True (P:=1 ≠ 0)) by done|rewrite (decide_False (P:=0 ≠ 0)) by (intros X; by apply X)]; wp_steps.
    + apply wp_frame_sampled; [done|]. wp_steps. cbn [ss_dw ss_buf].
      eapply wp_update_flow_not_sampled_volume; [exact R'|]. intros d'' R''. by apply Hrest.
    + by apply Hrest.
  - injection E as <- <-. wp_steps. by apply Hrest.
Qed.
End tags.
End wps.

(** ** The handler *)
Section handler.
Context {K VI VF FX : Type} `{KeyLaws K}.
Context `{!FlowTable K Z Z VI} `{!FlowTableLaws K Z Z VI} `{!IntTable K VI}.
Context `{!FlowTable K c_float c_float VF} `{!FlowTableLaws K c_float c_float VF}.
Context `{!FixedTable K FX} `{!FixedTableLaws K FX} `{!PacketFlow K}.
Context (setting : cm_experiment_setting_t) (fsize : Z) (tasks : K → option task_t).
Implicit Types (d : data_warehouse_t VI VF FX) (m : wmodel K) (k : K) (P : wptrs).

Lemma levels_get k m : levels_ok m → m_get flow_selected_level_map k m <= 3.
Proof.
  intros Hl. specialize (Hl k (m_idx m)). unfold m_get. rewrite !elem_of_cons in Hl.
  destruct Hl as [->|[->|[->|Hl%not_elem_of_nil]]]; [done..|done].
Qed.

Lemma levels_upd o k v m :
  levels_ok m → v ∈ [None; Some SELECTED_LEVEL; Some TARGET_LEVEL] ∨ (∀ i, o ≠ Buf flow_selected_level_map i) →
  levels_ok (m_set_vi o (kupd k v) m).
Proof.
  intros Hl Hv k' i. simpl. case_decide as E; [|apply Hl]. destruct Hv as [Hv|Hv]; [|by destruct (Hv i)].
  unfold kupd. case_decide; [done|]. rewrite <- E. apply Hl.
Qed.

Lemma levels_send k len ot m : levels_ok m → levels_ok (spec_send setting fsize k len ot m).2.
Proof.
  intros Hl. assert (∀ m, levels_ok m → levels_ok (spec_account setting fsize k len m)) as Ha.
  { clear m Hl. intros m Hl. unfold spec_account, spec_normal. case_decide; [|exact Hl].
    unfold spec_classify, spec_selected_level, levels_ok in *. intros k' i.
    refine (levels_upd (Buf flow_selected_level_map _) k _ (m_set_vf _ _ (m_set_vi _ _ m)) _ _ k' i).
    - refine (levels_upd (Buf flow_volume_map _) k _ m Hl _). right. congruence.
    - left. unfold flow_level. repeat case_match; set_solver. }
  unfold spec_send. destruct ot as [t|]; [|by apply Ha].
  unfold spec_task. pose proof (spec_sampled_same setting k len m) as [_ Hs].
  destruct (spec_sampled setting k len m) as [sampled m1]. apply Ha. intros k' i.
  simpl in Hs. rewrite Hs by done. apply Hl.
Qed.

Lemma wp_list_set P d m s pm (f : flow_s) seqid len (Q : unit → data_warehouse_t VI VF FX → Prop) :
  wrep fsize [] P d m → m_list m = PLive s → vpost s pm →
  (∀ d' s', wrep fsize [] P d' (m_set_list (PLive s') m) → vpost s' (spec_vl_set f seqid len pm) → Q tt d') →
  wp (on_recePktList (ht_vl_set f seqid len)) Q d.
Proof.
  intros R El (cells & pls & Rv & Hq & Em) HQ. unfold on_recePktList. apply wp_zoom.
  rewrite (wr_list _ _ _ _ _ R), El. apply wp_unless_null. eapply wp_vl_set; [done..|].
  intros s' Hs'. apply (HQ _ s').
  - destruct R. by split.
  - destruct Hs' as (c' & p' & Rv' & Hq' & Em'). exists c', p'. split; [done|]. split; [done|].
    etrans; [exact Em'|]. by apply spec_vl_set_proper.
Qed.

Lemma wp_send_ipv4 P d m s pm datalink fl tags (f : flow_s) seqid len :
  let k := packet_flow_src (f_srcip f) (f_dstip f) in
  let b := frame fl tags f seqid in
  wrep fsize [] P d m → m_list m = PLive s → vpost s pm → levels_ok m →
  frame_ok datalink fl tags f seqid → TCPR_IPV4_H <= len < 2 ^ 31 → normal_ok k len m →
  (∀ t, tasks k = Some t → Forall (λ id, 1 <= id <= 12) (monitor_switch_ids t)) →
  wp (cm_handle_ipv4_packet setting tasks len datalink) (λ _ st, ∃ d' s',
    let '(g, m') := spec_send setting fsize k len (tasks k) (m_set_list (PLive s') m) in
    st = SendState d' (frame fl (retag g tags) f seqid) ∧
    vpost s' (spec_vl_set f seqid (u16 len) pm) ∧ wrep fsize [] P d' m' ∧ levels_ok m') (SendState d b).
Proof.
  intros k b R El Hv Hlv Hok [Hl1 Hl2] Hn Hsw.
  unfold cm_handle_ipv4_packet. unfold TCPR_IPV4_H in *.
  assert (u32 len = len) as -> by (apply wrap_small; unfold in_u; simpl; lia).
  rewrite (decide_False (P:=len < 20)) by lia. wp_step. unfold on_buf. wp_step.
  apply (wp_parse datalink 8 0 fl tags f seqid); try apply Hok; [done..|].
  rewrite decide_True by reflexivity. cbn [ss_dw ss_buf]. wp_step. unfold on_dw. wp_step.
  eapply wp_list_set; [exact R|exact El|exact Hv|]. intros d1 s1 R1 Hv1. cbn [ss_dw ss_buf].
  fold k. fold b. set (m1 := m_set_list (PLive s1) m) in *.
  assert (levels_ok m1) as Hlv1 by exact Hlv.
  assert (∀ d2 g m2, wrep fsize [] P d2 m2 → normal_ok k len m2 →
     spec_send setting fsize k len (tasks k) m1 = (g, spec_account setting fsize k len m2) →
     wp (zoom ss_dw (λ d (s : send_state VI VF FX), SendState d (ss_buf s))
           (update_flow_normal_volume setting k len;; i ← gets active_idx;
            upd_counter pkt_num_sent i (λ n, n + 1);; i ← gets active_idx;
            upd_counter volume_sent i (λ n, n + u16 len)))
       (λ _ st, ∃ d' s', let '(g, m') := spec_send setting fsize k len (tasks k) (m_set_list (PLive s') m) in
          st = SendState d' (frame fl (retag g tags) f seqid) ∧
          vpost s' (spec_vl_set f seqid (u16 len) pm) ∧ wrep fsize [] P d' m' ∧ levels_ok m')
       (SendState d2 (frame fl (retag g tags) f seqid))) as Hacc.
  { intros d2 g m2 R2 Hn2 E. wp_step. eapply wp_account_packet; [exact R2|exact Hn2|]. intros d3 R3.
    exists d3, s1. fold m1. pose proof (levels_send k len (tasks k) m1 Hlv1) as Hl3. rewrite E in *. done. }
  wp_step. unfold spec_send in Hacc. destruct (tasks k) as [t|] eqn:Et.
  - eapply wp_tag_task; [exact R1|exact Hok|by apply Hsw|by apply levels_get|]. intros d2 R2.
    specialize (Hacc d2 (spec_task setting k len t m1).1 (spec_task setting k len t m1).2 R2).
    apply Hacc; [|by destruct (spec_task setting k len t m1)].
    unfold normal_ok, spec_task in *. pose proof (spec_sampled_get setting flow_volume_map k k len m1) as Eg.
    destruct (spec_sampled setting k len m1) as [sampled m2]. simpl in *. rewrite Eg by done. exact Hn.
  - wp_step. specialize (Hacc d1 (λ x, x) m1 R1 Hn eq_refl).
    unfold b. destruct tags; exact Hacc.
Qed.

(** C12. What the sender does to a packet: given an IPv4 packet with any number of
    VLAN headers, the handler records its sequence number and its length for its
    flow; if a task of the host matches it, the packet is tagged, in its first
    VLAN header, for the switches of the task, as sampled if the sampling says
    so and with the level of the flow, and without a task it is left as it is;
    no other byte changes; then its volume is accounted for, the level of the
    flow recomputed and the counters advanced.  The handler never fails,
    provided no [int] volume overflows and the switches are numbered 1 to 12. *)
Theorem send_ipv4 P d m s pm datalink fl tags (f : flow_s) seqid len :
  let k := packet_flow_src (f_srcip f) (f_dstip f) in
  let b := frame fl tags f seqid in
  wrep fsize [] P d m → m_list m = PLive s → vpost s pm → levels_ok m →
  frame_ok datalink fl tags f seqid → TCPR_IPV4_H <= len < 2 ^ 31 → normal_ok k len m →
  (∀ t, tasks k = Some t → Forall (λ id, 1 <= id <= 12) (monitor_switch_ids t)) →
  ∃ d' s', let '(g, m') := spec_send setting fsize k len (tasks k) (m_set_list (PLive s') m) in
    cm_handle_ipv4_packet setting tasks len datalink (SendState d b)
    = Ok (tt, SendState d' (frame fl (retag g tags) f seqid)) ∧
    vpost s' (spec_vl_set f seqid (u16 len) pm) ∧ wrep fsize [] P d' m' ∧ levels_ok m'.
Proof.
  intros k b R El Hv Hlv Hok Hl Hn Hsw.
  pose proof (wp_send_ipv4 P d m s pm datalink fl tags f seqid len R El Hv Hlv Hok Hl Hn Hsw) as Hw.
  apply wp_run in Hw as ([] & st & E & d' & s' & Hst). exists d', s'. fold k in Hst.
  destruct (spec_send _ _ _ _ _ _) as [g m']. destruct Hst as [-> Hst]. done.
Qed.

(** A packet that is not IPv4 changes nothing, however long and tagged. *)
Theorem send_other P d m datalink e1 e2 fl tags (f : flow_s) seqid len :
  let b := eth_frame [e1; e2] fl tags f seqid in
  wrep fsize [] P d m → byte e1 → byte e2 →
  ntohs (e1 + Z.shiftl e2 8) ≠ ETHERTYPE_VLAN → ntohs (e1 + Z.shiftl e2 8) ≠ ETHERTYPE_IP →
  Forall (in_u 16) tags → flow_ok f → in_u 32 seqid → filler_ok datalink fl b →
  cm_handle_ipv4_packet setting tasks len datalink (SendState d b) = Ok (tt, SendState d b).
Proof.
  intros b R He1 He2 Hne1 Hne2 Htags Hf Hq Hfl. apply wp_exact. unfold cm_handle_ipv4_packet.
  case_decide; [by apply wp_ret|]. wp_step. unfold on_buf. wp_step.
  apply (wp_parse datalink e1 e2 fl tags f seqid); try done. rewrite decide_False by done. by wp_steps.
Qed.

(** Updates keep the active buffer and the flows sampled. *)
Lemma update_keeps_samples o m :
  is_update o → let m' := spec_wop setting fsize o m in
  m_idx m' = m_idx m ∧ ∀ i, m_vi m' (Buf flow_sample_map i) = m_vi m (Buf flow_sample_map i).
Proof.
  destruct o as [k n|k n|k| |]; simpl; intros Ho; try done.
  - unfold spec_normal. by case_decide.
  - unfold spec_loss, spec_loss_body, spec_sample_loss. cbv zeta. by repeat case_match.
  - unfold spec_not_sampled. by case_decide.
Qed.

Lemma updates_keep_samples os m :
  Forall is_update os → let m' := spec_wops setting fsize os m in
  m_idx m' = m_idx m ∧ ∀ i, m_vi m' (Buf flow_sample_map i) = m_vi m (Buf flow_sample_map i).
Proof.
  intros Hos. revert m. induction Hos as [|o os Ho _ IH]; intros m; [done|].
  destruct (update_keeps_samples o m Ho) as [Ei Ev]. destruct (IH (spec_wop setting fsize o m)) as [Ei' Ev'].
  cbn zeta. unfold spec_wops in *. cbn [foldl]. rewrite Ei', Ei. split; [done|]. intros i. by rewrite Ev', Ev.
Qed.

Lemma sampled_get k len m :
  (spec_sample setting k len m).1 = true → 0 <= m_get flow_sample_map k (spec_sample setting k len m).2.
Proof.
  unfold spec_sample. case_decide; [simpl; lia|]. destruct (drand48_r (m_rand m)) as [r x].
  destruct (float_ltb r (pkt_sample_rate_trad setting len)); [|done]. intros _. unfold m_get. simpl.
  rewrite decide_True by done. by rewrite kupd_eq.
Qed.

(** Equal flows have the same entries. *)
Lemma wrep_respects P d m f k k' :
  wrep fsize [] P d m → in_buffers (m_idx m) → key_compare k k' = 0 →
  m_vi m (Buf f (m_idx m)) k = m_vi m (Buf f (m_idx m)) k'.
Proof.
  intros R Hi Ek. destruct (owned_live _ _ _ _ (wr_vi _ _ _ _ _ R) (Buf f (m_idx m)) Hi) as (a & h & _ & _ & ps & Hv & _).
  by apply (ft_view_respects _ _ _ Hv).
Qed.

(** C22. Sample and hold: once a packet of a flow is sampled, every later packet
    of the same flow in the interval is sampled, whatever its length and the
    updates in between, without drawing a random number and without a change of
    the warehouse. *)
Theorem sample_and_hold P d m d1 d2 k k' len len' os :
  let sample k len := (m ← data_warehouse_get flow_sample_map;
    sample_packet setting g_drand48 (λ k, call_vi m (ft_get k)) (λ k v, call_vi m (ft_set k v)) k len) in
  int_of_float (fix_loss_map_bucket_size (sender_setting setting)) = Some fsize → 0 < fsize →
  wrep fsize [] P d m → wops_ok setting fsize os (spec_sample setting k len m).2 →
  Forall is_update os → key_compare k' k = 0 →
  sample k len d = Ok (1, d1) → do_wops setting os d1 = Ok (tt, d2) → sample k' len' d2 = Ok (1, d2).
Proof.
  intros sample Hf Hf0 R Hops Hos Ek E1 E2.
  pose proof (wr_idx_ok _ _ _ _ _ R) as Hi.
  assert (wp (sample k len) (λ r d', r = 1 → wrep fsize [] P d' (spec_sample setting k len m).2 ∧
    0 <= m_get flow_sample_map k (spec_sample setting k len m).2) d) as Hw.
  { unfold sample. wp_steps. eapply wp_get_vi; [exact R|]. eapply wp_sample; [exact R|]. intros d' R' Hr.
    split; [exact R'|]. apply sampled_get. by destruct (spec_sample setting k len m) as [[] ?]. }
  unfold wp in Hw. rewrite E1 in Hw. destruct (Hw eq_refl) as [R1 Hg]. clear Hw E1 R.
  set (m1 := (spec_sample setting k len m).2) in *.
  assert (wp (do_wops setting os) (λ _ d', ∃ P', wrep fsize [] P' d' (spec_wops setting fsize os m1)) d1) as Hw.
  { eapply wp_do_wops; [exact Hf|exact Hf0|exact R1|exact Hops|]. eauto. }
  unfold wp in Hw. rewrite E2 in Hw. destruct Hw as [P' R2]. clear E2.
  apply wp_exact. unfold sample, sample_packet, flow_src_already_sampled. wp_steps.
  eapply wp_get_vi; [exact R2|]. wp_steps. eapply wp_call_vi_get; [exact R2|apply R2|].
  assert (int_or_minus1 (m_vi (spec_wops setting fsize os m1)
    (Buf flow_sample_map (m_idx (spec_wops setting fsize os m1))) k') >= 0) as Hg'.
  { destruct (updates_keep_samples os m1 Hos) as [Ei Ev].
    rewrite Ei, Ev, (wrep_respects P d1 m1 _ k' k R1); [unfold m_get in Hg; lia| |exact Ek].
    unfold m1. by rewrite spec_sample_idx. }
  wp_steps. rewrite (decide_True (P:=_ >= 0)) by exact Hg'. rewrite decide_True by done. by apply wp_ret.
Qed.

(** Both steps run, for the witness. *)
Lemma sample_then_run P d m k len os :
  int_of_float (fix_loss_map_bucket_size (sender_setting setting)) = Some fsize → 0 < fsize →
  wrep fsize [] P d m → wops_ok setting fsize os (spec_sample setting k len m).2 →
  ∃ d1 d2, (m ← data_warehouse_get flow_sample_map;
    sample_packet setting g_drand48 (λ k, call_vi m (ft_get k)) (λ k v, call_vi m (ft_set k v)) k len) d
    = Ok (if (spec_sample setting k len m).1 then 1 else 0, d1) ∧ do_wops setting os d1 = Ok (tt, d2).
Proof.
  intros Hf Hf0 R Hops.
  assert (wp (m ← data_warehouse_get flow_sample_map;
    sample_packet setting g_drand48 (λ k, call_vi m (ft_get k)) (λ k v, call_vi m (ft_set k v)) k len)
    (λ r d1, r = (if (spec_sample setting k len m).1 then 1 else 0) ∧ ∃ d2, do_wops setting os d1 = Ok (tt, d2)) d) as Hw.
  { wp_steps. eapply wp_get_vi; [exact R|]. eapply wp_sample; [exact R|]. intros d1 R1. split; [done|].
    assert (wp (do_wops setting os) (λ _ _, True) d1) as Hw by (by eapply wp_do_wops).
    apply wp_run in Hw as ([] & d2 & E & _). eauto. }
  apply wp_run in Hw as (r & d1 & E & -> & d2 & E2). eauto.
Qed.
End handler.

(** ** Witnesses *)
Definition demo_filler : filler := Filler [] (replicate 12 17) (replicate 9 69) [0; 0] [80; 16].
Definition demo_packet_flow : flow_s := Flow 167772161 184549377 4000 80 6.
(** Task 7, monitored by switches 1 and 3 *)
Definition demo_task : task_t := Task 7 1 2 [1; 3] 167772160 184549376.
Definition demo_tasks : flow_src → option task_t := get_task_of_traffic [demo_task].

Lemma demo_frame_ok : frame_ok 1 demo_filler [0] demo_packet_flow 1234.
Proof.
  assert (bytes_of (fl_mac demo_filler) ∧ bytes_of (fl_ip demo_filler)) as [??]
    by (split; by apply (bool_decide_unpack (bytes_of _)); vm_compute).
  split; try done; [by repeat constructor|].
  unfold filler_ok. split_and!; try done; by apply (bool_decide_unpack (bytes_of _)); vm_compute.
Qed.

Lemma demo_levels : levels_ok (K:=flow_src) m_init.
Proof. intros k i. simpl. unfold kempty. set_solver. Qed.

Lemma send_ipv4_witness :
  demo_tasks (packet_flow_src 167772161 184549377) = Some demo_task ∧
  ∃ (d d' : sender_warehouse) g, cm_handle_ipv4_packet demo_setting demo_tasks 1500 1
     (SendState d (frame demo_filler [0] demo_packet_flow 1234))
   = Ok (tt, SendState d' (frame demo_filler (retag g [0]) demo_packet_flow 1234)).
Proof.
  split; [reflexivity|].
  destruct (demo_warehouse []) as (d & P & R); [done|].
  destruct (vl_create_ok HASH_MAP_SIZE ltac:(done)) as (s & E & Hv).
  pose proof (send_ipv4 demo_setting 10 demo_tasks P d _ s kempty 1 demo_filler [0] demo_packet_flow 1234 1500
    R E Hv demo_levels demo_frame_ok) as Hs.
  destruct Hs as (d' & s' & Hs).
  - split; [done|reflexivity].
  - intros _. split; lazy; congruence.
  - intros t Ht. assert (t = demo_task) as -> by (injection Ht as <-; reflexivity). by repeat constructor.
  - destruct (spec_send _ _ _ _ _ _) as [g m']. exists d, d', g. apply Hs.
Defined.

Lemma send_other_witness :
  ∃ d : sender_warehouse, let b := eth_frame [8; 6] demo_filler [0] demo_packet_flow 1234 in
    cm_handle_ipv4_packet demo_setting demo_tasks 1500 1 (SendState d b) = Ok (tt, SendState d b).
Proof.
  destruct (demo_warehouse []) as (d & P & R); [done|]. exists d.
  pose proof demo_frame_ok as [Ht Hf Hs Hfl].
  apply (send_other demo_setting 10 demo_tasks P d (spec_wops demo_setting 10 [] m_init) 1 8 6 demo_filler [0]
    demo_packet_flow 1234 1500); done.
Defined.

Lemma sample_and_hold_witness :
  ∃ (d d1 d2 : sender_warehouse),
    do_wops demo_setting [WNormal demo_flow 100] d1 = Ok (tt, d2) ∧
    (m ← data_warehouse_get flow_sample_map;
     sample_packet demo_setting g_drand48 (λ k, call_vi m (ft_get k)) (λ k v, call_vi m (ft_set k v))
       demo_flow 64) d2 = Ok (1, d2).
Proof.
  assert ((spec_sample demo_setting demo_flow 1500 m_init).1 = true) as Es by (lazy; reflexivity).
  destruct (demo_warehouse []) as (d & P & R); [done|]. change (spec_wops demo_setting 10 [] m_init) with
    (m_init (K:=flow_src)) in R.
  assert (wops_ok demo_setting 10 [WNormal demo_flow 100] (spec_sample demo_setting demo_flow 1500 m_init).2) as Hops.
  { split; [|done]. intros _. split; lazy; congruence. }
  destruct (sample_then_run demo_setting 10 P d _ demo_flow 1500 _ demo_bucket_size ltac:(done) R Hops)
    as (d1 & d2 & E1 & E2). rewrite Es in E1.
  exists d, d1, d2. split; [exact E2|].
  by apply (sample_and_hold demo_setting 10 P d m_init d1 d2 demo_flow demo_flow 1500 64
    [WNormal demo_flow 100] demo_bucket_size ltac:(done) R Hops); [repeat constructor| |exact E1|exact E2].
Defined.
