(* ===== verification/SendPackets.v ===== *)
(** * The replay of a trace (send_packets of tcpreplay/src/send_packets.c)

    The main loop of the sender.  Each packet of the trace is copied into a
    buffer of fixed size and its length on the recorded network is appended in
    four bytes, the handler of [SendPacket.v] records and tags it, and then it
    goes out on the interface, under the mutex the condition sender holds while
    it sends.  Timing, statistics printed on the way and the second interface
    are tcpreplay's; [sendpacket] gives the number of bytes it has put on the
    wire, as in [ConditionSender.v]. *)
From S2P Require Import Prelude CMonad CFloat ChainedTable TableSpec FixSizeTable FixSizeIface.
From S2P Require Import Flow PktListTable ObjStore Settings Sample FlowTables Warehouse.
From S2P Require Import Bytes VlanTag TaskManager ConditionSender SendPacket.

(** The size of [g_pkt_temporary_buffer] *)
Definition PKT_BUFFER_LEN : Z := 15000.

(** [memcpy(buffer + off, b, length b)] *)
Definition memcpy (off : Z) (b : list Z) : cmd (list Z) unit := λ dst,
  if decide (0 <= off ∧ off + Z.of_nat (length b) <= Z.of_nat (length dst))
  then Ok (tt, take (Z.to_nat off) dst ++ b ++ drop (Z.to_nat off + length b) dst)
  else Fault OutOfBounds.
(** The bytes [get_next_packet] points to, read to the captured length *)
Definition captured (p : pcap_pkt) : res (list Z) :=
  if decide (0 <= ph_caplen p <= Z.of_nat (length (ph_data p)))
  then Ok (take (Z.to_nat (ph_caplen p)) (ph_data p)) else Fault OutOfBounds.
(** The packet and its length go into the buffer; the length to send.  Both
    lengths of the header become the captured one, so that the option
    [use_pkthdr_len], which chooses one of them, makes no difference. *)
Definition fill_buffer (p : pcap_pkt) : cmd (list Z) Z :=
  b ← lift (captured p);
  memcpy 0 b;;
  memcpy (ph_caplen p) (mem32 (ph_len p));;
  mret (u32 (ph_caplen p + 4)).

(** The buffer and the fields of the replay context the loop works on *)
Record sending := Sending {
  g_pkt_temporary_buffer : list Z; abort : bool; pkts_sent : Z; bytes_sent : Z; iteration : Z
}.
Definition set_buffer (b : list Z) (s : sending) : sending :=
  Sending b (abort s) (pkts_sent s) (bytes_sent s) (iteration s).
Definition set_abort (s : sending) : sending :=
  Sending (g_pkt_temporary_buffer s) true (pkts_sent s) (bytes_sent s) (iteration s).
Definition count_packet (pktlen : Z) (s : sending) : sending :=
  Sending (g_pkt_temporary_buffer s) (abort s) (u64 (pkts_sent s + 1)) (u64 (bytes_sent s + pktlen)) (iteration s).
Definition next_iteration (s : sending) : sending :=
  Sending (g_pkt_temporary_buffer s) (abort s) (pkts_sent s) (bytes_sent s) (u32 (iteration s + 1)).
(** Before the replay *)
Definition not_sending : sending := Sending (replicate (Z.to_nat PKT_BUFFER_LEN) 0) false 0 0 0.

Section send.
Context {K VI VF FX : Type} `{KeyOps K} `{!FlowTable K Z Z VI}.
Context `{!FlowTable K c_float c_float VF} `{!FixedTable K FX} `{!PacketFlow K}.
Context (setting : cm_experiment_setting_t) (task_of_traffic : K → option task_t) (datalink : Z).
Context (sendpacket : list raw_packet → raw_packet → Z).

(** The warehouse, what the loop works on and the packets on the wire *)
Record replay_state := Replay {
  rp_dw : data_warehouse_t VI VF FX; rp_sending : sending; rp_wire : list raw_packet
}.
Definition on_rpdw {A} (c : cmd (data_warehouse_t VI VF FX) A) : cmd replay_state A :=
  zoom rp_dw (λ d s, Replay d (rp_sending s) (rp_wire s)) c.
Definition on_sending {A} (c : cmd sending A) : cmd replay_state A :=
  zoom rp_sending (λ x s, Replay (rp_dw s) x (rp_wire s)) c.
Definition on_buffer {A} (c : cmd (list Z) A) : cmd replay_state A :=
  on_sending (zoom g_pkt_temporary_buffer set_buffer c).
(** The handler works on the buffer in place. *)
Definition on_handler {A} (c : cmd (send_state VI VF FX) A) : cmd replay_state A :=
  zoom (λ s, SendState (rp_dw s) (g_pkt_temporary_buffer (rp_sending s)))
    (λ x s, Replay (ss_dw x) (set_buffer (ss_buf x) (rp_sending s)) (rp_wire s)) c.

(** A packet that is not sent whole only gives a warning. *)
Definition put_on_wire (pktlen : Z) : cmd replay_state unit :=
  b ← gets (λ s, g_pkt_temporary_buffer (rp_sending s));
  wire ← gets rp_wire;
  let pkt := set (take (Z.to_nat pktlen) b) in
  if decide (sendpacket wire pkt < i32 pktlen) then mret tt
  else modify (λ s, Replay (rp_dw s) (rp_sending s) (rp_wire s ++ [pkt])).

(** The body of the loop, for a packet that is sent *)
Definition send_packet (p : pcap_pkt) : cmd replay_state unit :=
  let total_pkt_len := i32 (ph_len p) in
  pktlen ← on_buffer (fill_buffer p);
  on_handler (cm_handle_ipv4_packet setting task_of_traffic total_pkt_len datalink);;
  on_rpdw (wlock packet_send_mutex);;
  put_on_wire pktlen;;
  on_rpdw (wunlock packet_send_mutex);;
  on_sending (modify (count_packet pktlen)).

(** [send_packets] on the packets of a file, given the limit of option [-L] and
    whether the user has interrupted the replay by the [packetnum]-th packet *)
Context (limit_send : Z) (interrupted : nat → bool).
Fixpoint send_packets (packetnum : nat) (pcap : list pcap_pkt) : cmd replay_state unit :=
  match pcap with
  | [] => on_sending (modify next_iteration)
  | p :: pcap =>
      (if interrupted packetnum then on_sending (modify set_abort) else mret tt);;
      s ← gets rp_sending;
      if abort s then mret tt
      else if decide (limit_send > 0 ∧ pkts_sent s >= u64 limit_send) then
        on_sending (modify set_abort);; on_sending (modify next_iteration)
      else send_packet p;; send_packets (S packetnum) pcap
  end.
End send.
Arguments replay_state VI VF FX : clear implicits.
