(* ===== verification/SendPacketsSpec.v ===== *)
(** * What the replay does to a packet

    The buffer that [send_packet] fills holds a frame of [FrameSpec.v], with the
    length and what is left of the packets before it at its end; so what the
    handler does to a frame is what it does to the buffer, and what goes out is
    the tagged frame with its length. *)
From S2P Require Import Prelude CMonad CFloat ChainedTable TableSpec FixSizeTable FixSizeIface.
From S2P Require Import Flow PktListTable PktListSpec PktListProps ObjStore Settings Sample FlowTables.
From S2P Require Import Warehouse WarehouseSpec WarehouseRecords WarehouseProps Config Bytes VlanTag VlanProps TaskManager.
From S2P Require Import ConditionSender SendPacket FrameSpec SendProps SendPackets.

(** ** The buffer *)
Lemma wp_memcpy off b dst (Q : unit → list Z → Prop) :
  0 <= off → off + Z.of_nat (length b) <= Z.of_nat (length dst) →
  Q tt (take (Z.to_nat off) dst ++ b ++ drop (Z.to_nat off + length b) dst) → wp (memcpy off b) Q dst.
Proof. intros H0 H1 HQ. unfold wp, memcpy. by rewrite decide_True. Qed.

Lemma length_mem32 x : length (mem32 x) = 4%nat.
Proof. done. Qed.
Lemma bytes_mem32 x : bytes_of (mem32 x).
Proof. unfold mem32, mem16. repeat constructor; by apply wrap_in_u. Qed.

(** The packet, its length, and what was there before *)
Definition filled (b : list Z) (len : Z) (old : list Z) : list Z := b ++ mem32 len ++ drop (length b + 4) old.
Lemma wp_fill_buffer b len old (Q : Z → list Z → Prop) :
  Z.of_nat (length b) + 4 <= Z.of_nat (length old) → Z.of_nat (length old) < 2 ^ 32 →
  Q (Z.of_nat (length b) + 4) (filled b len old) → wp (fill_buffer (PcapPkt (Z.of_nat (length b)) len b)) Q old.
Proof.
  intros Hl Hb HQ. unfold fill_buffer, captured. cbn [ph_caplen ph_len ph_data].
  rewrite decide_True by lia. rewrite Nat2Z.id, firstn_all. wp_step. unfold wp at 1, lift.
  wp_step. apply wp_memcpy; [done|lia|]. wp_step.
  change (Z.to_nat 0) with 0%nat. rewrite take_0. cbn [app Nat.add].
  apply wp_memcpy; [lia|rewrite !length_app, length_drop, length_mem32; lia|].
  rewrite Nat2Z.id, length_mem32, take_app_length, <- drop_drop, drop_app_length, drop_drop. apply wp_ret.
  assert (u32 (Z.of_nat (length b) + 4) = Z.of_nat (length b) + 4) as -> by (apply wrap_small; unfold in_u; lia).
  exact HQ.
Qed.
Lemma length_filled b len old : (length b + 4 <= length old)%nat → length (filled b len old) = length old.
Proof. intros Hl. unfold filled. rewrite !length_app, length_drop, length_mem32. lia. Qed.

(** A packet that does not fit is written past the end of the buffer. *)
Lemma fill_buffer_overflow p old :
  0 <= ph_caplen p <= Z.of_nat (length (ph_data p)) → Z.of_nat (length old) < ph_caplen p + 4 →
  fill_buffer p old = Fault OutOfBounds.
Proof.
  intros Hp Hl. unfold fill_buffer, captured. rewrite decide_True by done.
  set (b := take (Z.to_nat (ph_caplen p)) (ph_data p)).
  assert (length b = Z.to_nat (ph_caplen p)) as Eb by (unfold b; rewrite length_take; lia).
  unfold mbind, cmd_bind, lift. unfold memcpy at 1. case_decide; [|done].
  unfold memcpy. rewrite decide_False; [done|].
  rewrite !length_app, length_drop, length_take, length_mem32. lia.
Qed.

(** ** Frames with something after them *)
Definition followed (fl : filler) (r : list Z) : filler :=
  Filler (fl_pre fl) (fl_mac fl) (fl_ip fl) (fl_sum fl) (fl_rest fl ++ r).
Lemma frame_followed fl r tags f sid : frame (followed fl r) tags f sid = frame fl tags f sid ++ r.
Proof. unfold frame, eth_frame, ip_part, followed. cbn [fl_pre fl_mac fl_ip fl_sum fl_rest]. by rewrite <- !app_assoc. Qed.
Lemma followed_app fl r r' : followed (followed fl r) r' = followed fl (r ++ r').
Proof. unfold followed. cbn. by rewrite <- app_assoc. Qed.

Lemma l2_of_app datalink b r : has_headers datalink b → l2_of datalink (b ++ r) = l2_of datalink b.
Proof.
  intros [Hb Hl]. pose proof (l2_nonneg datalink b Hb). unfold l2_of, field16.
  by rewrite !lookup_app_l by lia.
Qed.
Lemma frame_ok_followed datalink fl r tags f sid :
  bytes_of r → frame_ok datalink fl tags f sid → frame_ok datalink (followed fl r) tags f sid.
Proof.
  intros Hr Hok. pose proof (frame_headers _ _ _ _ _ Hok) as Hh. destruct Hok as [Ht Hf Hs Hfl].
  split; [done..|]. rewrite frame_followed. unfold filler_ok in *. rewrite l2_of_app by done.
  unfold followed; cbn [fl_pre fl_mac fl_ip fl_sum fl_rest]. unfold bytes_of in *. rewrite Forall_app. intuition.
Qed.
Lemma length_frame fl tags tags' f sid :
  length tags' = length tags → length (frame fl tags' f sid) = length (frame fl tags f sid).
Proof. intros E. unfold frame, eth_frame. rewrite !length_app, !length_vlan_hdrs. lia. Qed.
Lemma frame_bytes datalink fl tags f sid : frame_ok datalink fl tags f sid → bytes_of (frame fl tags f sid).
Proof. intros Hok. apply (frame_headers _ _ _ _ _ Hok). Qed.

(** The length as it follows a packet on the wire *)
Definition with_length (fl : filler) (len : Z) : filler := followed fl (mem32 len).
Lemma filled_frame fl tags f sid len old :
  filled (frame fl tags f sid) len old
  = frame (followed fl (mem32 len ++ drop (length (frame fl tags f sid) + 4) old)) tags f sid.
Proof. by rewrite frame_followed. Qed.
Lemma take_packet fl r tags tags' f sid len :
  length tags' = length tags →
  take (Z.to_nat (Z.of_nat (length (frame fl tags f sid)) + 4)) (frame (followed fl (mem32 len ++ r)) tags' f sid)
  = frame (with_length fl len) tags' f sid.
Proof.
  intros E. unfold with_length. rewrite !frame_followed, app_assoc. apply take_app_length'.
  rewrite length_app, length_mem32, (length_frame fl tags tags') by done. lia.
Qed.

(** The last four bytes tell the length. *)
Lemma mem32_value x (pre : list Z) (Q : Z → list Z → Prop) :
  in_u 32 x → Q x (pre ++ mem32 x) → wp (read32 (Z.of_nat (length pre))) Q (pre ++ mem32 x).
Proof.
  intros Hx HQ. unfold mem32, mem16 in *. cbn [app] in *. unfold read32. wp_step.
  eapply (wp_read16_after _ _ 0); [lia|lia|reflexivity|reflexivity|]. wp_step.
  eapply (wp_read16_after _ _ 2); [lia|lia|reflexivity|reflexivity|]. apply wp_ret.
  assert (∀ y, in_u 16 y → u8 y + Z.shiftl (u8 (Z.shiftr y 8)) 8 = y) as E16.
  { intros y [H0 H1]. rewrite Z.shiftr_div_pow2, Z.shiftl_mul_pow2 by lia. unfold wrap.
    change (2 ^ 8) with 256. change (2 ^ 16) with 65536 in H1.
    rewrite (Z.mod_small (y / 256)) by (split; [apply Z.div_pos; lia|apply Z.div_lt_upper_bound; lia]).
    pose proof (Z.div_mod y 256 ltac:(lia)). lia. }
  rewrite !E16 by (by apply wrap_in_u). assert (u16 x + Z.shiftl (u16 (Z.shiftr x 16)) 16 = x) as ->; [|exact HQ].
  destruct Hx as [H0 H1]. rewrite Z.shiftr_div_pow2, Z.shiftl_mul_pow2 by lia. unfold wrap.
  change (2 ^ 32) with 4294967296 in H1. change (2 ^ 16) with 65536.
  rewrite (Z.mod_small (x / 65536)) by (split; [apply Z.div_pos; lia|apply Z.div_lt_upper_bound; lia]).
  pose proof (Z.div_mod x 65536 ltac:(lia)). lia.
Qed.

(** ** The tag *)
(** How the sender changes the tag of a packet of a task: it marks the switches,
    whether the packet is sampled and the level of its flow *)
Definition task_tag (ot : option task_t) (g : Z → Z) : Prop :=
  match ot with
  | None => g = λ x, x
  | Some t => ∃ sampled level, level <= 3 ∧ g = tagged (monitor_switch_ids t) sampled level
  end.
Lemma length_retag g tags : length (retag g tags) = length tags.
Proof. by destruct tags. Qed.
Lemma task_tag_in_u ot g x :
  (∀ t, ot = Some t → Forall (λ id, 1 <= id <= 12) (monitor_switch_ids t)) →
  task_tag ot g → in_u 16 x → in_u 16 (g x).
Proof.
  intros Hsw Hg Hx. destruct ot as [t|]; [|by rewrite Hg]. destruct Hg as (sampled & level & Hl & ->).
  unfold tagged. apply in_u_lor; [done|apply in_u_lor; [done|apply in_u_lor; [done|done|]|]|].
  - by apply switches_mask_in_u, Hsw.
  - by destruct sampled.
  - case_decide; [|done]. apply (level_cases level); [lia|done..].
Qed.

(** What the interface makes of a packet that is offered to it *)
Definition put_step (sendpacket : list raw_packet → raw_packet → Z) (w : list raw_packet) (pkt : raw_packet)
    : list raw_packet :=
  if bool_decide (Z.of_nat (length pkt) <= sendpacket w pkt) then w ++ [pkt] else w.

(** The buffer of the replay *)
Definition buffer_ok (s : sending) : Prop :=
  Z.of_nat (length (g_pkt_temporary_buffer s)) = PKT_BUFFER_LEN ∧ bytes_of (g_pkt_temporary_buffer s).
Lemma not_sending_ok : buffer_ok not_sending.
Proof.
  unfold buffer_ok, not_sending. cbn [g_pkt_temporary_buffer]. split; [by rewrite length_replicate, Z2Nat.id|].
  by apply Forall_replicate.
Qed.

(** ** The packet *)
Section packet.
Context {K VI VF FX : Type} `{KeyLaws K}.
Context `{!FlowTable K Z Z VI} `{!FlowTableLaws K Z Z VI} `{!IntTable K VI}.
Context `{!FlowTable K c_float c_float VF} `{!FlowTableLaws K c_float c_float VF}.
Context `{!FixedTable K FX} `{!FixedTableLaws K FX} `{!PacketFlow K}.
Context (setting : cm_experiment_setting_t) (fsize : Z) (tasks : K → option task_t) (datalink : Z).
Context (sendpacket : list raw_packet → raw_packet → Z).
Context (switches_ok : ∀ k t, tasks k = Some t → Forall (λ id, 1 <= id <= 12) (monitor_switch_ids t)).
Implicit Types (d : data_warehouse_t VI VF FX) (m : wmodel K) (k : K) (P : wptrs) (sd : sending).

Lemma spec_send_tag k len ot m : levels_ok m → task_tag ot (spec_send setting fsize k len ot m).1.
Proof.
  intros Hl. unfold spec_send. destruct ot as [t|]; [|done]. unfold spec_task.
  pose proof (spec_sampled_get setting flow_selected_level_map k k len m ltac:(done) ltac:(done)) as Eg.
  destruct (spec_sampled setting k len m) as [sampled m1]. cbn [fst snd] in *.
  exists sampled, (spec_level_tag setting k m1). split; [|done]. unfold spec_level_tag. case_decide; [|lia].
  rewrite Eg. by apply levels_get.
Qed.

Lemma wp_put_on_wire d sd w pkt rest (Q : unit → replay_state VI VF FX → Prop) :
  g_pkt_temporary_buffer sd = rest → Z.of_nat (length rest) < 2 ^ 31 → (length pkt <= length rest)%nat →
  take (length pkt) rest = pkt →
  Q tt (Replay d sd (put_step sendpacket w (set pkt))) →
  wp (put_on_wire sendpacket (Z.of_nat (length pkt))) Q (Replay d sd w).
Proof.
  intros Eb Hb Hl Et HQ. unfold put_on_wire. wp_steps. cbn [rp_sending rp_wire rp_dw]. rewrite Eb, Nat2Z.id, Et.
  assert (i32 (Z.of_nat (length pkt)) = Z.of_nat (length (set pkt))) as ->.
  { unfold set. rewrite length_fmap. apply swrap_small; [done|]. unfold in_s. change (2 ^ (32 - 1)) with (2 ^ 31). lia. }
  unfold put_step in HQ. destruct (decide (sendpacket w (set pkt) < _)); wp_steps; [rewrite bool_decide_false in HQ by lia|rewrite bool_decide_true in HQ by lia]; done.
Qed.

Lemma wp_send_packet P d m s pm sd w fl tags (f : flow_s) seqid len (Q : unit → replay_state VI VF FX → Prop) :
  let k := packet_flow_src (f_srcip f) (f_dstip f) in
  let fr := frame fl tags f seqid in
  wrep fsize [] P d m → m_list m = PLive s → vpost s pm → levels_ok m → buffer_ok sd →
  frame_ok datalink fl tags f seqid → TCPR_IPV4_H <= len < 2 ^ 31 → normal_ok k len m →
  Z.of_nat (length fr) + 4 <= PKT_BUFFER_LEN →
  (∀ d' s' b g m', spec_send setting fsize k len (tasks k) (m_set_list (PLive s') m) = (g, m') →
     task_tag (tasks k) g → vpost s' (spec_vl_set f seqid (u16 len) pm) → wrep fsize [] P d' m' → levels_ok m' →
     buffer_ok (set_buffer b sd) →
     Q tt (Replay d' (count_packet (Z.of_nat (length fr) + 4) (set_buffer b sd))
       (put_step sendpacket w (set (frame (with_length fl len) (retag g tags) f seqid))))) →
  wp (send_packet setting tasks datalink sendpacket (PcapPkt (Z.of_nat (length fr)) len fr)) Q (Replay d sd w).
Proof.
  intros k fr R El Hv Hlv [Hbl Hbb] Hok Hlen Hn Hfit HQ. unfold send_packet. cbn [ph_len].
  assert (i32 len = len) as -> by (apply swrap_small; [done|]; unfold in_s, TCPR_IPV4_H in *; simpl; lia).
  wp_step. unfold on_buffer, on_sending. wp_steps. cbn [rp_sending].
  apply wp_fill_buffer; [by rewrite Hbl|by rewrite Hbl|].
  set (old := g_pkt_temporary_buffer sd) in *. set (r := mem32 len ++ drop (length fr + 4) old).
  assert (filled fr len old = frame (followed fl r) tags f seqid) as -> by apply filled_frame.
  assert (frame_ok datalink (followed fl r) tags f seqid) as Hok'.
  { apply frame_ok_followed; [|done]. apply Forall_app. split; [apply bytes_mem32|by apply Forall_drop]. }
  unfold on_handler. wp_steps. cbn [rp_dw rp_sending set_buffer g_pkt_temporary_buffer].
  eapply wp_mono; [exact (wp_send_ipv4 setting fsize tasks P d m s pm datalink _ tags f seqid len R El Hv Hlv Hok' Hlen Hn (switches_ok k))|].
  intros [] st (d1 & s1 & Hst). destruct (spec_send _ _ _ _ _ _) as [g m1] eqn:Es.
  destruct Hst as (-> & Hv1 & R1 & Hlv1). cbn [ss_dw ss_buf].
  assert (task_tag (tasks k) g) as Hg.
  { pose proof (f_equal fst Es) as Eg. cbn [fst] in Eg. rewrite <- Eg. exact (spec_send_tag k len (tasks k) (m_set_list (PLive s1) m) Hlv). }
  set (b1 := frame (followed fl r) (retag g tags) f seqid).
  assert (Z.of_nat (length b1) = PKT_BUFFER_LEN) as Eb1.
  { unfold b1. rewrite (length_frame _ tags) by apply length_retag. rewrite frame_followed. fold fr. unfold r.
    rewrite !length_app, length_drop, length_mem32. lia. }
  assert (bytes_of b1) as Hb1.
  { eapply frame_bytes, frame_ok_retag; [exact Hok'|]. intros x Hx. by eapply (task_tag_in_u (tasks k)); [apply switches_ok| |]. }
  assert (length (frame (with_length fl len) (retag g tags) f seqid) = (length fr + 4)%nat) as Ep.
  { rewrite (length_frame _ tags) by apply length_retag. unfold with_length. by rewrite frame_followed, length_app. }
  unfold on_rpdw. wp_steps. cbn [rp_dw rp_sending rp_wire].
  eapply wp_wlock; [exact R1|done|set_solver|]. intros d2 R2. cbn [rp_dw rp_sending rp_wire set_buffer].
  wp_step. replace (Z.of_nat (length fr) + 4) with (Z.of_nat (length fr + 4)) by lia. rewrite <- Ep.
  eapply (wp_put_on_wire _ _ _ _ b1); [done|by rewrite Eb1|lia| |].
  { rewrite Ep, <- (Nat2Z.id (length fr + 4)), Nat2Z.inj_add. apply take_packet, length_retag. }
  wp_steps. cbn [rp_dw rp_sending rp_wire]. eapply wp_wunlock; [exact R2|done|set_solver|]. intros d3 R3.
  wp_steps. cbn [rp_dw rp_sending rp_wire]. rewrite Ep, Nat2Z.inj_add. by eapply (HQ d3 s1 b1).
Qed.
End packet.
