(* ===== verification/ConditionSpec.v ===== *)
(** * What a turn of the condition sender sends

    The messages of a turn as a list of flows and levels: [plus_list] for the
    flows whose level is new or has changed, [minus_list] for those no longer
    selected.  Applied in order to what a switch was told before, they give the
    levels of the warehouse. *)
From S2P Require Import Prelude CMonad CFloat ChainedTable ChainSpec TableSpec Listing FixSizeTable FixSizeSpec.
From S2P Require Import FixSizeIface Flow PktListTable PktListSpec ObjStore Settings Sample FlowTables.
From S2P Require Import Warehouse WarehouseSpec WarehouseIter Bytes VlanTag VlanProps ConditionSender.

Section messages.
Context {K : Type} `{KeyLaws K}.
Implicit Types (L S : kmap K Z) (m : wmodel K) (k : K).

Definition condition : Type := (K * Z).

Definition plus_list L (es : list (K * Z)) : list condition :=
  (λ e, (e.1, i32 e.2)) <$> filter (λ e, int_or_minus1 (L e.1) ≠ i32 e.2) es.
Definition minus_list S (es : list (K * Z)) : list condition :=
  (λ e, (e.1, NO_SELECTED_LEVEL)) <$> filter (λ e, ¬ int_or_minus1 (S e.1) > 0) es.

(** What a switch does with a condition *)
Definition apply_condition (sw : kmap K Z) (c : condition) : kmap K Z :=
  kupd c.1 (if decide (c.2 = NO_SELECTED_LEVEL) then None else Some c.2) sw.
Definition apply_conditions (sw : kmap K Z) (cs : list condition) : kmap K Z := foldl apply_condition sw cs.

(** The counter of the conditions sent *)
Definition count_condition m : wmodel K := m_count condition_pkt_num_sent (m_idx m) (λ n, n + 1) m.
Definition count_conditions (cs : list condition) m : wmodel K := foldl (λ m _, count_condition m) m cs.

Lemma count_conditions_same cs m :
  let m' := count_conditions cs m in
  m_vi m' = m_vi m ∧ m_vf m' = m_vf m ∧ m_fx m' = m_fx m ∧ m_coll m' = m_coll m ∧ m_idx m' = m_idx m ∧
  m_rand m' = m_rand m ∧ m_list m' = m_list m.
Proof.
  unfold count_conditions. revert m. induction cs as [|c cs IH]; intros m; [done|]. cbn zeta. cbn [foldl].
  destruct (IH (count_condition m)) as (E1 & E2 & E3 & E4 & E5 & E6 & E7). cbn zeta in *.
  by rewrite E1, E2, E3, E4, E5, E6, E7.
Qed.
Lemma count_conditions_app cs cs' m :
  count_conditions (cs ++ cs') m = count_conditions cs' (count_conditions cs m).
Proof. apply foldl_app. Qed.
Lemma apply_conditions_app sw cs cs' :
  apply_conditions sw (cs ++ cs') = apply_conditions (apply_conditions sw cs) cs'.
Proof. apply foldl_app. Qed.

Lemma apply_conditions_proper sw sw' cs : sw ≡ sw' → apply_conditions sw cs ≡ apply_conditions sw' cs.
Proof.
  unfold apply_conditions. revert sw sw'. induction cs as [|c cs IH]; intros sw sw' E; [done|].
  cbn [foldl]. apply IH. intros k. unfold apply_condition, kupd. case_decide; [done|apply E].
Qed.

(** Levels: none, selected or target *)
Definition levels_of S : Prop := ∀ k, S k ∈ [None; Some SELECTED_LEVEL; Some TARGET_LEVEL].

Lemma levels_cases S k (P : option Z → Prop) :
  levels_of S → P None → P (Some 1) → P (Some 2) → P (S k).
Proof.
  intros HS P0 P1 P2. specialize (HS k). rewrite !elem_of_cons in HS.
  destruct HS as [->|[->|[->|HS%not_elem_of_nil]]]; done.
Qed.

(** *** Applying a list of messages *)
(** A message decides its own flow only, if no later one is for the same flow. *)
Lemma apply_conditions_other sw cs k :
  (∀ c, c ∈ cs → key_compare k c.1 ≠ 0) → apply_conditions sw cs k = sw k.
Proof.
  revert sw. induction cs as [|c cs IH]; intros sw Hne; [done|]. cbn [apply_conditions foldl].
  fold (apply_conditions (apply_condition sw c) cs). rewrite IH by (intros c' Hc'; apply Hne; set_solver).
  unfold apply_condition. apply kupd_ne. apply Hne. set_solver.
Qed.

Lemma apply_conditions_one sw cs c k :
  distinct cs → c ∈ cs → key_compare k c.1 = 0 →
  apply_conditions sw cs k = if decide (c.2 = NO_SELECTED_LEVEL) then None else Some c.2.
Proof.
  intros [Hn Hd] Hc Ek. apply list_elem_of_split in Hc as (l1 & l2 & ->).
  rewrite apply_conditions_app. cbn [apply_conditions foldl].
  fold (apply_conditions (apply_condition (apply_conditions sw l1) c) l2).
  rewrite apply_conditions_other.
  - unfold apply_condition, kupd. by rewrite decide_True.
  - intros c' Hc' E. assert (c' = c) as ->.
    { apply Hd; [set_solver|set_solver|]. rewrite (compare_eq_l c'.1 k c.1); [done|].
      by apply compare_eq_sym. }
    apply NoDup_app in Hn as (_ & _ & Hn). by apply NoDup_cons in Hn as [Hn _].
Qed.

(** *** The messages of a turn *)
Lemma plus_list_elem L es c :
  c ∈ plus_list L es ↔ ∃ e, e ∈ es ∧ c = (e.1, i32 e.2) ∧ int_or_minus1 (L e.1) ≠ i32 e.2.
Proof.
  unfold plus_list. rewrite list_elem_of_fmap. split.
  - intros (e & -> & [Hn He]%list_elem_of_filter). eauto.
  - intros (e & He & -> & Hn). exists e. by rewrite list_elem_of_filter.
Qed.
Lemma minus_list_elem S es c :
  c ∈ minus_list S es ↔ ∃ e, e ∈ es ∧ c = (e.1, NO_SELECTED_LEVEL) ∧ ¬ int_or_minus1 (S e.1) > 0.
Proof.
  unfold minus_list. rewrite list_elem_of_fmap. split.
  - intros (e & -> & [Hn He]%list_elem_of_filter). eauto.
  - intros (e & He & -> & Hn). exists e. by rewrite list_elem_of_filter.
Qed.

(** A sublist of entries with other values keeps the flows different. *)
Lemma distinct_fmap_filter (f : K * Z → K * Z) (Pf : K * Z → Prop) `{∀ e, Decision (Pf e)} es :
  (∀ e, (f e).1 = e.1) → distinct es → distinct (f <$> filter Pf es).
Proof.
  intros Hf [Hn Hd]. split.
  - apply NoDup_fmap_2_strong; [|by apply NoDup_filter]. intros e e' He He' E.
    apply list_elem_of_filter in He as [_ He], He' as [_ He']. apply Hd; [done|done|].
    rewrite <- (Hf e), <- (Hf e'), E. apply compare_refl.
  - intros c c' (e & -> & [_ He]%list_elem_of_filter)%list_elem_of_fmap
      (e' & -> & [_ He']%list_elem_of_filter)%list_elem_of_fmap E.
    rewrite !Hf in E. by rewrite (Hd e e' He He' E).
Qed.

Context (S L : kmap K Z) (HS : levels_of S) (HL : levels_of L) (RS : krespects S) (RL : krespects L).
Context (es1 es2 : list (K * Z)) (H1 : lists S es1) (H2 : lists L es2).
Definition turn_messages : list condition := plus_list L es1 ++ minus_list S es2.

Lemma plus_level e : e ∈ es1 → S e.1 = Some e.2 ∧ (e.2 = 1 ∨ e.2 = 2) ∧ i32 e.2 = e.2.
Proof.
  intros He. destruct H1 as [Hs _ _ _]. assert (S e.1 = Some e.2) as E by (apply Hs; by destruct e).
  split; [done|]. revert E. apply (levels_cases S e.1); [done|done|intros [= <-]; auto..].
Qed.
Lemma minus_level k : ¬ int_or_minus1 (S k) > 0 → S k = None.
Proof. apply (levels_cases S k); [done|done|intros []; vm_compute; done..]. Qed.

(** No flow gets two messages. *)
Lemma turn_messages_distinct : distinct turn_messages.
Proof.
  pose proof (lists_distinct _ _ H1) as D1. pose proof (lists_distinct _ _ H2) as D2.
  assert (distinct (plus_list L es1)) as [N1 E1] by (by apply distinct_fmap_filter).
  assert (distinct (minus_list S es2)) as [N2 E2] by (by apply distinct_fmap_filter).
  assert (∀ c c', c ∈ plus_list L es1 → c' ∈ minus_list S es2 → key_compare c.1 c'.1 ≠ 0) as Hne.
  { intros c c' (e & He & -> & _)%plus_list_elem (e' & He' & -> & Hn)%minus_list_elem E.
    simpl in E. apply minus_level in Hn. rewrite <- (RS _ _ E) in Hn.
    destruct (plus_level e He) as [E' _]. congruence. }
  split.
  - apply NoDup_app. split_and!; [done| |done]. intros c Hc Hc'. apply (Hne c c Hc Hc'), compare_refl.
  - intros c c' [Hc|Hc]%elem_of_app [Hc'|Hc']%elem_of_app E; [by apply E1| | |by apply E2].
    + by destruct (Hne c c' Hc Hc').
    + by destruct (Hne c' c Hc' Hc (compare_eq_sym _ _ E)).
Qed.

(** A switch that knew what was sent last knows the levels after the turn. *)
Lemma turn_messages_sync : apply_conditions L turn_messages ≡ S.
Proof.
  intros k. pose proof turn_messages_distinct as Hd.
  assert (Decision (∃ c, c ∈ turn_messages ∧ key_compare k c.1 = 0)) as [Hc|Hc].
  { destruct (decide (Exists (λ c, key_compare k c.1 = 0) turn_messages)) as [Hx|Hx].
    - left. by apply Exists_exists in Hx.
    - right. intros Hc. apply Hx. by apply Exists_exists. }
  - destruct Hc as (c & Hc & Ek). rewrite (apply_conditions_one L _ c k Hd Hc Ek). rewrite (RS _ _ Ek).
    apply elem_of_app in Hc as [(e & He & -> & _)%plus_list_elem|(e & He & -> & Hn)%minus_list_elem]; cbn [fst snd].
    + destruct (plus_level e He) as (E & Hv & Ei). rewrite E, Ei, decide_False; [done|].
      unfold NO_SELECTED_LEVEL. lia.
    + rewrite decide_True by done. by rewrite minus_level.
  - rewrite apply_conditions_other; [|intros c Hin E; apply Hc; eauto].
    destruct H1 as [Hs1 Hc1 _ _], H2 as [Hs2 Hc2 _ _]. destruct (S k) as [v|] eqn:ES.
    + destruct (Hc1 k v ES) as (k' & Ek & He). destruct (plus_level (k', v) He) as (E & Hv & Ei).
      destruct (decide (int_or_minus1 (L k') = i32 v)) as [Hl|Hl].
      * rewrite (RL _ _ Ek). cbn [snd] in Ei, Hv. rewrite Ei in Hl. revert Hl.
        apply (levels_cases L k'); [done|simpl; lia|..]; by intros <-.
      * destruct Hc. exists (k', i32 v). split; [|done]. apply elem_of_app. left.
        apply plus_list_elem. exists (k', v). done.
    + destruct (L k) as [v|] eqn:EL; [|done]. destruct (Hc2 k v EL) as (k' & Ek & He). destruct Hc.
      exists (k', NO_SELECTED_LEVEL). split; [|done]. apply elem_of_app. right.
      apply minus_list_elem. exists (k', v). split; [done|]. split; [done|]. simpl.
      rewrite <- (RS _ _ Ek), ES. simpl. lia.
Qed.

(** A flow whose level is as it was gets no message. *)
Lemma turn_messages_changed c : c ∈ turn_messages → L c.1 ≠ S c.1.
Proof.
  intros [(e & He & -> & Hn)%plus_list_elem|(e & He & -> & Hn)%minus_list_elem]%elem_of_app; simpl.
  - destruct (plus_level e He) as (-> & _ & _). intros E. rewrite E in Hn. done.
  - rewrite (minus_level _ Hn). destruct H2 as [Hs2 _ _ _]. rewrite (Hs2 e.1 e.2); [done|by destruct e].
Qed.
End messages.
Arguments condition K : clear implicits.

(** ** The turn on the warehouse *)
Section turn.
Context {K VI VF FX : Type} `{KeyLaws K}.
Context `{!FlowTable K Z Z VI} `{!FlowTableLaws K Z Z VI} `{!IntTable K VI}.
Context `{!FlowTable K c_float c_float VF} `{!FlowTableLaws K c_float c_float VF}.
Context `{!FixedTable K FX} `{!FixedTableLaws K FX} `{!FlowCondition K}.
Context (fsize : Z) (ml : list bool) (intf1 : bool) (sendpacket : list raw_packet → raw_packet → Z).
Implicit Types (d : data_warehouse_t VI VF FX) (m : wmodel K) (k : K) (P : wptrs).
Implicit Types (w : list raw_packet) (c : condition K) (es : list (K * Z)).

(** The packet of a message, and the wire after some messages *)
Definition pkt_of c : raw_packet :=
  match condition_pkt (flow_condition c.1) c.2 with Ok b => b | Fault _ => [] end.
Definition wire_step w c : list raw_packet :=
  if intf1 && bool_decide (CONDITION_PKT_LEN <= sendpacket w (pkt_of c)) then w ++ [pkt_of c] else w.
Definition wire_after w (cs : list (condition K)) : list raw_packet := foldl wire_step w cs.

Lemma condition_pkt_ok (cond : condition_t) level : 0 <= level <= 3 → ∃ b, condition_pkt cond level = Ok b.
Proof. intros Hl. unfold condition_pkt. apply (level_cases level); [done|by eexists..]. Qed.

Lemma wp_send_and_count pv pf l P d m w k level (Q : unit → cond_state VI VF FX → Prop) :
  witer fsize ml pv pf l P d m → 0 <= level <= 3 →
  (∀ d', witer fsize ml pv pf l P d' (count_condition m) → Q tt (CondState d' (wire_step w (k, level)))) →
  wp (send_and_count intf1 sendpacket k level) Q (CondState d w).
Proof.
  intros R Hl HQ. unfold send_and_count, send_udp_condition_pkt, on_cdw.
  unfold wire_step in HQ. destruct (condition_pkt_ok (flow_condition k) level Hl) as [b Eb].
  assert (pkt_of (k, level) = b) as Ep by (unfold pkt_of; simpl; by rewrite Eb). rewrite Ep in HQ.
  assert (∀ w', (∀ d', witer fsize ml pv pf l P d' (count_condition m) → Q tt (CondState d' w')) →
    wp (upd_counter condition_pkt_num_sent (active_idx d) (λ n, n + 1)) (λ _ s, Q tt (CondState s w')) d) as Hend.
  { intros w' HQ'. rewrite (wi_idx _ _ _ _ _ _ _ _ R). by eapply wi_upd_counter; [exact R|apply R|]. }
  wp_step. destruct intf1; cbn [andb] in HQ.
  - wp_step. unfold wp at 1, lift. rewrite Eb. wp_steps. cbn [cs_wire cs_dw].
    destruct (decide (sendpacket w b < CONDITION_PKT_LEN)) as [Es|Es].
    + rewrite bool_decide_false in HQ by lia. wp_steps.
      eapply wp_mono; [by apply Hend|]. by intros [] s.
    + rewrite bool_decide_true in HQ by lia. wp_steps.
      eapply wp_mono; [by apply (Hend (w ++ [b]))|]. by intros [] s.
  - wp_steps. eapply wp_mono; [by apply Hend|]. by intros [] s.
Qed.

Definition sel_owner m : vi_owner := Buf flow_selected_level_map (m_idx m).

(** The loops, from an iteration with entries [es] to come *)
Lemma wp_plus_conditions fuel es sel l P d m w (Q : unit → cond_state VI VF FX → Prop) :
  (length es < fuel)%nat → vi_valid sel →
  witer fsize ml (fupd sel (Some es) no_vi) no_vf l P d m → Forall (λ e, 0 <= i32 e.2 <= 3) es →
  let cs := plus_list (m_vi m last_sent_flow_selected_level_map) es in
  (∀ d', witer fsize ml no_vi no_vf l P d' (count_conditions cs m) → Q tt (CondState d' (wire_after w cs))) →
  wp (plus_conditions intf1 sendpacket fuel (pt_vi P sel)) Q (CondState d w).
Proof.
  revert es d m w. induction fuel as [|fuel IH]; intros es d m w Hf Hsel R Hes cs HQ; [simpl in Hf; lia|].
  simpl. unfold on_cdw. wp_steps. eapply wi_vi_step; [done|exact R|]. destruct es as [|[k v] es].
  - intros d' R'. wp_steps. by apply HQ.
  - intros d1 R1. cbn [cs_wire cs_dw]. clear d R. rename d1 into d, R1 into R. wp_steps.
    apply Forall_cons in Hes as [Hv Hes]. simpl in Hv, Hf. cbn [cs_dw cs_wire].
    unfold last_sent. wp_steps. cbn [cs_dw cs_wire].
    assert (vi_ptr d last_sent_flow_selected_level_map = pt_vi P last_sent_flow_selected_level_map) as ->
      by (by rewrite (wi_ptrs _ _ _ _ _ _ _ _ R)).
    eapply wi_vi_get; [exact R|done|]. cbn [cs_dw cs_wire]. wp_steps.
    unfold cs, plus_list in HQ. rewrite filter_cons in HQ. cbn [fst snd] in HQ.
    destruct (decide (int_or_minus1 (m_vi m last_sent_flow_selected_level_map k) = i32 v)) as [E|E].
    + rewrite decide_False in HQ by (intros X; by apply X). wp_steps. by eapply (IH es); [lia|done|exact R|done|].
    + rewrite decide_True in HQ by done. eapply wp_send_and_count; [exact R|done|]. clear d R. intros d R.
      by eapply (IH es); [lia|done|exact R|done|].
Qed.

Lemma wp_minus_conditions fuel es sel l P d m w (Q : unit → cond_state VI VF FX → Prop) :
  (length es < fuel)%nat → vi_valid sel →
  witer fsize ml (fupd last_sent_flow_selected_level_map (Some es) no_vi) no_vf l P d m →
  let cs := minus_list (m_vi m sel) es in
  (∀ d', witer fsize ml no_vi no_vf l P d' (count_conditions cs m) → Q tt (CondState d' (wire_after w cs))) →
  wp (minus_conditions intf1 sendpacket fuel (pt_vi P sel)) Q (CondState d w).
Proof.
  revert es d m w. induction fuel as [|fuel IH]; intros es d m w Hf Hsel R cs HQ; [simpl in Hf; lia|].
  simpl. unfold on_cdw, last_sent. wp_steps. cbn [cs_dw cs_wire].
  assert (vi_ptr d last_sent_flow_selected_level_map = pt_vi P last_sent_flow_selected_level_map) as ->
    by (by rewrite (wi_ptrs _ _ _ _ _ _ _ _ R)).
  eapply wi_vi_step; [done|exact R|]. destruct es as [|[k v] es].
  - intros d' R'. wp_steps. by apply HQ.
  - intros d1 R1. cbn [cs_wire cs_dw]. clear d R. rename d1 into d, R1 into R. wp_steps. simpl in Hf. cbn [cs_dw cs_wire].
    eapply wi_vi_get; [exact R|done|]. cbn [cs_dw cs_wire]. wp_steps.
    unfold cs, minus_list in HQ. rewrite filter_cons in HQ. cbn [fst snd] in HQ.
    destruct (decide (int_or_minus1 (m_vi m sel k) > 0)) as [E|E].
    + rewrite decide_False in HQ by (intros X; by apply X). wp_steps. by eapply (IH es); [lia|done|exact R|].
    + rewrite decide_True in HQ by done. eapply wp_send_and_count; [exact R|done|]. clear d R. intros d R.
      by eapply (IH es); [lia|done|exact R|].
Qed.

Lemma wp_copy_conditions fuel done_ es sel l P d m mr (Q : unit → data_warehouse_t VI VF FX → Prop) :
  (length es < fuel)%nat → vi_valid sel → sel ≠ last_sent_flow_selected_level_map →
  distinct (done_ ++ es) → lists mr done_ →
  witer fsize ml (fupd sel (Some es) no_vi) no_vf l P d (m_set_vi last_sent_flow_selected_level_map (λ _, mr) m) →
  (∀ d' mr', lists mr' (done_ ++ es) →
     witer fsize ml no_vi no_vf l P d' (m_set_vi last_sent_flow_selected_level_map (λ _, mr') m) → Q tt d') →
  wp (copy_conditions fuel (pt_vi P sel)) Q d.
Proof.
  revert done_ es d mr. induction fuel as [|fuel IH]; intros done_ es d mr Hf Hsel Hne Hd Hl R HQ; [simpl in Hf; lia|].
  simpl. wp_steps. eapply wi_vi_step; [done|exact R|]. destruct es as [|[k v] es].
  - intros d' R'. wp_steps. rewrite app_nil_r in HQ. by eapply HQ.
  - clear d R. intros d R. wp_steps. simpl in Hf. unfold last_sent. wp_steps.
    assert (vi_ptr d last_sent_flow_selected_level_map = pt_vi P last_sent_flow_selected_level_map) as ->
      by (by rewrite (wi_ptrs _ _ _ _ _ _ _ _ R)).
    eapply wi_vi_set; [exact R|done|by rewrite fupd_ne by congruence|]. clear d R. intros d R.
    rewrite (assoc_L (++) done_ [(k, v)] es : done_ ++ (k, v) :: es = (done_ ++ [(k, v)]) ++ es) in Hd, HQ.
    eapply (IH (done_ ++ [(k, v)]) es d (kupd k (Some v) mr)); [lia|done|done|exact Hd| | |exact HQ].
    + apply (lists_snoc mr done_ (k, v) Hl). eapply distinct_sublist; [|exact Hd].
      by apply sublist_inserts_r.
    + eapply witer_model; [exact R|..]; try done. intros o. simpl. by destruct (decide (o = last_sent_flow_selected_level_map)).
Qed.

(** The model after a turn that has sent the messages [cs] *)
Definition spec_turn (cs : list (condition K)) m : wmodel K :=
  m_set_vi last_sent_flow_selected_level_map (λ _, m_vi m (sel_owner m)) (count_conditions cs m).
Definition turn_of (cs : list (condition K)) m : Prop := ∃ es1 es2,
  lists (m_vi m (sel_owner m)) es1 ∧ lists (m_vi m last_sent_flow_selected_level_map) es2 ∧
  cs = turn_messages (m_vi m (sel_owner m)) (m_vi m last_sent_flow_selected_level_map) es1 es2.
(** The two loops that send *)
Lemma wp_send_loops {A} fuel l P d m w (rest : cmd (cond_state VI VF FX) A) (Q : A → cond_state VI VF FX → Prop) :
  witer fsize ml no_vi no_vf l P d m → levels_of (m_vi m (sel_owner m)) →
  fuel_for fuel (m_vi m (sel_owner m)) → fuel_for fuel (m_vi m last_sent_flow_selected_level_map) →
  (∀ d' cs, turn_of cs m → witer fsize ml no_vi no_vf l P d' (count_conditions cs m) →
     wp rest Q (CondState d' (wire_after w cs))) →
  wp (plus_conditions intf1 sendpacket fuel (pt_vi P (sel_owner m));;
      minus_conditions intf1 sendpacket fuel (pt_vi P (sel_owner m));; rest) Q (CondState d w).
Proof.
  intros R HS Hf1 Hf2 HQ. pose proof (wi_idx_ok _ _ _ _ _ _ _ _ R) as Hi. wp_step.
  destruct (wi_vi_begin fsize ml (sel_owner m) _ _ _ _ R Hi) as (es1 & Hl1 & R1). clear R.
  eapply (wp_plus_conditions fuel es1); [by apply Hf1|exact Hi|exact R1| |].
  { destruct Hl1 as [Hs _ _ _]. apply Forall_forall. intros [k v] He. apply Hs in He. revert He. simpl.
    pattern (m_vi m (sel_owner m) k). apply levels_cases; [done|done|intros [= <-]; done..]. }
  clear d R1. intros d R. wp_step. set (cs1 := plus_list _ es1) in *.
  destruct (count_conditions_same cs1 m) as (Ev & _ & _ & _ & Ei & _ & _).
  destruct (wi_vi_begin fsize ml last_sent_flow_selected_level_map _ _ _ _ R I) as (es2 & Hl2 & R2). clear R.
  rewrite Ev in Hl2. eapply (wp_minus_conditions fuel es2); [by apply Hf2|exact Hi|exact R2|].
  clear d R2. intros d R. rewrite Ev in R |- *. set (cs2 := minus_list _ es2) in *.
  rewrite <- count_conditions_app in R.
  assert (wire_after (wire_after w cs1) cs2 = wire_after w (cs1 ++ cs2)) as -> by (symmetry; apply foldl_app).
  apply HQ; [|exact R]. exists es1, es2. done.
Qed.
End turn.

(** ** A whole turn *)
Section whole_turn.
Context {K VI VF FX : Type} `{KeyLaws K}.
Context `{!FlowTable K Z Z VI} `{!FlowTableLaws K Z Z VI} `{!IntTable K VI}.
Context `{!FlowTable K c_float c_float VF} `{!FlowTableLaws K c_float c_float VF}.
Context `{!FixedTable K FX} `{!FixedTableLaws K FX} `{!FlowCondition K}.
Context (fsize : Z) (intf1 : bool) (sendpacket : list raw_packet → raw_packet → Z).
Implicit Types (d : data_warehouse_t VI VF FX) (m : wmodel K) (k : K) (P : wptrs).
Implicit Types (w : list raw_packet).

Lemma wp_renew_last_sent fuel sel l P d m (Q : Z → data_warehouse_t VI VF FX → Prop) :
  wrep fsize l P d m → vi_valid sel → sel ≠ last_sent_flow_selected_level_map → fuel_for fuel (m_vi m sel) →
  (∀ P' d', wrep fsize l P' d' (m_set_vi last_sent_flow_selected_level_map (λ _, m_vi m sel) m) → Q 0 d') →
  wp (renew_last_sent fuel (pt_vi P sel)) Q d.
Proof.
  intros R Hsel Hne Hf HQ. pose proof (wr_idx_ok _ _ _ _ _ R) as Hi.
  unfold renew_last_sent. wp_step. apply wrep_part in R.
  eapply wp_destory_vi; [exact R|done|]. clear d R. intros d R.
  eapply wp_create_vi_ptr; [exact R|naive_solver|]. clear d R. intros d a R.
  set (last := last_sent_flow_selected_level_map) in *. set (m0 := m_set_vi last (λ _, kempty) m) in *.
  assert (wrep fsize l (ptrs_of d) d m0) as R0.
  { eapply part_wrep; [exact R|..]; try done. intros o. destruct (decide (o = last)) as [->|]; naive_solver. }
  assert (pt_vi P sel = pt_vi (ptrs_of d) sel) as ->.
  { simpl. rewrite (pa_ptr _ _ _ _ _ _ _ _ _ _ R). unfold set_ptr. by rewrite decide_False. }
  clear R. destruct (wi_vi_begin fsize [] sel l _ _ _ (proj1 (wrep_witer _ _ _ _ _) R0) Hsel) as (es & Hl & R). wp_step.
  assert (m_vi m0 sel = m_vi m sel) as Esel by (simpl; by rewrite decide_False). rewrite Esel in Hl.
  eapply (wp_copy_conditions fsize [] fuel [] es sel l _ _ m kempty); [by apply Hf|done|done|by eapply lists_distinct| |exact R|].
  { apply lists_empty. }
  intros d' mr Hmr R'. wp_step. eapply (HQ (ptrs_of d)). apply wrep_witer.
  eapply witer_set_equiv; [|exact R']. eapply lists_unique; [exact Hmr|exact Hl| |].
  - pose proof (wi_respects _ _ _ _ _ _ _ _ last R' I) as Hr. exact Hr.
  - pose proof (wi_respects _ _ _ _ _ _ _ _ sel R' Hsel) as Hr. simpl in Hr. by rewrite decide_False in Hr.
Qed.

Lemma wp_send_conditions fuel P d m w (Q : bool → cond_state VI VF FX → Prop) :
  wrep fsize [] P d m → levels_of (m_vi m (sel_owner m)) →
  fuel_for fuel (m_vi m (sel_owner m)) → fuel_for fuel (m_vi m last_sent_flow_selected_level_map) →
  (∀ P' d' cs, turn_of cs m → wrep fsize [] P' d' (spec_turn cs m) → Q true (CondState d' (wire_after intf1 sendpacket w cs))) →
  wp (send_conditions intf1 sendpacket fuel) Q (CondState d w).
Proof.
  intros R HS Hf1 Hf2 HQ. unfold send_conditions, on_cdw. wp_steps. cbn [cs_dw cs_wire].
  eapply wp_wlock; [exact R|done|set_solver|]. clear d R. intros d R. cbn [cs_dw cs_wire]. wp_steps. cbn [cs_dw cs_wire].
  eapply wp_wlock; [exact R|done|set_solver|]. clear d R. intros d R. cbn [cs_dw cs_wire]. wp_steps. cbn [cs_dw cs_wire].
  eapply wp_get_vi; [exact R|]. cbn [cs_dw cs_wire].
  pose proof (wr_idx_ok _ _ _ _ _ R) as Hi. fold (sel_owner m). apply wrep_witer in R.
  eapply wp_send_loops; [exact R|done..|]. clear d R. intros d cs Hcs R. wp_steps. cbn [cs_dw cs_wire].
  destruct (count_conditions_same cs m) as (Ev' & _ & _ & _ & Ei' & _ & _). apply wrep_witer in R.
  eapply wp_renew_last_sent; [exact R|exact Hi|done|by rewrite Ev'|]. clear d R. intros P' d R.
  rewrite Ev' in R. cbn [cs_dw cs_wire]. rewrite decide_False by (intros X; by apply X). wp_steps. cbn [cs_dw cs_wire].
  eapply wp_wunlock; [exact R|done|set_solver|]. clear d R. intros d R. cbn [cs_dw cs_wire]. wp_steps. cbn [cs_dw cs_wire].
  eapply wp_wunlock; [exact R|done|set_solver|]. clear d R. intros d R. cbn [cs_dw cs_wire]. wp_steps.
  by eapply HQ.
Qed.
End whole_turn.
