(* ===== verification/ConditionWire.v ===== *)
(** * The condition packet on the wire

    The packet of [send_udp_condition_pkt] is a frame the parser of the sending
    path reads: what is told about a flow comes back from its bytes, whatever
    the bytes the sender leaves unset. *)
From S2P Require Import Prelude CMonad CFloat ChainedTable TableSpec FixSizeTable FixSizeIface.
From S2P Require Import Flow PktListTable ObjStore Settings Sample FlowTables Warehouse.
From S2P Require Import Bytes VlanTag VlanProps TaskManager SendPacket FrameSpec ConditionSender.

(** ** Byte order *)
Lemma ntohs_eq y : in_u 16 y → ntohs y = y mod 256 * 256 + y / 256.
Proof.
  intros Hy. pose proof (bytes_be16 y Hy) as Hb. unfold bytes_of, be16 in Hb. rewrite !Forall_cons in Hb.
  destruct Hb as (H1 & H2 & _). rewrite (Z.div_mod y 256) at 1 by lia.
  replace (256 * (y / 256) + y mod 256) with (y mod 256 + Z.shiftl (y / 256) 8)
    by (rewrite Z.shiftl_mul_pow2 by lia; change (2 ^ 8) with 256; lia).
  by rewrite ntohs_bytes.
Qed.
Lemma ntohs_range y : in_u 16 y → in_u 16 (ntohs y).
Proof.
  intros Hy. rewrite ntohs_eq by done. pose proof (bytes_be16 y Hy) as Hb. unfold bytes_of, be16 in Hb.
  rewrite !Forall_cons in Hb. unfold byte, in_u in *. change (2 ^ 8) with 256 in Hb. change (2 ^ 16) with 65536. lia.
Qed.
Lemma ntohl_eq x : in_u 32 x → ntohl x = ntohs (x mod 65536) * 65536 + ntohs (x / 65536).
Proof.
  intros Hx. destruct (in_u_halves x Hx) as [H1 H2]. unfold ntohl. rewrite Z.shiftr_div_pow2 by lia.
  change 65535 with (Z.ones 16). rewrite Z.land_ones by lia. change (2 ^ 16) with 65536.
  apply lor_bytes; [lia|]. by apply ntohs_range.
Qed.

Lemma mem16_ntohs y : in_u 16 y → mem16 (ntohs y) = be16 y.
Proof.
  intros Hy. pose proof (bytes_be16 y Hy) as Hb. unfold bytes_of, be16 in Hb. rewrite !Forall_cons in Hb.
  unfold byte, in_u in Hb. change (2 ^ 8) with 256 in Hb.
  unfold mem16, be16. rewrite ntohs_eq by done. rewrite Z.shiftr_div_pow2 by lia. unfold wrap. change (2 ^ 8) with 256.
  rewrite Z.add_comm, Z.mod_add, Z.div_add, (Z.div_small (y / 256)), Z.add_0_l by lia.
  by rewrite !Z.mod_small by lia.
Qed.
Lemma mem32_ntohl x : in_u 32 x → mem32 (ntohl x) = be32 x.
Proof.
  intros Hx. destruct (in_u_halves x Hx) as [H1 H2]. pose proof (ntohs_range _ H1) as R1.
  pose proof (ntohs_range _ H2) as R2. unfold in_u in R1, R2. change (2 ^ 16) with 65536 in R1, R2.
  unfold mem32, be32. rewrite ntohl_eq by done. rewrite Z.shiftr_div_pow2 by lia. unfold wrap. change (2 ^ 16) with 65536.
  rewrite Z.add_comm, Z.mod_add, Z.div_add, (Z.div_small (ntohs (x / 65536))), Z.add_0_l by lia.
  rewrite !Z.mod_small by lia. by rewrite !mem16_ntohs.
Qed.

(** ** Completions *)
(** Bytes that agree with what is set; the others can be anything. *)
Definition completes (p : raw_packet) (b : list Z) : Prop :=
  Forall2 (λ o x, match o with Some y => x = y | None => byte x end) p b.

Lemma completes_app p q b : completes (p ++ q) b ↔ ∃ b1 b2, b = b1 ++ b2 ∧ completes p b1 ∧ completes q b2.
Proof. unfold completes. rewrite Forall2_app_inv_l. naive_solver. Qed.
Lemma completes_set bs b : completes (set bs) b ↔ b = bs.
Proof.
  unfold completes, set. split.
  - revert b. induction bs as [|x bs IH]; intros b Hb; simpl in Hb; [by apply Forall2_nil_inv_l in Hb|].
    apply Forall2_cons_inv_l in Hb as (y & b' & -> & Hb & ->). f_equal. by apply IH.
  - intros ->. induction bs; simpl; by constructor.
Qed.
Lemma completes_uninit n b : completes (uninit n) b ↔ length b = n ∧ bytes_of b.
Proof.
  unfold completes, uninit, bytes_of. revert b. induction n as [|n IH]; intros b; simpl.
  - split; [intros ->%Forall2_nil_inv_l; done|]. destruct b; [by constructor|by intros []].
  - split.
    + intros (y & b' & Hy & Hb & ->)%Forall2_cons_inv_l. apply IH in Hb as [<- Hb]. split; [done|by constructor].
    + destruct b as [|y b]; [by intros []|]. intros [[= Hl] [Hy Hb]%Forall_cons]. constructor; [done|]. by apply IH.
Qed.

(** The fields a condition packet leaves open, and the frame it is *)
Definition condition_flow (c : condition_t) (dstip : Z) : flow_s := Flow (c_srcip c) dstip 256 256 17.
Definition condition_ok (c : condition_t) : Prop :=
  in_u 32 (c_srcip c) ∧ match c_dstip c with Some ip => in_u 32 ip | None => True end.

Lemma be16_join x y : byte x → byte y → be16 (x * 256 + y) = [x; y].
Proof.
  intros [Hx0 Hx1] [Hy0 Hy1]. change (2 ^ 8) with 256 in *. unfold be16.
  rewrite Z.add_comm, Z.div_add, Z.div_small, Z.mod_add, Z.mod_small by lia. done.
Qed.
Lemma bytes_2 b : length b = 2%nat → bytes_of b → ∃ x, in_u 16 x ∧ b = be16 x.
Proof.
  destruct b as [|x [|y [|]]]; try done. intros _. unfold bytes_of. rewrite !Forall_cons. intros (Hx & Hy & _).
  exists (x * 256 + y). rewrite be16_join by done. split; [|done].
  unfold byte, in_u in *. change (2 ^ 8) with 256 in *. change (2 ^ 16) with 65536. lia.
Qed.
Lemma bytes_4 b : length b = 4%nat → bytes_of b → ∃ x, in_u 32 x ∧ b = be32 x.
Proof.
  intros Hl Hb. rewrite <- (take_drop 2 b) in Hb |- *. unfold bytes_of in Hb. rewrite Forall_app in Hb.
  destruct (bytes_2 (take 2 b)) as (x & Hx & ->); [rewrite length_take; lia|apply Hb|].
  destruct (bytes_2 (drop 2 b)) as (y & Hy & ->); [rewrite length_drop; lia|apply Hb|].
  exists (x * 65536 + y). unfold in_u in *. change (2 ^ 16) with 65536 in *. change (2 ^ 32) with 4294967296.
  split; [lia|]. unfold be32. by rewrite Z.add_comm, Z.div_add, Z.div_small, Z.mod_add, Z.mod_small by lia.
Qed.

(** A condition packet is a frame with one VLAN header and no IP options. *)
Lemma condition_is_frame datalink c level p b :
  datalink ≠ DLT_JUNIPER_ETHER → condition_ok c → 0 <= level <= 3 →
  condition_pkt c level = Ok p → completes p b →
  ∃ fl dstip seqid, b = frame fl [2 * level] (condition_flow c dstip) seqid ∧
    frame_ok datalink fl [2 * level] (condition_flow c dstip) seqid ∧
    match c_dstip c with Some ip => dstip = ip | None => True end ∧
    fl_pre fl = [] ∧ ∃ tos_on, fl_ip fl = 69 :: tos_on.
Proof.
  intros Hdl [Hs Hd] Hlv Ep Hc.
  assert (p = set (CONDITION_MAC ++ CONDITION_MAC ++ [129; 0; 2 * level; 0] ++ [8; 0])
    ++ ip_hdr_of_condition c ++ udp_hdr_of_condition) as ->.
  { assert (tag_packet_selected_level level vlan_hdr_of_condition
      = Ok (tt, CONDITION_MAC ++ CONDITION_MAC ++ [129; 0; 2 * level; 0] ++ [8; 0])) as E
      by (apply (level_cases level); [done|reflexivity..]).
    unfold condition_pkt in Ep. rewrite E in Ep. by injection Ep as <-. }
  apply completes_app in Hc as (b1 & b2 & -> & ->%completes_set & (bi & bu & -> & Hi & Hu)%completes_app).
  apply completes_app in Hu as (u1 & u2 & -> & ->%completes_set & (u3 & u4 & -> & ->%completes_set &
    (u5 & u6 & -> & ->%completes_set & [Lu Bu]%completes_uninit)%completes_app)%completes_app).
  apply completes_app in Hi as (i1 & i2 & -> & ->%completes_set &
    (i3 & i4 & -> & [L3 B3]%completes_uninit & (i5 & i6 & -> & ->%completes_set &
    (i7 & i8 & -> & [L7 B7]%completes_uninit & (i9 & i10 & -> & ->%completes_set &
    (i11 & i12 & -> & ->%completes_set & (i13 & i14 & -> & [L13 B13]%completes_uninit &
    (i15 & i16 & -> & ->%completes_set & Hi16)%completes_app)%completes_app)%completes_app)%completes_app)
    %completes_app)%completes_app)%completes_app).
  rewrite mem32_ntohl by done.
  assert (∃ dstip, in_u 32 dstip ∧ i16 = be32 dstip ∧ match c_dstip c with Some ip => dstip = ip | None => True end)
    as (dstip & Hdst & -> & Hip).
  { destruct (c_dstip c) as [ip|].
    - apply completes_set in Hi16 as ->. exists ip. by rewrite mem32_ntohl.
    - apply completes_uninit in Hi16 as [L B]. destruct (bytes_4 _ L B) as (x & Hx & ->). by exists x. }
  destruct (bytes_2 _ Lu Bu) as (su & Hsu & ->). destruct i3 as [|t0 [|]]; try done.
  destruct i7 as [|d0 [|d1 [|]]]; try done. destruct i13 as [|s0 [|s1 [|]]]; try done.
  set (fl := Filler [] (CONDITION_MAC ++ CONDITION_MAC)
    ([69; t0] ++ mem16 (ntohs (20 + 8)) ++ [d0; d1] ++ mem16 16384 ++ [64]) [s0; s1] []).
  assert (in_u 16 su) as Hsu' by done. unfold in_u in Hsu'. change (2 ^ 16) with 65536 in Hsu'.
  exists fl, dstip, (8 * 65536 + su). unfold frame, eth_frame, ip_part.
  assert (be32 (8 * 65536 + su) = [0; 8] ++ be16 su) as Eseq.
  { unfold be32. by rewrite Z.add_comm, Z.div_add, Z.div_small, Z.mod_add, Z.mod_small by lia. }
  assert (∀ l, 0 <= l <= 3 → (2 * l) mod 256 = 2 * l ∧ 2 * l / 256 = 0) as Hl.
  { intros l Hl. by apply (level_cases l). }
  destruct (Hl level Hlv) as [El1 El2]. split; [|split; [|split; [done|split; [done|by eexists]]]].
  - cbn [vlan_hdrs flat_map]. rewrite El1, El2, Eseq. reflexivity.
  - split.
    + constructor; [by apply (level_cases level)|constructor].
    + unfold flow_ok. by split_and!.
    + unfold in_u. change (2 ^ 32) with 4294967296. lia.
    + unfold filler_ok, l2_of. rewrite decide_False by done. unfold bytes_of in *.
      apply Forall_cons in B3 as [B3 _]. apply Forall_cons in B7 as [B7 [B7' _]%Forall_cons].
      split_and!; try done; simpl; unfold CONDITION_MAC; rewrite ?Forall_cons, ?Forall_nil; by split_and!.
Qed.
