(* ===== verification/ConditionProps.v ===== *)
(** * Properties of the condition sender *)
From S2P Require Import Prelude CMonad CFloat ChainedTable ChainSpec TableSpec Listing FixSizeTable FixSizeSpec.
From S2P Require Import FixSizeIface Flow PktListTable PktListSpec ObjStore Settings Sample FlowTables.
From S2P Require Import Warehouse WarehouseSpec WarehouseIter WarehouseRecords WarehouseProps Config Bytes VlanTag VlanProps.
From S2P Require Import TaskManager SendPacket FrameSpec ConditionSender ConditionSpec ConditionWire.

(** ** Turns *)
Section turns.
Context {K VI VF FX : Type} `{KeyLaws K}.
Context `{!FlowTable K Z Z VI} `{!FlowTableLaws K Z Z VI} `{!IntTable K VI}.
Context `{!FlowTable K c_float c_float VF} `{!FlowTableLaws K c_float c_float VF}.
Context `{!FixedTable K FX} `{!FixedTableLaws K FX} `{!FlowCondition K}.
Context (fsize : Z).
Implicit Types (d : data_warehouse_t VI VF FX) (m : wmodel K) (k : K) (P : wptrs).
Implicit Types (w : list raw_packet) (cs : list (condition K)).
Implicit Types (send : list raw_packet → raw_packet → Z).

Local Abbreviation levels_now m := (m_vi m (sel_owner m)).
Local Abbreviation levels_sent m := (m_vi m last_sent_flow_selected_level_map).

(** Fuel for a turn: one more than the entries of either table *)
Definition turn_fuel (n : nat) m : Prop := fuel_for n (levels_now m) ∧ fuel_for n (levels_sent m).

Lemma turn_fuel_mono n n' m : (n <= n')%nat → turn_fuel n m → turn_fuel n' m.
Proof. intros Hn []. by split; eapply fuel_for_mono. Qed.
Lemma turn_fuel_exists P d m l : wrep fsize l P d m → ∃ n, turn_fuel n m.
Proof.
  intros R. pose proof (wr_idx_ok _ _ _ _ _ R) as Hi. apply wrep_witer in R.
  destruct (wi_vi_begin fsize [] (sel_owner m) _ _ _ _ R Hi) as (es1 & Hl1 & _).
  destruct (wi_vi_begin fsize [] last_sent_flow_selected_level_map _ _ _ _ R I) as (es2 & Hl2 & _).
  exists (S (length es1) + S (length es2))%nat. split; (eapply fuel_for_mono; [|by eapply fuel_for_lists]); lia.
Qed.

(** Both level tables hold levels. *)
Definition levels_known m : Prop := levels_of (levels_now m) ∧ levels_of (levels_sent m).

(** What a turn has sent *)
Lemma turn_of_facts P d m l cs :
  wrep fsize l P d m → levels_known m → turn_of cs m →
  apply_conditions (levels_sent m) cs ≡ levels_now m ∧ distinct cs ∧
  (∀ c, c ∈ cs → levels_sent m c.1 ≠ levels_now m c.1).
Proof.
  intros R [HS HL] (es1 & es2 & Hl1 & Hl2 & ->). pose proof (wr_idx_ok _ _ _ _ _ R) as Hi.
  apply wrep_witer in R. pose proof (wi_respects _ _ _ _ _ _ _ _ (sel_owner m) R Hi) as RS.
  pose proof (wi_respects _ _ _ _ _ _ _ _ last_sent_flow_selected_level_map R I) as RL.
  split; [by apply turn_messages_sync|]. split; [by apply turn_messages_distinct|].
  by apply turn_messages_changed.
Qed.

(** C21. A turn of the condition sender brings the switches up to date: whatever
    the warehouse and the order its tables are walked in, with enough fuel for
    its tables the turn ends without a fault and with its mutexes released, the
    packets are those of a list of conditions, at most one per flow and none
    for a flow whose level is the one sent last; applied to the levels sent
    last they give exactly the levels of the active buffer, which are then
    recorded as sent; packets the interface does not take are dropped. *)
Theorem conditions_sync intf1 send P d m w :
  wrep fsize [] P d m → levels_known m →
  ∃ n, ∀ fuel, (n <= fuel)%nat → ∃ P' d' cs,
    send_conditions intf1 send fuel (CondState d w) = Ok (true, CondState d' (wire_after intf1 send w cs)) ∧
    wrep fsize [] P' d' (spec_turn cs m) ∧
    apply_conditions (levels_sent m) cs ≡ levels_now m ∧ distinct cs ∧
    (∀ c, c ∈ cs → levels_sent m c.1 ≠ levels_now m c.1).
Proof.
  intros R Hlv. destruct (turn_fuel_exists P d m [] R) as [n Hn]. exists n. intros fuel Hfuel.
  destruct (turn_fuel_mono _ _ _ Hfuel Hn) as [Hf1 Hf2].
  assert (wp (send_conditions intf1 send fuel) (λ r s, ∃ P' d' cs, r = true ∧
    s = CondState d' (wire_after intf1 send w cs) ∧ turn_of cs m ∧ wrep fsize [] P' d' (spec_turn cs m))
    (CondState d w)) as Hw.
  { eapply wp_send_conditions; [exact R|apply Hlv|done|done|]. intros P' d' cs Hcs R'. eauto 10. }
  apply wp_run in Hw as (r & s & E & P' & d' & cs & -> & -> & Hcs & R').
  exists P', d', cs. split; [done|]. split; [done|]. by eapply turn_of_facts.
Qed.

(** A turn records the levels as sent and leaves them. *)
Lemma spec_turn_levels cs m :
  levels_sent (spec_turn cs m) = levels_now m ∧ levels_now (spec_turn cs m) = levels_now m.
Proof.
  destruct (count_conditions_same cs m) as (Ev & _ & _ & _ & Ei & _ & _).
  unfold spec_turn, sel_owner in *. cbn [m_vi m_set_vi m_idx]. rewrite Ei, Ev.
  by rewrite decide_True, decide_False.
Qed.
Lemma levels_known_turn cs m : levels_known m → levels_known (spec_turn cs m).
Proof. intros [HS HL]. unfold levels_known. by destruct (spec_turn_levels cs m) as [-> ->]. Qed.
Lemma turn_fuel_turn cs n m : turn_fuel n m → turn_fuel n (spec_turn cs m).
Proof. intros [Hf1 Hf2]. unfold turn_fuel. by destruct (spec_turn_levels cs m) as [-> ->]. Qed.

(** C39. Conditions that are lost are not sent again: after a turn in which the
    interface takes no packet, a second turn over a working interface sends
    nothing either, although the switches have not heard of any level; the
    table of what was sent last says they have. *)
Theorem lost_conditions_not_resent send1 send2 P d m w :
  (∀ w b, send1 w b < CONDITION_PKT_LEN) →
  wrep fsize [] P d m → levels_known m →
  ∃ n, ∀ fuel, (n <= fuel)%nat → ∃ P' d1 d2 m',
    send_conditions true send1 fuel (CondState d w) = Ok (true, CondState d1 w) ∧
    send_conditions true send2 fuel (CondState d1 w) = Ok (true, CondState d2 w) ∧
    wrep fsize [] P' d2 m' ∧ levels_sent m' ≡ levels_now m ∧ levels_now m' = levels_now m.
Proof.
  intros Hs R Hlv. destruct (turn_fuel_exists P d m [] R) as [n Hn]. exists n. intros fuel Hfuel.
  pose proof (turn_fuel_mono _ _ _ Hfuel Hn) as Hf.
  assert (wp (send_conditions true send1 fuel) (λ r s, ∃ P' d1 cs, r = true ∧ s = CondState d1 w ∧
    wrep fsize [] P' d1 (spec_turn cs m)) (CondState d w)) as Hw1.
  { eapply wp_send_conditions; [exact R|apply Hlv|apply Hf|apply Hf|]. intros P' d' cs Hcs R'.
    exists P', d', cs. split; [done|]. split; [|done]. f_equal. clear - Hs. unfold wire_after.
    induction cs as [|c cs IH]; [done|]. cbn [foldl]. unfold wire_step at 2.
    rewrite bool_decide_false; [exact IH|]. specialize (Hs w (pkt_of c)). lia. }
  apply wp_run in Hw1 as (r & s & E1 & P1 & d1 & cs1 & -> & -> & R1).
  pose proof (levels_known_turn cs1 m Hlv) as Hlv1. pose proof (turn_fuel_turn cs1 fuel m Hf) as Hf1.
  destruct (spec_turn_levels cs1 m) as [El En].
  assert (wp (send_conditions true send2 fuel) (λ r s, ∃ P' d2 m', r = true ∧ s = CondState d2 w ∧
    wrep fsize [] P' d2 m' ∧ levels_sent m' ≡ levels_now m ∧ levels_now m' = levels_now m) (CondState d1 w)) as Hw2.
  { eapply wp_send_conditions; [exact R1|apply Hlv1|apply Hf1|apply Hf1|]. intros P' d' cs Hcs R'.
    destruct (turn_of_facts P1 d1 _ [] cs R1 Hlv1 Hcs) as (_ & _ & Hch).
    assert (cs = []) as ->.
    { destruct cs as [|c cs]; [done|]. destruct (Hch c ltac:(set_solver)). by rewrite El, En. }
    destruct (spec_turn_levels [] (spec_turn cs1 m)) as [El' En'].
    exists P', d', (spec_turn [] (spec_turn cs1 m)). by rewrite El', En', En. }
  apply wp_run in Hw2 as (r & s & E2 & P2 & d2 & m2 & -> & -> & R2). exists P2, d1, d2, m2. done.
Qed.

(** Without memory for the new table, it is not created. *)
Lemma wp_renew_no_memory fuel p l P d m (Q : Z → data_warehouse_t VI VF FX → Prop) :
  witer fsize [false] no_vi no_vf l P d m → (∀ d', locked d' = l → Q (-1) d') →
  wp (renew_last_sent fuel p) Q d.
Proof.
  intros R HQ. unfold renew_last_sent. wp_step.
  assert (wpart fsize vi_valid in_buffers in_buffers (λ _, False) (pt_vi P) [false] l d m) as R0.
  { destruct R. subst. by split. }
  eapply wp_destory_vi; [exact R0|done|]. clear d R R0. intros d R.
  unfold create_vi. wp_step. eapply wp_take_malloc; [exact R|]. clear d R. intros d R. simpl.
  rewrite ft_create_null. wp_steps. rewrite decide_True by done. wp_steps.
  apply HQ. apply (pa_locked _ _ _ _ _ _ _ _ _ _ R).
Qed.

(** C40. When the table of what was sent cannot be allocated, the thread returns
    while it holds both mutexes: the next packet sent then waits for
    [packet_send_mutex] forever, and the next rotation for
    [data_warehouse_mutex]. *)
Theorem turn_without_memory intf1 send P d m w :
  wrep fsize [] P d m → levels_known m →
  ∃ n, ∀ fuel, (n <= fuel)%nat → ∃ d' w',
    send_conditions intf1 send fuel (CondState (with_mallocs [false] d) w) = Ok (false, CondState d' w') ∧
    wlock packet_send_mutex d' = Fault LockBusy ∧ wlock data_warehouse_mutex d' = Fault LockBusy.
Proof.
  intros R Hlv. destruct (turn_fuel_exists P d m [] R) as [n Hn]. exists n. intros fuel Hfuel.
  destruct (turn_fuel_mono _ _ _ Hfuel Hn) as [Hf1 Hf2]. apply (wrep_mallocs fsize [false]) in R.
  assert (wp (send_conditions intf1 send fuel) (λ r s, r = false ∧
    locked (cs_dw s) = [data_warehouse_mutex; packet_send_mutex]) (CondState (with_mallocs [false] d) w)) as Hw.
  { unfold send_conditions, on_cdw. wp_steps. cbn [cs_dw cs_wire].
    eapply wi_wlock; [exact R|done|set_solver|]. clear R. intros d1 R. wp_steps. cbn [cs_dw cs_wire].
    eapply wi_wlock; [exact R|done|set_solver|]. clear d1 R. intros d1 R. wp_steps. cbn [cs_dw cs_wire].
    eapply wi_get_vi; [exact R|]. cbn [cs_dw cs_wire].
    eapply wp_send_loops; [exact R|apply Hlv|done..|]. clear d1 R. intros d1 cs Hcs R. wp_steps. cbn [cs_dw cs_wire].
    eapply wp_renew_no_memory; [exact R|]. intros d2 El. cbn [cs_dw cs_wire].
    rewrite decide_True by done. by wp_steps. }
  apply wp_run in Hw as (r & [d' w'] & E & -> & El). exists d', w'. split; [done|]. simpl in El.
  unfold wlock. rewrite El. split; (rewrite decide_True by done; rewrite decide_True by set_solver; done).
Qed.
End turns.

Section interval.
Context {K VI VF FX : Type} `{KeyLaws K}.
Context `{!FlowTable K Z Z VI} `{!FlowTableLaws K Z Z VI} `{!IntTable K VI}.
Context `{!FlowTable K c_float c_float VF} `{!FlowTableLaws K c_float c_float VF}.
Context `{!FixedTable K FX} `{!FixedTableLaws K FX} `{!FlowCondition K}.
Context (setting : cm_experiment_setting_t) (fsize : Z).
Context (fsize_ok : int_of_float (fix_loss_map_bucket_size (sender_setting setting)) = Some fsize).
Context (fsize_pos : 0 < fsize).
Implicit Types (d : data_warehouse_t VI VF FX) (m : wmodel K) (k : K) (P : wptrs).
Implicit Types (w : list raw_packet) (cs : list (condition K)).
Implicit Types (send : list raw_packet → raw_packet → Z).

Local Abbreviation levels_now m := (m_vi m (sel_owner m)).
Local Abbreviation levels_sent m := (m_vi m last_sent_flow_selected_level_map).

(** ** An interval: updates of the warehouse and turns of the sender *)
Inductive interval_op := IUpdate (o : wop K) | ITurn.
Definition is_iop (o : interval_op) : bool := match o with IUpdate o => is_update o | ITurn => true end.

Fixpoint do_interval send (fuel : nat) (os : list interval_op) : cmd (cond_state VI VF FX) unit :=
  match os with
  | [] => mret tt
  | IUpdate o :: os => on_cdw (do_wop setting o);; do_interval send fuel os
  | ITurn :: os => send_conditions true send fuel;; do_interval send fuel os
  end.

(** No update overflows; [cs] stands for what the turn sends. *)
Fixpoint interval_ok (os : list interval_op) m : Prop :=
  match os with
  | [] => True
  | IUpdate o :: os => wop_ok o m ∧ interval_ok os (spec_wop setting fsize o m)
  | ITurn :: os => ∀ cs, interval_ok os (spec_turn cs m)
  end.

Lemma levels_known_update o m : is_update o → levels_known m → levels_known (spec_wop setting fsize o m).
Proof.
  intros Ho [HS HL]. destruct (update_levels setting fsize o m Ho) as (Ei & El & Es).
  unfold levels_known, sel_owner in *. rewrite Ei, El. split; [|done].
  destruct Es as [->|(k & v & Hv & ->)]; [done|]. intros k'. unfold kupd. case_decide; [done|apply HS].
Qed.
Lemma levels_known_updates os m :
  Forall is_update os → levels_known m → levels_known (spec_wops setting fsize os m).
Proof.
  intros Hos. unfold spec_wops. revert m. induction Hos as [|o os Ho _ IH]; intros m Hm; [done|].
  cbn [foldl]. by apply IH, levels_known_update.
Qed.
Lemma levels_known_init : levels_known (m_init : wmodel K).
Proof. split; intros k; apply list_elem_of_here. Qed.

Lemma turn_fuel_update P d o n m l :
  wrep fsize l P d m → is_update o → turn_fuel n m → turn_fuel (S n) (spec_wop setting fsize o m).
Proof.
  intros R Ho [Hf1 Hf2]. destruct (update_levels setting fsize o m Ho) as (Ei & El & Es).
  pose proof (wr_idx_ok _ _ _ _ _ R) as Hi. apply wrep_witer in R.
  unfold turn_fuel, sel_owner in *. rewrite Ei, El. split; [|by eapply fuel_for_mono; [|exact Hf2]; lia].
  destruct Es as [->|(k & v & Hv & ->)]; [by eapply fuel_for_mono; [|exact Hf1]; lia|].
  apply fuel_for_upd; [|done]. by eapply (wi_respects _ _ _ _ _ _ _ _ (sel_owner m)).
Qed.
(** The interface takes every packet. *)
Definition reliable send : Prop := ∀ w b, CONDITION_PKT_LEN <= send w b.
Lemma wire_reliable send w cs : reliable send → wire_after true send w cs = w ++ (pkt_of <$> cs).
Proof.
  intros Hr. unfold wire_after. revert w. induction cs as [|c cs IH]; intros w; [by rewrite app_nil_r|].
  cbn [foldl]. rewrite IH. unfold wire_step. rewrite bool_decide_true by apply Hr. simpl.
  by rewrite <- app_assoc.
Qed.

Lemma wp_interval_app send fuel os os' (Q : unit → cond_state VI VF FX → Prop) s :
  wp (do_interval send fuel os) (λ _ s', wp (do_interval send fuel os') Q s') s →
  wp (do_interval send fuel (os ++ os')) Q s.
Proof.
  revert s. induction os as [|o os IH]; intros s Hw; [exact Hw|].
  destruct o as [o|]; simpl in *; unfold wp, mbind, cmd_bind in Hw |- *.
  - destruct (on_cdw (do_wop setting o) s) as [[[] s']|]; [by apply IH|done].
  - destruct (send_conditions true send fuel s) as [[b s']|]; [by apply IH|done].
Qed.
Lemma interval_ok_app os os' m : interval_ok (os ++ os') m → interval_ok os m.
Proof.
  revert m. induction os as [|o os IH]; intros m; simpl; [done|].
  destruct o as [o|]; [intros [? ?]; eauto|]. intros Hok cs. by apply IH.
Qed.

Lemma wp_do_interval send fuel n os P d m w (Q : unit → cond_state VI VF FX → Prop) :
  reliable send → wrep fsize [] P d m → levels_known m → turn_fuel n m → (n + length os <= fuel)%nat →
  Forall is_iop os → interval_ok os m →
  (∀ P' d' m' cs, wrep fsize [] P' d' m' → levels_known m' → turn_fuel (n + length os) m' →
     apply_conditions (levels_sent m) cs ≡ levels_sent m' →
     Q tt (CondState d' (w ++ (pkt_of <$> cs)))) →
  wp (do_interval send fuel os) Q (CondState d w).
Proof.
  intros Hs. revert n P d m w. induction os as [|o os IH]; intros n P d m w R Hlv Hf Hn Hos Hok HQ.
  - wp_steps. specialize (HQ P d m []). rewrite app_nil_r in HQ. apply HQ; [done|done| |done].
    by eapply turn_fuel_mono; [|exact Hf]; lia.
  - apply Forall_cons in Hos as [Ho Hos]. simpl in Hn. destruct o as [o|]; cbn [do_interval].
    + destruct Hok as [Hok1 Hok]. unfold on_cdw. wp_step. apply wp_zoom. cbn [cs_dw cs_wire].
      eapply wp_do_wop; [done|done|exact R|done|]. intros P' d' R'.
      pose proof (levels_known_update o m Ho Hlv) as Hlv'.
      pose proof (turn_fuel_update P d o n m [] R Ho Hf) as Hf'.
      destruct (update_levels setting fsize o m Ho) as (_ & El & _).
      eapply (IH (S n)); [exact R'|done|done|lia|done|done|].
      intros P'' d'' m'' cs R'' Hlv'' Hf'' Ecs. rewrite El in Ecs. eapply HQ; [exact R''|done| |done].
      eapply turn_fuel_mono; [|exact Hf'']. simpl. lia.
    + wp_step. destruct (turn_fuel_mono n fuel m ltac:(lia) Hf) as [Hf1 Hf2].
      eapply wp_send_conditions; [exact R|apply Hlv|done|done|]. intros P' d' cs Hcs R'.
      destruct (turn_of_facts fsize P d m [] cs R Hlv Hcs) as [Esync _]. rewrite wire_reliable by done.
      eapply (IH n); [exact R'|by apply levels_known_turn|by apply turn_fuel_turn|lia|done|apply Hok|].
      intros P'' d'' m'' cs' R'' Hlv'' Hf'' Ecs.
      rewrite <- app_assoc, <- fmap_app. eapply HQ; [exact R''|done| |].
      { eapply turn_fuel_mono; [|exact Hf'']. simpl. lia. }
      rewrite apply_conditions_app. etrans; [|exact Ecs].
      destruct (spec_turn_levels cs m) as [-> _].
      by apply apply_conditions_proper.
Qed.

(** Through an interval, the switches know the levels: with a network that
    loses nothing, after any updates and turns of the sender in any order the
    packets on the wire are those of a list of conditions which, applied in
    order to what the switches knew at the start, give the levels of the active
    buffer as of the last turn. *)
Theorem switches_follow send os P d m w :
  reliable send → wrep fsize [] P d m → levels_known m → Forall is_iop os → interval_ok (os ++ [ITurn]) m →
  ∃ n, ∀ fuel, (n <= fuel)%nat → ∃ P' d' m' cs,
    do_interval send fuel (os ++ [ITurn]) (CondState d w) = Ok (tt, CondState d' (w ++ (pkt_of <$> cs))) ∧
    wrep fsize [] P' d' m' ∧
    apply_conditions (levels_sent m) cs ≡ levels_now m' ∧ levels_sent m' ≡ levels_now m'.
Proof.
  intros Hs R Hlv Hos Hok. destruct (turn_fuel_exists fsize P d m [] R) as [n Hn].
  exists (n + length os)%nat. intros fuel Hfuel.
  assert (wp (do_interval send fuel (os ++ [ITurn])) (λ _ s, ∃ P' d' m' cs,
    s = CondState d' (w ++ (pkt_of <$> cs)) ∧ wrep fsize [] P' d' m' ∧
    apply_conditions (levels_sent m) cs ≡ levels_now m' ∧ levels_sent m' ≡ levels_now m') (CondState d w)) as Hw.
  { apply wp_interval_app. eapply wp_do_interval; [done|exact R|done|exact Hn|done|done|by apply interval_ok_app in Hok|].
    intros P' d' m' cs R' Hlv' Hf' Ecs. simpl.
    destruct (turn_fuel_mono _ fuel m' ltac:(done) Hf') as [Hf1 Hf2]. wp_steps.
    eapply wp_send_conditions; [exact R'|apply Hlv'|done|done|]. intros P'' d'' cs' Hcs' R''. wp_steps.
    destruct (turn_of_facts fsize P' d' m' [] cs' R' Hlv' Hcs') as [Esync _]. rewrite wire_reliable by done.
    destruct (spec_turn_levels cs' m') as [E1 E2].
    exists P'', d'', (spec_turn cs' m'), (cs ++ cs'). rewrite <- app_assoc, <- fmap_app, E1, E2.
    split_and!; [done|done| |done]. rewrite apply_conditions_app. etrans; [|exact Esync].
    by apply apply_conditions_proper. }
  apply wp_run in Hw as ([] & s & E & P' & d' & m' & cs & -> & Hx). exists P', d', m', cs. done.
Qed.

End interval.

(** ** The packet *)
(** A condition packet can be read: whatever the bytes the sender leaves
    unset, it is a tagged IPv4 packet of 46 bytes from which the level, the
    source and (where the build has one) the destination of the condition read
    back, and it is not tagged as sampled. *)
Theorem condition_reads_back datalink c level p b :
  datalink ≠ DLT_JUNIPER_ETHER → condition_ok c → 0 <= level <= 3 →
  condition_pkt c level = Ok p → completes p b →
  Z.of_nat (length b) = CONDITION_PKT_LEN ∧ is_vlan datalink b ∧
  GET_VLAN_SELECTED_FLOW_VAL (vlan_tag datalink b) = level ∧
  check_packet_tagged_as_sampled datalink b = Ok (false, b) ∧
  ∃ f seqid, parse_ipv4 datalink b = Ok (Some (f, seqid), b) ∧ f_srcip f = c_srcip c ∧
    match c_dstip c with Some ip => f_dstip f = ip | None => True end.
Proof.
  intros Hdl Hc Hlv Ep Hb.
  destruct (condition_is_frame datalink c level p b Hdl Hc Hlv Ep Hb) as (fl & dstip & seqid & -> & Hok & Hip & _).
  pose proof (frame_headers _ _ _ _ _ Hok) as Hh. pose proof (frame_tag _ _ _ _ _ _ Hok) as Ht.
  assert (is_vlan datalink (frame fl [2 * level] (condition_flow c dstip) seqid)) as Hv by (by apply frame_is_vlan).
  split_and!; [|done|rewrite Ht; by apply GET_level| |].
  - apply Forall2_length in Hb. rewrite <- Hb. revert Ep. unfold condition_pkt.
    assert (∃ h, tag_packet_selected_level level vlan_hdr_of_condition = Ok (tt, h) ∧ length h = 18%nat) as (h & -> & Lh)
      by (apply (level_cases level); [done|by eexists..]).
    intros [= <-]. unfold CONDITION_PKT_LEN. rewrite !length_app. unfold set. rewrite length_fmap, Lh.
    by destruct (c_dstip c).
  - apply wp_exact. unfold check_packet_tagged_as_sampled. wp_step. apply wp_vlan_field; [done|].
    rewrite decide_True by done. wp_step. pose proof (vlan_off_bounds _ _ Hh). apply wp_read16; [lia|lia|].
    apply wp_ret. split; [|done]. change (bool_decide (Z.land (vlan_tag datalink
      (frame fl [2 * level] (condition_flow c dstip) seqid)) TAG_VLAN_PACKET_SAMPLED_VAL ≠ 0) = false).
    rewrite Ht. by apply (level_cases level).
  - exists (condition_flow c dstip), seqid. split; [|by destruct c as [? []]]. apply wp_exact.
    destruct Hok as [H1 H2 H3 H4]. by apply (wp_parse datalink 8 0 fl [2 * level]).
Qed.

(** ** Witnesses *)
(** A flow that loses enough to be a target *)
Definition demo_updates : list (wop flow_src) := [WNormal demo_flow 1500; WLoss demo_flow 300].
(** An interface that takes every packet, and one that takes none *)
Definition takes_all (w : list raw_packet) (b : raw_packet) : Z := Z.max CONDITION_PKT_LEN (Z.of_nat (length b)).
Lemma takes_all_reliable : reliable takes_all.
Proof. intros w b. apply Z.le_max_l. Qed.
Definition takes_none (w : list raw_packet) (b : raw_packet) : Z := -1.

Lemma demo_updates_ok : wops_ok demo_setting 10 demo_updates m_init.
Proof. simpl. unfold normal_ok, loss_ok. split_and!; try done; intros; lazy; intuition congruence. Qed.
Lemma demo_levels_known : levels_known (spec_wops demo_setting 10 demo_updates m_init).
Proof. apply levels_known_updates; [by repeat constructor|apply levels_known_init]. Qed.

Lemma conditions_sync_witness :
  ∃ (d d' : sender_warehouse) n (cs : list (condition flow_src)),
    send_conditions true takes_all n (CondState d [])
    = Ok (true, CondState d' (wire_after true takes_all [] cs)) ∧ distinct cs.
Proof.
  destruct (demo_warehouse demo_updates demo_updates_ok) as (d & P & R).
  destruct (conditions_sync 10 true takes_all P d _ [] R demo_levels_known) as [n Hn].
  destruct (Hn n ltac:(done)) as (P' & d' & cs & E & _ & _ & Hd & _).
  exists d, d', n, cs. split; [exact E|exact Hd].
Defined.

Lemma switches_follow_witness :
  ∃ (d d' : sender_warehouse) n (cs : list (condition flow_src)),
    do_interval demo_setting takes_all n [IUpdate (WNormal demo_flow 1500); ITurn] (CondState d [])
    = Ok (tt, CondState d' (pkt_of <$> cs)).
Proof.
  destruct (demo_warehouse [] I) as (d & P & R).
  destruct (switches_follow demo_setting 10 demo_bucket_size ltac:(done) takes_all
    [IUpdate (WNormal demo_flow 1500)] P d m_init [] takes_all_reliable R levels_known_init) as [n Hn].
  - by repeat constructor.
  - split; [|done]. intros _. split; lazy; congruence.
  - destruct (Hn n ltac:(done)) as (P' & d' & m' & cs & E & _). exists d, d', n, cs. exact E.
Defined.

Lemma lost_conditions_not_resent_witness :
  ∃ (d d1 d2 : sender_warehouse) n,
    send_conditions true takes_none n (CondState d []) = Ok (true, CondState d1 []) ∧
    send_conditions true takes_all n (CondState d1 []) = Ok (true, CondState d2 []).
Proof.
  destruct (demo_warehouse demo_updates demo_updates_ok) as (d & P & R).
  destruct (lost_conditions_not_resent 10 takes_none takes_all P d _ [] ltac:(done) R demo_levels_known) as [n Hn].
  destruct (Hn n ltac:(done)) as (P' & d1 & d2 & m' & E1 & E2 & _). exists d, d1, d2, n. split; [exact E1|exact E2].
Defined.

Lemma turn_without_memory_witness :
  ∃ (d d' : sender_warehouse) w n,
    send_conditions true takes_all n (CondState (with_mallocs [false] d) []) = Ok (false, CondState d' w) ∧
    wlock packet_send_mutex d' = Fault LockBusy.
Proof.
  destruct (demo_warehouse demo_updates demo_updates_ok) as (d & P & R).
  destruct (turn_without_memory 10 true takes_all P d _ [] R demo_levels_known) as [n Hn].
  destruct (Hn n ltac:(done)) as (d' & w & E & El & _). exists d, d', w, n. split; [exact E|exact El].
Defined.

Lemma condition_reads_back_witness :
  ∃ p b, condition_pkt (flow_condition demo_flow) TARGET_LEVEL = Ok p ∧ completes p b ∧
    GET_VLAN_SELECTED_FLOW_VAL (vlan_tag 1 b) = TARGET_LEVEL.
Proof.
  destruct (condition_pkt (flow_condition demo_flow) TARGET_LEVEL) as [p|] eqn:E; [|by vm_compute in E].
  exists p, (default 0 <$> p). assert (completes p (default 0 <$> p)) as Hc.
  { vm_compute in E. injection E as <-. unfold completes. simpl. by repeat constructor. }
  split; [done|]. split; [exact Hc|].
  by apply (condition_reads_back 1 (flow_condition demo_flow) TARGET_LEVEL p (default 0 <$> p)).
Defined.
