(* ===== verification/TimeLibrary.v ===== *)
(** * Waiting for the next interval (public_lib/time_library.c)

    The clock is the operating system's: its [n]-th reading is a parameter, and
    the state is the number of readings made.  [nanosleep] only lets time pass
    between two readings. *)
From S2P Require Import Prelude CMonad.

(** [struct timespec] *)
Record timespec := Timespec { tv_sec : Z; tv_nsec : Z }.

(** An [intmax_t] expression *)
Definition long_result (x : Z) : res Z := if decide (in_s 64 x) then Ok x else Fault SignedOverflow.

(** A reading in milliseconds and in seconds *)
Definition msec_of (spec : timespec) : res Z :=
  match long_result (tv_sec spec * 1000) with
  | Ok ms => match long_result (ms + Z.quot (tv_nsec spec) 1000000) with
             | Ok msec => Ok (u64 msec)
             | Fault e => Fault e
             end
  | Fault e => Fault e
  end.
Definition sec_of (spec : timespec) : res Z := Ok (tv_sec spec).

(** [msec % len] and [msec / len] *)
Definition mod_u64 (x len : Z) : res Z := if decide (len = 0) then Fault DivByZero else Ok (x mod len).
Definition div_u64 (x len : Z) : res Z := if decide (len = 0) then Fault DivByZero else Ok (x / len).

Section clock.
Context (clock : nat → timespec).

(** [clock_gettime(CLOCK_REALTIME, &spec)] *)
Definition clock_gettime : cmd nat timespec := λ n, Ok (clock n, S n).

(** A loop that reads the clock until [stop] holds of the reading; the value
    of the last reading *)
Fixpoint poll (fuel : nat) (value : timespec → res Z) (stop : Z → res bool) : cmd nat Z :=
  match fuel with
  | O => throw OutOfFuel
  | S fuel =>
      spec ← clock_gettime;
      msec ← lift (value spec);
      b ← lift (stop msec);
      if b : bool then mret msec else poll fuel value stop
  end.

(** The conditions of the loops of [get_next_interval_start] *)
Definition off_boundary (time_interval_msecs msec : Z) : res bool :=
  match mod_u64 msec time_interval_msecs with Ok r => Ok (bool_decide (r ≠ 0)) | Fault e => Fault e end.
Definition at_next_boundary (time_interval_msecs pre_interval_tag msec : Z) : res bool :=
  match mod_u64 msec time_interval_msecs with
  | Ok r => Ok (bool_decide (r = 0)
                || bool_decide (msec > u64 (u64 (pre_interval_tag + 1) * time_interval_msecs)))
  | Fault e => Fault e
  end.

(** [get_next_interval_start] *)
Definition get_next_interval_start (fuel : nat) (time_interval_msecs : Z) : cmd nat Z :=
  msec ← poll fuel msec_of (off_boundary time_interval_msecs);
  pre_interval_tag ← lift (div_u64 msec time_interval_msecs);
  poll fuel msec_of (at_next_boundary time_interval_msecs pre_interval_tag).

(** The conditions of the loops of [get_next_sec_interval_start], in which the
    seconds are signed *)
Definition rem_s64 (x len : Z) : res Z := if decide (len = 0) then Fault DivByZero else Ok (Z.rem x len).
Definition off_sec_boundary (time_interval_secs sec : Z) : res bool :=
  match rem_s64 sec time_interval_secs with Ok r => Ok (bool_decide (r ≠ 0)) | Fault e => Fault e end.
Definition at_sec_boundary (time_interval_secs sec : Z) : res bool :=
  match rem_s64 sec time_interval_secs with Ok r => Ok (bool_decide (r = 0)) | Fault e => Fault e end.

(** [get_next_sec_interval_start] *)
Definition get_next_sec_interval_start (fuel : nat) (time_interval_secs : Z) : cmd nat Z :=
  poll fuel sec_of (off_sec_boundary time_interval_secs);;
  sec ← poll fuel sec_of (at_sec_boundary time_interval_secs);
  mret (u64 sec).
End clock.
