(* ===== verification/TimeProps.v ===== *)
(** * Properties of the waits for the next interval

    [get_next_interval_start] returns the first reading of the clock that is at
    or after the next multiple of the interval, whatever the readings in
    between, if the clock is read more than once per interval; an interval of
    one millisecond never starts. *)
From S2P Require Import Prelude CMonad TimeLibrary.

Section waits.
Context (clock : nat → timespec).

Definition ms (n : nat) : Z := tv_sec (clock n) * 1000 + tv_nsec (clock n) / 1000000.
Definition sec (n : nat) : Z := tv_sec (clock n).

(** A clock that shows a time after 1970, is not set back, passes at most [g]
    between two readings, and runs at least to [T]; [t] is its unit. *)
Record clock_runs (t : nat → Z) (g T : Z) : Prop := ClockRuns {
  ck_valid : ∀ n, 0 <= tv_sec (clock n) < 2 ^ 50 ∧ 0 <= tv_nsec (clock n) < 10 ^ 9;
  ck_mono : ∀ n, t n <= t (S n);
  ck_gap : ∀ n, t (S n) <= t n + g;
  ck_to : ∃ n, T <= t n
}.

(** The [k]-th reading is the first from the [n]-th on that shows [b]. *)
Definition first_at (t : nat → Z) (b : Z) (n k : nat) : Prop :=
  (n <= k)%nat ∧ b <= t k ∧ ∀ j, (n <= j < k)%nat → t j < b.

Section ticks.
Context (t : nat → Z) (g T : Z) (C : clock_runs t g T).

Lemma t_mono n m : (n <= m)%nat → t n <= t m.
Proof. induction 1 as [|m _ IH]; [done|]. pose proof (ck_mono _ _ _ C m). lia. Qed.

Lemma first_exists b n : b <= T → ∃ k, first_at t b n k.
Proof.
  intros Hb. destruct (ck_to _ _ _ C) as [m Hm]. pose proof (t_mono m (n + m) ltac:(lia)) as Hnm.
  assert (b <= t (n + m)) as Hd by lia. clear Hm Hnm. revert n Hd. induction m as [|m IH]; intros n Hd.
  - exists n. rewrite Nat.add_0_r in Hd. split; [done|]. split; [done|]. lia.
  - destruct (decide (b <= t n)) as [Hn|Hn]; [exists n; split; [done|split; [done|lia]]|].
    destruct (IH (S n)) as (k & Hk & Hbk & Hj); [by replace (S n + m)%nat with (n + S m)%nat by lia|].
    exists k. split; [lia|]. split; [done|]. intros j Hjk.
    destruct (decide (j = n)) as [->|]; [lia|]. apply Hj. lia.
Qed.
(** It comes at most [g] late. *)
Lemma first_late b n k : t n < b → first_at t b n k → (n < k)%nat ∧ t k < b + g.
Proof.
  intros Hn (Hk & Hb & Hj). destruct k as [|k]; [assert (n = 0%nat) as -> by lia; lia|].
  assert (n ≠ S k) by (intros ->; lia). split; [lia|].
  pose proof (ck_gap _ _ _ C k). specialize (Hj k ltac:(lia)). lia.
Qed.
Lemma first_from b n n1 k : (n <= n1)%nat → t n1 < b → first_at t b n k → first_at t b (S n1) k.
Proof.
  intros Hn Hn1 (Hk & Hb & Hj). split_and!; [|done|intros j Hjk; apply Hj; lia].
  destruct (decide (k <= n1)%nat) as [Hle|]; [|lia]. pose proof (t_mono k n1 Hle). lia.
Qed.
End ticks.

(** ** The loops *)
Lemma poll_first fuel value stop n k v :
  (n <= k)%nat → (k - n < fuel)%nat →
  (∀ j, (n <= j < k)%nat → ∃ x, value (clock j) = Ok x ∧ stop x = Ok false) →
  value (clock k) = Ok v → stop v = Ok true →
  poll clock fuel value stop n = Ok (v, S k).
Proof.
  intros Hnk. remember (k - n)%nat as d eqn:Ed. revert fuel n Hnk Ed.
  induction d as [|d IH]; intros [|fuel] n Hnk Ed Hf Hj Hv Hs; try lia.
  - assert (n = k) as -> by lia. cbn [poll]. unfold mbind, cmd_bind, clock_gettime, lift. by rewrite Hv, Hs.
  - destruct (Hj n ltac:(lia)) as (x & Hx & Hsx). cbn [poll]. unfold mbind, cmd_bind, clock_gettime, lift.
    rewrite Hx, Hsx. apply IH; [lia|lia|lia| |done|done]. intros j Hjk. apply Hj. lia.
Qed.
(** A loop whose condition never holds *)
Lemma poll_forever fuel value stop n :
  (∀ j, ∃ x, value (clock j) = Ok x ∧ stop x = Ok false) → poll clock fuel value stop n = Fault OutOfFuel.
Proof.
  intros Hj. revert n. induction fuel as [|fuel IH]; intros n; [done|]. destruct (Hj n) as (x & Hx & Hsx).
  cbn [poll]. unfold mbind, cmd_bind, clock_gettime, lift. rewrite Hx, Hsx. apply IH.
Qed.

Lemma msec_of_ok n :
  0 <= tv_sec (clock n) < 2 ^ 50 → 0 <= tv_nsec (clock n) < 10 ^ 9 →
  msec_of (clock n) = Ok (ms n) ∧ 0 <= ms n < 2 ^ 60.
Proof.
  intros Hs Hn. unfold msec_of, long_result, ms. rewrite Z.quot_div_nonneg by lia.
  pose proof (Z.div_pos (tv_nsec (clock n)) 1000000 ltac:(lia) ltac:(lia)).
  assert (tv_nsec (clock n) / 1000000 < 1000) by (apply Z.div_lt_upper_bound; lia).
  rewrite !decide_True by (unfold in_s; lia). rewrite wrap_small by (unfold in_u; lia). split; [done|lia].
Qed.
Lemma ms_ok t g T n : clock_runs t g T → msec_of (clock n) = Ok (ms n) ∧ 0 <= ms n < 2 ^ 60.
Proof. intros C. destruct (ck_valid _ _ _ C n). by apply msec_of_ok. Qed.

(** ** Milliseconds *)
Section msecs.
Context (g T L : Z) (C : clock_runs ms g T) (HL : g < L < 2 ^ 32).

(** The next multiple of the interval *)
Definition next_multiple (l x : Z) : Z := (x / l + 1) * l.
Lemma next_multiple_gt l x : 0 < l → x < next_multiple l x <= x + l.
Proof. intros Hl. unfold next_multiple. pose proof (Z.mul_div_le x l Hl). pose proof (Z.mul_succ_div_gt x l Hl). lia. Qed.
Lemma between_multiples l x q : 0 < l → q * l < x < (q + 1) * l → x mod l ≠ 0 ∧ x / l = q.
Proof.
  intros Hl Hx. assert (x / l = q) as E by (symmetry; apply Z.div_unique with (x - q * l); lia).
  split; [|done]. rewrite Z.mod_eq by lia. rewrite E. lia.
Qed.
Lemma g_nonneg : 0 <= g.
Proof. pose proof (ck_mono _ _ _ C 0). pose proof (ck_gap _ _ _ C 0). lia. Qed.

(** The first loop ends on a reading of this interval, off its start. *)
Lemma off_boundary_ends n :
  ms n + L <= T → ∃ n1, (n <= n1)%nat ∧ ms n1 < next_multiple L (ms n) ∧
    next_multiple L (ms n) - L < ms n1 ∧
    ∀ fuel, (n1 - n < fuel)%nat → poll clock fuel msec_of (off_boundary L) n = Ok (ms n1, S n1).
Proof.
  intros HT. pose proof g_nonneg as Hg. pose proof (next_multiple_gt L (ms n) ltac:(lia)) as Hb.
  assert (∀ x, off_boundary L x = Ok (bool_decide (x mod L ≠ 0))) as Hoff
    by (intros x; unfold off_boundary, mod_u64; by rewrite decide_False by lia).
  destruct (decide (ms n mod L = 0)) as [E|E].
  - destruct (first_exists ms g T C (ms n + 1) n ltac:(lia)) as [n1 Hn1].
    destruct (first_late ms g T C (ms n + 1) n n1 ltac:(lia) Hn1) as [Hlt Hlate].
    destruct Hn1 as (Hle & Hge & Hj). assert (next_multiple L (ms n) = ms n + L) as Eb.
    { unfold next_multiple. rewrite Z.mod_eq in E by lia. lia. }
    exists n1. split_and!; [done|lia|lia|]. intros fuel Hf.
    apply poll_first; [done|done| |by apply (ms_ok _ _ _ _ C)|].
    + intros j Hjn. exists (ms j). split; [by apply (ms_ok _ _ _ _ C)|]. specialize (Hj j ltac:(lia)).
      pose proof (t_mono ms g T C n j ltac:(lia)). rewrite Hoff, bool_decide_false; [done|].
      replace (ms j) with (ms n) by lia. by intros [].
    + rewrite Hoff, bool_decide_true; [done|]. apply (between_multiples L _ (ms n / L)); [lia|].
      unfold next_multiple in Eb. lia.
  - exists n. assert (next_multiple L (ms n) - L < ms n).
    { unfold next_multiple. pose proof (Z.div_mod (ms n) L ltac:(lia)). pose proof (Z.mod_pos_bound (ms n) L ltac:(lia)). lia. }
    split_and!; [done|lia|done|]. intros fuel Hf. apply poll_first; [done|done|lia|by apply (ms_ok _ _ _ _ C)|].
    by rewrite Hoff, bool_decide_true.
Qed.

(** In an interval, its loop stops at the readings from the next boundary on. *)
Lemma at_next_boundary_iff n1 x :
  (∃ q, q * L < ms n1 < (q + 1) * L) → ms n1 <= x →
  at_next_boundary L (ms n1 / L) x = Ok (bool_decide (next_multiple L (ms n1) <= x)).
Proof.
  intros [q Hq] Hx. pose proof g_nonneg. destruct (between_multiples L (ms n1) q ltac:(lia) Hq) as [_ Eq].
  destruct (ms_ok _ _ _ n1 C) as [_ Hms]. assert (0 <= q < 2 ^ 60) by nia.
  unfold at_next_boundary, mod_u64, next_multiple. rewrite decide_False, Eq by lia. f_equal.
  rewrite (wrap_small 64 (q + 1)) by (unfold in_u; lia).
  rewrite wrap_small by (unfold in_u; nia).
  destruct (decide ((q + 1) * L <= x)) as [Hle|Hlt].
  - rewrite (bool_decide_true ((q + 1) * L <= x)) by done. apply orb_true_iff.
    destruct (decide (x = (q + 1) * L)) as [->|]; [left|right]; apply bool_decide_eq_true; [|lia].
    by apply Z.mod_mul; lia.
  - destruct (between_multiples L x q) as [Hm _]; [lia|lia|]. rewrite !bool_decide_false by (done || lia). done.
Qed.
End msecs.

(** C30. [get_next_interval_start] ends and is exact: if the clock is not set back
    and is read at least once in every interval, it returns the first reading
    at or after the next multiple of the interval (from a reading on a
    multiple, the one after it), and no reading after that one is made. *)
Theorem next_interval_start g T L n :
  clock_runs ms g T → g < L < 2 ^ 32 → ms n + L <= T →
  ∃ k, first_at ms (next_multiple L (ms n)) n k ∧ ms k < next_multiple L (ms n) + g ∧
    ∀ fuel, (S (k - n) < fuel)%nat → get_next_interval_start clock fuel L n = Ok (ms k, S k).
Proof.
  intros C HL HT. pose proof (g_nonneg g T C) as Hg. pose proof (next_multiple_gt L (ms n) ltac:(lia)) as Hb.
  destruct (first_exists ms g T C (next_multiple L (ms n)) n ltac:(lia)) as [k Hk]. exists k. split; [done|].
  destruct (first_late ms g T C (next_multiple L (ms n)) n k ltac:(lia) Hk) as [Hlt Hlate]. split; [done|]. intros fuel Hf.
  destruct (off_boundary_ends g T L C HL n HT) as (n1 & Hn1 & Hlo & Hhi & Hpoll).
  destruct (first_from ms g T C (next_multiple L (ms n)) n n1 k Hn1 Hlo Hk) as (Hk1 & Hbk & Hj).
  unfold get_next_interval_start. erewrite bind_ok by (apply Hpoll; lia).
  unfold div_u64. rewrite decide_False by lia. erewrite bind_ok by done.
  assert (∃ q, q * L < ms n1 < (q + 1) * L) as Hq by (exists (ms n / L); unfold next_multiple in *; lia).
  assert (next_multiple L (ms n1) = next_multiple L (ms n)) as Eb.
  { unfold next_multiple in *. destruct (between_multiples L (ms n1) (ms n / L)) as [_ ->]; lia. }
  assert (∀ j, ms n1 <= ms j → at_next_boundary L (ms n1 / L) (ms j) = Ok (bool_decide (next_multiple L (ms n) <= ms j)))
    as Hstop by (intros j Hn1j; rewrite <- Eb; by eapply at_next_boundary_iff).
  apply poll_first; [lia|lia| |by apply (ms_ok _ _ _ _ C)|].
  - intros j Hjk. exists (ms j). split; [by apply (ms_ok _ _ _ _ C)|].
    rewrite Hstop by (apply (t_mono ms g T C); lia). rewrite bool_decide_false; [done|]. specialize (Hj j ltac:(lia)). lia.
  - rewrite Hstop by (apply (t_mono ms g T C); lia). by rewrite bool_decide_true.
Qed.

(** An interval of one millisecond never starts: every reading is on a
    boundary, and the first loop waits for one that is not. *)
Theorem interval_of_one_ms_never_starts t g T n fuel :
  clock_runs t g T → get_next_interval_start clock fuel 1 n = Fault OutOfFuel.
Proof.
  intros C. unfold get_next_interval_start. apply bind_fault, poll_forever. intros j. exists (ms j).
  split; [by apply (ms_ok _ _ _ _ C)|]. unfold off_boundary, mod_u64. rewrite decide_False by done.
  by rewrite Z.mod_1_r.
Qed.

(** ** Seconds: every second must be read. *)
Lemma off_sec_ok L x : L ≠ 0 → 0 <= x → 0 < L → off_sec_boundary L x = Ok (bool_decide (x mod L ≠ 0)).
Proof. intros. unfold off_sec_boundary, rem_s64. by rewrite decide_False, Z.rem_mod_nonneg. Qed.
Lemma at_sec_ok L x : L ≠ 0 → 0 <= x → 0 < L → at_sec_boundary L x = Ok (bool_decide (x mod L = 0)).
Proof. intros. unfold at_sec_boundary, rem_s64. by rewrite decide_False, Z.rem_mod_nonneg. Qed.

Lemma next_sec_interval_start T L n :
  clock_runs sec 1 T → 1 < L → sec n + L <= T →
  ∃ k, first_at sec (next_multiple L (sec n)) n k ∧ sec k = next_multiple L (sec n) ∧
    ∀ fuel, (S (k - n) < fuel)%nat → get_next_sec_interval_start clock fuel L n = Ok (sec k, S k).
Proof.
  intros C HL HT. pose proof (next_multiple_gt L (sec n) ltac:(lia)) as Hb.
  assert (∀ j, 0 <= sec j < 2 ^ 50) as Hsec by (intros j; apply (ck_valid _ _ _ C)).
  destruct (first_exists sec 1 T C (next_multiple L (sec n)) n ltac:(lia)) as [k Hk]. exists k. split; [done|].
  destruct (first_late sec 1 T C (next_multiple L (sec n)) n k ltac:(lia) Hk) as [Hlt Hlate]. split; [destruct Hk; lia|]. intros fuel Hf.
  assert (∃ n1, (n <= n1)%nat ∧ next_multiple L (sec n) - L < sec n1 < next_multiple L (sec n) ∧
    ∀ fuel, (n1 - n < fuel)%nat → poll clock fuel sec_of (off_sec_boundary L) n = Ok (sec n1, S n1))
    as (n1 & Hn1 & Hin & Hpoll).
  { destruct (decide (sec n mod L = 0)) as [E|E].
    - assert (next_multiple L (sec n) = sec n + L) as Eb by (unfold next_multiple; rewrite Z.mod_eq in E by lia; lia).
      destruct (first_exists sec 1 T C (sec n + 1) n ltac:(lia)) as [n1 Hf1].
      destruct (first_late sec 1 T C (sec n + 1) n n1 ltac:(lia) Hf1) as [Hlt1 Hlate1]. destruct Hf1 as (Hle1 & Hge1 & Hj1).
      exists n1. split; [done|]. split; [lia|]. intros f Hf1. apply poll_first; [done|done| |done|].
      + intros j Hjn. exists (sec j). split; [done|]. specialize (Hj1 j ltac:(lia)).
        pose proof (t_mono sec 1 T C n j ltac:(lia)). specialize (Hsec j).
        rewrite off_sec_ok by lia; rewrite bool_decide_false; [done|]. replace (sec j) with (sec n) by lia. by intros [].
      + specialize (Hsec n1). rewrite off_sec_ok by lia; rewrite bool_decide_true; [done|].
        apply (between_multiples L _ (sec n / L)); [lia|]. unfold next_multiple in Eb. lia.
    - exists n. split; [done|]. split.
      { unfold next_multiple in *. pose proof (Z.div_mod (sec n) L ltac:(lia)). pose proof (Z.mod_pos_bound (sec n) L ltac:(lia)). lia. }
      intros f Hf1. specialize (Hsec n). apply poll_first; [done|done|lia|done|].
      by rewrite off_sec_ok by lia; rewrite bool_decide_true. }
  destruct (first_from sec 1 T C (next_multiple L (sec n)) n n1 k Hn1 ltac:(lia) Hk) as (Hk1 & Hbk & Hj).
  unfold get_next_sec_interval_start. erewrite bind_ok by (apply Hpoll; lia).
  assert (sec k = next_multiple L (sec n)) as Ek by lia.
  erewrite bind_ok.
  2:{ apply (poll_first _ _ _ _ k (sec k)); [lia|lia| |done|].
      - intros j Hjk. exists (sec j). split; [done|]. specialize (Hj j ltac:(lia)). pose proof (Hsec j).
        pose proof (t_mono sec 1 T C n1 j ltac:(lia)). rewrite at_sec_ok by lia; rewrite bool_decide_false; [done|].
        apply (between_multiples L _ (sec n / L)); [lia|]. unfold next_multiple in *. lia.
      - pose proof (Hsec k). rewrite at_sec_ok by lia; rewrite bool_decide_true; [done|]. rewrite Ek. apply Z.mod_mul. lia. }
  specialize (Hsec k). rewrite wrap_small by (unfold in_u; lia). done.
Qed.
End waits.

(** ** Witnesses: a clock that is read every 3 ms, from second 1000 on, up to
    second 2000 *)
Definition demo_clock (n : nat) : timespec :=
  let t := Z.min (1000001 + 3 * Z.of_nat n) 2000000 in Timespec (t / 1000) (t mod 1000 * 1000000).

Lemma demo_clock_ms n : ms demo_clock n = Z.min (1000001 + 3 * Z.of_nat n) 2000000.
Proof.
  unfold ms, demo_clock. cbn [tv_sec tv_nsec]. set (t := Z.min _ _). rewrite Z.div_mul by done.
  pose proof (Z.div_mod t 1000). lia.
Qed.
Lemma demo_clock_runs : clock_runs demo_clock (ms demo_clock) 3 2000000.
Proof.
  split.
  - intros n. unfold demo_clock. cbn [tv_sec tv_nsec]. set (t := Z.min _ _).
    assert (0 <= t <= 2000000) by lia. pose proof (Z.mod_pos_bound t 1000 ltac:(lia)).
    pose proof (Z.div_pos t 1000). assert (t / 1000 <= 2000) by (apply Z.div_le_upper_bound; lia). lia.
  - intros n. rewrite !demo_clock_ms. lia.
  - intros n. rewrite !demo_clock_ms. lia.
  - exists (Z.to_nat 400000). rewrite demo_clock_ms. lia.
Qed.

(** The first reading after 1000100 ms is the 33rd, 1000100 ms exactly. *)
Lemma next_interval_start_witness :
  3 < 100 < 2 ^ 32 ∧ get_next_interval_start demo_clock 60 100 0%nat = Ok (1000100, 34%nat).
Proof.
  split; [done|]. destruct (next_interval_start demo_clock 3 2000000 100 0 demo_clock_runs) as (k & Hk & _ & Hrun).
  { done. } { by rewrite demo_clock_ms. }
  assert (k = 33%nat) as ->.
  { destruct Hk as (_ & Hb & Hj). rewrite !demo_clock_ms in Hb.
    destruct (decide (33 < k)%nat) as [Hlt|Hge].
    - specialize (Hj 33%nat ltac:(lia)). rewrite !demo_clock_ms in Hj. vm_compute in Hj. done.
    - replace (next_multiple 100 (Z.min (1000001 + 3 * Z.of_nat 0) 2000000)) with 1000100 in Hb by done. lia. }
  rewrite Hrun by lia. by rewrite demo_clock_ms.
Defined.

Lemma interval_of_one_ms_never_starts_witness :
  get_next_interval_start demo_clock 1000 1 0%nat = Fault OutOfFuel.
Proof. apply (interval_of_one_ms_never_starts demo_clock _ _ _ 0 1000 demo_clock_runs). Defined.
