(* ===== verification/IntervalRotator.v ===== *)
(** * The interval rotator (tcpreplay/src/interval_rotator.c)

    At the end of every interval a thread swaps the buffers of the warehouse,
    writes what the interval has recorded into the file of target flows and
    empties the buffer.  The file is the list of its lines, with the values
    that are printed. *)
From stdpp Require Import strings.
From S2P Require Import Prelude CMonad CFloat ChainedTable TableSpec FixSizeTable FixSizeIface.
From S2P Require Import Flow PktListTable ObjStore Settings Sample FlowTables Warehouse CText TaskManager TimeLibrary.

(** ** The lines of the file *)
Inductive report_line (K : Type) :=
| RHeader (columns : list string)
| RTime (current_msec : Z)
| RInt (name : string) (value : Z)
| RFloat (name : string) (value : c_double)
| RTargetNum (target_flow_num lost_target_flow_num : Z)
| RFlow (p_flow : K) (volume : Z) (loss_rate : c_float) (loss_volume not_sampled_volume target_flow_sent_out : Z).
Arguments RHeader {K}.
Arguments RTime {K}.
Arguments RInt {K}.
Arguments RFloat {K}.
Arguments RTargetNum {K}.
Arguments RFlow {K}.

(** [init_target_flow_file], in the FLOW_SRC and the FLOW_SRC_DST build: the new
    file, given the name of the host's device and whether the file can be opened *)
Definition init_target_flow_file {K} (columns : list string) (dev : option text) (fopen : bool)
    : res (option (list (report_line K))) :=
  match get_mininet_host_name dev with
  | Fault e => Fault e
  | Ok None => Ok None
  | Ok (Some _) => Ok (if fopen then Some [RHeader columns] else None)
  end.
Definition flow_src_columns : list string := ["srcip"%string].
Definition flow_src_dst_columns : list string := ["srcip"%string; "dstip"%string].

(** What [%d] prints for a [bool] and an [enum] *)
Definition int_of_bool (b : bool) : Z := if b then 1 else 0.
Definition int_of_switch_mem_type (t : switch_mem_type_e) : Z :=
  match t with UNIFORM => 0 | DIVERSE => 1 | OTHER_SWITCH_MEM_TYPE n => i32 n end.
Definition int_of_host_switch_sample (t : host_switch_sample_e) : Z :=
  match t with HOST_SAMPLE => 0 | SWITCH_SAMPLE => 1 | OTHER_HOST_SWITCH_SAMPLE n => i32 n end.

(** [1.0 * lost / sent] *)
Definition double_ratio (lost sent : Z) : c_double :=
  double_div (double_mul (double_of_int 1) (double_of_int lost)) (double_of_int sent).

Section rotator.
Context {K VI VF FX : Type} `{KeyOps K} `{!FlowTable K Z Z VI}.
Context `{!FlowTable K c_float c_float VF} `{!FixedTable K FX}.
Context (setting : cm_experiment_setting_t).
(** [get_task_of_traffic] on the tasks of this host *)
Context (task_of_traffic : K → option task_t).

(** The warehouse and the file written so far *)
Record rot_state := RotState { rs_dw : data_warehouse_t VI VF FX; rs_file : list (report_line K) }.
Definition on_rdw {A} (c : cmd (data_warehouse_t VI VF FX) A) : cmd rot_state A :=
  zoom rs_dw (λ d s, RotState d (rs_file s)) c.
(** [fprintf] *)
Definition write (l : report_line K) : cmd rot_state unit := modify (λ s, RotState (rs_dw s) (rs_file s ++ [l])).

(** [while (ht_kfs_vi_next(p, &ret_entry) == 0) body], and the same for floats *)
Fixpoint while_vi {A} (fuel : nat) (p : option loc) (body : A → K → Z → cmd rot_state A) (acc : A) : cmd rot_state A :=
  match fuel with
  | O => throw OutOfFuel
  | S fuel =>
      e ← on_rdw (call_vi p ft_next);
      match e with
      | None => mret acc
      | Some (key, value) => acc ← body acc key value; while_vi fuel p body acc
      end
  end.
Fixpoint while_vf {A} (fuel : nat) (p : option loc) (body : A → K → c_float → cmd rot_state A) (acc : A)
    : cmd rot_state A :=
  match fuel with
  | O => throw OutOfFuel
  | S fuel =>
      e ← on_rdw (call_vf p ft_next);
      match e with
      | None => mret acc
      | Some (key, value) => acc ← body acc key value; while_vf fuel p body acc
      end
  end.

(** [write_last_sent_flow_selected_level_map_lost_target_flow]; [fp] tells
    whether the file is not NULL *)
Definition count_target (last_sent : option loc) (acc : Z * Z) (p_flow : K) (value : Z) : cmd rot_state (Z * Z) :=
  let '(final_target_flow_num, final_lost_num) := acc in
  if decide (value ≠ TARGET_LEVEL) then mret acc else
  match task_of_traffic p_flow with
  | None => mret acc
  | Some _ =>
      final_target_flow_num ← int_add final_target_flow_num 1;
      level ← on_rdw (call_vi last_sent (ft_get p_flow));
      if decide (level ≠ TARGET_LEVEL) then
        final_lost_num ← int_add final_lost_num 1;
        mret (final_target_flow_num, final_lost_num)
      else mret (final_target_flow_num, final_lost_num)
  end.
Definition write_last_sent_flow_selected_level_map_lost_target_flow (fuel : nat) (fp : bool) : cmd rot_state unit :=
  levels ← on_rdw (data_warehouse_get_unactive flow_selected_level_map);
  last_sent ← on_rdw (gets (λ d, vi_ptr d last_sent_flow_selected_level_map));
  '(target_flow_num, lost_num) ← while_vi fuel levels (count_target last_sent) (0, 0);
  if fp then write (RTargetNum target_flow_num lost_num) else throw NullDeref.

(** [write_interval_info_to_file] *)
Definition read_counter (c : counter) (i : Z) : cmd (data_warehouse_t VI VF FX) Z :=
  check_idx i;; gets (λ d, counters d c i).
Definition write_settings : cmd rot_state unit :=
  write (RInt "interval_msec_len" (interval_msec_len setting));;
  write (RInt "condition_msec_freq" (condition_msec_freq setting));;
  write (RInt "replacement" (int_of_bool (replacement setting)));;
  write (RInt "switch_mem_type" (int_of_switch_mem_type (switch_mem_type setting)));;
  write (RInt "host_or_switch_sample" (int_of_host_switch_sample (host_or_switch_sample setting)));;
  write (RFloat "switch_drop_rate" (double_of_float (switch_drop_rate setting)));;
  let t := target_flow_setting setting in
  write (RInt "target_flow_volume_threshold" (volume_threshold t));;
  write (RFloat "target_flow_loss_rate_threshold" (double_of_float (loss_rate_threshold t)));;
  write (RInt "target_flow_loss_volume_threshold" (loss_volume_threshold t)).
Definition write_counters : cmd rot_state unit :=
  i ← on_rdw (gets active_idx);
  let na_idx := (i + 1) mod BUFFER_NUM in
  n ← on_rdw (read_counter pkt_num_sent na_idx);
  write (RInt "pkt_num_sent" n);;
  sent ← on_rdw (read_counter volume_sent na_idx);
  write (RInt "volume_sent" sent);;
  lost ← on_rdw (read_counter volume_lost na_idx);
  write (RInt "volume_lost_detected" lost);;
  (if decide (sent > 0) then write (RFloat "volume_lost_rate_detected" (double_ratio lost sent)) else mret tt);;
  n ← on_rdw (read_counter condition_pkt_num_sent na_idx);
  write (RInt "condition_pkt_num_sent" n).
Definition count_loss_rate (loss_rate_ok_flow_num : Z) (p_flow : K) (value : c_float) : cmd rot_state Z :=
  if float_ltb (loss_rate_threshold (target_flow_setting setting)) value
  then int_add loss_rate_ok_flow_num 1 else mret loss_rate_ok_flow_num.
(** The value is unsigned, and so the threshold is converted. *)
Definition count_volume (acc : Z * Z) (p_flow : K) (value : Z) : cmd rot_state (Z * Z) :=
  let '(volume_ok_flow_num, unique_flow_num_sent) := acc in
  volume_ok_flow_num ←
    (if decide (value > u32 (volume_threshold (target_flow_setting setting)))
     then int_add volume_ok_flow_num 1 else mret volume_ok_flow_num);
  unique_flow_num_sent ← int_add unique_flow_num_sent 1;
  mret (volume_ok_flow_num, unique_flow_num_sent).
Definition write_interval_info_to_file (fuel : nat) (current_msec : Z) (fp : bool) : cmd rot_state unit :=
  if fp then
    write (RTime current_msec);;
    write_settings;;
    write_counters;;
    rates ← on_rdw data_warehouse_get_unactive_flow_loss_rate_map;
    loss_rate_ok_flow_num ← while_vf fuel rates count_loss_rate 0;
    write (RInt "loss_rate_ok_flow_num" loss_rate_ok_flow_num);;
    volumes ← on_rdw (data_warehouse_get_unactive flow_volume_map);
    '(volume_ok_flow_num, unique_flow_num_sent) ← while_vi fuel volumes count_volume (0, 0);
    write (RInt "volume_ok_flow_num" volume_ok_flow_num);;
    write (RInt "unique_flow_num_sent" unique_flow_num_sent)
  else mret tt.

(** The line of a flow, from the tables of the past interval *)
Record report_tables := ReportTables {
  rt_volume : option loc; rt_loss : option loc; rt_fixed : option loc;
  rt_rate : option loc; rt_not_sampled : option loc; rt_last_sent : option loc
}.
Definition read_report_tables : cmd rot_state report_tables :=
  v ← on_rdw (data_warehouse_get_unactive flow_volume_map);
  l ← on_rdw (data_warehouse_get_unactive flow_loss_volume_map);
  f ← on_rdw data_warehouse_get_unactive_fixed_flow_loss_volume_map;
  r ← on_rdw data_warehouse_get_unactive_flow_loss_rate_map;
  n ← on_rdw (data_warehouse_get_unactive flow_not_sampled_volume_map);
  s ← on_rdw (gets (λ d, vi_ptr d last_sent_flow_selected_level_map));
  mret (ReportTables v l f r n s).
Definition write_flow (t : report_tables) (p_flow : K) : cmd rot_state unit :=
  volume ← on_rdw (call_vi (rt_volume t) (ft_get p_flow));
  loss_rate ← on_rdw (call_vf (rt_rate t) (ft_get p_flow));
  loss_volume ← on_rdw (call_vi (rt_loss t) (ft_get p_flow));
  loss_volume ←
    (if decide (loss_map_mem_type (sender_setting setting) = FIXED)
     then on_rdw (fixed_loss (rt_fixed t) p_flow) else mret loss_volume);
  not_sampled_volume ← on_rdw (call_vi (rt_not_sampled t) (ft_get p_flow));
  target_flow_sent_out ← on_rdw (call_vi (rt_last_sent t) (ft_get p_flow));
  write (RFlow p_flow volume loss_rate loss_volume not_sampled_volume target_flow_sent_out).

(** [write_target_flows_to_file] *)
Definition write_target_flow (t : report_tables) (_ : unit) (p_flow : K) (value : Z) : cmd rot_state unit :=
  if decide (value ≠ TARGET_LEVEL) then mret tt else
  match task_of_traffic p_flow with None => mret tt | Some _ => write_flow t p_flow end.
Definition write_target_flows_to_file (fuel : nat) (fp : bool) : cmd rot_state unit :=
  if fp then
    levels ← on_rdw (data_warehouse_get_unactive flow_selected_level_map);
    t ← read_report_tables;
    while_vi fuel levels (write_target_flow t) tt
  else mret tt.

(** [write_all_flows_to_file] *)
Definition write_all_flows_to_file (fuel : nat) (fp : bool) : cmd rot_state unit :=
  if fp then
    t ← read_report_tables;
    while_vi fuel (rt_volume t) (λ _ p_flow _, write_flow t p_flow) tt
  else mret tt.

(** The body of the loop of [rotate_interval] up to its sleep; the result of
    the reset is not looked at *)
Definition rotate_turn (fuel : nat) (current_msec : Z) : cmd rot_state unit :=
  on_rdw (wlock data_warehouse_mutex);;
  on_rdw data_ware_rotate_buffer;;
  write_interval_info_to_file fuel current_msec true;;
  write_last_sent_flow_selected_level_map_lost_target_flow fuel true;;
  write_target_flows_to_file fuel true;;
  on_rdw (data_warehouse_reset_noactive_buf setting);;
  on_rdw (wunlock data_warehouse_mutex).

(** How long it then sleeps: [to_sleep_time], from the times before and after
    the rotation *)
Definition to_sleep_msec (current_msec after_rotate_msec : Z) : Z :=
  let rotate_duration_msec := u32 (after_rotate_msec - current_msec) in
  u32 (interval_msec_len setting - rotate_duration_msec).
Definition to_sleep_time (current_msec after_rotate_msec : Z) : timespec :=
  let ms := to_sleep_msec current_msec after_rotate_msec in
  Timespec (ms / 1000) (ms mod 1000 * 1000000).
End rotator.
Arguments rot_state K VI VF FX : clear implicits.
