(* ===== verification/RotatorSpec.v ===== *)
(** * What a rotation writes

    The lines of a rotation as functions of the model of the warehouse, and the
    rule of the loops that walk through a table and write. *)
From stdpp Require Import strings.
From S2P Require Import Prelude CMonad CFloat ChainedTable ChainSpec TableSpec FixSizeTable FixSizeSpec.
From S2P Require Import FixSizeIface Flow PktListTable PktListSpec ObjStore Settings Sample FlowTables.
From S2P Require Import Warehouse WarehouseSpec WarehouseIter TaskManager IntervalRotator.

Section report.
Context {K VI VF FX : Type} `{KeyLaws K}.
Context `{!FlowTable K Z Z VI} `{!FlowTableLaws K Z Z VI} `{!IntTable K VI}.
Context `{!FlowTable K c_float c_float VF} `{!FlowTableLaws K c_float c_float VF}.
Context `{!FixedTable K FX} `{!FixedTableLaws K FX}.
Context (setting : cm_experiment_setting_t) (fsize : Z) (task_of_traffic : K → option task_t).
Implicit Types (d : data_warehouse_t VI VF FX) (m : wmodel K) (k : K) (P : wptrs).
Implicit Types (es : list (K * Z)) (file : list (report_line K)).

(** The buffer that is reported *)
Definition past m : Z := other_idx (m_idx m).

Definition report_loss k m : Z :=
  if decide (loss_map_mem_type (sender_setting setting) = FIXED)
  then match slots_get fsize k (m_fx m (past m)) with Some (v, _) => i32 v | None => 0 end
  else int_or_minus1 (m_vi m (Buf flow_loss_volume_map (past m)) k).
Definition flow_line k m : report_line K :=
  RFlow k (int_or_minus1 (m_vi m (Buf flow_volume_map (past m)) k))
    (ft_ret (V:=c_float) (m_vf m (past m) k)) (report_loss k m)
    (int_or_minus1 (m_vi m (Buf flow_not_sampled_volume_map (past m)) k))
    (int_or_minus1 (m_vi m last_sent_flow_selected_level_map k)).

(** The target flows some task is interested in, and those of them that were
    not among the conditions sent last *)
Definition is_target (e : K * Z) : Prop := e.2 = TARGET_LEVEL ∧ is_Some (task_of_traffic e.1).
#[export] Instance is_target_dec e : Decision (is_target e).
Proof. unfold is_target. apply _. Defined.
Definition target_entries es : list (K * Z) := filter is_target es.
Definition is_unsent m (e : K * Z) : Prop := int_or_minus1 (m_vi m last_sent_flow_selected_level_map e.1) ≠ TARGET_LEVEL.
#[export] Instance is_unsent_dec m e : Decision (is_unsent m e).
Proof. unfold is_unsent. apply _. Defined.

Definition count {A} (l : list A) : Z := Z.of_nat (length l).

Definition setting_lines : list (report_line K) :=
  let t := target_flow_setting setting in
  [RInt "interval_msec_len" (interval_msec_len setting);
   RInt "condition_msec_freq" (condition_msec_freq setting);
   RInt "replacement" (int_of_bool (replacement setting));
   RInt "switch_mem_type" (int_of_switch_mem_type (switch_mem_type setting));
   RInt "host_or_switch_sample" (int_of_host_switch_sample (host_or_switch_sample setting));
   RFloat "switch_drop_rate" (double_of_float (switch_drop_rate setting));
   RInt "target_flow_volume_threshold" (volume_threshold t);
   RFloat "target_flow_loss_rate_threshold" (double_of_float (loss_rate_threshold t));
   RInt "target_flow_loss_volume_threshold" (loss_volume_threshold t)].
Definition counter_lines m : list (report_line K) :=
  let c x := m_cnt m x (past m) in
  [RInt "pkt_num_sent" (c pkt_num_sent); RInt "volume_sent" (c volume_sent);
   RInt "volume_lost_detected" (c volume_lost)] ++
  (if decide (c volume_sent > 0)
   then [RFloat "volume_lost_rate_detected" (double_ratio (c volume_lost) (c volume_sent))] else []) ++
  [RInt "condition_pkt_num_sent" (c condition_pkt_num_sent)].
Definition rate_ok (e : K * c_float) : Prop := float_ltb (loss_rate_threshold (target_flow_setting setting)) e.2.
Definition volume_ok (e : K * Z) : Prop := e.2 > u32 (volume_threshold (target_flow_setting setting)).
#[export] Instance volume_ok_dec e : Decision (volume_ok e).
Proof. unfold volume_ok. apply _. Defined.
#[export] Instance rate_ok_dec e : Decision (rate_ok e).
Proof. unfold rate_ok. apply _. Defined.

(** The lines of a rotation, from listings of the rates, the volumes and
    (twice) the levels *)
Definition info_lines (msec : Z) m (rates : list (K * c_float)) (volumes : list (K * Z)) : list (report_line K) :=
  RTime msec :: setting_lines ++ counter_lines m ++
  [RInt "loss_rate_ok_flow_num" (count (filter rate_ok rates));
   RInt "volume_ok_flow_num" (count (filter volume_ok volumes)); RInt "unique_flow_num_sent" (count volumes)].
Definition target_num_line m es : report_line K :=
  RTargetNum (count (target_entries es)) (count (filter (is_unsent m) (target_entries es))).
Definition target_lines m es : list (report_line K) := (λ e, flow_line e.1 m) <$> target_entries es.

(** ** The loops *)
Local Abbreviation state := (rot_state K VI VF FX).

(** A body that leaves the warehouse as it is, changes the accumulator by [f]
    and writes [out]; [J n] bounds the accumulator when [n] entries are to come *)
Section while_.
Context {A V : Type} (l : list wmutex) (P : wptrs) (m : wmodel K).
Context (body : A → K → V → cmd state A) (f : A → K * V → A) (out : K * V → list (report_line K)) (J : nat → A → Prop).
Definition body_ok : Prop := ∀ n acc k v pv pf d file (Q : A → state → Prop),
  witer fsize [] pv pf l P d m → J (S n) acc → Q (f acc (k, v)) (RotState d (file ++ out (k, v))) →
  wp (body acc k v) Q (RotState d file).
End while_.

Lemma wp_while_vi {A} l P m body f out (J : nat → A → Prop) o fuel es acc d file (Q : A → state → Prop) :
  body_ok l P m body f out J → (∀ n acc e, J (S n) acc → J n (f acc e)) → vi_valid o →
  (length es < fuel)%nat → J (length es) acc → witer fsize [] (fupd o (Some es) no_vi) no_vf l P d m →
  (∀ d', witer fsize [] no_vi no_vf l P d' m → Q (foldl f acc es) (RotState d' (file ++ (es ≫= out)))) →
  wp (while_vi fuel (pt_vi P o) body acc) Q (RotState d file).
Proof.
  intros Hb HJ Ho. revert es acc d file. induction fuel as [|fuel IH]; intros es acc d file Hf Hj R HQ; [simpl in Hf; lia|].
  cbn [while_vi]. unfold on_rdw. wp_steps. cbn [rs_dw rs_file]. eapply wi_vi_step; [done|exact R|]. destruct es as [|[k v] es].
  - intros d' R'. wp_steps. specialize (HQ d' R'). simpl in HQ. by rewrite app_nil_r in HQ.
  - clear d R. intros d R. simpl in Hf, Hj. wp_steps. cbn [rs_dw rs_file]. eapply (Hb (length es)); [exact R|done|].
    apply (IH es); [lia|by apply HJ|exact R|]. intros d' R'. specialize (HQ d' R'). simpl in HQ.
    by rewrite app_assoc in HQ.
Qed.

Lemma wp_while_vf {A} l P m body f out (J : nat → A → Prop) i fuel (es : list (K * c_float)) acc d file (Q : A → state → Prop) :
  body_ok l P m body f out J → (∀ n acc e, J (S n) acc → J n (f acc e)) → in_buffers i →
  (length es < fuel)%nat → J (length es) acc → witer fsize [] no_vi (fupd i (Some es) no_vf) l P d m →
  (∀ d', witer fsize [] no_vi no_vf l P d' m → Q (foldl f acc es) (RotState d' (file ++ (es ≫= out)))) →
  wp (while_vf fuel (pt_vf P i) body acc) Q (RotState d file).
Proof.
  intros Hb HJ Ho. revert es acc d file. induction fuel as [|fuel IH]; intros es acc d file Hf Hj R HQ; [simpl in Hf; lia|].
  cbn [while_vf]. unfold on_rdw. wp_steps. cbn [rs_dw rs_file].
  eapply wi_vf_next; [exact R|done|by rewrite fupd_eq|]. destruct es as [|[k v] es].
  - intros d' R'. wp_steps. apply (witer_ext _ _ _ no_vi _ no_vf) in R'; [|done|].
    2:{ intros j. unfold fupd, no_vf. by repeat case_decide. }
    specialize (HQ d' R'). simpl in HQ. by rewrite app_nil_r in HQ.
  - clear d R. intros d R. apply (witer_ext _ _ _ no_vi _ (fupd i (Some es) no_vf)) in R; [|done|].
    2:{ intros j. unfold fupd, no_vf. by repeat case_decide. }
    simpl in Hf, Hj. wp_steps. cbn [rs_dw rs_file]. eapply (Hb (length es)); [exact R|done|].
    apply (IH es); [lia|by apply HJ|exact R|]. intros d' R'. specialize (HQ d' R'). simpl in HQ.
    by rewrite app_assoc in HQ.
Qed.

(** ** The parts of a rotation *)
Lemma wp_write x d file (Q : unit → state → Prop) :
  Q tt (RotState d (file ++ [x])) → wp (write x) Q (RotState d file).
Proof. done. Qed.

Lemma bind_nil {A B} (xs : list A) : (xs ≫= λ _, [] : list B) = [].
Proof. by induction xs. Qed.
Lemma bind_map {A B} (Pf : A → Prop) `{∀ x, Decision (Pf x)} (g : A → B) (xs : list A) :
  (xs ≫= λ x, if decide (Pf x) then [g x] else []) = g <$> filter Pf xs.
Proof. induction xs as [|x xs IH]; [done|]. rewrite bind_cons, filter_cons, IH. by case_decide. Qed.
Lemma foldl_count {A} (Pf : A → Prop) `{∀ x, Decision (Pf x)} (xs : list A) n :
  foldl (λ n x, if decide (Pf x) then n + 1 else n) n xs = n + count (filter Pf xs).
Proof.
  revert n. induction xs as [|x xs IH]; intros n; [unfold count; simpl; lia|]. simpl. rewrite IH, filter_cons.
  case_decide; unfold count; simpl; lia.
Qed.

(** Two counters, the second for a part of what the first counts *)
Definition count_step {A} (P1 P2 : A → Prop) `{∀ x, Decision (P1 x)} `{∀ x, Decision (P2 x)} (acc : Z * Z) (x : A) : Z * Z :=
  if decide (P1 x) then (acc.1 + 1, if decide (P2 x) then acc.2 + 1 else acc.2) else acc.
Definition count_bound (n : nat) (acc : Z * Z) : Prop := 0 <= acc.1 ∧ 0 <= acc.2 ∧ acc.1 + Z.of_nat n < 2 ^ 31 ∧ acc.2 + Z.of_nat n < 2 ^ 31.
Lemma count_bound_step {A} (P1 P2 : A → Prop) `{∀ x, Decision (P1 x)} `{∀ x, Decision (P2 x)} n acc x :
  count_bound (S n) acc → count_bound n (count_step P1 P2 acc x).
Proof. unfold count_bound, count_step. repeat case_decide; simpl; lia. Qed.
Lemma foldl_count_step {A} (P1 P2 : A → Prop) `{∀ x, Decision (P1 x)} `{∀ x, Decision (P2 x)} (xs : list A) a b :
  foldl (count_step P1 P2) (a, b) xs = (a + count (filter P1 xs), b + count (filter P2 (filter P1 xs))).
Proof.
  revert a b. induction xs as [|x xs IH]; intros a b; [unfold count; simpl; f_equal; lia|]. simpl.
  unfold count_step at 2. rewrite filter_cons. simpl. case_decide; [|by rewrite IH]. rewrite IH, filter_cons.
  case_decide; unfold count; simpl; f_equal; lia.
Qed.

Lemma body_count_target l P m :
  body_ok l P m (count_target task_of_traffic (pt_vi P last_sent_flow_selected_level_map))
    (count_step is_target (is_unsent m)) (λ _, []) count_bound.
Proof.
  intros n [a b] k v pv pf d file Q R (Ha & Hb & Ha' & Hb') HQ. simpl in *. rewrite app_nil_r in HQ. unfold count_target.
  unfold count_step in HQ. cbn [fst snd] in HQ. destruct (decide (is_target (k, v))) as [[Hv [t Et]]|Hn].
  2:{ case_decide as Hv; [by wp_steps|]. destruct (task_of_traffic k) as [t|] eqn:Et; [|by wp_steps].
      destruct Hn. split; [by destruct (decide (v = TARGET_LEVEL))|by exists t]. }
  simpl in Hv, Et. rewrite decide_False, Et by (intros X; by apply X).
  wp_steps. apply wp_int_add; [unfold in_s; simpl; lia|]. unfold on_rdw. wp_steps. cbn [rs_dw rs_file].
  eapply wi_vi_get; [exact R|done|]. cbn [rs_dw rs_file]. cbn [fst snd] in HQ.
  destruct (decide (is_unsent m (k, v))) as [Hs|Hs]; unfold is_unsent in Hs; cbn [fst] in Hs.
  - rewrite decide_True by done. wp_steps. apply wp_int_add; [unfold in_s; simpl; lia|]. by wp_steps.
  - rewrite decide_False by done. by wp_steps.
Qed.

Lemma body_count_volume l P m :
  body_ok l P m (count_volume setting) (λ acc e, (if decide (volume_ok e) then acc.1 + 1 else acc.1, acc.2 + 1))
    (λ _, []) count_bound.
Proof.
  intros n [a b] k v pv pf d file Q R (Ha & Hb & Ha' & Hb') HQ. simpl in *. rewrite app_nil_r in HQ. unfold count_volume.
  wp_step. destruct (decide (volume_ok (k, v))) as [Hv|Hv]; unfold volume_ok in Hv; cbn [snd] in Hv;
    [rewrite decide_True by done|rewrite decide_False by done].
  - apply wp_int_add; [unfold in_s; simpl; lia|]. wp_steps. apply wp_int_add; [unfold in_s; simpl; lia|]. by wp_steps.
  - wp_steps. apply wp_int_add; [unfold in_s; simpl; lia|]. by wp_steps.
Qed.
Lemma foldl_count_volume es a b :
  foldl (λ acc e, (if decide (volume_ok e) then acc.1 + 1 else acc.1, acc.2 + 1)) (a, b) es
  = (a + count (filter volume_ok es), b + count es).
Proof.
  revert a b. induction es as [|e es IH]; intros a b; [unfold count; simpl; f_equal; lia|]. simpl.
  rewrite IH, filter_cons. case_decide; unfold count; simpl; f_equal; lia.
Qed.

Lemma body_count_rate l P m :
  body_ok l P m (count_loss_rate setting) (λ n e, if decide (rate_ok e) then n + 1 else n) (λ _, [])
    (λ n a, 0 <= a ∧ a + Z.of_nat n < 2 ^ 31).
Proof.
  intros n a k v pv pf d file Q R [Ha Hb] HQ. simpl in *. rewrite app_nil_r in HQ. unfold count_loss_rate.
  destruct (decide (rate_ok (k, v))) as [Hv|Hv]; unfold rate_ok in Hv; cbn [snd] in Hv; destruct (float_ltb _ v); try done.
  { apply wp_int_add; [unfold in_s; simpl; lia|done]. }
Qed.

(** The pointers read for the report *)
Definition past_tables P m : report_tables :=
  ReportTables (pt_vi P (Buf flow_volume_map (past m))) (pt_vi P (Buf flow_loss_volume_map (past m)))
    (pt_fx P (past m)) (pt_vf P (past m)) (pt_vi P (Buf flow_not_sampled_volume_map (past m)))
    (pt_vi P last_sent_flow_selected_level_map).

Lemma wi_get_unactive pv pf l P d m x (Q : option loc → data_warehouse_t VI VF FX → Prop) :
  witer fsize [] pv pf l P d m → Q (pt_vi P (Buf x (past m))) d → wp (data_warehouse_get_unactive x) Q d.
Proof.
  intros R HQ. unfold data_warehouse_get_unactive, read_vi. wp_steps. rewrite (wi_idx _ _ _ _ _ _ _ _ R).
  apply wp_check_idx; [apply other_in_buffers|]. wp_steps. by rewrite (wi_ptrs _ _ _ _ _ _ _ _ R) in HQ.
Qed.
Lemma wi_get_unactive_vf pv pf l P d m (Q : option loc → data_warehouse_t VI VF FX → Prop) :
  witer fsize [] pv pf l P d m → Q (pt_vf P (past m)) d → wp data_warehouse_get_unactive_flow_loss_rate_map Q d.
Proof.
  intros R HQ. unfold data_warehouse_get_unactive_flow_loss_rate_map, read_vf. wp_steps. rewrite (wi_idx _ _ _ _ _ _ _ _ R).
  apply wp_check_idx; [apply other_in_buffers|]. wp_steps. by rewrite (wi_ptrs _ _ _ _ _ _ _ _ R) in HQ.
Qed.
Lemma wi_get_unactive_fx pv pf l P d m (Q : option loc → data_warehouse_t VI VF FX → Prop) :
  witer fsize [] pv pf l P d m → Q (pt_fx P (past m)) d → wp data_warehouse_get_unactive_fixed_flow_loss_volume_map Q d.
Proof.
  intros R HQ. unfold data_warehouse_get_unactive_fixed_flow_loss_volume_map, read_fx. wp_steps.
  rewrite (wi_idx _ _ _ _ _ _ _ _ R). apply wp_check_idx; [apply other_in_buffers|]. wp_steps.
  by rewrite (wi_ptrs _ _ _ _ _ _ _ _ R) in HQ.
Qed.
Lemma wi_read_counter pv pf l P d m c (Q : Z → data_warehouse_t VI VF FX → Prop) :
  witer fsize [] pv pf l P d m → Q (m_cnt m c (past m)) d → wp (read_counter c (past m)) Q d.
Proof.
  intros R HQ. unfold read_counter. wp_steps. apply wp_check_idx; [apply other_in_buffers|]. wp_steps.
  by rewrite (wi_cnt _ _ _ _ _ _ _ _ R).
Qed.
Lemma wp_read_report_tables l P d m file (Q : report_tables → state → Prop) :
  witer fsize [] no_vi no_vf l P d m → Q (past_tables P m) (RotState d file) → wp read_report_tables Q (RotState d file).
Proof.
  intros R HQ. unfold read_report_tables, on_rdw.
  wp_step. apply wp_zoom. cbn [rs_dw rs_file]. eapply wi_get_unactive; [exact R|].
  wp_step. apply wp_zoom. cbn [rs_dw rs_file]. eapply wi_get_unactive; [exact R|].
  wp_step. apply wp_zoom. cbn [rs_dw rs_file]. eapply wi_get_unactive_fx; [exact R|].
  wp_step. apply wp_zoom. cbn [rs_dw rs_file]. eapply wi_get_unactive_vf; [exact R|].
  wp_step. apply wp_zoom. cbn [rs_dw rs_file]. eapply wi_get_unactive; [exact R|].
  wp_steps. cbn [rs_dw rs_file]. unfold past_tables in HQ. by rewrite (wi_ptrs _ _ _ _ _ _ _ _ R) in HQ |- *.
Qed.

Lemma wp_write_flow pv pf l P m k d file (Q : unit → state → Prop) :
  witer fsize [] pv pf l P d m → Q tt (RotState d (file ++ [flow_line k m])) →
  wp (write_flow setting (past_tables P m) k) Q (RotState d file).
Proof.
  intros R HQ. pose proof (other_in_buffers (m_idx m)) as Hi. fold (past m) in Hi.
  unfold write_flow, on_rdw, past_tables. cbn [rt_volume rt_loss rt_fixed rt_rate rt_not_sampled rt_last_sent].
  wp_step. apply wp_zoom. cbn [rs_dw rs_file]. eapply wi_vi_get; [exact R|done|].
  wp_step. apply wp_zoom. cbn [rs_dw rs_file]. eapply wi_vf_get; [exact R|done|].
  wp_step. apply wp_zoom. cbn [rs_dw rs_file]. eapply wi_vi_get; [exact R|done|].
  wp_step. eapply (wp_mono _ (λ r s, r = report_loss k m ∧ s = RotState d file)).
  { unfold report_loss. case_decide; [|by wp_steps]. apply wp_zoom. cbn [rs_dw rs_file]. unfold fixed_loss. wp_step.
    eapply wi_fx_get; [exact R|done|]. apply wp_ret. split; [|done]. by destruct (slots_get _ _ _) as [[]|]. }
  intros r s [-> ->].
  wp_step. apply wp_zoom. cbn [rs_dw rs_file]. eapply wi_vi_get; [exact R|done|].
  wp_step. apply wp_zoom. cbn [rs_dw rs_file]. eapply wi_vi_get; [exact R|done|].
  cbn [rs_dw rs_file]. by apply wp_write.
Qed.
Lemma body_target_flow l P m :
  body_ok l P m (write_target_flow setting task_of_traffic (past_tables P m)) (λ _ _, tt)
    (λ e, if decide (is_target e) then [flow_line e.1 m] else []) (λ _ _, True).
Proof.
  intros n [] k v pv pf d file Q R _ HQ. unfold write_target_flow. cbn [fst] in HQ.
  destruct (decide (is_target (k, v))) as [[Hv [t Et]]|Hn].
  - simpl in Hv, Et. rewrite decide_False, Et by (intros X; by apply X). by eapply wp_write_flow.
  - rewrite app_nil_r in HQ. case_decide as Hv; [by wp_steps|].
    destruct (task_of_traffic k) as [t|] eqn:Et; [|by wp_steps].
    destruct Hn. split; [by destruct (decide (v = TARGET_LEVEL))|by exists t].
Qed.
Lemma body_all_flow l P m :
  body_ok l P m (λ _ p_flow _, write_flow setting (past_tables P m) p_flow) (λ _ _, tt)
    (λ e : K * Z, [flow_line e.1 m]) (λ _ (_ : unit), True).
Proof. intros n [] k v pv pf d file Q R _ HQ. by eapply wp_write_flow. Qed.
End report.
