(* ===== verification/RotatorProps.v ===== *)
(** * Properties of the interval rotator *)
From stdpp Require Import strings.
From S2P Require Import Prelude CMonad CFloat ChainedTable ChainSpec TableSpec Listing FixSizeTable FixSizeSpec.
From S2P Require Import FixSizeIface Flow PktListTable PktListSpec ObjStore Settings Sample FlowTables.
From S2P Require Import Warehouse WarehouseSpec WarehouseIter WarehouseRecords WarehouseProps Config ConditionSpec ConditionProps.
From S2P Require Import TaskManager TimeLibrary IntervalRotator RotatorSpec.

Section rotation.
Context {K VI VF FX : Type} `{KeyLaws K}.
Context `{!FlowTable K Z Z VI} `{!FlowTableLaws K Z Z VI} `{!IntTable K VI}.
Context `{!FlowTable K c_float c_float VF} `{!FlowTableLaws K c_float c_float VF}.
Context `{!FixedTable K FX} `{!FixedTableLaws K FX}.
Context (setting : cm_experiment_setting_t) (fsize : Z) (task_of_traffic : K → option task_t).
Implicit Types (d : data_warehouse_t VI VF FX) (m : wmodel K) (k : K) (P : wptrs).
Implicit Types (es : list (K * Z)) (file : list (report_line K)).
Local Abbreviation state := (rot_state K VI VF FX).
Local Abbreviation levels_past m := (m_vi m (Buf flow_selected_level_map (past m))).
Local Abbreviation volumes_past m := (m_vi m (Buf flow_volume_map (past m))).
Local Abbreviation rates_past m := (m_vf m (past m)).

(** *** The parts *)
Lemma wp_write_settings d file (Q : unit → state → Prop) :
  Q tt (RotState d (file ++ setting_lines setting)) → wp (write_settings setting) Q (RotState d file).
Proof.
  intros HQ. unfold write_settings, write. wp_steps. cbn [rs_dw rs_file]. by rewrite <- !app_assoc.
Qed.

Lemma wp_write_counters l P d m file (Q : unit → state → Prop) :
  witer fsize [] no_vi no_vf l P d m →
  Q tt (RotState d (file ++ counter_lines m)) → wp write_counters Q (RotState d file).
Proof.
  intros R HQ. unfold write_counters, on_rdw, write. wp_steps. cbn [rs_dw rs_file].
  rewrite (wi_idx _ _ _ _ _ _ _ _ R). fold (other_idx (m_idx m)). fold (past m).
  eapply wi_read_counter; [exact R|]. wp_steps. cbn [rs_dw rs_file].
  eapply wi_read_counter; [exact R|]. wp_steps. cbn [rs_dw rs_file].
  eapply wi_read_counter; [exact R|]. wp_steps. cbn [rs_dw rs_file]. unfold counter_lines in HQ.
  case_decide; wp_steps; cbn [rs_dw rs_file]; (eapply wi_read_counter; [exact R|]); wp_steps; cbn [rs_dw rs_file];
    rewrite <- !app_assoc; exact HQ.
Qed.

(** Tables small enough for the [int] counters and the fuel *)
Definition few_entries (n : nat) m : Prop := fuel_for n (levels_past m) ∧ fuel_for n (volumes_past m) ∧ fuel_for n (rates_past m).

Lemma wp_write_info fuel n l P d m msec file (Q : unit → state → Prop) :
  witer fsize [] no_vi no_vf l P d m → few_entries n m → (n <= fuel)%nat → Z.of_nat n <= 2 ^ 31 →
  (∀ d' rates volumes, lists (rates_past m) rates → lists (volumes_past m) volumes →
     witer fsize [] no_vi no_vf l P d' m →
     Q tt (RotState d' (file ++ info_lines setting msec m rates volumes))) →
  wp (write_interval_info_to_file setting fuel msec true) Q (RotState d file).
Proof.
  intros R (_ & Hvol & Hrate) Hfuel Hn HQ. pose proof (other_in_buffers (m_idx m)) as Hi. fold (past m) in Hi.
  unfold write_interval_info_to_file. wp_step. apply wp_write. wp_step. apply wp_write_settings.
  wp_step. eapply wp_write_counters; [exact R|]. unfold on_rdw. wp_steps. cbn [rs_dw rs_file].
  eapply wi_get_unactive_vf; [exact R|]. cbn [rs_dw rs_file].
  destruct (wi_vf_start fsize [] _ _ _ _ _ _ (past m) R Hi eq_refl) as (rates & Hl & R1). clear R.
  pose proof (Hrate rates Hl) as Hlen. wp_step.
  eapply (wp_while_vf fsize); [by apply body_count_rate|intros k a e; cbv beta; case_decide; lia|exact Hi|by eapply Nat.lt_le_trans|split; [done|]; pose proof (Hrate rates Hl); cbv beta; lia|exact R1|].
  clear d R1. intros d R. rewrite (foldl_count (rate_ok setting)), bind_nil, app_nil_r. wp_step. apply wp_write.
  wp_step. unfold on_rdw. wp_step. cbn [rs_dw rs_file]. eapply wi_get_unactive; [exact R|]. cbn [rs_dw rs_file].
  destruct (wi_vi_begin fsize [] (Buf flow_volume_map (past m)) _ _ _ _ R Hi) as (volumes & Hl2 & R1). clear R.
  pose proof (Hvol volumes Hl2) as Hlen2. wp_step.
  eapply (wp_while_vi fsize); [by apply body_count_volume| |exact Hi|by eapply Nat.lt_le_trans|unfold count_bound; simpl; lia|exact R1|].
  { intros k acc e. unfold count_bound. case_decide; simpl; lia. }
  clear d R1. intros d R. rewrite foldl_count_volume, bind_nil, app_nil_r. cbn beta iota zeta. wp_step. apply wp_write.
  apply wp_write. specialize (HQ d rates volumes Hl Hl2 R). unfold info_lines in HQ.
  cbn [app] in HQ. rewrite <- !app_assoc. exact HQ.
Qed.

Lemma wp_write_targets_num fuel n l P d m file (Q : unit → state → Prop) :
  witer fsize [] no_vi no_vf l P d m → fuel_for n (levels_past m) → (n <= fuel)%nat → Z.of_nat n <= 2 ^ 31 →
  (∀ d' es, lists (levels_past m) es → witer fsize [] no_vi no_vf l P d' m →
     Q tt (RotState d' (file ++ [target_num_line task_of_traffic m es]))) →
  wp (write_last_sent_flow_selected_level_map_lost_target_flow task_of_traffic fuel true) Q (RotState d file).
Proof.
  intros R Hlev Hfuel Hn HQ. pose proof (other_in_buffers (m_idx m)) as Hi. fold (past m) in Hi.
  unfold write_last_sent_flow_selected_level_map_lost_target_flow, on_rdw. wp_step. apply wp_zoom. cbn [rs_dw rs_file].
  eapply wi_get_unactive; [exact R|]. wp_steps. cbn [rs_dw rs_file].
  destruct (wi_vi_begin fsize [] (Buf flow_selected_level_map (past m)) _ _ _ _ R Hi) as (es & Hl & R1).
  assert (vi_ptr d last_sent_flow_selected_level_map = pt_vi P last_sent_flow_selected_level_map) as ->
    by (by rewrite (wi_ptrs _ _ _ _ _ _ _ _ R)). clear R.
  pose proof (Hlev es Hl) as Hlen.
  eapply (wp_while_vi fsize); [by apply body_count_target|by intros; apply count_bound_step|exact Hi|by eapply Nat.lt_le_trans|
    unfold count_bound; simpl; lia|exact R1|].
  clear d R1. intros d R. rewrite foldl_count_step, bind_nil, app_nil_r. cbn beta iota. apply wp_write.
  by apply HQ.
Qed.

Lemma wp_write_target_flows fuel n l P d m file (Q : unit → state → Prop) :
  witer fsize [] no_vi no_vf l P d m → fuel_for n (levels_past m) → (n <= fuel)%nat →
  (∀ d' es, lists (levels_past m) es → witer fsize [] no_vi no_vf l P d' m →
     Q tt (RotState d' (file ++ target_lines setting fsize task_of_traffic m es))) →
  wp (write_target_flows_to_file setting task_of_traffic fuel true) Q (RotState d file).
Proof.
  intros R Hlev Hfuel HQ. pose proof (other_in_buffers (m_idx m)) as Hi. fold (past m) in Hi.
  unfold write_target_flows_to_file. wp_step. unfold on_rdw at 1. apply wp_zoom. cbn [rs_dw rs_file].
  eapply wi_get_unactive; [exact R|]. cbn [rs_dw rs_file]. wp_step. eapply wp_read_report_tables; [exact R|].
  destruct (wi_vi_begin fsize [] (Buf flow_selected_level_map (past m)) _ _ _ _ R Hi) as (es & Hl & R1). clear R.
  pose proof (Hlev es Hl) as Hlen.
  eapply (wp_while_vi fsize); [by apply body_target_flow|done|exact Hi|by eapply Nat.lt_le_trans|done|exact R1|].
  clear d R1. intros d R. rewrite (bind_map (is_target task_of_traffic) (λ e, flow_line setting fsize e.1 m)).
  destruct (foldl _ _ _). by apply HQ.
Qed.

(** The lines a rotation writes *)
Definition rotation_lines (msec : Z) m (rates : list (K * c_float)) (volumes es es' : list (K * Z)) : list (report_line K) :=
  info_lines setting msec m rates volumes ++ [target_num_line task_of_traffic m es] ++
  target_lines setting fsize task_of_traffic m es'.
Definition reported (msec : Z) m (lines : list (report_line K)) : Prop :=
  ∃ rates volumes es es', lists (rates_past m) rates ∧ lists (volumes_past m) volumes ∧
    lists (levels_past m) es ∧ lists (levels_past m) es' ∧ lines = rotation_lines msec m rates volumes es es'.

Context (fsize_ok : int_of_float (fix_loss_map_bucket_size (sender_setting setting)) = Some fsize).
Context (fsize_pos : 0 < fsize).

Lemma wp_rotate_turn fuel n P d m msec file (Q : unit → state → Prop) :
  wrep fsize [] P d m → few_entries n (spec_rotate m) → (n <= fuel)%nat → Z.of_nat n <= 2 ^ 31 →
  (∀ P' d' lines, wrep fsize [] P' d' (spec_reset (spec_rotate m)) → reported msec (spec_rotate m) lines →
     Q tt (RotState d' (file ++ lines))) →
  wp (rotate_turn setting task_of_traffic fuel msec) Q (RotState d file).
Proof.
  intros R Hfew Hfuel Hn HQ. unfold rotate_turn, on_rdw. wp_steps. cbn [rs_dw rs_file].
  eapply wp_wlock; [exact R|done|set_solver|]. clear d R. intros d R. cbn [rs_dw rs_file]. wp_steps. cbn [rs_dw rs_file].
  eapply wp_rotate; [exact R|]. clear d R. intros d R. cbn [rs_dw rs_file]. apply wrep_witer in R. set (m' := spec_rotate m) in *.
  wp_step. eapply wp_write_info; [exact R|exact Hfew|done|done|]. clear d R. intros d rates volumes Hr Hv R.
  destruct Hfew as [Hlev _].
  wp_step. eapply wp_write_targets_num; [exact R|exact Hlev|done|done|]. clear d R. intros d es He R.
  wp_step. eapply wp_write_target_flows; [exact R|exact Hlev|done|]. clear d R. intros d es' He' R.
  apply wrep_witer in R. wp_steps. cbn [rs_dw rs_file]. eapply wp_reset; [done|done|exact R|]. clear d R. intros P' d R _.
  wp_steps. cbn [rs_dw rs_file]. eapply wp_wunlock; [exact R|done|set_solver|]. clear d R. intros d R.
  cbn [rs_dw rs_file]. rewrite <- !app_assoc. apply (HQ P'); [exact R|]. by exists rates, volumes, es, es'.
Qed.

Lemma rotation_lines_of n P d m msec file :
  wrep fsize [] P d m → few_entries n (spec_rotate m) → Z.of_nat n <= 2 ^ 31 →
  ∀ fuel, (n <= fuel)%nat → ∃ P' d' lines,
    rotate_turn setting task_of_traffic fuel msec (RotState d file) = Ok (tt, RotState d' (file ++ lines)) ∧
    wrep fsize [] P' d' (spec_reset (spec_rotate m)) ∧ reported msec (spec_rotate m) lines.
Proof.
  intros R Hfew Hn fuel Hfuel.
  assert (wp (rotate_turn setting task_of_traffic fuel msec) (λ _ s, ∃ P' d' lines, s = RotState d' (file ++ lines) ∧
    wrep fsize [] P' d' (spec_reset (spec_rotate m)) ∧ reported msec (spec_rotate m) lines) (RotState d file)) as Hw.
  { eapply wp_rotate_turn; [exact R|exact Hfew|done|done|]. intros P' d' lines R' Hl. by exists P', d', lines. }
  apply wp_run in Hw as ([] & s & E & P' & d' & lines & -> & R' & Hl). by exists P', d', lines.
Qed.

(** C29. What a rotation does: it ends with its mutex released, the buffers have
    changed roles and the one that was in use is empty, as are its counters
    and the table of the conditions sent last; the file has grown by the
    settings, the counters of the interval, the numbers of its flows, of the
    flows over the rate and over the volume threshold, of its target flows
    some task is interested in and of those no condition was sent for, and by
    one line for each of these target flows. *)
Theorem rotation_report n P d m msec file :
  wrep fsize [] P d m → few_entries n (spec_rotate m) → Z.of_nat n <= 2 ^ 31 →
  ∀ fuel, (n <= fuel)%nat → ∃ P' d' lines,
    rotate_turn setting task_of_traffic fuel msec (RotState d file) = Ok (tt, RotState d' (file ++ lines)) ∧
    wrep fsize [] P' d' (spec_reset (spec_rotate m)) ∧ reported msec (spec_rotate m) lines.
Proof. exact (rotation_lines_of n P d m msec file). Qed.

End rotation.

(** The sleep after a rotation: if the rotation took no longer than the
    interval, the thread sleeps until one interval after its start; if it took
    longer, the difference wraps and the thread sleeps for more than 49 days. *)
Theorem rotation_sleep setting current after :
  0 <= current <= after → after - current < 2 ^ 32 → 0 <= interval_msec_len setting < 2 ^ 31 →
  let t := to_sleep_time setting current after in
  0 <= tv_nsec t < 1000000000 ∧
  let slept := tv_sec t * 1000 + tv_nsec t / 1000000 in
  (after <= current + interval_msec_len setting → after + slept = current + interval_msec_len setting) ∧
  (current + interval_msec_len setting < after → after + slept = current + interval_msec_len setting + 2 ^ 32).
Proof.
  intros Hc Hd Hi t. unfold t, to_sleep_time, to_sleep_msec. cbn [tv_sec tv_nsec].
  rewrite (wrap_small 32 (after - current)) by (unfold in_u; lia).
  set (x := u32 _). rewrite Z.div_mul by done. pose proof (Z.mod_pos_bound x 1000 ltac:(lia)).
  pose proof (Z.div_mod x 1000 ltac:(lia)). split; [lia|]. split; intros Ha.
  - assert (x = interval_msec_len setting - (after - current)) by (apply wrap_small; unfold in_u; lia). lia.
  - assert (x = interval_msec_len setting - (after - current) + 2 ^ 32) as Hx; [|lia].
    unfold x, wrap. rewrite <- (Z.mod_add _ 1) by lia. rewrite Z.mul_1_l. apply Z.mod_small. lia.
Qed.

(** ** The file and the updates *)
Section target_file.
Context {K VI VF FX : Type} `{KeyLaws K}.
Context `{!FlowTable K Z Z VI} `{!FlowTableLaws K Z Z VI} `{!IntTable K VI}.
Context `{!FlowTable K c_float c_float VF} `{!FlowTableLaws K c_float c_float VF}.
Context `{!FixedTable K FX} `{!FixedTableLaws K FX}.
Context (setting : cm_experiment_setting_t) (fsize : Z) (task_of_traffic : K → option task_t).
Implicit Types (d : data_warehouse_t VI VF FX) (m : wmodel K) (k : K) (us : list (update K)).

(** A flow with a volume occurs in the updates. *)
Definition update_key (u : update K) : K := match u with Sent k _ | Lost k _ => k end.
Lemma tally_keys k us : 0 < (tally k us).1 → ∃ k', k' ∈ update_key <$> us ∧ key_compare k k' = 0.
Proof.
  induction us as [|u us IH] using rev_ind; [done|]. unfold tally. rewrite foldl_app. simpl. fold (tally k us).
  rewrite fmap_app. intros Ht. destruct (decide (key_compare k (update_key u) = 0)) as [E|E].
  - exists (update_key u). split; [set_solver|done].
  - destruct IH as (k' & Hin & E'); [|exists k'; split; [set_solver|done]].
    destruct u; simpl in Ht, E; by rewrite decide_False in Ht by (by intros [? ?]).
Qed.

Lemma records_few us m : records setting fsize (past m) us m → few_entries (S (length us)) m.
Proof.
  intros R. assert (∀ V (mp : kmap K V), (∀ k v, mp k = Some v → 0 < (tally k us).1) → fuel_for (S (length us)) mp) as Hf.
  { intros V mp Hmp es Hl. apply Nat.lt_succ_r. rewrite <- (length_fmap update_key us).
    apply keys_length_le; [by eapply lists_distinct|]. intros [k v] He. apply tally_keys, (Hmp k v).
    by apply (lists_sound _ _ Hl). }
  destruct R as [R _ _]. split_and!; apply Hf; intros k v; specialize (R k); destruct (tally k us) as [t l];
    destruct R as (Ev & _ & Er & El); cbn [fst]; rewrite ?Ev, ?Er, ?El; unfold entry_of; by case_decide.
Qed.

(** The line of a target flow that has sent [vl.1] bytes and is seen to have
    lost [vl.2] *)
Definition loss_shown (l : Z) : Z := if is_fixed setting then l else if decide (0 < l) then l else -1.
Definition line_of (vl : Z * Z) k (not_sampled_volume sent_out : Z) : report_line K :=
  RFlow k vl.1 (ft_ret (V:=c_float) (Some (int_ratio vl.2 vl.1))) (loss_shown vl.2) not_sampled_volume sent_out.
Definition over_thresholds (vl : Z * Z) : Prop :=
  0 < vl.1 ∧ flow_level setting vl.1 vl.2 (int_ratio vl.2 vl.1) = Some TARGET_LEVEL.

(** The volume of a flow and the loss that is seen of it *)
Definition told us m k : Z * Z := ((tally k us).1, loss_seen setting fsize (past m) (tally k us).2 k m).

Lemma flow_line_of us m k :
  records setting fsize (past m) us m → total us < 2 ^ 31 → over_thresholds (told us m k) →
  ∃ ns s, flow_line setting fsize k m = line_of (told us m k) k ns s.
Proof.
  intros [R _ _] Hb Ho. unfold flow_line, line_of, report_loss, over_thresholds, told, loss_shown, loss_seen, is_fixed in *.
  specialize (R k). pose proof (tally_bounds k us) as Ht.
  destruct (tally k us) as [v l]. destruct R as (Ev & El & Er & _), Ho as [Hv _]. cbn [fst snd] in *.
  rewrite Ev, Er, int_entry by lia. rewrite !(decide_True (P := 0 < v)) by done. unfold loss_seen, is_fixed.
  case_bool_decide as Ef; [rewrite decide_True by done; by eexists _, _|].
  rewrite decide_False by done. rewrite El, int_entry by lia. by eexists _, _.
Qed.
Lemma target_level us m k :
  records setting fsize (past m) us m →
  m_vi m (Buf flow_selected_level_map (past m)) k = Some TARGET_LEVEL ↔ over_thresholds (told us m k).
Proof.
  intros [R _ _]. specialize (R k). unfold over_thresholds, told. destruct (tally k us) as [v l]. destruct R as (_ & _ & _ & ->).
  cbn [fst snd]. case_decide; naive_solver.
Qed.

(** [vl] are volumes and losses as a report of the updates [us] may see them:
    the volumes are exact; the losses are too without the fixed-size loss map,
    and with it they are not too high. *)
Definition seen_of us (vl : K → Z * Z) : Prop := ∀ k,
  (vl k).1 = (tally k us).1 ∧ 0 <= (vl k).2 <= (tally k us).2 ∧
  (loss_map_mem_type (sender_setting setting) = INFINITE → vl k = tally k us).
Lemma told_seen us m :
  records setting fsize (past m) us m → total us < 2 ^ 31 → seen_of us (told us m).
Proof.
  intros R Hb k. split; [done|]. split; [by apply (loss_seen_bounds _ _ _ _ _ k R)|].
  intros Hinf. unfold told. rewrite loss_seen_exact by done. by destruct (tally k us).
Qed.

(** The lines of flows *)
Definition is_flow_line (x : report_line K) : Prop := match x with RFlow _ _ _ _ _ _ => True | _ => False end.
Lemma rotation_flow_lines msec m rates volumes es es' x :
  x ∈ rotation_lines setting fsize task_of_traffic msec m rates volumes es es' → is_flow_line x →
  x ∈ target_lines setting fsize task_of_traffic m es'.
Proof.
  unfold rotation_lines. intros [Hx|[->%list_elem_of_singleton|Hx]%elem_of_app]%elem_of_app Hf; [|done|done].
  exfalso. assert (Forall (λ y, ¬ is_flow_line y) (info_lines setting msec m rates volumes)) as Hall.
  { unfold info_lines, counter_lines. repeat first [apply Forall_cons; split; [by intros []|] | apply Forall_app; split | constructor
      | case_decide]. }
  rewrite Forall_forall in Hall. by apply (Hall x).
Qed.

Context (fsize_ok : int_of_float (fix_loss_map_bucket_size (sender_setting setting)) = Some fsize).
Context (fsize_pos : 0 < fsize).
(** Equal flows have the same task. *)
Context (task_respects : ∀ k k', key_compare k k' = 0 → task_of_traffic k = task_of_traffic k').

(** The lines tell the volumes and losses [vl]: there is a line for a flow
    exactly if they are over the thresholds and some task is interested in it,
    and the line shows them. *)
Definition lines_tell (vl : K → Z * Z) (lines : list (report_line K)) : Prop :=
  (∀ x, x ∈ lines → is_flow_line x → ∃ k ns s, x = line_of (vl k) k ns s ∧
     over_thresholds (vl k) ∧ is_Some (task_of_traffic k)) ∧
  (∀ k, over_thresholds (vl k) → is_Some (task_of_traffic k) →
     ∃ k' ns s, key_compare k k' = 0 ∧ line_of (vl k') k' ns s ∈ lines).
Lemma lines_tell_ext vl vl' lines : (∀ k, vl k = vl' k) → lines_tell vl lines → lines_tell vl' lines.
Proof.
  intros E [H1 H2]. split.
  - intros x Hx Hf. destruct (H1 x Hx Hf) as (k & ns & s & -> & Ho & Ht). exists k, ns, s. by rewrite <- E.
  - intros k Ho Ht. rewrite <- E in Ho. destruct (H2 k Ho Ht) as (k' & ns & s & Ek & Hin).
    exists k', ns, s. by rewrite <- E.
Qed.

Lemma reported_lines_tell msec us m lines :
  records setting fsize (past m) us m → total us < 2 ^ 31 →
  reported setting fsize task_of_traffic msec m lines → lines_tell (told us m) lines.
Proof.
  intros Rm Htot (rates & volumes & es & es' & _ & _ & _ & Hes' & ->).
  assert (∀ k v, (k, v) ∈ es' → m_vi m (Buf flow_selected_level_map (past m)) k = Some v) as Hsound
    by apply (lists_sound _ _ Hes').
  split.
  - intros x Hx Hxf. apply rotation_flow_lines in Hx; [|done]. unfold target_lines, target_entries in Hx.
    apply list_elem_of_fmap in Hx as ([k v] & -> & [[Hv Ht] Hin]%list_elem_of_filter). cbn [fst snd] in *. subst v.
    apply Hsound in Hin. apply (target_level us m) in Hin; [|exact Rm].
    destruct (flow_line_of us m k Rm Htot Hin) as (ns & sent & El).
    exists k, ns, sent. split; [exact El|]. done.
  - intros k Ho Ht. apply (target_level us m) in Ho as Hl; [|exact Rm].
    destruct (lists_complete _ _ Hes' k _ Hl) as (k' & Ek & Hin). apply Hsound in Hin as Hl'.
    apply (target_level us m) in Hl'; [|exact Rm].
    destruct (flow_line_of us m k' Rm Htot Hl') as (ns & sent & El).
    exists k', ns, sent. split; [done|]. unfold rotation_lines. rewrite !elem_of_app. right. right.
    apply list_elem_of_fmap. exists (k', TARGET_LEVEL). split; [symmetry; exact El|].
    apply list_elem_of_filter. split; [|done]. split; [done|]. simpl. by rewrite <- (task_respects k k' Ek).
Qed.

(** What the lines of a rotation say of the updates [us] of its interval *)
Definition lines_follow us (lines : list (report_line K)) : Prop := ∃ vl, seen_of us vl ∧ lines_tell vl lines.
Lemma reported_lines_follow msec us m lines :
  records setting fsize (past m) us m → total us < 2 ^ 31 →
  reported setting fsize task_of_traffic msec m lines → lines_follow us lines.
Proof. intros R Hb Hl. exists (told us m). split; [by apply told_seen|by eapply reported_lines_tell]. Qed.
Lemma lines_follow_exact us lines :
  loss_map_mem_type (sender_setting setting) = INFINITE → lines_follow us lines → lines_tell (λ k, tally k us) lines.
Proof. intros Hinf (vl & Hs & Hl). eapply lines_tell_ext; [|exact Hl]. intros k. by apply Hs. Qed.

Lemma lines_follow_lossless us lines :
  (∀ k, (tally k us).2 = 0) → lines_follow us lines → lines_tell (λ k, tally k us) lines.
Proof.
  intros E (vl & Hs & Hl). eapply lines_tell_ext; [|exact Hl]. intros k. destruct (Hs k) as (E1 & E2 & _). rewrite E in E2.
  specialize (E k). destruct (vl k), (tally k us). simpl in *. f_equal; lia.
Qed.

(** The file of target flows is right: after any earlier intervals and the
    updates [us] of this one, the rotation adds a line for a flow exactly if
    what was sent and is seen to be lost for it in [us] is over the thresholds
    and some task is interested in it, and the line shows its volume, loss rate
    and loss; the volume is exact, and so is the loss without the fixed-size loss
    map; with it, it is not too high.  (With volumes that fit an [int].) *)
Theorem target_flows_file (past_us : list (list (update K))) us :
  (∀ u, u ∈ us :: past_us → total u < 2 ^ 31) → Z.of_nat (length us) < 2 ^ 31 →
  ∃ d0 d : data_warehouse_t VI VF FX,
    data_warehouse_init setting 0 (dw_zero []) = Ok (0, d0) ∧
    do_wops setting ((past_us ≫= interval_ops) ++ map update_op us) d0 = Ok (tt, d) ∧
    ∀ fuel msec file, (length us < fuel)%nat → ∃ d' lines,
      rotate_turn setting task_of_traffic fuel msec (RotState d file) = Ok (tt, RotState d' (file ++ lines)) ∧
      lines_follow us lines.
Proof.
  intros Hb Hlen. pose proof (init_ok (VI:=VI) (VF:=VF) (FX:=FX) setting fsize fsize_ok fsize_pos) as Hi.
  apply wp_run in Hi as (r & d0 & E & -> & P & R).
  pose proof (fresh_init (K:=K) setting fsize) as Hf.
  destruct (past_fresh setting fsize past_us m_init Hf) as [Hok1 Hf1]; [intros u Hu; apply Hb; set_solver|].
  destruct (interval_updates setting fsize us _ Hf1) as (Hok2 & Ei2 & R2 & _); [apply Hb; set_solver|].
  pose proof Hf1 as (Hi1 & _).
  assert (wops_ok setting fsize ((past_us ≫= interval_ops) ++ map update_op us) m_init) as Hok by (by apply wops_ok_app).
  set (m := spec_wops setting fsize ((past_us ≫= interval_ops) ++ map update_op us) m_init).
  assert (wp (do_wops setting ((past_us ≫= interval_ops) ++ map update_op us)) (λ _ d, ∃ P, wrep fsize [] P d m) d0) as Hw
    by (eapply wp_do_wops; eauto).
  apply wp_run in Hw as ([] & d & E' & P' & R'). exists d0, d. split; [done|]. split; [done|].
  assert (records setting fsize (past (spec_rotate m)) us (spec_rotate m)) as Rm.
  { unfold past, m. cbn [spec_rotate m_set_idx m_idx]. rewrite spec_wops_app, Ei2, other_other by done. by apply records_set_idx. }
  intros fuel msec file Hfuel.
  destruct (rotation_lines_of setting fsize task_of_traffic fsize_ok fsize_pos (S (length us)) P' d m msec file R')
    with (fuel := fuel) as (P'' & d' & lines & Erun & _ & Hrep); [by apply records_few|lia|lia|].
  exists d', lines. split; [exact Erun|]. eapply reported_lines_follow; [exact Rm|apply Hb; set_solver|exact Hrep].
Qed.
End target_file.

(** ** Witnesses *)
(** The first host measures its traffic to the second at switch 3. *)
Definition demo_tasks : task_manager_t := [Task 1 1 2 [3] 167772160 184549376].
Definition demo_interval : list (update flow_src) := [Sent demo_flow 1500; Lost demo_flow 300].

Lemma get_task_respects tasks (k k' : flow_src) :
  key_compare k k' = 0 → get_task_of_traffic tasks k = get_task_of_traffic tasks k'.
Proof.
  intros E. assert (k = k') as ->; [|done]. by apply flow_src_dst_compare_eq.
Qed.

Lemma rotation_report_witness :
  ∃ (d d' : sender_warehouse) lines,
    rotate_turn demo_setting (get_task_of_traffic demo_tasks) 1 5000 (RotState d []) = Ok (tt, RotState d' lines).
Proof.
  destruct (demo_warehouse [] I) as (d & P & R).
  destruct (rotation_report demo_setting 10 (get_task_of_traffic demo_tasks) demo_bucket_size ltac:(done)
    1 P d m_init 5000 [] R) with (fuel := 1%nat) as (P' & d' & lines & E & _); [|done|done|].
  - apply (records_few demo_setting 10 (get_task_of_traffic demo_tasks) []). by apply records_nothing.
  - exists d, d', lines. exact E.
Defined.

Lemma target_flows_file_witness :
  ∃ (d d' : sender_warehouse) lines k ns s,
    rotate_turn demo_setting (get_task_of_traffic demo_tasks) 3 5000 (RotState d []) = Ok (tt, RotState d' lines) ∧
    key_compare demo_flow k = 0 ∧ line_of (VF := vf_handle) demo_setting (tally k demo_interval) k ns s ∈ lines.
Proof.
  destruct (target_flows_file demo_setting 10 (get_task_of_traffic demo_tasks) demo_bucket_size ltac:(done)
    (get_task_respects demo_tasks) [] demo_interval) as (d0 & d & _ & _ & Hrun); [|done|].
  { intros u. rewrite list_elem_of_singleton. by intros ->. }
  destruct (Hrun 3%nat 5000 [] ltac:(simpl; lia)) as (d' & lines & E & Hl).
  apply lines_follow_exact in Hl as [_ Hl]; [|done].
  destruct (Hl demo_flow) as (k & ns & s & Ek & Hin); [by vm_compute|by vm_compute; eexists|].
  exists d, d', lines, k, ns, s. split; [exact E|]. split; [exact Ek|exact Hin].
Defined.

(** A rotation that takes six seconds of an interval of five *)
Lemma rotation_sleep_witness :
  7000 + (tv_sec (to_sleep_time demo_setting 1000 7000) * 1000 + tv_nsec (to_sleep_time demo_setting 1000 7000) / 1000000)
  = 1000 + 5000 + 2 ^ 32.
Proof.
  destruct (rotation_sleep demo_setting 1000 7000) as (_ & _ & Hs); [lia|lia|done|]. by apply Hs.
Defined.
