(* ===== verification/Fifo.v ===== *)
(** * The FIFOs between receivers and senders

    public_lib/multi_write_one_read_fifo.c, senderFIFOsManager.c and
    createFIFOFiles.c: every sender has a FIFO, which all receivers write and
    the sender reads.  The operating system's FIFOs are queues of whole
    structures (a write of no more than PIPE_BUF bytes is atomic); a handle is
    represented by the name of the file it was opened on. *)
From stdpp Require Import strings.
From S2P Require Import Prelude CMonad CText TaskManager.

(** [recv_2_send_proto_t] *)
Record recv_2_send_proto_t := Report {
  r_srcip : Z; r_dstip : Z; r_src_port : Z; r_dst_port : Z; r_protocol : Z; rece_seqid : Z
}.

Definition NUM_SENDERS : Z := 12.
Definition FIRST_SENDER_IP_PREFIX : Z := 167772160.    (* 0x0A000000 *)
(** [GET_SENDER_IDX], an unsigned value assigned to an [int] *)
Definition GET_SENDER_IDX (ip : Z) : Z :=
  u32 (Z.shiftr (Z.land ip IP_MASK) 24 - Z.shiftr FIRST_SENDER_IP_PREFIX 24).

(** The FIFO files, with the structures written and not yet read, oldest first *)
Abbreviation kernel := (gmap text (list recv_2_send_proto_t)).

Section fifo.
(** Whether the operating system lets a file be made and be opened *)
Context (mkfifo_ok open_ok : text → bool).

(** [createFIFOFile] *)
Definition createFIFOFile (fifo_name : text) : cmd kernel Z := λ k,
  let k := delete fifo_name k in
  if mkfifo_ok fifo_name then Ok (0, <[fifo_name := []]> k) else Ok (-1, k).

(** [openFIFO]; [None] for a negative handle *)
Definition openFIFO (fifo_name : text) : cmd kernel (option text) := λ k,
  match k !! fifo_name with
  | Some _ => Ok (if open_ok fifo_name then Some fifo_name else None, k)
  | None => Ok (None, k)
  end.

(** [writeConditionToFIFO] *)
Definition writeConditionToFIFO (fifo_handler : text) (p : recv_2_send_proto_t) : cmd kernel Z := λ k,
  match k !! fifo_handler with
  | Some q => Ok (0, <[fifo_handler := q ++ [p]]> k)
  | None => Ok (-1, k)
  end.

(** [readConditionFromFIFO]; the reader has opened the FIFO for writing too, so
    that reading from an empty one blocks ([None]) *)
Definition readConditionFromFIFO (fifo_handler : text) : cmd kernel (option recv_2_send_proto_t) := λ k,
  match k !! fifo_handler with
  | Some (p :: q) => Ok (Some p, <[fifo_handler := q]> k)
  | _ => Ok (None, k)
  end.

(** ** senderFIFOsManager.c *)

(** [get_sender_fifo_fname] *)
Definition get_sender_fifo_fname (ith_sender buffer_len : Z) : text :=
  take (Z.to_nat (buffer_len - 1)) (txt "/tmp/fifo/h" ++ dec ith_sender ++ txt "_fifo").

(** [sender_get_fifo_fname], given the name of the host's device *)
Definition sender_get_fifo_fname (dev : option text) (buffer_len : Z) : res (option text) :=
  match get_mininet_host_name dev with
  | Fault e => Fault e
  | Ok None => Ok None
  | Ok (Some hostname) => Ok (Some (take (Z.to_nat (buffer_len - 1)) (txt "/tmp/fifo/" ++ hostname ++ txt "_fifo")))
  end.

(** [createFIFOFiles]: the FIFOs of the senders from the [i]-th on *)
Fixpoint create_fifos (n : nat) (i : Z) : cmd kernel Z :=
  match n with
  | O => mret 0
  | S n =>
      r ← createFIFOFile (get_sender_fifo_fname i 100);
      if decide (r ≠ 0) then mret (-1) else create_fifos n (i + 1)
  end.
Definition createFIFOFiles : cmd kernel Z := create_fifos (Z.to_nat NUM_SENDERS) 1.

(** [open_fifos]: the returned 0 or -1, and the entries of [fifo_handlers] that
    were assigned *)
Fixpoint open_from (n : nat) (i : Z) (fifo_handlers : list text) : cmd kernel (Z * list text) :=
  match n with
  | O => mret (0, fifo_handlers)
  | S n =>
      h ← openFIFO (get_sender_fifo_fname i 100);
      match h with
      | None => mret (-1, fifo_handlers)
      | Some fifo_handler => open_from n (i + 1) (fifo_handlers ++ [fifo_handler])
      end
  end.
Definition open_fifos : cmd kernel (Z * list text) := open_from (Z.to_nat NUM_SENDERS) 1 [].

(** [get_sender_fifo_handler]; the index is not checked *)
Definition get_sender_fifo_handler (fifo_handlers : list text) (srcip : Z) : res text :=
  let fifo_idx := i32 (GET_SENDER_IDX srcip) in
  if decide (0 <= fifo_idx < NUM_SENDERS) then
    match fifo_handlers !! Z.to_nat fifo_idx with Some h => Ok h | None => Fault Uninit end
  else Fault OutOfBounds.
End fifo.
