(* ===== verification/Receiver.v ===== *)
(** * The receiver (receiverSendReceFlowSeqid/receiverSendReceFlowSeqid.c)

    A receiver captures the packets that reach its host and reports the flow
    and the sequence number of each TCP packet to the sender it came from.  The
    capture is libpcap's: it calls [got_packet] with the bytes of a packet. *)
From stdpp Require Import strings.
From S2P Require Import Prelude CMonad CText Bytes TaskManager Fifo.

Definition SIZE_ETHERNET : Z := 14.
Definition SIZE_ETHERNET_VLAN : Z := 18.
(** [GET_NET_IDENTITY] of ip_prefix_setting.h *)
Definition GET_NET_IDENTITY (x : Z) : Z := Z.shiftr x 24.

(** [get_ethernet_header_len] *)
Definition get_ethernet_header_len : cmd (list Z) Z :=
  ether_type ← read16 12;
  mret (if decide (ntohs ether_type = 33024) then SIZE_ETHERNET_VLAN else SIZE_ETHERNET).

(** What [got_packet] finds in the headers *)
Inductive headers :=
| InvalidIP | InvalidTCP | OtherProtocol | UdpPacket
| TcpPacket (packet : recv_2_send_proto_t).

(** [ip_hl] and [th_off], the low and the high half of a byte *)
Definition parse_headers : cmd (list Z) headers :=
  ethernet_header_len ← get_ethernet_header_len;
  if decide (ethernet_header_len < 0) then mret InvalidIP else
  let ip := ethernet_header_len in
  v ← read8 ip;
  let size_ip := Z.land v 15 * 4 in
  if decide (size_ip < 20) then mret InvalidIP else
  ip_p ← read8 (ip + 9);
  if decide (ip_p = 6) then
    let tcp := ip + size_ip in
    off ← read8 (tcp + 12);
    if decide (Z.shiftr off 4 * 4 < 20) then mret InvalidTCP else
    srcip ← read32 (ip + 12);
    dstip ← read32 (ip + 16);
    sport ← read16 tcp;
    dport ← read16 (tcp + 2);
    seq ← read32 (tcp + 4);
    mret (TcpPacket (Report (ntohl srcip) (ntohl dstip) (ntohs sport) (ntohs dport) ip_p (ntohl seq)))
  else if decide (ip_p = 17) then mret UdpPacket
  else mret OtherProtocol.

(** The FIFOs and the variables of the receiver *)
Record recv_state := RecvState {
  rc_kernel : kernel; fifo_handlers : list text;
  g_received_pkts : Z; g_received_condition_pkts : Z
}.
Definition on_kernel {A} (c : cmd kernel A) : cmd recv_state A :=
  zoom rc_kernel (λ k s, RecvState k (fifo_handlers s) (g_received_pkts s) (g_received_condition_pkts s)) c.

(** [got_packet]; the result of the write is not looked at *)
Definition got_packet (net_identity : Z) (packet_buffer : list Z) : cmd recv_state unit :=
  match parse_headers packet_buffer with
  | Fault e => throw e
  | Ok (TcpPacket packet, _) =>
      if decide (Z.lxor (GET_NET_IDENTITY (r_srcip packet)) net_identity = 0) then mret tt else
      handlers ← gets fifo_handlers;
      h ← lift (get_sender_fifo_handler handlers (r_srcip packet));
      on_kernel (writeConditionToFIFO h packet);;
      modify (λ s, RecvState (rc_kernel s) (fifo_handlers s) (u32 (g_received_pkts s + 1)) (g_received_condition_pkts s))
  | Ok (UdpPacket, _) =>
      modify (λ s, RecvState (rc_kernel s) (fifo_handlers s) (g_received_pkts s) (u32 (g_received_condition_pkts s + 1)))
  | Ok (_, _) => mret tt
  end.

(** The start of [main], given its argument: the network identity and the
    opened FIFOs; [None] when it ends *)
Definition receiver_start (open_ok : text → bool) (ip_prefix_str : text) : cmd kernel (option (Z * list text)) :=
  '(ret, handlers) ← open_fifos open_ok;
  mret (if decide (ret ≠ 0) then None else Some (u32 (strtol_int ip_prefix_str), handlers)).

(** ** The whole program *)
Section program.
(** What libpcap answers [setup]: the default device, its network, and whether
    the device can be opened and the filter be compiled and installed *)
Context (pcap_lookupdev : option text) (pcap_lookupnet : text → option Z).
Context (pcap_open_live : text → bool) (pcap_compile : text → Z → bool) (pcap_setfilter : text → bool).
Context (open_ok : text → bool).

Definition filter_exp : text := txt "ether dst 7c:7a:91:86:b3:e8".
(** [setup]: the device of the session in [handle], [None] for NULL, and the
    result *)
Definition setup : option text * Z :=
  match pcap_lookupdev with
  | None => (None, -1)
  | Some dev =>
      let net := default 0 (pcap_lookupnet dev) in
      if negb (pcap_open_live dev) then (None, 2)
      else if negb (pcap_compile filter_exp net) then (Some dev, -1)
      else if negb (pcap_setfilter filter_exp) then (Some dev, -1)
      else (Some dev, 0)
  end.

(** The packets that [pcap_loop] hands over at most *)
Definition PCAP_LOOP_CNT : nat := Z.to_nat 90000000.
Fixpoint got_packets (net_identity : Z) (packets : list (list Z)) : cmd recv_state unit :=
  match packets with
  | [] => mret tt
  | p :: packets => got_packet net_identity p;; got_packets net_identity packets
  end.

(** [main], given its arguments and the packets that pass the filter until the
    capture ends; [pcap_loop] on NULL has nothing to read from *)
Definition main (argv : list text) (captured : list (list Z)) : cmd recv_state Z :=
  match argv with
  | [_; ip_prefix_str] =>
      r ← on_kernel (receiver_start open_ok ip_prefix_str);
      match r with
      | None => mret (-1)
      | Some (net_identity, handlers) =>
          modify (λ s, RecvState (rc_kernel s) handlers (g_received_pkts s) (g_received_condition_pkts s));;
          let '(handle, ret) := setup in
          if decide (ret < 0) then mret (-1) else
          match handle with
          | None => throw NullDeref
          | Some _ => got_packets net_identity (take PCAP_LOOP_CNT captured);; mret 0
          end
      end
  | _ => mret (-1)
  end.
End program.

(** The receiver before [main]: the variables are zero. *)
Definition receiver_off (k : kernel) : recv_state := RecvState k [] 0 0.
