(* ===== verification/FlowInforUpdator.v ===== *)
(** * The updator of flow information (tcpreplay/src/flow_infor_updator.c)

    A thread of the sender reads the receivers' reports from its FIFO; a report
    tells that the packet with this sequence number has arrived and the earlier
    packets of its flow that no report has named are lost.  What it only prints
    is left out. *)
From S2P Require Import Prelude CMonad CFloat ChainedTable TableSpec FixSizeTable FixSizeIface.
From S2P Require Import Flow PktListTable ObjStore Settings Sample FlowTables Warehouse CText Fifo.

Section updator.
Context {K VI VF FX : Type} `{KeyOps K} `{!FlowTable K Z Z VI}.
Context `{!FlowTable K c_float c_float VF} `{!FixedTable K FX} `{!PacketFlow K}.
Context (setting : cm_experiment_setting_t).

(** The warehouse, the FIFOs and the number of lost packets *)
Record upd_state := UpdState { us_dw : data_warehouse_t VI VF FX; us_kernel : kernel; total_lost_pkt_num : Z }.
Definition on_udw {A} (c : cmd (data_warehouse_t VI VF FX) A) : cmd upd_state A :=
  zoom us_dw (λ d s, UpdState d (us_kernel s) (total_lost_pkt_num s)) c.
Definition on_ukernel {A} (c : cmd kernel A) : cmd upd_state A :=
  zoom us_kernel (λ k s, UpdState (us_dw s) k (total_lost_pkt_num s)) c.

(** What is done to a report *)
Definition handle_report (r : recv_2_send_proto_t) : cmd upd_state unit :=
  let flow := Flow (r_srcip r) (r_dstip r) (r_src_port r) (r_dst_port r) (r_protocol r) in
  v ← on_udw (on_recePktList (ht_vl_get_rece_lost_volume flow (rece_seqid r)));
  modify (λ s, UpdState (us_dw s) (us_kernel s) (i32 (u32 (total_lost_pkt_num s + lost_pkt_num v))));;
  if decide (lost_volume v > 0) then
    on_udw (update_flow_loss_volume setting (packet_flow_src (r_srcip r) (r_dstip r)) (i32 (lost_volume v)))
  else mret tt.

(** One turn of the loop; [false] when it waits for a report *)
Definition flow_infor_turn (fifo_handler : text) : cmd upd_state bool :=
  r ← on_ukernel (readConditionFromFIFO fifo_handler);
  match r with
  | None => mret false
  | Some r => handle_report r;; mret true
  end.

(** The start of [flow_infor_update]: the handle of the sender's FIFO, [None]
    when the thread ends *)
Definition flow_infor_start (open_ok : text → bool) (dev : option text) : cmd kernel (option text) :=
  match sender_get_fifo_fname dev 100 with
  | Fault e => throw e
  | Ok None => mret None
  | Ok (Some fifo_fname) => openFIFO open_ok fifo_fname
  end.
End updator.
Arguments upd_state VI VF FX : clear implicits.
