(* ===== verification/Testbed.v ===== *)
(** * The test bed: a sender, the network and a receiver

    The programs of a sender and a receiver side by side: the sender's replay,
    the receiver's handler and the sender's updator, which share the FIFO; and
    what they account for together, as an abstract machine over the packets in
    flight. *)
From S2P Require Import Prelude CMonad CFloat ChainedTable ChainSpec TableSpec FixSizeTable FixSizeIface.
From S2P Require Import Flow PktListTable PktListSpec PktListProps ObjStore Settings Sample FlowTables Warehouse.
From S2P Require Import WarehouseSpec WarehouseRecords WarehouseProps Bytes VlanTag CText TaskManager SendPacket FrameSpec.
From S2P Require Import ConditionSender SendPackets Fifo Receiver FlowInforUpdator.

(** ** The programs *)
(** What happens: the replay sends a packet that was [len] bytes long when it
    was recorded, a packet arrives at the receiver, the updator turns *)
Inductive tb_op :=
| TSend (fl : filler) (tags : list Z) (f : flow_s) (seqid len : Z)
| TReceive (fl : filler) (tags : list Z) (f : flow_s) (seqid : Z)
| TReport.

Section programs.
Context {K VI VF FX : Type} `{KeyOps K} `{!FlowTable K Z Z VI}.
Context `{!FlowTable K c_float c_float VF} `{!FixedTable K FX} `{!PacketFlow K}.
Context (setting : cm_experiment_setting_t) (tasks : K → option task_t) (datalink net_identity : Z).
(** The updator's handle of its FIFO *)
Context (fifo_handler : text).
(** What the sender's interface makes of a packet *)
Context (sendpacket : list raw_packet → raw_packet → Z).

(** The sender's warehouse, replay and wire, the losses its updator has counted;
    the FIFOs; the receiver *)
Record testbed := TB {
  tb_dw : data_warehouse_t VI VF FX; tb_sending : sending; tb_wire : list raw_packet; tb_lost : Z;
  tb_kernel : kernel; tb_handlers : list text; tb_pkts : Z; tb_conditions : Z
}.

Definition at_sender {A} (c : cmd (replay_state VI VF FX) A) : cmd testbed A :=
  zoom (λ t, Replay (tb_dw t) (tb_sending t) (tb_wire t))
    (λ s t, TB (rp_dw s) (rp_sending s) (rp_wire s) (tb_lost t) (tb_kernel t) (tb_handlers t) (tb_pkts t) (tb_conditions t)) c.
Definition at_updator {A} (c : cmd (upd_state VI VF FX) A) : cmd testbed A :=
  zoom (λ t, UpdState (tb_dw t) (tb_kernel t) (tb_lost t))
    (λ s t, TB (us_dw s) (tb_sending t) (tb_wire t) (total_lost_pkt_num s) (us_kernel s) (tb_handlers t) (tb_pkts t) (tb_conditions t)) c.
Definition at_receiver {A} (c : cmd recv_state A) : cmd testbed A :=
  zoom (λ t, RecvState (tb_kernel t) (tb_handlers t) (tb_pkts t) (tb_conditions t))
    (λ s t, TB (tb_dw t) (tb_sending t) (tb_wire t) (tb_lost t) (rc_kernel s) (fifo_handlers s) (g_received_pkts s) (g_received_condition_pkts s)) c.

Definition frame_pkt (fl : filler) (tags : list Z) (f : flow_s) (seqid len : Z) : pcap_pkt :=
  let b := frame fl tags f seqid in PcapPkt (Z.of_nat (length b)) len b.
Definition do_tb (o : tb_op) : cmd testbed unit :=
  match o with
  | TSend fl tags f seqid len => at_sender (send_packet setting tasks datalink sendpacket (frame_pkt fl tags f seqid len))
  | TReceive fl tags f seqid => at_receiver (got_packet net_identity (frame fl tags f seqid))
  | TReport => at_updator (flow_infor_turn setting fifo_handler);; mret tt
  end.
Fixpoint do_tbs (os : list tb_op) : cmd testbed unit :=
  match os with [] => mret tt | o :: os => do_tb o;; do_tbs os end.

(** The start: the sender's warehouse, the FIFOs, a receiver given its network,
    the updator on the device [dev]; the network and the updator's FIFO if all
    of it succeeds *)
Definition on_tb_kernel {A} (c : cmd kernel A) : cmd testbed A :=
  zoom tb_kernel
    (λ k t, TB (tb_dw t) (tb_sending t) (tb_wire t) (tb_lost t) k (tb_handlers t) (tb_pkts t) (tb_conditions t)) c.
Definition boot_network (mkfifo_ok open_ok : text → bool) (ip_prefix_str : text) (dev : option text) :
    cmd testbed (option (Z * text)) :=
  c ← on_tb_kernel (createFIFOFiles mkfifo_ok);
  if decide (c ≠ 0) then mret None else
  s ← on_tb_kernel (receiver_start open_ok ip_prefix_str);
  match s with
  | None => mret None
  | Some (net, handlers) =>
      modify (λ t, TB (tb_dw t) (tb_sending t) (tb_wire t) (tb_lost t) (tb_kernel t) handlers (tb_pkts t) (tb_conditions t));;
      h ← on_tb_kernel (flow_infor_start open_ok dev);
      mret (match h with None => None | Some h => Some (net, h) end)
  end.
Definition boot (mkfifo_ok open_ok : text → bool) (ip_prefix_str : text) (dev : option text) :
    cmd testbed (option (Z * text)) :=
  r ← at_updator (on_udw (data_warehouse_init setting 0));
  if decide (r ≠ 0) then mret None else boot_network mkfifo_ok open_ok ip_prefix_str dev.
(** Before the start, with whatever files there are *)
Definition powered_off (k : kernel) : testbed := TB (dw_zero []) not_sending [] 0 k [] 0 0.
End programs.
Arguments testbed VI VF FX : clear implicits.

(** ** What they account for *)
Section machine.
Context {K : Type} `{KeyLaws K} `{!PacketFlow K}.
(** The network the receiver is in, and which flows report to the sender *)
Context (net_identity : Z) (fifo_handler : text).

Definition src (f : flow_s) : K := packet_flow_src (f_srcip f) (f_dstip f).

(** Packets: the flow, and the sequence number and the volume *)
Abbreviation packets := (list (flow_s * (Z * Z))).
Definition flow_packets (f : flow_s) (p : packets) : list (Z * Z) :=
  snd <$> filter (λ x, key_compare f x.1 = 0) p.
(** Without the first [n] packets of flow [f] *)
Fixpoint drop_packets (f : flow_s) (n : nat) (p : packets) : packets :=
  match p with
  | [] => []
  | x :: p =>
      if decide (key_compare f x.1 = 0) then
        match n with O => x :: p | S n => drop_packets f n p end
      else x :: drop_packets f n p
  end.

(** The packets sent and not accounted for, the reports on their way, and the
    updates of the warehouse so far *)
Record accounts := Accounts { in_flight : packets; queued : list (flow_s * Z); updates : list (update K) }.

(** The FIFO a receiver reports a flow to *)
Definition fifo_of (f : flow_s) : text := get_sender_fifo_fname (GET_SENDER_IDX (f_srcip f) + 1) 100.
Definition reported_here (f : flow_s) : Prop :=
  Z.lxor (GET_NET_IDENTITY (f_srcip f)) net_identity ≠ 0 ∧ fifo_of f = fifo_handler.
#[export] Instance reported_here_dec f : Decision (reported_here f).
Proof. unfold reported_here. apply _. Defined.

Definition account_report (f : flow_s) (sid : Z) (a : accounts) (q : list (flow_s * Z)) : accounts :=
  let l := flow_packets f (in_flight a) in
  let '(v, l') := account sid l in
  Accounts (drop_packets f (length l - length l') (in_flight a)) q
    (updates a ++ if decide (lost_volume v > 0) then [Lost (src f) (lost_volume v)] else []).
Definition account_op (o : tb_op) (a : accounts) : accounts :=
  match o with
  | TSend _ _ f sid len =>
      Accounts (in_flight a ++ [(f, (sid, len))]) (queued a) (updates a ++ [Sent (src f) len])
  | TReceive _ _ f sid =>
      if decide (reported_here f) then Accounts (in_flight a) (queued a ++ [(f, sid)]) (updates a) else a
  | TReport =>
      match queued a with [] => a | (f, sid) :: q => account_report f sid a q end
  end.
Definition account_ops (os : list tb_op) (a : accounts) : accounts := foldl (λ a o, account_op o a) a os.
Definition no_accounts : accounts := Accounts [] [] [].

(** The volume of the packets [sel] selects *)
Definition volume_of (sel : flow_s → bool) (p : packets) : Z := foldr (λ x n, (if sel x.1 then x.2.2 else 0) + n) 0 p.
Definition of_source (k : K) (f : flow_s) : bool := bool_decide (key_compare k (src f) = 0).
Fixpoint sent (sel : flow_s → bool) (os : list tb_op) : Z :=
  match os with
  | [] => 0
  | TSend _ _ f _ len :: os => (if sel f then len else 0) + sent sel os
  | _ :: os => sent sel os
  end.
End machine.
Arguments accounts K : clear implicits.
