(* ===== verification/TestbedSpec.v ===== *)
(** * The accounts of the test bed

    What the abstract machine of [Testbed.v] conserves: the volume sent for a
    source is what was received, what was recorded as lost and what is still in
    flight. *)
From S2P Require Import Prelude CMonad CFloat ChainedTable ChainSpec TableSpec FixSizeTable FixSizeIface.
From S2P Require Import Flow PktListTable PktListSpec PktListProps ObjStore Settings Sample FlowTables Warehouse.
From S2P Require Import WarehouseSpec WarehouseRecords WarehouseProps Bytes VlanTag CText TaskManager SendPacket FrameSpec.
From S2P Require Import Fifo Receiver FlowInforUpdator Testbed.

Implicit Types (p : list (flow_s * (Z * Z))) (f g : flow_s).

(** ** Packets in flight *)
Lemma flow_packets_app f p q : flow_packets f (p ++ q) = flow_packets f p ++ flow_packets f q.
Proof. unfold flow_packets. by rewrite filter_app, fmap_app. Qed.
Lemma flow_packets_cons f x p :
  flow_packets f (x :: p) = if decide (key_compare f x.1 = 0) then x.2 :: flow_packets f p else flow_packets f p.
Proof. unfold flow_packets. rewrite filter_cons. by case_decide. Qed.
Lemma flow_packets_proper f g p : key_compare f g = 0 → flow_packets f p = flow_packets g p.
Proof.
  intros E. induction p as [|x p IH]; [done|]. rewrite !flow_packets_cons, IH. by rewrite (compare_eq_l f g x.1 E).
Qed.
Lemma flow_packets_drop f n p : flow_packets f (drop_packets f n p) = drop n (flow_packets f p).
Proof.
  revert n. induction p as [|x p IH]; intros n; [by destruct n|]. cbn [drop_packets]. rewrite flow_packets_cons.
  case_decide as E; [destruct n as [|n]|]; rewrite ?flow_packets_cons; [by rewrite decide_True|by rewrite IH|].
  by rewrite decide_False.
Qed.
Lemma flow_packets_drop_ne f g n p :
  key_compare g f ≠ 0 → flow_packets g (drop_packets f n p) = flow_packets g p.
Proof.
  intros Hne. revert n. induction p as [|x p IH]; intros n; [done|]. cbn [drop_packets].
  case_decide as E; [destruct n as [|n]|]; rewrite ?flow_packets_cons; [done| |].
  - rewrite decide_False; [apply IH|]. intros Eg. apply Hne. by rewrite (compare_eq_r g f x.1 E).
  - by rewrite IH.
Qed.

Lemma volume_of_app sel p q : volume_of sel (p ++ q) = volume_of sel p + volume_of sel q.
Proof. unfold volume_of. induction p as [|x p IH]; [done|]. cbn [app foldr]. rewrite IH. lia. Qed.
Lemma volume_of_nonneg sel p : Forall (λ x, 0 <= x.2.2) p → 0 <= volume_of sel p.
Proof. induction 1 as [|x p Hx _ IH]; [done|]. simpl. case_match; lia. Qed.
Lemma volume_of_drop sel f n p :
  (∀ g, key_compare f g = 0 → sel g = sel f) →
  volume_of sel (drop_packets f n p) = volume_of sel p - (if sel f then volumes (take n (flow_packets f p)) else 0).
Proof.
  intros Hs. revert n. induction p as [|x p IH]; intros n; [destruct n; simpl; case_match; lia|].
  cbn [drop_packets]. rewrite flow_packets_cons. case_decide as E; [destruct n as [|n]|]; simpl.
  - case_match; lia.
  - rewrite IH, (Hs _ E). case_match; lia.
  - rewrite IH. destruct (sel x.1), (sel f); lia.
Qed.
Lemma drop_packets_nonneg f n p : Forall (λ x, 0 <= x.2.2) p → Forall (λ x, 0 <= x.2.2) (drop_packets f n p).
Proof.
  intros Hp. revert n. induction Hp as [|x p Hx Hp IH]; intros n; [constructor|]. cbn [drop_packets].
  case_decide; [destruct n|]; [by constructor|apply IH|constructor; [done|apply IH]].
Qed.
Lemma flow_volumes_le f p : Forall (λ x, 0 <= x.2.2) p →
  0 <= volumes (flow_packets f p) <= volume_of (λ _, true) p.
Proof.
  induction 1 as [|x p Hx Hp IH]; [done|]. rewrite flow_packets_cons. case_decide; simpl; lia.
Qed.
Lemma flow_packets_nonneg f p : Forall (λ x, 0 <= x.2.2) p → Forall (λ x, 0 <= x.2) (flow_packets f p).
Proof.
  induction 1 as [|x p Hx Hp IH]; [constructor|]. rewrite flow_packets_cons. case_decide; [by constructor|done].
Qed.

(** ** One report *)
Lemma volumes_nonneg l : Forall (λ x : Z * Z, 0 <= x.2) l → 0 <= volumes l.
Proof. induction 1; simpl; lia. Qed.
Lemma lost_exact l ans :
  Forall (λ x, 0 <= x.2) l → 0 <= lost_volume ans → lost_volume ans + volumes l < 2 ^ 32 →
  lost_volume (foldl add_lost ans l) = lost_volume ans + volumes l ∧
  received_volume (foldl add_lost ans l) = received_volume ans.
Proof.
  intros Hl. revert ans. induction Hl as [|x l Hx Hl IH]; intros ans Ha Hb; [simpl; lia|]. simpl in Hb |- *.
  pose proof (volumes_nonneg l Hl). assert (u32 (lost_volume ans + x.2) = lost_volume ans + x.2) as E
    by (apply wrap_small; unfold in_u; lia).
  destruct (IH (add_lost ans x)) as [-> ->]; simpl; rewrite ?E; [lia|lia|lia].
Qed.
Lemma account_exact s l :
  Forall (λ x, 0 <= x.2) l → volumes l < 2 ^ 32 →
  let n := (length l - length (account s l).2)%nat in
  (account s l).2 = drop n l ∧
  ∃ r, 0 <= r ∧ 0 <= lost_volume (account s l).1 ∧ volumes (take n l) = r + lost_volume (account s l).1.
Proof.
  intros Hl Hb. unfold account. pose proof (lost_kept s l) as Elk. set (lp := lost_part s l) in *.
  set (kp := kept_part s l) in *. rewrite <- Elk in Hl, Hb |- *. clearbody lp kp. clear Elk l.
  rewrite volumes_app in Hb. apply Forall_app in Hl as [Hlp Hkp].
  pose proof (volumes_nonneg lp Hlp). pose proof (volumes_nonneg kp Hkp).
  destruct (lost_exact lp no_volume Hlp) as [El Er]; [done|simpl; lia|]. simpl in El, Er.
  assert (∀ k2, (length (lp ++ kp) - length (drop k2 kp))%nat = (length lp + (length kp - length (drop k2 kp)))%nat) as En
    by (intros k2; rewrite length_app, length_drop; lia).
  assert (receive_part s (foldl add_lost no_volume lp) kp = (foldl add_lost no_volume lp, kp) ∨
    ∃ v k', kp = (s, v) :: k' ∧ (receive_part s (foldl add_lost no_volume lp) kp).2 = k' ∧
      lost_volume (receive_part s (foldl add_lost no_volume lp) kp).1 = volumes lp) as [->|(v & k' & -> & -> & ->)].
  { unfold receive_part. destruct kp as [|[s' v] k']; [by left|]. case_decide; [subst s'; right|by left]. eauto. }
  - cbn [fst snd]. pose proof (En 0%nat) as E0. rewrite drop_0, Nat.sub_diag, Nat.add_0_r in E0. rewrite E0.
    rewrite drop_app_length, take_app_length, El. split; [done|]. exists 0. lia.
  - pose proof (En 1%nat) as E1. cbn [drop length] in E1. rewrite drop_0 in E1. rewrite E1.
    replace (length lp + (S (length k') - length k'))%nat with (length lp + 1)%nat by lia.
    rewrite drop_app_add, take_app_add. simpl. split; [done|]. exists v.
    apply Forall_cons in Hkp as [Hv _]. rewrite volumes_app. simpl in *. lia.
Qed.

(** ** Conservation *)
Section conservation.
Context {K : Type} `{KeyLaws K} `{!PacketFlow K} (net_identity : Z) (fifo_handler : text).
Implicit Types (k : K) (a : accounts K).
Local Abbreviation op := (account_op (K := K) net_identity fifo_handler).

Lemma src_proper f g : key_compare f g = 0 → src (K := K) f = src g.
Proof. intros (E1 & E2 & _)%flow_compare_eq. unfold src. by rewrite E1, E2. Qed.

(** [v] gives the volume sent: the packets in flight are positive, every source
    has its volume and loss recorded and the rest in flight or received, and
    the records stay within bounds. *)
Record accounts_ok (v : (flow_s → bool) → Z) a : Prop := {
  ao_nonneg : Forall (λ x, 0 <= x.2.2) (in_flight a);
  ao_source k : ∃ received, 0 <= received ∧ (tally k (updates a)).1 = v (of_source k) ∧
    v (of_source k) = received + (tally k (updates a)).2 + volume_of (of_source k) (in_flight a);
  ao_total : total (updates a) + volume_of (λ _, true) (in_flight a) <= 2 * v (λ _, true)
}.

Lemma accounts_ok_ext v w a : (∀ sel, v sel = w sel) → accounts_ok v a → accounts_ok w a.
Proof.
  intros E [Hn Hs Ht]. split; [done| |by rewrite <- E].
  intros k. rewrite <- E. apply Hs.
Qed.
Lemma no_accounts_ok : accounts_ok (λ _, 0) no_accounts.
Proof. split; [constructor|intros k; by exists 0|done]. Qed.
Lemma accounts_receive v a fl tags f sid :
  accounts_ok v a → accounts_ok v (op (TReceive fl tags f sid) a).
Proof. intros [Hn Hs Ht]. cbn [account_op]. by case_decide. Qed.
Lemma total_nonneg (us : list (update K)) : 0 <= total us.
Proof. induction us as [|u us IH]; [done|]. simpl. unfold amount. case_match; lia. Qed.

Lemma accounts_send v a fl tags f sid len :
  accounts_ok v a → 0 < len →
  accounts_ok (λ sel, v sel + if sel f then len else 0) (op (TSend fl tags f sid len) a).
Proof.
  intros [Hn Hs Ht] Hl. split; cbn [account_op in_flight updates].
  - apply Forall_app. split; [done|]. constructor; [simpl; lia|constructor].
  - intros k. destruct (Hs k) as (r & Hr & E1 & E2). exists r. rewrite tally_snoc, volume_of_app. simpl.
    unfold of_source in *. destruct (decide (key_compare k (src f) = 0)) as [E|E].
    + rewrite decide_True, bool_decide_true by (done || lia). simpl. lia.
    + rewrite decide_False by (intros []; done). rewrite bool_decide_false by done. lia.
  - rewrite total_snoc, volume_of_app. simpl. lia.
Qed.

Lemma accounts_report v a f sid q :
  accounts_ok v a → v (λ _, true) < 2 ^ 30 →
  accounts_ok v (account_report f sid a q) ∧
  total (updates (account_report f sid a q)) < 2 ^ 31.
Proof.
  intros [Hn Hs Ht] Hb. pose proof (volume_of_nonneg (λ _, true) _ Hn) as Hv0.
  pose proof (flow_volumes_le f _ Hn) as Hfl.
  pose proof (total_nonneg (updates a)) as Htn.
  destruct (account_exact sid (flow_packets f (in_flight a))) as (El & r & Hr & Hl & Ev);
    [by apply flow_packets_nonneg|lia|].
  unfold account_report. destruct (account sid (flow_packets f (in_flight a))) as [ans l'] eqn:Ea. cbn [fst snd] in *.
  set (n := (length _ - length l')%nat) in *.
  assert (∀ sel, (∀ g, key_compare f g = 0 → sel g = sel f) →
    volume_of sel (drop_packets f n (in_flight a)) = volume_of sel (in_flight a) - if sel f then r + lost_volume ans else 0) as Hd.
  { intros sel Hsel. rewrite volume_of_drop by done. by rewrite Ev. }
  pose proof (drop_packets_nonneg f n _ Hn) as Hn'.
  pose proof (Hd (λ _, true) ltac:(done)) as Hall. cbn beta iota in Hall.
  pose proof (volume_of_nonneg (λ _, true) _ Hn') as Hv1.
  assert (total (updates a ++ (if decide (lost_volume ans > 0) then [Lost (src (K := K) f) (lost_volume ans)] else []))
    = total (updates a) + lost_volume ans) as Etot.
  { case_decide; [rewrite total_snoc; simpl; lia|rewrite app_nil_r; lia]. }
  split; [split; cbn [in_flight updates]|cbn [updates]; rewrite Etot; lia].
  - done.
  - intros k. destruct (Hs k) as (r0 & Hr0 & E1 & E2).
    rewrite (Hd (of_source k)) by (intros g Hg; unfold of_source; by rewrite (src_proper f g Hg)).
    pose proof (volume_of_nonneg (of_source k) _ Hn') as Hvk. rewrite (Hd (of_source k)) in Hvk
      by (intros g Hg; unfold of_source; by rewrite (src_proper f g Hg)).
    pose proof (tally_bounds k (updates a)) as Hbk. destruct (tally k (updates a)) as [tv tl] eqn:Etk. cbn [fst snd] in *.
    unfold of_source in *. destruct (decide (key_compare k (src f) = 0)) as [E|E].
    + rewrite bool_decide_true in * by done. exists (r0 + r). split; [lia|].
      case_decide as Hpos.
      * rewrite tally_snoc, Etk. simpl. rewrite decide_True by (split_and!; [done|lia|simpl; lia]). simpl. lia.
      * rewrite app_nil_r, Etk. simpl. lia.
    + rewrite bool_decide_false in * by done. exists r0. split; [done|].
      case_decide as Hpos.
      * rewrite tally_snoc, Etk. simpl. rewrite decide_False by tauto. simpl. lia.
      * rewrite app_nil_r, Etk. simpl. lia.
  - rewrite Hall, Etot. lia.
Qed.
(** A turn of the updator *)
Lemma accounts_turn v a :
  accounts_ok v a → v (λ _, true) < 2 ^ 30 →
  accounts_ok v (op TReport a) ∧ total (updates (op TReport a)) < 2 ^ 31.
Proof.
  intros Ha Hb. cbn [account_op]. destruct (queued a) as [|[f sid] q]; [|by apply accounts_report].
  split; [done|]. pose proof (ao_total _ _ Ha). pose proof (volume_of_nonneg (λ _, true) _ (ao_nonneg _ _ Ha)).
  pose proof (total_nonneg (updates a)). lia.
Qed.
End conservation.
