(* ===== verification/LossSpec.v ===== *)
(** * Which packets are lost

    What a network that keeps the order of the packets of a flow does to a run
    of the test bed, and that the accounts of [Testbed.v] then single out
    exactly the packets that never arrive. *)
From S2P Require Import Prelude CMonad CFloat ChainedTable ChainSpec TableSpec FixSizeTable FixSizeSpec FixSizeIface.
From S2P Require Import Flow PktListTable PktListSpec PktListProps ObjStore Settings Sample FlowTables Warehouse.
From S2P Require Import WarehouseSpec WarehouseRecords WarehouseProps Bytes VlanTag CText TaskManager SendPacket FrameSpec.
From S2P Require Import Fifo Receiver FlowInforUpdator Testbed TestbedSpec.

Implicit Types (f g : flow_s) (os : list tb_op) (d : list (flow_s * Z)) (x : flow_s * (Z * Z)).

(** ** Runs *)
(** The packets sent and the packets that arrive, in their order *)
Fixpoint sent_packets os : list (flow_s * (Z * Z)) :=
  match os with
  | [] => []
  | TSend _ _ f sid len :: os => (f, (sid, len)) :: sent_packets os
  | _ :: os => sent_packets os
  end.
Fixpoint arrivals os : list (flow_s * Z) :=
  match os with
  | [] => []
  | TReceive _ _ f sid :: os => (f, sid) :: arrivals os
  | _ :: os => arrivals os
  end.

Definition sized (o : tb_op) : Prop := match o with TSend _ _ _ _ len => 0 < len | _ => True end.

(** The packet [x] is, and is older than, the packet named by [y]. *)
Definition is_packet x (y : flow_s * Z) : Prop := key_compare y.1 x.1 = 0 ∧ y.2 = x.2.1.
Definition older x (y : flow_s * Z) : Prop := key_compare y.1 x.1 = 0 ∧ x.2.1 < y.2.
#[export] Instance is_packet_dec x y : Decision (is_packet x y).
Proof. unfold is_packet. apply _. Defined.
#[export] Instance older_dec x y : Decision (older x y).
Proof. unfold older. apply _. Defined.
Definition arrived os x : Prop := Exists (is_packet x) (arrivals os).

(** The sender numbers the packets of a flow upwards; what arrives was sent,
    once and in the order of its flow. *)
Definition step_in_order os (o : tb_op) : Prop :=
  match o with
  | TSend _ _ f sid _ => Forall (λ y : Z * Z, y.1 < sid) (flow_packets f (sent_packets os))
  | TReceive _ _ f sid => sid ∈ (flow_packets f (sent_packets os)).*1 ∧
      Forall (λ y, key_compare f y.1 = 0 → y.2 < sid) (arrivals os)
  | TReport => True
  end.
Definition in_order os : Prop := ∀ os1 o os2, os = os1 ++ o :: os2 → step_in_order os1 o.

Lemma sent_packets_app os1 os2 : sent_packets (os1 ++ os2) = sent_packets os1 ++ sent_packets os2.
Proof. induction os1 as [|[] os1 IH]; simpl; by rewrite ?IH. Qed.
Lemma arrivals_app os1 os2 : arrivals (os1 ++ os2) = arrivals os1 ++ arrivals os2.
Proof. induction os1 as [|[] os1 IH]; simpl; by rewrite ?IH. Qed.
Lemma sent_volume sel os : sent sel os = volume_of sel (sent_packets os).
Proof. induction os as [|[] os IH]; simpl; by rewrite ?IH. Qed.
Lemma in_order_app os1 os2 : in_order (os1 ++ os2) → in_order os1.
Proof. intros Ho p o q ->. apply (Ho p o (q ++ os2)). by rewrite <- app_assoc. Qed.

(** ** Filters of packets *)
Lemma filter_all {A} (P : A → Prop) `{!∀ a, Decision (P a)} l : Forall P l → filter P l = l.
Proof. induction 1 as [|a l Ha _ IH]; [done|]. rewrite filter_cons, decide_True by done. by rewrite IH. Qed.
Lemma filter_nothing {A} (P : A → Prop) `{!∀ a, Decision (P a)} l : Forall (λ a, ¬ P a) l → filter P l = [].
Proof. induction 1 as [|a l Ha _ IH]; [done|]. by rewrite filter_cons, decide_False by done. Qed.
Section filters.
Implicit Types (P Q R : flow_s * (Z * Z) → Prop).

Lemma volume_of_filter_or sel P Q R `{!∀ x, Decision (P x)} `{!∀ x, Decision (Q x)} `{!∀ x, Decision (R x)} p :
  (∀ x, x ∈ p → P x ↔ Q x ∨ R x) → (∀ x, x ∈ p → Q x → ¬ R x) →
  volume_of sel (filter P p) = volume_of sel (filter Q p) + volume_of sel (filter R p).
Proof.
  induction p as [|x p IH]; intros Hor Hdis; [done|].
  assert (x ∈ x :: p) as Hx by left. pose proof (Hor x Hx). pose proof (Hdis x Hx).
  assert (∀ y, y ∈ p → y ∈ x :: p) as Hp by (intros y Hy; by right).
  specialize (IH (λ y Hy, Hor y (Hp y Hy)) (λ y Hy, Hdis y (Hp y Hy))).
  rewrite !filter_cons. repeat case_decide; simpl; try tauto; lia.
Qed.
Lemma volume_of_filter_not sel P `{!∀ x, Decision (P x)} p :
  volume_of sel p = volume_of sel (filter P p) + volume_of sel (filter (λ x, ¬ P x) p).
Proof. induction p as [|x p IH]; [done|]. rewrite !filter_cons. repeat case_decide; simpl; try tauto; lia. Qed.
Lemma flow_packets_filter f P `{!∀ x, Decision (P x)} p :
  flow_packets f (filter P p) = snd <$> filter (λ x, key_compare f x.1 = 0 ∧ P x) p.
Proof. unfold flow_packets. by rewrite list_filter_filter. Qed.

(** The volume of the packets of [f] below [sid] *)
Lemma volume_of_older sel f sid R `{!∀ x, Decision (R x)} p :
  (∀ g, key_compare f g = 0 → sel g = sel f) →
  volume_of sel (filter (λ x, R x ∧ older x (f, sid)) p)
  = if sel f then volumes (filter (λ y : Z * Z, y.1 < sid) (flow_packets f (filter R p))) else 0.
Proof.
  intros Hs. induction p as [|x p IH]; [by case_match|]. rewrite !filter_cons. unfold older in *. cbn [fst snd] in *.
  destruct (decide (R x)) as [HR|HR]; [|rewrite (decide_False (P := R x ∧ _)) by tauto; exact IH].
  rewrite flow_packets_cons. destruct (decide (key_compare f x.1 = 0)) as [E|E];
    [|rewrite (decide_False (P := R x ∧ _)) by tauto; exact IH].
  rewrite filter_cons. destruct (decide (x.2.1 < sid)) as [Hlt|Hlt];
    [|rewrite (decide_False (P := R x ∧ _)) by tauto; exact IH].
  rewrite (decide_True (P := R x ∧ _)) by done. unfold volume_of, volumes in *. cbn [foldr]. rewrite (Hs _ E), IH. destruct (sel f); simpl; lia.
Qed.
End filters.

(** ** A report on packets in order *)
Section sorted.
Context (sid : Z).
Implicit Types (l : list (Z * Z)).
Local Abbreviation ordered l := (StronglySorted (λ y z : Z * Z, y.1 < z.1) l).

Lemma filter_none l : Forall (λ y, sid < y.1) l → filter (λ y : Z * Z, y.1 <= sid) l = [] ∧ filter (λ y : Z * Z, y.1 < sid) l = [].
Proof.
  intros Hl. split; apply filter_nothing; (eapply Forall_impl; [exact Hl|]; simpl; lia).
Qed.
Lemma account_ordered l :
  ordered l → Forall (λ y, 0 <= y.2) l → volumes l < 2 ^ 32 →
  (length l - length (account sid l).2)%nat = length (filter (λ y : Z * Z, y.1 <= sid) l) ∧
  lost_volume (account sid l).1 = volumes (filter (λ y : Z * Z, y.1 < sid) l).
Proof.
  intros Hs Hn Hb.
  assert (lost_part sid l = filter (λ y : Z * Z, y.1 < sid) l ∧
    (kept_part sid l = filter (λ y : Z * Z, ¬ y.1 < sid) l)) as [El Ek].
  { clear Hn Hb. induction Hs as [|[s v] l Hs IH Hlt]; [done|]. simpl. rewrite !filter_cons. cbn [fst].
    destruct IH as [-> ->]. case_decide as E; [by rewrite decide_False by tauto|]. rewrite decide_True by done.
    rewrite filter_nothing, filter_all; [done| |]; (eapply Forall_impl; [exact Hlt|]; simpl; lia). }
  pose proof (lost_kept sid l) as Elk. rewrite <- Elk, volumes_app in Hb.
  pose proof Hn as Hn2. rewrite <- Elk in Hn2. apply Forall_app in Hn2 as [Hn1 Hn2].
  destruct (lost_exact (lost_part sid l) no_volume Hn1) as [Ev Er]; [done|pose proof (volumes_nonneg _ Hn2); simpl; lia|].
  change (lost_volume no_volume) with 0 in Ev. rewrite Z.add_0_l in Ev. rewrite <- El, <- Ev.
  assert (length (filter (λ y : Z * Z, y.1 <= sid) l)
    = (length (lost_part sid l) + match kept_part sid l with (s, _) :: _ => if decide (s = sid) then 1 else 0 | [] => 0 end)%nat) as ->.
  { clear - Hs. induction Hs as [|[s v] l Hs IH Hlt]; [done|]. rewrite filter_cons. simpl. cbn [fst].
    destruct (decide (s < sid)) as [E|E].
    - rewrite decide_True by lia. simpl. by rewrite IH.
    - destruct (decide (s = sid)) as [->|Hne].
      + rewrite decide_True by lia. simpl. by destruct (filter_none l Hlt) as [-> _].
      + rewrite decide_False by lia. destruct (filter_none l) as [-> _]; [|done].
        eapply Forall_impl; [exact Hlt|]. intros y Hy. cbn [fst] in *. lia. }
  pose proof (f_equal length Elk) as Hlen. rewrite length_app in Hlen.
  unfold account, receive_part. destruct (kept_part sid l) as [|[s v] kp]; [cbn [fst snd length] in *; split; [lia|done]|].
  case_decide; cbn [fst snd length] in *; (split; [lia|done]).
Qed.

Lemma drop_ordered f p :
  ordered (flow_packets f p) →
  drop_packets f (length (filter (λ y : Z * Z, y.1 <= sid) (flow_packets f p))) p
  = filter (λ x, key_compare f x.1 = 0 → sid < x.2.1) p.
Proof.
  induction p as [|x p IH]; intros Hs; [done|]. cbn [drop_packets]. rewrite flow_packets_cons in *.
  rewrite filter_cons. destruct (decide (key_compare f x.1 = 0)) as [E|E].
  2:{ rewrite decide_True by done. by rewrite IH. }
  apply StronglySorted_inv in Hs as [Hs Hlt]. rewrite filter_cons. destruct (decide (x.2.1 <= sid)) as [Hle|Hgt].
  - rewrite decide_False by (intros Hx; specialize (Hx E); lia). cbn [length]. by apply IH.
  - rewrite (decide_True (P := _ → _)) by lia.
    assert (Forall (λ y : Z * Z, sid < y.1) (flow_packets f p)) as Hall.
    { eapply Forall_impl; [exact Hlt|]. simpl. lia. }
    destruct (filter_none _ Hall) as [-> _]. cbn [length]. f_equal. symmetry. apply filter_all, Forall_forall.
    intros y Hy Ey. rewrite Forall_forall in Hall. apply Hall. unfold flow_packets.
    apply list_elem_of_fmap. exists y. split; [done|]. by apply list_elem_of_filter.
Qed.
End sorted.

(** ** The accounts of a run in order *)
Section exact.
Context {K : Type} `{KeyLaws K} `{!PacketFlow K} (net_identity : Z) (fifo_handler : text).
Implicit Types (k : K) (a : accounts K).

(** Of the packets sent: those that no report read so far concerns, and those
    that one of them has overtaken *)
Definition pending d x : Prop := Forall (λ y, key_compare y.1 x.1 = 0 → y.2 < x.2.1) d.
Definition lost_in d x : Prop := Exists (older x) d ∧ ¬ Exists (is_packet x) d.
#[export] Instance pending_dec d x : Decision (pending d x).
Proof. unfold pending. apply _. Defined.
#[export] Instance lost_in_dec d x : Decision (lost_in d x).
Proof. unfold lost_in. apply _. Defined.
#[export] Instance arrived_dec os x : Decision (arrived os x).
Proof. unfold arrived. apply _. Defined.

(** [d]: the reports read *)
Record exact os d a : Prop := {
  ex_arrivals : arrivals os = d ++ queued a;
  ex_flight : in_flight a = filter (pending d) (sent_packets os);
  ex_lost k : (tally k (updates a)).2 = volume_of (of_source k) (filter (lost_in d) (sent_packets os))
}.

Lemma same_sym f g : key_compare f g = 0 → key_compare g f = 0.
Proof. intros E. rewrite compare_anti. lia. Qed.
Lemma same_trans f g h : key_compare f g = 0 → key_compare g h = 0 → key_compare f h = 0.
Proof. intros E. by rewrite (compare_eq_l f g h E). Qed.

(** *** What holds of a run in order *)
Lemma flow_packets_elem f x os :
  x ∈ sent_packets os → key_compare f x.1 = 0 → x.2 ∈ flow_packets f (sent_packets os).
Proof. intros Hx E. apply list_elem_of_fmap. exists x. split; [done|]. by apply list_elem_of_filter. Qed.

Lemma in_order_sent f os : in_order os → StronglySorted (λ y z : Z * Z, y.1 < z.1) (flow_packets f (sent_packets os)).
Proof.
  induction os as [|o os IH] using rev_ind; intros Ho; [constructor|].
  pose proof (Ho os o [] eq_refl) as Hs. specialize (IH (in_order_app _ _ Ho)). rewrite sent_packets_app, flow_packets_app.
  destruct o as [fl tags g sid len| |]; simpl; rewrite ?app_nil_r; [|done..].
  rewrite flow_packets_cons. cbn [fst snd]. case_decide as E; [|by rewrite app_nil_r].
  rewrite (flow_packets_proper f g _ E) in *. simpl in Hs. clear Ho E.
  induction IH as [|y l _ IH Hy]; [by repeat constructor|]. apply Forall_cons in Hs as [Hy1 Hs]. simpl. constructor.
  - by apply IH.
  - apply Forall_app. split; [done|]. by constructor.
Qed.

Lemma flow_packets_filter_sorted f (P : flow_s * (Z * Z) → Prop) `{!∀ x, Decision (P x)} p :
  StronglySorted (λ y z : Z * Z, y.1 < z.1) (flow_packets f p) →
  StronglySorted (λ y z : Z * Z, y.1 < z.1) (flow_packets f (filter P p)).
Proof.
  induction p as [|x p IH]; [done|]. rewrite filter_cons, flow_packets_cons.
  destruct (decide (key_compare f x.1 = 0)) as [E|E]; intros Hs.
  - apply StronglySorted_inv in Hs as [Hs Hx]. case_decide; [|by apply IH]. rewrite flow_packets_cons, decide_True by done.
    constructor; [by apply IH|]. rewrite Forall_forall in Hx |- *. intros y Hy. apply Hx. revert Hy. unfold flow_packets.
    rewrite list_filter_filter, !list_elem_of_fmap. intros (z & -> & Hz). exists z. split; [done|].
    revert Hz. rewrite !list_elem_of_filter. tauto.
  - case_decide; [rewrite flow_packets_cons, decide_False by done|]; by apply IH.
Qed.

Lemma arrival_in_order os d f sid q : in_order os → arrivals os = d ++ (f, sid) :: q →
  Forall (λ y, key_compare f y.1 = 0 → y.2 < sid) d ∧ sid ∈ (flow_packets f (sent_packets os)).*1.
Proof.
  revert q. induction os as [|o os IH] using rev_ind; intros q Ho Ea; [by destruct d|].
  pose proof (Ho os o [] eq_refl) as Hs. specialize (λ q, IH q (in_order_app _ _ Ho)).
  rewrite arrivals_app in Ea. rewrite sent_packets_app, flow_packets_app, fmap_app.
  destruct o as [fl tags g s len|fl tags g s|]; simpl in Ea; rewrite ?app_nil_r in Ea.
  - destruct (IH _ Ea) as [? ?]. split; [done|]. apply elem_of_app. by left.
  - destruct q as [|y q _] using rev_ind.
    + apply app_inj_tail in Ea as [<- [= <- <-]]. destruct Hs as [Hin Hlt]. split; [done|]. apply elem_of_app. by left.
    + rewrite app_comm_cons, app_assoc in Ea. apply app_inj_tail in Ea as [Ea _].
      destruct (IH _ Ea) as [? ?]. split; [done|]. apply elem_of_app. by left.
  - destruct (IH _ Ea) as [? ?]. split; [done|]. apply elem_of_app. by left.
Qed.

(** *** One more report *)
Lemma pending_snoc d f sid x :
  pending (d ++ [(f, sid)]) x ↔ pending d x ∧ (key_compare f x.1 = 0 → sid < x.2.1).
Proof. unfold pending. rewrite Forall_app, Forall_singleton. done. Qed.

Lemma lost_snoc d f sid x :
  Forall (λ y, key_compare f y.1 = 0 → y.2 < sid) d →
  lost_in (d ++ [(f, sid)]) x ↔ lost_in d x ∨ pending d x ∧ older x (f, sid).
Proof.
  intros Hd. unfold lost_in. rewrite !Exists_app, !Exists_cons, !Exists_nil. split.
  - intros [[Hold|[Hold|[]]] Hno]; [left; tauto|].
    destruct (decide (Exists (older x) d)); [left; tauto|right]. split; [|done].
    apply Forall_forall. intros y Hy E. destruct (decide (y.2 < x.2.1)) as [|Hle]; [done|exfalso].
    destruct (decide (y.2 = x.2.1)) as [Eq|Hne].
    + apply Hno. left. apply Exists_exists. exists y. done.
    + apply n, Exists_exists. exists y. split; [done|]. split; [done|lia].
  - intros [[Hold Hno]|[Hp Ho]].
    + split; [tauto|]. intros [?|[[E Eq]|[]]]; [tauto|]. apply Exists_exists in Hold as (y & Hy & E2 & Hlt).
      rewrite Forall_forall in Hd. cbn [fst snd] in *. specialize (Hd y Hy).
      pose proof (Hd (same_trans _ _ _ E (same_sym _ _ E2))). lia.
    + split; [tauto|]. unfold pending in Hp. rewrite Forall_forall in Hp. destruct Ho as [E Hlt]. cbn [fst snd] in *.
      intros [(y & Hy & Ey & Eq)%Exists_exists|[[_ Eq]|[]]]; [specialize (Hp y Hy Ey); lia|cbn [snd] in Eq; lia].
Qed.
Lemma lost_not_pending d x : lost_in d x → ¬ pending d x.
Proof.
  intros [(y & Hy & E & Hlt)%Exists_exists _] Hp. unfold pending in Hp. rewrite Forall_forall in Hp.
  specialize (Hp y Hy E). lia.
Qed.

(** *** The operations *)
Lemma exact_send os d a fl tags f sid len :
  in_order (os ++ [TSend fl tags f sid len]) → exact os d a →
  exact (os ++ [TSend fl tags f sid len]) d (account_op net_identity fifo_handler (TSend fl tags f sid len) a).
Proof.
  intros Ho [Ea Ef El]. pose proof (Ho os _ [] eq_refl) as Hs. apply in_order_app in Ho. simpl in Hs.
  assert (Forall (λ y, key_compare y.1 f = 0 → y.2 < sid) d) as Hd.
  { apply Forall_forall. intros [g s] (d1 & d2 & ->)%list_elem_of_split E. cbn [fst snd] in *. rewrite <- app_assoc in Ea.
    destruct (arrival_in_order os d1 g s _ Ho Ea) as [_ Hin]. rewrite (flow_packets_proper g f _ E) in Hin.
    apply list_elem_of_fmap in Hin as (y & -> & Hy). by eapply Forall_forall in Hs. }
  assert (pending d (f, (sid, len))) as Hp by (by eapply Forall_impl; [exact Hd|]).
  assert (¬ lost_in d (f, (sid, len))) as Hl by (intros Hl; by eapply lost_not_pending).
  split; cbn [account_op in_flight queued updates]; rewrite ?sent_packets_app, ?arrivals_app; simpl.
  - by rewrite app_nil_r.
  - rewrite Ef, filter_app, filter_cons, decide_True by done. done.
  - intros k. rewrite tally_snoc, filter_app, filter_cons, (decide_False (P := lost_in _ _)) by done. simpl.
    rewrite app_nil_r, <- El. by case_decide.
Qed.

Lemma exact_receive os d a fl tags f sid :
  reported_here net_identity fifo_handler f → exact os d a →
  exact (os ++ [TReceive fl tags f sid]) d (account_op net_identity fifo_handler (TReceive fl tags f sid) a).
Proof.
  intros Hf [Ea Ef El]. cbn [account_op]. rewrite decide_True by done.
  split; cbn [in_flight queued updates]; rewrite ?sent_packets_app, ?arrivals_app; simpl; rewrite ?app_nil_r; [|done..].
  by rewrite Ea, app_assoc.
Qed.

(** A report on the packets in flight of a flow, numbered upwards, takes out
    those up to its number and records the volume of the older ones. *)
Lemma report_ordered v a f sid q :
  StronglySorted (λ y z : Z * Z, y.1 < z.1) (flow_packets f (in_flight a)) → accounts_ok v a → v (λ _, true) < 2 ^ 30 →
  in_flight (account_report f sid a q) = filter (λ x, key_compare f x.1 = 0 → sid < x.2.1) (in_flight a) ∧
  queued (account_report f sid a q) = q ∧
  ∀ k, (tally k (updates (account_report f sid a q))).2
    = (tally k (updates a)).2 + volume_of (of_source k) (filter (λ x, older x (f, sid)) (in_flight a)).
Proof.
  intros Hsort Ha Hb. pose proof (ao_total _ _ Ha) as Hto. pose proof (ao_nonneg _ _ Ha) as Hn.
  pose proof (total_nonneg (updates a)) as Htn. pose proof (flow_volumes_le f _ Hn) as Hfl.
  destruct (account_ordered sid (flow_packets f (in_flight a)) Hsort) as [En Ev]; [by apply flow_packets_nonneg|lia|].
  assert (∀ k, volume_of (of_source k) (filter (λ x, older x (f, sid)) (in_flight a))
    = if of_source k f then lost_volume (account sid (flow_packets f (in_flight a))).1 else 0) as Hold.
  { intros k. rewrite (list_filter_iff _ (λ x, True ∧ older x (f, sid))) by (intros; tauto).
    rewrite (volume_of_older _ f sid (λ _, True)) by (intros g Hg; unfold of_source; by rewrite (src_proper f g Hg)).
    rewrite (filter_all (λ _, True)) by (by apply Forall_true). by rewrite Ev. }
  assert (0 <= lost_volume (account sid (flow_packets f (in_flight a))).1) as Hpos.
  { rewrite Ev. apply volumes_nonneg, Forall_forall. intros y [_ Hy]%list_elem_of_filter.
    pose proof (flow_packets_nonneg f _ Hn) as Hall. rewrite Forall_forall in Hall. by apply Hall. }
  unfold account_report. destruct (account sid (flow_packets f (in_flight a))) as [ans l'] eqn:Eac. cbn [fst snd] in *.
  cbn [in_flight queued updates]. split; [by rewrite En, drop_ordered|]. split; [done|]. intros k. rewrite Hold.
  destruct (ao_source _ _ Ha k) as (r & Hr & E1 & E2).
  assert (0 <= volume_of (of_source k) (filter (λ x, ¬ older x (f, sid)) (in_flight a))) as Hrest.
  { apply volume_of_nonneg, Forall_forall. intros x [_ Hx]%list_elem_of_filter. by eapply Forall_forall in Hn. }
  pose proof (volume_of_filter_not (of_source k) (λ x, older x (f, sid)) (in_flight a)) as Hsum. rewrite Hold in Hsum.
  pose proof (tally_bounds k (updates a)) as Hbk. destruct (tally k (updates a)) as [tv tl] eqn:Etk. cbn [fst snd] in *.
  unfold of_source in *. destruct (decide (lost_volume ans > 0)) as [Hgt|Hgt]; [rewrite tally_snoc, Etk|rewrite app_nil_r, Etk]; simpl; case_bool_decide as E; try lia.
  - rewrite decide_True by (split_and!; [done|lia|simpl; lia]). done.
  - rewrite decide_False by tauto. simpl. lia.
Qed.

Lemma exact_report v os d a f sid q :
  in_order os → exact os d a → queued a = (f, sid) :: q → accounts_ok v a → v (λ _, true) < 2 ^ 30 →
  exact os (d ++ [(f, sid)]) (account_report f sid a q).
Proof.
  intros Ho [Ea Ef El] Eq Ha Hb. rewrite Eq in Ea. destruct (arrival_in_order os d f sid q Ho Ea) as [Hd _].
  assert (StronglySorted (λ y z : Z * Z, y.1 < z.1) (flow_packets f (in_flight a))) as Hsort.
  { rewrite Ef. apply flow_packets_filter_sorted, in_order_sent, Ho. }
  destruct (report_ordered v a f sid q Hsort Ha Hb) as (Ef' & Eq' & El'). split; [by rewrite Eq', <- app_assoc| |].
  - rewrite Ef', Ef, list_filter_filter. apply list_filter_iff. intros x. rewrite pending_snoc. tauto.
  - intros k. rewrite (volume_of_filter_or _ _ (lost_in d) (λ x, pending d x ∧ older x (f, sid)))
      by (intros; first [by apply lost_snoc|intros []; by eapply lost_not_pending]).
    rewrite El', El, Ef, list_filter_filter. f_equal. f_equal. apply list_filter_iff. tauto.
Qed.
End exact.
