(* ===== verification/FateSpec.v ===== *)
(** * What becomes of the packets

    A packet that is sent waits for the first report of its flow that is about
    it or about a later packet.  [history] gives the order in which the sender
    learns of packets and reports, [fate_of] what this decides for one packet,
    by itself; the accounts of [Testbed.v], which go through the lists of the
    packets of each flow, record as lost the packets that are [Overtaken]. *)
From S2P Require Import Prelude CMonad CFloat ChainedTable ChainSpec TableSpec FixSizeTable FixSizeIface.
From S2P Require Import Flow PktListTable PktListSpec PktListProps ObjStore Settings Sample FlowTables Warehouse.
From S2P Require Import WarehouseSpec WarehouseRecords WarehouseProps Bytes VlanTag CText TaskManager SendPacket FrameSpec.
From S2P Require Import Fifo Receiver FlowInforUpdator Testbed TestbedSpec LossSpec.

Implicit Types (os : list tb_op) (x : flow_s * (Z * Z)) (p : list (flow_s * (Z * Z))).

(** A packet goes out, or the updator reads the report of one *)
Inductive tb_event :=
| Went (x : flow_s * (Z * Z))
| Heard (y : flow_s * Z).
Implicit Types (es : list tb_event).

Inductive fate := Received | Overtaken | InFlight.
#[export] Instance fate_eq_dec : EqDecision fate.
Proof. solve_decision. Defined.

(** What the events [es] that follow decide for the packet [x] *)
Fixpoint fate_of es x : fate :=
  match es with
  | [] => InFlight
  | Went _ :: es => fate_of es x
  | Heard y :: es =>
      if decide (is_packet x y) then Received else if decide (older x y) then Overtaken else fate_of es x
  end.
(** The packets that go out during [es], of one fate *)
Fixpoint with_fate (ft : fate) es : list (flow_s * (Z * Z)) :=
  match es with
  | [] => []
  | Heard _ :: es => with_fate ft es
  | Went x :: es => if decide (fate_of es x = ft) then x :: with_fate ft es else with_fate ft es
  end.

(** The packets of a flow are numbered upwards, as the generator does. *)
Definition upwards p : Prop := StronglySorted (λ x y, key_compare x.1 y.1 = 0 → x.2.1 < y.2.1) p.
Definition numbered os : Prop := upwards (sent_packets os).

Lemma upwards_flow f p : upwards p → StronglySorted (λ y z : Z * Z, y.1 < z.1) (flow_packets f p).
Proof.
  induction 1 as [|x p _ IH Hx]; [constructor|]. rewrite flow_packets_cons. case_decide as E; [|done]. constructor; [done|].
  rewrite Forall_forall in Hx. apply Forall_forall. intros y (z & -> & [Ez Hz]%list_elem_of_filter)%list_elem_of_fmap.
  apply Hx; [done|]. by apply (same_trans _ f); [apply same_sym|].
Qed.
Lemma upwards_app p q : upwards (p ++ q) → upwards p.
Proof.
  induction p as [|x p IH]; [constructor|]. intros [Hs Hx]%StronglySorted_inv. apply Forall_app in Hx as [Hx _].
  constructor; [by apply IH|done].
Qed.
Lemma upwards_filter (P : flow_s * (Z * Z) → Prop) `{!∀ x, Decision (P x)} p q : upwards (p ++ q) → upwards (filter P p ++ q).
Proof.
  induction p as [|x p IH]; [done|]. intros [Hs Hx]%StronglySorted_inv. rewrite filter_cons. case_decide; [|by apply IH].
  constructor; [by apply IH|]. apply Forall_app in Hx as [Hx Hq]. apply Forall_app. split; [|done].
  rewrite Forall_forall in Hx |- *. intros y [_ Hy]%list_elem_of_filter. by apply Hx.
Qed.

Section fates.
Context {K : Type} `{KeyLaws K} `{!PacketFlow K} (net_identity : Z) (fifo_handler : text).
Implicit Types (k : K) (a : accounts K).
Local Abbreviation op := (account_op (K := K) net_identity fifo_handler).

(** The events of a run that starts with the reports [q] in the FIFO: a report
    enters it when its packet arrives, if the flow reports to this sender *)
Fixpoint history (q : list (flow_s * Z)) os : list tb_event :=
  match os with
  | [] => []
  | TSend _ _ f sid len :: os => Went (f, (sid, len)) :: history q os
  | TReceive _ _ f sid :: os => history (if decide (reported_here net_identity fifo_handler f) then q ++ [(f, sid)] else q) os
  | TReport :: os => match q with [] => history [] os | y :: q => Heard y :: history q os end
  end.

(** The volume of the packets in [p], and of those that go out in [es], that
    are overtaken in [es] *)
Definition overtaken_volume k p es : Z :=
  volume_of (of_source k) (filter (λ x, fate_of es x = Overtaken) p) + volume_of (of_source k) (with_fate Overtaken es).

Lemma overtaken_went k p x es : overtaken_volume k p (Went x :: es) = overtaken_volume k (p ++ [x]) es.
Proof.
  unfold overtaken_volume. cbn [with_fate fate_of]. rewrite filter_app, volume_of_app, filter_cons.
  change (filter (λ x0, fate_of (Went x :: es) x0 = Overtaken) p) with (filter (λ x0, fate_of es x0 = Overtaken) p).
  case_decide; simpl; lia.
Qed.
Lemma overtaken_heard k p f sid es :
  overtaken_volume k p (Heard (f, sid) :: es)
  = volume_of (of_source k) (filter (λ x, older x (f, sid)) p)
    + overtaken_volume k (filter (λ x, key_compare f x.1 = 0 → sid < x.2.1) p) es.
Proof.
  unfold overtaken_volume. cbn [with_fate]. rewrite list_filter_filter.
  rewrite (volume_of_filter_or _ _ (λ x, older x (f, sid))
    (λ x, fate_of es x = Overtaken ∧ (key_compare f x.1 = 0 → sid < x.2.1))); [lia| |].
  - intros x _. cbn [fate_of]. unfold is_packet, older. cbn [fst snd].
    destruct (decide (key_compare f x.1 = 0)) as [E|E].
    + destruct (decide (_ ∧ sid = _)) as [[_ E1]|E1]; [split; [done|lia]|].
      destruct (decide (_ ∧ _ < sid)) as [[_ E2]|E2]; [tauto|]. split; [right|tauto].
      split; [done|]. intros _. destruct (decide (x.2.1 < sid)); [tauto|]. destruct (decide (sid = x.2.1)); [tauto|lia].
    + rewrite !decide_False by tauto. tauto.
  - intros x _ [E Hlt] [_ Hgt]. specialize (Hgt E). cbn [snd] in *. lia.
Qed.

(** The accounts record the loss of the packets that are overtaken. *)
Lemma run_fates os : ∀ v a,
  Forall sized os →
  upwards (in_flight a ++ sent_packets os) → accounts_ok v a → 0 <= v (λ _, true) →
  v (λ _, true) + sent (λ _, true) os < 2 ^ 30 →
  ∀ k, (tally k (updates (account_ops net_identity fifo_handler os a))).2
    = (tally k (updates a)).2 + overtaken_volume k (in_flight a) (history (queued a) os).
Proof.
  induction os as [|o os IH]; intros v a Hs Hup Ha Hv Hb k.
  { unfold overtaken_volume. simpl. rewrite filter_nothing; [simpl; lia|]. by apply Forall_true. }
  apply Forall_cons in Hs as [Ho Hs]. change (account_ops net_identity fifo_handler (o :: os) a)
    with (account_ops net_identity fifo_handler os (op o a)).
  assert (0 <= sent (λ _, true) os) as Hs0 by (clear - Hs; induction Hs as [|[] os Ho _ IHs]; unfold sized in *; simpl in *; lia).
  destruct o as [fl tags f sid len|fl tags f sid|]; cbn [sent] in Hb.
  - unfold sized in Ho. rewrite (IH (λ sel, v sel + if sel f then len else 0) _ Hs);
      [|cbn [account_op in_flight]; by rewrite <- app_assoc|by apply accounts_send|cbn beta iota; lia|cbn beta iota; lia].
    cbn [history account_op in_flight queued updates]. rewrite overtaken_went, tally_snoc. simpl. by case_decide.
  - rewrite (IH v _ Hs); [|cbn [account_op]; by case_decide|by apply accounts_receive|done|lia].
    cbn [history account_op]. by case_decide.
  - destruct (accounts_turn net_identity fifo_handler v a Ha ltac:(lia)) as [Ha' _].
    cbn [account_op history] in *. destruct (queued a) as [|[f sid] q] eqn:Eq; [by rewrite (IH v _ Hs), Eq by done|].
    destruct (report_ordered v a f sid q) as (Ef & Eq' & El); [|done|lia|].
    { eapply upwards_flow, upwards_app, Hup. }
    rewrite (IH v _ Hs); [|rewrite Ef; by apply upwards_filter|done..]. rewrite El, Eq', Ef, overtaken_heard. lia.
Qed.

(** From the start *)
Definition overtaken_in os : list (flow_s * (Z * Z)) := with_fate Overtaken (history [] os).
Lemma started_fates os k :
  Forall sized os → numbered os → sent (λ _, true) os < 2 ^ 30 →
  (tally k (updates (account_ops net_identity fifo_handler os no_accounts))).2 = volume_of (of_source k) (overtaken_in os).
Proof.
  intros Hs Hn Hb. rewrite (run_fates os (λ _, 0)); [|done|done|apply no_accounts_ok|done|lia].
  unfold overtaken_volume, overtaken_in. simpl. lia.
Qed.
End fates.
