(* ===== verification/TestbedProps.v ===== *)
(** * Properties of the test bed *)
From stdpp Require Import strings.
From S2P Require Import Prelude CMonad CFloat ChainedTable ChainSpec TableSpec FixSizeTable FixSizeSpec FixSizeIface.
From S2P Require Import Flow PktListTable PktListSpec PktListProps ObjStore Settings Sample FlowTables Warehouse.
From S2P Require Import WarehouseSpec WarehouseRecords WarehouseProps Config Bytes VlanTag VlanProps CText TaskManager SendPacket FrameSpec.
From S2P Require Import ConditionSender ConditionProps SendProps SendPackets SendPacketsSpec Fifo Receiver FlowInforUpdator Testbed TestbedSpec LossSpec FateSpec.

(** ** The receiver *)
(** What the receiver assumes of a packet that the sender's handler does not
    look at: the Ethernet header comes first, with at most one VLAN header, and
    the IP and TCP headers have at least their usual lengths *)
Record tcp_frame (fl : filler) (tags : list Z) (f : flow_s) : Prop := {
  tf_pre : fl_pre fl = [];
  tf_tags : (length tags <= 1)%nat;
  tf_tcp : f_protocol f = 6;
  tf_ihl : ∃ v, fl_ip fl !! 0%nat = Some v ∧ Z.land v 15 = 5;
  tf_off : ∃ off, fl_rest fl !! 4%nat = Some off ∧ 5 <= Z.shiftr off 4
}.
Definition report_of (r : flow_s * Z) : recv_2_send_proto_t :=
  let f := r.1 in Report (f_srcip f) (f_dstip f) (f_src_port f) (f_dst_port f) (f_protocol f) r.2.

Lemma wp_header_len datalink fl tags f seqid (Q : Z → list Z → Prop) :
  frame_ok datalink fl tags f seqid → fl_pre fl = [] → (length tags <= 1)%nat →
  Q (14 + 4 * Z.of_nat (length tags)) (frame fl tags f seqid) →
  wp get_ethernet_header_len Q (frame fl tags f seqid).
Proof.
  intros [Ht _ _ (_ & _ & _ & _ & _ & _ & L1 & _)] Hp Hl HQ. unfold get_ethernet_header_len, frame, eth_frame in *.
  rewrite Hp in *. cbn [app] in *. wp_step. destruct tags as [|t [|]]; [| |simpl in Hl; lia].
  - eapply (wp_read16_after _ _ 0 _ 8 0); [lia|lia|done|done|]. by wp_steps.
  - eapply (wp_read16_after _ _ 0 _ 129 0); [lia|lia|done|done|]. by wp_steps.
Qed.

Lemma parse_headers_frame datalink fl tags f seqid :
  frame_ok datalink fl tags f seqid → tcp_frame fl tags f →
  parse_headers (frame fl tags f seqid) = Ok (TcpPacket (report_of (f, seqid)), frame fl tags f seqid).
Proof.
  intros Hok [Hp Hl Htcp (v & Ev & Hv) (off & Eo & Ho)]. apply wp_exact. unfold parse_headers. wp_step.
  apply (wp_header_len datalink); [done..|]. pose proof Hok as [_ (Hs & Hd & Hsp & Hdp & _) Hq (_ & _ & _ & _ & _ & _ & L1 & L2 & L3)].
  assert (frame fl tags f seqid = (fl_mac fl ++ vlan_hdrs tags) ++ ip_part [8; 0] fl f seqid) as ->
    by (unfold frame, eth_frame; rewrite Hp; cbn [app]; by rewrite app_assoc).
  assert (Z.of_nat (length (fl_mac fl ++ vlan_hdrs tags)) = 12 + 4 * Z.of_nat (length tags)) as Hbase
    by (rewrite length_app, length_vlan_hdrs; lia).
  set (base := fl_mac fl ++ vlan_hdrs tags) in *. clearbody base. rewrite decide_False by lia.
  unfold ip_part. destruct (fl_ip fl) as [|x1 [|x2 [|x3 [|x4 [|x5 [|x6 [|x7 [|x8 [|x9 [|]]]]]]]]]]; try done.
  destruct (fl_sum fl) as [|y1 [|y2 [|]]]; try done. injection Ev as ->.
  wp_step. eapply (wp_read8_after base _ 2); [lia|lia|reflexivity|]. rewrite Hv, decide_False by lia.
  wp_step. eapply (wp_read8_after base _ 11); [lia|lia|reflexivity|]. rewrite decide_True by done.
  wp_step. eapply (wp_read8_after base _ 34); [lia|lia|exact Eo|]. rewrite decide_False by lia.
  wp_step. eapply (wp_read32_be base _ 14); [lia|lia|reflexivity|done|]. intros v1 E1.
  wp_step. eapply (wp_read32_be base _ 18); [lia|lia|reflexivity|done|]. intros v2 E2.
  wp_step. eapply (wp_read16_be base _ 22); [lia|lia|reflexivity|done|]. intros v3 E3.
  wp_step. eapply (wp_read16_be base _ 24); [lia|lia|reflexivity|done|]. intros v4 E4.
  wp_step. eapply (wp_read32_be base _ 26); [lia|lia|reflexivity|done|]. intros v5 E5.
  apply wp_ret. rewrite E1, E2, E3, E4, E5. done.
Qed.

(** *** The two parsers, on any bytes *)
Lemma bind_inv {S A B} (c : cmd S A) (f : A → cmd S B) s b s' :
  (c ≫= f) s = Ok (b, s') → ∃ a s1, c s = Ok (a, s1) ∧ f a s1 = Ok (b, s').
Proof. unfold mbind, cmd_bind. destruct (c s) as [[a s1]|]; [eauto|done]. Qed.
Lemma read8_keeps i b x b' : read8 i b = Ok (x, b') → b' = b.
Proof. unfold read8. case_match; [by intros [= _ <-]|done]. Qed.
Lemma read16_keeps i b x b' : read16 i b = Ok (x, b') → b' = b.
Proof.
  unfold read16. intros (lo & b1 & E1 & (hi & b2 & E2 & [= _ <-])%bind_inv)%bind_inv.
  apply read8_keeps in E1 as ->. by apply read8_keeps in E2.
Qed.
Lemma read32_keeps i b x b' : read32 i b = Ok (x, b') → b' = b.
Proof.
  unfold read32. intros (lo & b1 & E1 & (hi & b2 & E2 & [= _ <-])%bind_inv)%bind_inv.
  apply read16_keeps in E1 as ->. by apply read16_keeps in E2.
Qed.

(** A TCP packet as the testbed sends it: the type field is [t], one VLAN header
    at most, no IP options, a TCP header of the usual length at least *)
Record plain_tcp (b : list Z) (t : Z) : Prop := {
  pt_type : read16 12 b = Ok (t, b);
  pt_vlan ty : ntohs t = ETHERTYPE_VLAN → read16 16 b = Ok (ty, b) → ntohs ty ≠ ETHERTYPE_VLAN;
  pt_ip : let ip := if decide (ntohs t = ETHERTYPE_VLAN) then 18 else 14 in
    ∃ v p off, read8 ip b = Ok (v, b) ∧ Z.land v 15 = 5 ∧ read8 (ip + 9) b = Ok (p, b) ∧ p = 6 ∧
      read8 (ip + 20 + 12) b = Ok (off, b) ∧ 5 <= Z.shiftr off 4
}.

(** C17. The sender and the receiver read a packet alike: of any bytes in which
    the sender finds an IPv4 packet, the receiver reports the same flow and
    sequence number, if it is a plain TCP packet. *)
Theorem parsers_agree b t f seqid b' :
  plain_tcp b t → parse_ipv4 1 b = Ok (Some (f, seqid), b') →
  parse_headers b = Ok (TcpPacket (report_of (f, seqid)), b).
Proof.
  intros [Et Hv Hip] E. unfold parse_ipv4 in E. apply bind_inv in E as (l2 & b1 & E1 & E).
  injection E1 as <- <-. apply bind_inv in E as (t' & b1 & E1 & E).
  change (read16 12 b = Ok (t', b1)) in E1. rewrite Et in E1. injection E1 as <- <-.
  apply bind_inv in E as (fuel & b1 & E1 & E). injection E1 as <- <-.
  apply bind_inv in E as ([ety l2] & b1 & E1 & E). cbn beta iota in E.
  set (ip := if decide (ntohs t = ETHERTYPE_VLAN) then 18 else 14) in *.
  assert (b1 = b ∧ l2 + sizeof_eth_hdr = ip) as [-> Eip].
  { unfold ip, sizeof_eth_hdr. clear -E1 Hv. destruct (decide (ntohs t = ETHERTYPE_VLAN)) as [Ev|Ev].
    - destruct (length b) as [|n]; cbn [skip_vlans] in E1; rewrite decide_True in E1 by done; [by unfold throw in E1|].
      apply bind_inv in E1 as (ty & b2 & E2 & E1). pose proof (read16_keeps _ _ _ _ E2) as ->.
      specialize (Hv ty Ev E2). destruct n; cbn [skip_vlans] in E1; rewrite decide_False in E1 by done; by injection E1 as <- <- <-.
    - destruct (length b); cbn [skip_vlans] in E1; rewrite decide_False in E1 by done; by injection E1 as <- <- <-. }
  rewrite Eip in E. case_decide as E4; [|by injection E].
  destruct Hip as (v & p & off & Ev & Hv5 & Ep & -> & Eo & Ho).
  apply bind_inv in E as (src & b1 & Es & E). pose proof (read32_keeps _ _ _ _ Es) as ->.
  apply bind_inv in E as (dst & b1 & Ed & E). pose proof (read32_keeps _ _ _ _ Ed) as ->.
  apply bind_inv in E as (pr & b1 & Epr & E). pose proof (read8_keeps _ _ _ _ Epr) as ->.
  apply bind_inv in E as (sp & b1 & Esp & E). pose proof (read16_keeps _ _ _ _ Esp) as ->.
  apply bind_inv in E as (dp & b1 & Edp & E). pose proof (read16_keeps _ _ _ _ Edp) as ->.
  apply bind_inv in E as (sq & b1 & Esq & E). pose proof (read32_keeps _ _ _ _ Esq) as ->.
  injection E as <- <- <-. unfold off_ip_p in Epr. rewrite Ep in Epr. injection Epr as <-.
  unfold off_th_sport, off_th_dport, off_th_seq, sizeof_ipv4_hdr in *. rewrite Z.add_0_r in Esp.
  assert (∀ {A} (c : cmd (list Z) A) x (Q : A → list Z → Prop), c b = Ok (x, b) → Q x b → wp c Q b) as Hread
    by (intros A c x Q Ec HQ; unfold wp; by rewrite Ec).
  apply wp_exact. unfold parse_headers, get_ethernet_header_len. wp_step. wp_step. eapply Hread; [exact Et|]. wp_step.
  change (if decide (ntohs t = 33024) then SIZE_ETHERNET_VLAN else SIZE_ETHERNET) with ip.
  assert (0 <= ip) as Hip0 by (unfold ip; case_decide; lia). clearbody ip. rewrite decide_False by lia.
  wp_step. eapply Hread; [exact Ev|]. rewrite Hv5, decide_False by lia. wp_step. eapply Hread; [exact Ep|].
  rewrite decide_True by done. wp_step. eapply Hread; [exact Eo|]. rewrite decide_False by lia.
  wp_step. eapply Hread; [exact Es|]. wp_step. eapply Hread; [exact Ed|]. wp_step. eapply Hread; [exact Esp|].
  wp_step. eapply Hread; [exact Edp|]. wp_step. eapply Hread; [exact Esq|]. by apply wp_ret.
Qed.

(** The FIFOs of all senders exist and are opened. *)
Definition fifos_ok (k : kernel) (handlers : list text) : Prop := ∀ j, 0 <= j < NUM_SENDERS →
  handlers !! Z.to_nat j = Some (get_sender_fifo_fname (j + 1) 100) ∧
  is_Some (k !! get_sender_fifo_fname (j + 1) 100).
Definition from_sender (f : flow_s) : Prop := 0 <= GET_SENDER_IDX (f_srcip f) < NUM_SENDERS.

(** A packet from a sender is reported to it. *)
Lemma wp_got_packet net_identity datalink fl tags f seqid k hs n c (Q : unit → recv_state → Prop) :
  frame_ok datalink fl tags f seqid → tcp_frame fl tags f → from_sender f → fifos_ok k hs →
  (Z.lxor (GET_NET_IDENTITY (f_srcip f)) net_identity = 0 → Q tt (RecvState k hs n c)) →
  (Z.lxor (GET_NET_IDENTITY (f_srcip f)) net_identity ≠ 0 → ∀ q, k !! fifo_of f = Some q →
     Q tt (RecvState (<[fifo_of f := q ++ [report_of (f, seqid)]]> k) hs (u32 (n + 1)) c)) →
  wp (got_packet net_identity (frame fl tags f seqid)) Q (RecvState k hs n c).
Proof.
  intros Hok Htcp Hf Hk HQ1 HQ2. unfold got_packet. rewrite (parse_headers_frame datalink) by done.
  cbn [report_of r_srcip]. destruct (decide (Z.lxor _ _ = 0)) as [E|E]; [wp_steps; by apply HQ1|].
  wp_steps. cbn [fifo_handlers]. unfold get_sender_fifo_handler, from_sender, NUM_SENDERS in *.
  assert (i32 (GET_SENDER_IDX (f_srcip f)) = GET_SENDER_IDX (f_srcip f)) as Ei by (apply i32_of_u32_low; lia).
  cbn [fst]. rewrite Ei, decide_True by done. destruct (Hk _ Hf) as [Eh [q Eq]]. rewrite Eh.
  unfold wp at 1, lift. unfold on_kernel. wp_steps. cbn [rc_kernel]. unfold wp, writeConditionToFIFO.
  unfold fifo_of in HQ2. rewrite Eq. by apply HQ2.
Qed.

Lemma fifos_ok_insert k hs name q : fifos_ok k hs → fifos_ok (<[name := q]> k) hs.
Proof.
  intros Hk j Hj. destruct (Hk j Hj) as [Eh Hs]. split; [done|].
  apply lookup_insert_is_Some'. by right.
Qed.

(** *** The start of the FIFOs *)
Lemma wp_create_fifos (mkfifo_ok : text → bool) (n : nat) (i : Z) (k : kernel) (Q : Z → kernel → Prop) :
  (∀ name, mkfifo_ok name = true) → 1 <= i →
  (∀ j, 1 <= j < i → k !! get_sender_fifo_fname j 100 = Some []) →
  (∀ k', (∀ j, 1 <= j < i + Z.of_nat n → k' !! get_sender_fifo_fname j 100 = Some []) → Q 0 k') →
  wp (create_fifos mkfifo_ok n i) Q k.
Proof.
  intros Hmk. revert i k. induction n as [|n IH]; intros i k Hi Hk HQ; cbn [create_fifos].
  { apply wp_ret, HQ. intros j Hj. apply Hk. lia. }
  wp_step. unfold wp at 1, createFIFOFile. rewrite Hmk, decide_False by (by intros []). apply IH; [lia| |].
  - intros j Hj. destruct (decide (get_sender_fifo_fname i 100 = get_sender_fifo_fname j 100)) as [->|Hne];
      [by rewrite lookup_insert_eq|]. rewrite lookup_insert_ne, lookup_delete_ne by done.
    apply Hk. assert (j ≠ i) by congruence. lia.
  - intros k' Hk'. apply HQ. intros j Hj. apply Hk'. lia.
Qed.

Lemma open_from_ok (open_ok : text → bool) (n : nat) (i : Z) (hs : list text) (k : kernel) :
  (∀ name, open_ok name = true) →
  (∀ j, i <= j < i + Z.of_nat n → is_Some (k !! get_sender_fifo_fname j 100)) →
  open_from open_ok n i hs k
    = Ok (0, hs ++ ((λ j, get_sender_fifo_fname j 100) <$> seqZ i (Z.of_nat n)), k).
Proof.
  intros Ho. revert i hs. induction n as [|n IH]; intros i hs Hk; cbn [open_from]; [by rewrite app_nil_r|].
  assert (openFIFO open_ok (get_sender_fifo_fname i 100) k = Ok (Some (get_sender_fifo_fname i 100), k)) as Eo.
  { unfold openFIFO. destruct (Hk i) as [q ->]; [lia|]. by rewrite Ho. }
  rewrite (bind_ok _ _ _ _ _ Eo), IH by (intros j Hj; apply Hk; lia).
  rewrite <- app_assoc, (seqZ_cons i) by lia. by replace (Z.pred (Z.of_nat (S n))) with (Z.of_nat n) by lia.
Qed.

(** The sender and the receivers name the FIFO of a host alike. *)
Definition host_dev (i : Z) : text := txt "h" ++ dec i ++ txt "-eth0".
Lemma same_fifo_name i : 1 <= i <= NUM_SENDERS →
  sender_get_fifo_fname (Some (host_dev i)) 100 = Ok (Some (get_sender_fifo_fname i 100)).
Proof.
  unfold NUM_SENDERS. intros Hi.
  assert (i ∈ seqZ 1 12) as Hin by (apply elem_of_seqZ; lia).
  clear Hi. revert i Hin. apply Forall_forall. by repeat constructor.
Qed.
Lemma fifo_name_inj i j : 1 <= i <= NUM_SENDERS → 1 <= j <= NUM_SENDERS →
  get_sender_fifo_fname i 100 = get_sender_fifo_fname j 100 → i = j.
Proof.
  unfold NUM_SENDERS. intros Hi Hj E.
  assert (Forall (λ i, Forall (λ j, get_sender_fifo_fname i 100 = get_sender_fifo_fname j 100 → i = j) (seqZ 1 12)) (seqZ 1 12)) as Hall.
  { apply (bool_decide_unpack _). by vm_compute. }
  rewrite Forall_forall in Hall. pose proof (Hall i ltac:(apply elem_of_seqZ; lia)) as Hall'.
  rewrite Forall_forall in Hall'. apply Hall'; [apply elem_of_seqZ; lia|done].
Qed.

(** ** The sender *)
Section sender.
Context {K VI VF FX : Type} `{KeyLaws K}.
Context `{!FlowTable K Z Z VI} `{!FlowTableLaws K Z Z VI} `{!IntTable K VI}.
Context `{!FlowTable K c_float c_float VF} `{!FlowTableLaws K c_float c_float VF}.
Context `{!FixedTable K FX} `{!FixedTableLaws K FX} `{!PacketFlow K}.
Context (setting : cm_experiment_setting_t) (fsize : Z) (tasks : K → option task_t) (datalink net_identity : Z).
Context (fifo_handler : text) (sendpacket : list raw_packet → raw_packet → Z).
Implicit Types (d : data_warehouse_t VI VF FX) (m : wmodel K) (k : K) (P : wptrs) (a : accounts K).
Implicit Types (pm : pkt_map).

(** The table of sent packets holds the packets in flight. *)
Definition holds_packets pm p : Prop := ∀ f, default [] (pm f) = flow_packets f p.

Lemma holds_packets_set pm p f sid vol :
  holds_packets pm p → holds_packets (spec_vl_set f sid vol pm) (p ++ [(f, (sid, vol))]).
Proof.
  intros Hp g. unfold spec_vl_set, kupd. rewrite flow_packets_app, flow_packets_cons.
  cbn [fst snd]. case_decide as E; [|by rewrite Hp, app_nil_r]. simpl. by rewrite Hp, (flow_packets_proper g f p E).
Qed.
Lemma holds_packets_get pm p f sid :
  holds_packets pm p → Forall (λ x, 0 <= x.2.2) p → volume_of (λ _, true) p < 2 ^ 32 →
  let '(v, l') := account sid (flow_packets f p) in
  (spec_vl_get f sid pm).1 = v ∧
  holds_packets (spec_vl_get f sid pm).2 (drop_packets f (length (flow_packets f p) - length l') p).
Proof.
  intros Hp Hn Hb. pose proof (flow_volumes_le f p Hn).
  destruct (account_exact sid (flow_packets f p)) as [El _]; [by apply flow_packets_nonneg|lia|].
  assert (∀ l', l' = drop (length (flow_packets f p) - length l') (flow_packets f p) →
    ∀ g, flow_packets g (drop_packets f (length (flow_packets f p) - length l') p)
         = if decide (key_compare g f = 0) then l' else flow_packets g p) as Hd.
  { intros l' E g. case_decide as Eg; [|by apply flow_packets_drop_ne].
    rewrite (flow_packets_proper g f _ Eg), flow_packets_drop. by rewrite <- E. }
  unfold spec_vl_get. pose proof (Hp f) as Hpf. destruct (pm f) as [l|] eqn:Epm; simpl in Hpf.
  - rewrite Hpf. destruct (account sid (flow_packets f p)) as [v l']. cbn [fst snd] in *. split; [done|].
    intros g. rewrite (Hd l' El g). unfold kupd. by case_decide.
  - rewrite <- Hpf in *. split; [done|]. intros g. cbn [fst snd] in *. rewrite (Hd [] El g).
    case_decide as Eg; [|apply Hp]. rewrite Hp. by rewrite (flow_packets_proper g f p Eg), <- Hpf.
Qed.

(** *** The specification of the sender's handlers keeps the records. *)
(** What an update of the active buffer leaves alone *)
Definition untouched m m' : Prop :=
  m_vi m' last_sent_flow_selected_level_map = m_vi m last_sent_flow_selected_level_map ∧
  ∀ j, j ≠ m_idx m → same_buffer j m m'.
Lemma untouched_trans m m' m'' : m_idx m' = m_idx m → untouched m m' → untouched m' m'' → untouched m m''.
Proof.
  intros Ei [E1 H1] [E2 H2]. split; [congruence|]. intros j Hj.
  eapply same_buffer_trans; [by apply H1|]. apply H2. congruence.
Qed.

Lemma spec_sampled_keeps k len m :
  let m' := (spec_sampled setting k len m).2 in
  m_idx m' = m_idx m ∧ m_vf m' = m_vf m ∧ m_fx m' = m_fx m ∧ m_coll m' = m_coll m ∧ m_list m' = m_list m ∧
  ∀ f i, f ≠ flow_sample_map → f ≠ flow_not_sampled_volume_map → m_vi m' (Buf f i) = m_vi m (Buf f i).
Proof.
  assert (∀ f i o v (mp : vi_owner → kmap K Z), o ≠ f →
    (if decide (Buf f i = Buf o v) then kupd k (Some 1) (mp (Buf o v)) else mp (Buf f i)) = mp (Buf f i)) as Hne.
  { intros f i o v mp Ho. rewrite decide_False; [done|congruence]. }
  unfold spec_sampled, spec_sample_at_host, spec_sample, spec_not_sampled.
  repeat case_match; simplify_eq; simpl; split_and!; try done; intros f i Hf1 Hf2; by repeat case_decide; simplify_eq.
Qed.

Lemma spec_sampled_untouched k len m : untouched m (spec_sampled setting k len m).2.
Proof.
  unfold untouched, spec_sampled, spec_sample_at_host, spec_sample, spec_not_sampled.
  repeat case_match; simplify_eq; simpl; split_and!; try done; intros j Hj; split; try done; intros f;
    simpl; by repeat case_decide; simplify_eq.
Qed.
Lemma spec_update_untouched u m : untouched m (spec_update setting fsize u m).
Proof.
  destruct (spec_update_frame setting fsize u m) as (_ & Hs). split; [|done].
  destruct (update_levels setting fsize (update_op u) m) as (_ & El & _); [by destruct u|exact El].
Qed.

Lemma records_send us m k len :
  records setting fsize (m_idx m) us m → total (us ++ [Sent k len]) < 2 ^ 31 →
  let m' := (spec_send setting fsize k len (tasks k) m).2 in
  normal_ok k len m ∧ m_idx m' = m_idx m ∧ m_list m' = m_list m ∧
  records setting fsize (m_idx m) (us ++ [Sent k len]) m' ∧ untouched m m'.
Proof.
  intros R Hb. unfold spec_send.
  assert (∀ m1, m_idx m1 = m_idx m → records setting fsize (m_idx m) us m1 →
    let m' := spec_account setting fsize k len m1 in
    m_idx m' = m_idx m ∧ m_list m' = m_list m1 ∧ records setting fsize (m_idx m) (us ++ [Sent k len]) m' ∧
      untouched m1 m') as Ha.
  { intros m1 Ei R1. rewrite <- Ei in R1 |- *. pose proof (records_sent setting fsize us m1 k len R1 Hb) as Rs.
    destruct (spec_update_frame setting fsize (Sent k len) m1) as (E1 & _). unfold spec_update in *. simpl in E1.
    pose proof (spec_update_untouched (Sent k len) m1) as Hu.
    unfold spec_account. cbn [m_idx m_list m_count]. split_and!; [done| | |].
    - unfold spec_normal. by case_decide.
    - eapply records_same; [|exact Rs]. by split.
    - destruct Hu as [Hu1 Hu2]. split; [exact Hu1|]. intros j Hj. destruct (Hu2 j Hj). by split. }
  split; [by eapply normal_ok_of|]. destruct (tasks k) as [t|].
  - unfold spec_task. destruct (spec_sampled_keeps k len m) as (Ei & Ef & Ex & Ec & El & Ev).
    pose proof (spec_sampled_untouched k len m) as Hu.
    destruct (spec_sampled setting k len m) as [sampled m1]. cbn [fst snd] in *.
    destruct (Ha m1 Ei) as (E1 & E3 & R1 & Hu').
    { destruct R as [R Rs Rc]. split; [|by rewrite Ex|by rewrite Ec]. intros k'. specialize (R k').
      destruct (tally k' us) as [v l]. unfold loss_seen, slot_loss in *. by rewrite Ef, Ex, !Ev. }
    rewrite <- El. split_and!; try done. exact (untouched_trans _ _ _ Ei Hu Hu').
  - by apply Ha.
Qed.

Lemma levels_ok_lost m k n :
  levels_ok m → levels_ok (spec_loss setting fsize k n m).
Proof.
  intros Hl k' i. destruct (update_levels setting fsize (WLoss k n) m I) as (Ei & _ & Es).
  destruct (spec_update_frame setting fsize (Lost k n) m) as (_ & Hs). unfold spec_update in Hs. simpl in *.
  destruct (decide (i = m_idx m)) as [->|Hne]; [|destruct (Hs i Hne) as [-> _ _ _]; apply Hl].
  destruct Es as [->|(k2 & v & Hv & ->)]; [apply Hl|]. unfold kupd. case_decide; [done|apply Hl].
Qed.

Lemma wp_list_get P d m s pm (f : flow_s) sid (Q : receV_lostV → data_warehouse_t VI VF FX → Prop) :
  wrep fsize [] P d m → m_list m = PLive s → vpost s pm →
  (∀ d' s', wrep fsize [] P d' (m_set_list (PLive s') m) → vpost s' (spec_vl_get f sid pm).2 →
     Q (spec_vl_get f sid pm).1 d') →
  wp (on_recePktList (ht_vl_get_rece_lost_volume f sid)) Q d.
Proof.
  intros R El (cells & pls & Rv & Hq & Em) HQ. unfold on_recePktList. apply wp_zoom.
  rewrite (wr_list _ _ _ _ _ R), El. apply wp_unless_null. eapply wp_vl_get; [done..|].
  intros s' Hs'. destruct (spec_vl_get_proper f sid _ _ Em) as [E1 E2]. rewrite E1. apply (HQ _ s').
  - destruct R. by split.
  - destruct Hs' as (c' & p' & Rv' & Hq' & Em'). exists c', p'. split; [done|]. split; [done|].
    etrans; [exact Em'|exact E2].
Qed.

(** ** The test bed follows the accounts *)
Definition op_ok (o : tb_op) : Prop :=
  match o with
  | TSend fl tags f sid len => frame_ok datalink fl tags f sid ∧ TCPR_IPV4_H <= len < 2 ^ 16 ∧
      Z.of_nat (length (frame fl tags f sid)) + 4 <= PKT_BUFFER_LEN
  | TReceive fl tags f sid => frame_ok datalink fl tags f sid ∧ tcp_frame fl tags f ∧ from_sender f
  | TReport => True
  end.

Lemma op_sized os : Forall op_ok os → Forall sized os.
Proof.
  intros Hos. eapply Forall_impl; [exact Hos|]. intros [fl tags f sid len|fl tags f sid|]; [|done..].
  intros [_ Hl]. unfold sized, TCPR_IPV4_H in *. lia.
Qed.
Lemma sent_nonneg sel os : Forall op_ok os → 0 <= sent sel os.
Proof.
  induction 1 as [|[fl tags f sid len| |] os Ho _ IH]; [done| |done..]. simpl.
  destruct Ho as [_ Hl]. unfold TCPR_IPV4_H in Hl. case_match; lia.
Qed.

(** The other buffer is empty and the levels sent last are [L]. *)
Definition at_rest (L : kmap K Z) m : Prop :=
  m_vi m last_sent_flow_selected_level_map = L ∧ records setting fsize (other_idx (m_idx m)) [] m.
Lemma at_rest_untouched L m m' :
  in_buffers (m_idx m) → m_idx m' = m_idx m → untouched m m' → at_rest L m → at_rest L m'.
Proof.
  intros Hi Ei [El Hs] [EL R]. split; [congruence|]. rewrite Ei.
  eapply records_same; [apply Hs, other_ne, Hi|done].
Qed.

Lemma at_rest_set_list L p m : at_rest L m → at_rest L (m_set_list p m).
Proof. intros [EL R]. split; [exact EL|]. by apply records_set_list. Qed.

(** The warehouse records the updates of the interval, its table of sent packets
    holds what is in flight. *)
Record tb_inv (L : kmap K Z) a (t : testbed VI VF FX) : Prop := {
  ti_model : ∃ P m s pm, wrep fsize [] P (tb_dw t) m ∧ levels_ok m ∧
    records setting fsize (m_idx m) (updates a) m ∧ m_list m = PLive s ∧ vpost s pm ∧ holds_packets pm (in_flight a) ∧
    at_rest L m;
  ti_fifos : fifos_ok (tb_kernel t) (tb_handlers t);
  ti_queue : tb_kernel t !! fifo_handler = Some (report_of <$> queued a);
  ti_buffer : buffer_ok (tb_sending t)
}.

Context (switches_ok : ∀ k t, tasks k = Some t → Forall (λ id, 1 <= id <= 12) (monitor_switch_ids t)).

(** The packet that goes out when a packet is sent: its length follows it and
    only its tag is changed *)
Definition sent_as fl tags f sid len (pkt : raw_packet) : Prop := ∃ g,
  task_tag (tasks (src f)) g ∧ pkt = set (frame (with_length fl len) (retag g tags) f sid).
(** The replay's counters *)
Definition counted (n bytes : Z) (s s' : sending) : Prop :=
  pkts_sent s' = u64 (pkts_sent s + n) ∧ bytes_sent s' = u64 (bytes_sent s + bytes) ∧
  abort s' = abort s ∧ iteration s' = iteration s.

Lemma step_send_packet L a t fl tags f sid len (Q : unit → testbed VI VF FX → Prop) :
  tb_inv L a t → op_ok (TSend fl tags f sid len) → total (updates a ++ [Sent (src f) len]) < 2 ^ 31 →
  (∀ t' pkt, tb_inv L (account_op net_identity fifo_handler (TSend fl tags f sid len) a) t' →
     sent_as fl tags f sid len pkt → tb_wire t' = put_step sendpacket (tb_wire t) pkt →
     counted 1 (Z.of_nat (length (frame fl tags f sid)) + 4) (tb_sending t) (tb_sending t') → Q tt t') →
  wp (do_tb setting tasks datalink net_identity fifo_handler sendpacket (TSend fl tags f sid len)) Q t.
Proof.
  intros [(P & m & s & pm & R & Hlv & Rec & El & Hv & Hp & Hrest) Hk Hq Hbuf] (Hok & Hlen & Hfit) Hb HQ.
  cbn [do_tb]. unfold at_sender. apply wp_zoom.
  assert (u16 len = len) as Eu by (apply wrap_small; unfold in_u, TCPR_IPV4_H in *; lia).
  destruct (records_send (updates a) m (src f) len Rec Hb) as [Hn _].
  unfold frame_pkt. eapply (wp_send_packet setting fsize tasks datalink sendpacket switches_ok P (tb_dw t) m s pm);
    [exact R|exact El|exact Hv|exact Hlv|exact Hbuf|exact Hok|unfold TCPR_IPV4_H in *; lia|exact Hn|exact Hfit|].
  intros d' s' b g m' Es Hg Hv' R' Hlv' Hbuf'. rewrite Eu in Hv'.
  destruct (records_send (updates a) (m_set_list (PLive s') m) (src f) len (records_set_list _ _ _ _ _ _ Rec) Hb)
    as (_ & Ei & El' & Rec' & Hu).
  assert (spec_send setting fsize (src f) len (tasks (src f)) (m_set_list (PLive s') m) = (g, m')) as Es' by exact Es.
  rewrite Es' in Ei, El', Rec', Hu. cbn [snd] in *.
  eapply HQ; [|exists g; split; [exact Hg|reflexivity]|reflexivity|by split_and!].
  split; cbn [tb_kernel tb_handlers tb_sending tb_dw rp_dw rp_sending account_op updates in_flight queued]; [|done|done|exact Hbuf'].
  exists P, m', s', (spec_vl_set f sid len pm). split_and!; [exact R'|done| |by rewrite El'|done| |].
  - rewrite Ei. exact Rec'.
  - by apply holds_packets_set.
  - eapply (at_rest_untouched L (m_set_list (PLive s') m)); [exact (wr_idx_ok _ _ _ _ _ R)|exact Ei|exact Hu|].
    by apply at_rest_set_list.
Qed.
Lemma step_send L a t fl tags f sid len (Q : unit → testbed VI VF FX → Prop) :
  tb_inv L a t → op_ok (TSend fl tags f sid len) → total (updates a ++ [Sent (src f) len]) < 2 ^ 31 →
  (∀ t', tb_inv L (account_op net_identity fifo_handler (TSend fl tags f sid len) a) t' → Q tt t') →
  wp (do_tb setting tasks datalink net_identity fifo_handler sendpacket (TSend fl tags f sid len)) Q t.
Proof. intros Ht Ho Hb HQ. eapply step_send_packet; [exact Ht|exact Ho|exact Hb|]. intros t' pkt Ht' _ _ _. by apply HQ. Qed.

Lemma step_receive L a t fl tags f sid (Q : unit → testbed VI VF FX → Prop) :
  tb_inv L a t → op_ok (TReceive fl tags f sid) →
  (∀ t', tb_inv L (account_op net_identity fifo_handler (TReceive fl tags f sid) a) t' →
     tb_wire t' = tb_wire t → Q tt t') →
  wp (do_tb setting tasks datalink net_identity fifo_handler sendpacket (TReceive fl tags f sid)) Q t.
Proof.
  intros [Hm Hk Hq Hbuf] (Hok & Htcp & Hf) HQ. simpl. unfold at_receiver. apply wp_zoom. cbn [account_op] in HQ.
  unfold reported_here in HQ. eapply (wp_got_packet _ datalink); [done..| |].
  - intros E. apply HQ; [|done]. rewrite decide_False by tauto. by destruct t.
  - intros E q Eq. apply HQ; [|done]. destruct (decide (fifo_of f = fifo_handler)) as [Eh|Eh].
    + rewrite decide_True by done. rewrite Eh in Eq |- *. rewrite Hq in Eq. injection Eq as <-.
      split; cbn [tb_dw tb_kernel tb_handlers rc_kernel fifo_handlers updates in_flight queued]; [done|by apply fifos_ok_insert| |done].
      by rewrite lookup_insert_eq, fmap_app.
    + rewrite decide_False by tauto.
      split; cbn [tb_dw tb_kernel tb_handlers rc_kernel fifo_handlers]; [done|by apply fifos_ok_insert| |done].
      by rewrite lookup_insert_ne.
Qed.

Lemma step_report L a t (Q : unit → testbed VI VF FX → Prop) :
  tb_inv L a t → Forall (λ x, 0 <= x.2.2) (in_flight a) → volume_of (λ _, true) (in_flight a) < 2 ^ 31 →
  total (updates (account_op net_identity fifo_handler TReport a)) < 2 ^ 31 →
  (∀ t', tb_inv L (account_op net_identity fifo_handler TReport a) t' → tb_wire t' = tb_wire t → Q tt t') →
  wp (do_tb setting tasks datalink net_identity fifo_handler sendpacket TReport) Q t.
Proof.
  intros [(P & m & s & pm & R & Hlv & Rec & El & Hv & Hp & Hrest) Hk Hq Hbuf] Hnn Hvb Htot HQ.
  simpl. wp_step. unfold at_updator. apply wp_zoom. unfold flow_infor_turn, on_ukernel. wp_step. apply wp_zoom.
  cbn [us_kernel us_dw total_lost_pkt_num]. unfold wp at 1, readConditionFromFIFO. rewrite Hq.
  cbn [account_op] in HQ, Htot. destruct (queued a) as [|[f sid] q] eqn:Eq; cbn [fmap list_fmap].
  { wp_steps. apply HQ; [|done]. split; [by exists P, m, s, pm|done| |done]. by rewrite Eq. }
  unfold handle_report, report_of. cbn [fst snd r_srcip r_dstip r_src_port r_dst_port r_protocol rece_seqid].
  assert (Flow (f_srcip f) (f_dstip f) (f_src_port f) (f_dst_port f) (f_protocol f) = f) as -> by (by destruct f).
  wp_step. wp_step. unfold on_udw at 1. apply wp_zoom. cbn [us_dw us_kernel total_lost_pkt_num].
  pose proof (total_nonneg (updates a)) as Htn.
  pose proof (holds_packets_get pm (in_flight a) f sid Hp Hnn ltac:(lia)) as Hget.
  pose proof (flow_volumes_le f _ Hnn) as Hfl.
  destruct (account_exact sid (flow_packets f (in_flight a))) as (_ & r & Hr & Hl & Ev);
    [by apply flow_packets_nonneg|lia|].
  unfold account_report in *. destruct (account sid (flow_packets f (in_flight a))) as [ans l'] eqn:Ea.
  cbn [fst snd updates] in *. destruct Hget as [Eget Hp'].
  eapply wp_list_get; [exact R|exact El|exact Hv|]. intros d1 s1 R1 Hv1. rewrite Eget.
  assert (fifos_ok (<[fifo_handler := report_of <$> q]> (tb_kernel t)) (tb_handlers t)) as Hk' by (by apply fifos_ok_insert).
  wp_step. cbn [us_dw us_kernel total_lost_pkt_num]. wp_step.
  destruct (decide (lost_volume ans > 0)) as [Hpos|Hpos].
  - assert (i32 (lost_volume ans) = lost_volume ans) as ->.
    { rewrite total_snoc in Htot. simpl in Htot. apply i32_of_u32_low. lia. }
    unfold on_udw. apply wp_zoom. cbn [us_dw us_kernel total_lost_pkt_num].
    eapply wp_update_flow_loss_volume; [exact R1|by eapply loss_ok_of; [by apply records_set_list|]|]. intros d2 R2. wp_steps. apply HQ; [|done].
    cbn [us_dw us_kernel total_lost_pkt_num].
    pose proof (records_lost setting fsize (updates a) (m_set_list (PLive s1) m) (src f) (lost_volume ans)
      (records_set_list _ _ _ _ _ _ Rec) Htot) as Rec'.
    destruct (spec_update_frame setting fsize (Lost (src f) (lost_volume ans)) (m_set_list (PLive s1) m)) as (Ei & _).
    unfold spec_update in Ei. cbn [update_op spec_wop] in Ei.
    split; cbn [tb_dw tb_kernel tb_handlers in_flight updates queued us_dw us_kernel total_lost_pkt_num]; [|done|by rewrite lookup_insert_eq|done].
    exists P, (spec_loss setting fsize (src f) (lost_volume ans) (m_set_list (PLive s1) m)), s1, (spec_vl_get f sid pm).2. split; [exact R2|]. split; [by apply levels_ok_lost|].
    split; [rewrite Ei; exact Rec'|]. split_and!; [|exact Hv1|exact Hp'|].
    + pose proof (spec_wops_list setting fsize [WLoss (src f) (lost_volume ans)] (m_set_list (PLive s1) m)) as Esl. exact Esl.
    + eapply (at_rest_untouched L (m_set_list (PLive s1) m)); [exact (wr_idx_ok _ _ _ _ _ R)|exact Ei| |by apply at_rest_set_list].
      exact (spec_update_untouched (Lost (src f) (lost_volume ans)) (m_set_list (PLive s1) m)).
  - wp_steps. apply HQ; [|done]. rewrite app_nil_r.
    split; cbn [tb_dw tb_kernel tb_handlers in_flight updates queued us_dw us_kernel total_lost_pkt_num]; [|done|by rewrite lookup_insert_eq|done].
    exists P, (m_set_list (PLive s1) m), s1, (spec_vl_get f sid pm).2. split_and!; try done;
      [by apply records_set_list|by apply at_rest_set_list].
Qed.

(** A run of the test bed *)
Lemma run_tbs L os : ∀ v a t,
  tb_inv L a t → accounts_ok v a → Forall op_ok os → 0 <= v (λ _, true) →
  v (λ _, true) + sent (λ _, true) os < 2 ^ 30 →
  wp (do_tbs setting tasks datalink net_identity fifo_handler sendpacket os) (λ _ t',
    tb_inv L (account_ops net_identity fifo_handler os a) t' ∧
    accounts_ok (λ sel, v sel + sent sel os) (account_ops net_identity fifo_handler os a)) t.
Proof.
  induction os as [|o os IH]; intros v a t Ht Ha Hos Hv0 Hb; cbn [do_tbs].
  { apply wp_ret. split; [done|]. eapply accounts_ok_ext; [|exact Ha]. intros sel. simpl. lia. }
  apply Forall_cons in Hos as [Ho Hos]. wp_step. pose proof (sent_nonneg (λ _, true) os Hos) as Hs0.
  destruct o as [fl tags f sid len|fl tags f sid|]; cbn [sent] in Hb.
  - destruct Ho as [Hok Hlen]. unfold TCPR_IPV4_H in Hlen.
    pose proof (ao_total _ _ Ha) as Hto. pose proof (volume_of_nonneg (λ _, true) _ (ao_nonneg _ _ Ha)) as Hvn.
    eapply (step_send L a t fl tags f sid len); [done|by split|rewrite total_snoc; simpl; lia|]. intros t' Ht'.
    pose proof (accounts_send net_identity fifo_handler v a fl tags f sid len Ha ltac:(lia)) as Ha'.
    eapply wp_mono; [apply (IH _ _ _ Ht' Ha' Hos)|]; cbn beta iota; [lia|lia|].
    intros [] t2 [? Hok2]. split; [done|]. eapply accounts_ok_ext; [|exact Hok2]. intros sel. simpl. lia.
  - eapply (step_receive L a t fl tags f sid); [done..|]. intros t' Ht' _.
    apply (IH _ _ _ Ht' (accounts_receive net_identity fifo_handler v a fl tags f sid Ha)); done.
  - destruct (accounts_turn net_identity fifo_handler v a Ha ltac:(lia)) as [Ha' Htot].
    pose proof (ao_total _ _ Ha) as Hto. pose proof (total_nonneg (updates a)) as Htn.
    eapply (step_report L a t); [done|apply Ha|lia|done|]. intros t' Ht' _. by apply (IH _ _ _ Ht').
Qed.
End sender.

(** ** From the start *)
Section started.
Context {K VI VF FX : Type} `{KeyLaws K}.
Context `{!FlowTable K Z Z VI} `{!FlowTableLaws K Z Z VI} `{!IntTable K VI}.
Context `{!FlowTable K c_float c_float VF} `{!FlowTableLaws K c_float c_float VF}.
Context `{!FixedTable K FX} `{!FixedTableLaws K FX} `{!PacketFlow K}.
Context (setting : cm_experiment_setting_t) (fsize : Z) (tasks : K → option task_t) (datalink : Z).
Context (fsize_ok : int_of_float (fix_loss_map_bucket_size (sender_setting setting)) = Some fsize) (fsize_pos : 0 < fsize).
Context (mkfifo_ok open_ok : text → bool) (mkfifo_works : ∀ name, mkfifo_ok name = true)
  (open_works : ∀ name, open_ok name = true).

Lemma wp_boot_network (i x : Z) (ip_prefix_str : text) d P (t : testbed VI VF FX) :
  1 <= i <= NUM_SENDERS → wrep fsize [] P d (m_set_rand x m_init) → tb_dw t = d → buffer_ok (tb_sending t) →
  wp (boot_network mkfifo_ok open_ok ip_prefix_str (Some (host_dev i))) (λ r t',
    r = Some (u32 (strtol_int ip_prefix_str), get_sender_fifo_fname i 100) ∧
    tb_inv setting fsize (get_sender_fifo_fname i 100) kempty no_accounts t' ∧
    tb_wire t' = tb_wire t ∧ tb_sending t' = tb_sending t) t.
Proof.
  intros Hi R Ed Hbuf. destruct t as [d0 sd w lost k0 hs pkts conds]. simpl in Ed. subst d0.
  unfold boot_network. wp_step. unfold on_tb_kernel. apply wp_zoom. unfold createFIFOFiles.
  apply wp_create_fifos; [done|lia|lia|]. intros k Hk. rewrite decide_False by (intros []; done).
  cbn [tb_kernel tb_dw tb_lost tb_handlers tb_pkts tb_conditions].
  assert (1 + Z.of_nat (Z.to_nat NUM_SENDERS) = 13) as En by done. rewrite En in Hk.
  assert (open_fifos open_ok k = Ok (0, (λ j, get_sender_fifo_fname j 100) <$> seqZ 1 12, k)) as Eo.
  { unfold open_fifos. rewrite (open_from_ok open_ok); [done|done|].
    intros j Hj. rewrite Hk by lia. done. }
  assert (receiver_start open_ok ip_prefix_str k
    = Ok (Some (u32 (strtol_int ip_prefix_str), (λ j, get_sender_fifo_fname j 100) <$> seqZ 1 12), k)) as Er
    by (unfold receiver_start; by rewrite (bind_ok _ _ _ _ _ Eo)).
  wp_step. apply wp_zoom. cbn [tb_kernel]. unfold wp at 1. rewrite Er. wp_steps.
  cbn [tb_kernel tb_dw tb_lost tb_handlers tb_pkts tb_conditions]. unfold flow_infor_start. rewrite same_fifo_name by done.
  unfold wp at 1, openFIFO. unfold NUM_SENDERS in Hi. rewrite Hk, open_works by lia. wp_steps. split; [done|]. split; [|done].
  destruct (vl_create_ok HASH_MAP_SIZE ltac:(done)) as (s & Es & Hs).
  split; cbn [tb_kernel tb_dw tb_lost tb_handlers tb_pkts tb_conditions].
  - exists P, (m_set_rand x m_init), s, kempty. split_and!; [exact R|..|exact Hs| |by split]; try done.
    intros k' j. simpl. unfold kempty. set_solver.
  - intros j Hj. unfold NUM_SENDERS in Hj. split.
    + rewrite list_lookup_fmap, lookup_seqZ_lt by lia. simpl. do 2 f_equal. lia.
    + rewrite Hk by lia. done.
  - by rewrite Hk by lia.
  - exact Hbuf.
Qed.

Lemma wp_boot (i : Z) (ip_prefix_str : text) (k0 : kernel) :
  1 <= i <= NUM_SENDERS →
  wp (boot setting mkfifo_ok open_ok ip_prefix_str (Some (host_dev i))) (λ r t,
    r = Some (u32 (strtol_int ip_prefix_str), get_sender_fifo_fname i 100) ∧
    tb_inv setting fsize (get_sender_fifo_fname i 100) kempty no_accounts t ∧
    tb_wire t = [] ∧ tb_sending t = not_sending) (powered_off (VI:=VI) (VF:=VF) (FX:=FX) k0).
Proof.
  intros Hi. unfold boot, powered_off. wp_step. unfold at_updator, on_udw. apply wp_zoom, wp_zoom. cbn [us_dw tb_dw].
  eapply wp_mono; [by apply (init_ok setting fsize)|]. intros r d [-> [P R]].
  cbn [us_dw us_kernel total_lost_pkt_num tb_dw tb_lost tb_kernel tb_handlers tb_pkts tb_conditions].
  rewrite decide_False by (intros []; done).
  by eapply (wp_boot_network i 0); [| | |apply not_sending_ok].
Qed.

Context (sendpacket : list raw_packet → raw_packet → Z).
Context (switches_ok : ∀ k t, tasks k = Some t → Forall (λ id, 1 <= id <= 12) (monitor_switch_ids t)).

(** A run from the start: the records are those of the accounts. *)
Lemma booted_run (i : Z) (ip_prefix_str : text) (k0 : kernel) (os : list tb_op) :
  1 <= i <= NUM_SENDERS → Forall (op_ok datalink) os → sent (λ _, true) os < 2 ^ 30 →
  let net := u32 (strtol_int ip_prefix_str) in
  let fifo := get_sender_fifo_fname i 100 in
  let a := account_ops net fifo os no_accounts in
  ∃ (t0 t : testbed VI VF FX) P m,
    boot setting mkfifo_ok open_ok ip_prefix_str (Some (host_dev i)) (powered_off k0) = Ok (Some (net, fifo), t0) ∧
    do_tbs setting tasks datalink net fifo sendpacket os t0 = Ok (tt, t) ∧ wrep fsize [] P (tb_dw t) m ∧
    records setting fsize (m_idx m) (updates a) m ∧ accounts_ok (λ sel, sent sel os) a.
Proof.
  intros Hi Hos Hb net fifo a. pose proof (wp_boot i ip_prefix_str k0 Hi) as Hboot.
  apply wp_run in Hboot as (r & t0 & Eboot & -> & Hinv & _).
  pose proof (run_tbs setting fsize tasks datalink net fifo
    sendpacket switches_ok kempty os (λ _, 0) no_accounts t0 Hinv no_accounts_ok Hos ltac:(lia) ltac:(lia)) as Hrun.
  apply wp_run in Hrun as ([] & t & Erun & [(P & m & s & pm & R & _ & Rec & _) _ _ _] & Hok).
  by exists t0, t, P, m.
Qed.

(** C16. What the warehouse records, over any network.  A sender is started at
    host [i] and a receiver in its network; then packets are sent, packets of
    any senders arrive at the receiver in any order and any number of times or
    not at all, and the updator reads the reports, in any interleaving.  As long
    as less than 2^30 bytes are sent nothing faults, and the sender's warehouse
    records for every source exactly the volume sent; and if the packets of
    every flow are numbered upwards, it records as lost exactly the volume of
    the packets that are overtaken, those for which the report of a later packet
    of their flow is read before one of their own.  So a packet that arrives
    after a later one counts as lost, and one that never arrives counts once a
    later one is reported and not before. *)
Theorem losses_accounted (i : Z) (ip_prefix_str : text) (k0 : kernel) (os : list tb_op) :
  1 <= i <= NUM_SENDERS → Forall (op_ok datalink) os → sent (λ _, true) os < 2 ^ 30 →
  let net := u32 (strtol_int ip_prefix_str) in
  let fifo := get_sender_fifo_fname i 100 in
  ∃ (t0 t : testbed VI VF FX) P m,
    boot setting mkfifo_ok open_ok ip_prefix_str (Some (host_dev i)) (powered_off k0) = Ok (Some (net, fifo), t0) ∧
    do_tbs setting tasks datalink net fifo sendpacket os t0 = Ok (tt, t) ∧ wrep fsize [] P (tb_dw t) m ∧
    ∀ k, m_vi m (Buf flow_volume_map (m_idx m)) k = entry_of (volume_of (of_source k) (sent_packets os)) ∧
      (numbered os →
       m_vi m (Buf flow_loss_volume_map (m_idx m)) k = entry_of (volume_of (of_source k) (overtaken_in net fifo os))).
Proof.
  intros Hi Hos Hb net fifo.
  destruct (booted_run i ip_prefix_str k0 os Hi Hos Hb) as (t0 & t & P & m & Eboot & Erun & R & Rec & Hok).
  exists t0, t, P, m. split; [done|]. split; [done|]. split; [done|]. intros k. fold net fifo in Rec, Hok.
  destruct (ao_source _ _ Hok k) as (_ & _ & Ev & _). destruct Rec as [Rec _ _]. specialize (Rec k).
  pose proof (started_fates (K := K) net fifo os k (op_sized datalink os Hos)) as Hl.
  destruct (tally k _) as [v l]. cbn [fst snd] in *. destruct Rec as (E1 & E2 & _).
  rewrite E1, E2, Ev, <- sent_volume. split; [done|]. intros Hn. by rewrite Hl.
Qed.
End started.

(** ** Witness *)
(** Two packets are sent and both arrive, the second one first: the first packet
    counts as lost. *)
Definition tcp_filler : filler := Filler [] (replicate 12 17) (replicate 9 69) [0; 0] [0; 0; 0; 0; 80; 16].
Definition demo_overtaken : list tb_op :=
  [TSend tcp_filler [0] demo_packet_flow 1 1500; TSend tcp_filler [0] demo_packet_flow 2 100;
   TReceive tcp_filler [0] demo_packet_flow 2; TReceive tcp_filler [0] demo_packet_flow 1; TReport; TReport].

Lemma tcp_frame_ok sid : in_u 32 sid →
  frame_ok 1 tcp_filler [0] demo_packet_flow sid ∧ tcp_frame tcp_filler [0] demo_packet_flow.
Proof.
  intros Hs. split.
  - assert (Forall bytes_of [fl_mac tcp_filler; fl_ip tcp_filler; fl_sum tcp_filler; fl_rest tcp_filler]) as Hall
      by (by apply (bool_decide_unpack _); vm_compute).
    rewrite !Forall_cons in Hall. destruct Hall as (?&?&?&?&_). split; try done; [by repeat constructor|].
    unfold filler_ok. by split_and!; try done; constructor.
  - split; try done; eexists; by split.
Qed.
Lemma demo_overtaken_ok : Forall (op_ok 1) demo_overtaken.
Proof.
  assert (∀ sid, sid = 1 ∨ sid = 2 → frame_ok 1 tcp_filler [0] demo_packet_flow sid ∧
    tcp_frame tcp_filler [0] demo_packet_flow) as Hf.
  { intros sid Hs. apply tcp_frame_ok. unfold in_u. lia. }
  destruct (Hf 1) as [H1 Ht1]; [by left|]. destruct (Hf 2) as [H2 Ht]; [by right|].
  unfold demo_overtaken. rewrite !Forall_cons. by split_and!.
Qed.
Lemma task_in_list ts k t : get_task_of_traffic ts k = Some t → t ∈ ts.
Proof.
  induction ts as [|t' ts IH]; [done|]. simpl. case_match; [intros [= ->]; left|intros E; right; auto].
Qed.
Lemma demo_tasks_switches k t : demo_tasks k = Some t → Forall (λ id, 1 <= id <= 12) (monitor_switch_ids t).
Proof.
  intros Ht. assert (t ∈ [demo_task]) as ->%list_elem_of_singleton by (by eapply task_in_list). by repeat constructor.
Qed.

Lemma losses_accounted_witness :
  ∃ (t0 t : testbed vi_handle vf_handle fx_handle) P m,
    do_tbs demo_setting demo_tasks 1 11 (get_sender_fifo_fname 1 100) takes_all demo_overtaken t0 = Ok (tt, t) ∧
    wrep 10 [] P (tb_dw t) m ∧
    m_vi m (Buf flow_volume_map (m_idx m)) demo_flow = Some 1600 ∧
    m_vi m (Buf flow_loss_volume_map (m_idx m)) demo_flow = Some 1500.
Proof.
  destruct (losses_accounted (VI:=vi_handle) (VF:=vf_handle) (FX:=fx_handle) demo_setting 10 demo_tasks 1
    demo_bucket_size ltac:(done) (λ _, true) (λ _, true) ltac:(done) ltac:(done) takes_all) with (i := 1) (ip_prefix_str := [49; 49])
    (k0 := ∅ : kernel) (os := demo_overtaken) as (t0 & t & P & m & _ & E & R & Hk).
  - apply demo_tasks_switches.
  - done.
  - apply demo_overtaken_ok.
  - done.
  - exists t0, t, P, m. split; [exact E|]. split; [exact R|]. destruct (Hk demo_flow) as [E1 E2].
    split; [by rewrite E1|]. rewrite E2; [done|]. repeat constructor.
Defined.

Lemma parsers_agree_witness :
  parse_headers (frame tcp_filler [0] demo_packet_flow 1)
  = Ok (TcpPacket (Report 167772161 184549377 4000 80 6 1), frame tcp_filler [0] demo_packet_flow 1).
Proof.
  apply (parsers_agree (frame tcp_filler [0] demo_packet_flow 1) 129 demo_packet_flow 1
    (frame tcp_filler [0] demo_packet_flow 1)); [|reflexivity].
  split; [reflexivity| |].
  - intros ty _ E. by injection E as <-.
  - exists 69, 6, 80. by vm_compute.
Defined.
