(* ===== verification/LossProps.v ===== *)
(** * The losses of a run in order are detected

    When the network keeps the order of the packets of every flow, the
    sender's warehouse ends with exactly the losses the network caused. *)
From S2P Require Import Prelude CMonad CFloat ChainedTable ChainSpec TableSpec FixSizeTable FixSizeSpec FixSizeIface.
From S2P Require Import Flow PktListTable PktListSpec PktListProps ObjStore Settings Sample FlowTables Warehouse.
From S2P Require Import WarehouseSpec WarehouseRecords WarehouseProps Config Bytes VlanTag VlanProps CText TaskManager SendPacket FrameSpec.
From S2P Require Import ConditionSender ConditionProps SendProps SendPackets Fifo Receiver FlowInforUpdator Testbed TestbedSpec LossSpec TestbedProps.

Implicit Types (f : flow_s) (os : list tb_op) (d : list (flow_s * Z)) (x : flow_s * (Z * Z)).

(** ** Runs that end with reports *)
Lemma in_order_nil : in_order [].
Proof. intros os1 o os2 E. by destruct os1. Qed.
Lemma in_order_snoc os o : in_order os → step_in_order os o → in_order (os ++ [o]).
Proof.
  intros Ho Hs os1 o1 os2 E. destruct os2 as [|o2 os2 _] using rev_ind; [by apply app_inj_tail in E as [<- <-]|].
  rewrite app_comm_cons, app_assoc in E. apply app_inj_tail in E as [E _]. by eapply Ho.
Qed.
#[export] Instance step_in_order_dec os o : Decision (step_in_order os o).
Proof. destruct o; simpl; apply _. Defined.
(** The same, step by step *)
Fixpoint steps_in_order os1 os2 : Prop :=
  match os2 with [] => True | o :: os2 => step_in_order os1 o ∧ steps_in_order (os1 ++ [o]) os2 end.
#[export] Instance steps_in_order_dec os1 os2 : Decision (steps_in_order os1 os2).
Proof. revert os1. induction os2 as [|o os2 IH]; intros os1; simpl; apply _. Defined.
Lemma in_order_steps os1 os2 : in_order os1 → steps_in_order os1 os2 → in_order (os1 ++ os2).
Proof.
  revert os1. induction os2 as [|o os2 IH]; intros os1 Ho Hs; [by rewrite app_nil_r|]. destruct Hs as [Hs1 Hs2].
  replace (os1 ++ o :: os2) with ((os1 ++ [o]) ++ os2) by (by rewrite <- app_assoc). by apply IH; [apply in_order_snoc|].
Qed.
Definition reports (n : nat) : list tb_op := replicate n TReport.
Lemma reports_S n os : os ++ reports (S n) = (os ++ [TReport]) ++ reports n.
Proof. by rewrite <- app_assoc. Qed.
Lemma in_order_reports n os : in_order os → in_order (os ++ reports n).
Proof.
  revert os. induction n as [|n IH]; intros os Ho; [by rewrite app_nil_r|].
  rewrite reports_S. by apply IH, in_order_snoc.
Qed.
Lemma sent_packets_reports n os : sent_packets (os ++ reports n) = sent_packets os.
Proof. rewrite sent_packets_app. induction n as [|n IH]; [apply app_nil_r|done]. Qed.
Lemma arrivals_reports n os : arrivals (os ++ reports n) = arrivals os.
Proof. rewrite arrivals_app. induction n as [|n IH]; [apply app_nil_r|done]. Qed.

Section machine.
Context {K : Type} `{KeyLaws K} `{!PacketFlow K} (net_identity : Z) (fifo_handler : text).
Local Abbreviation run os a := (account_ops (K := K) net_identity fifo_handler os a).
Implicit Types (a : accounts K).

Lemma exact_same os os' d a :
  sent_packets os' = sent_packets os → arrivals os' = arrivals os → exact os d a → exact os' d a.
Proof. intros Es Ea [E1 E2 E3]. split; rewrite ?Es, ?Ea; done. Qed.

(** The accounts of a run in order are exact. *)
Lemma run_accounts_ok os :
  Forall sized os → sent (λ _, true) os < 2 ^ 30 → accounts_ok (λ sel, sent sel os) (run os no_accounts).
Proof.
  induction os as [|o os IH] using rev_ind; intros Hs Hb; [apply no_accounts_ok|].
  apply Forall_app in Hs as [Hs Hso]. rewrite Forall_singleton in Hso.
  assert (∀ sel, sent sel (os ++ [o]) = sent sel os + sent sel [o]) as Esum
    by (intros sel; by rewrite !sent_volume, sent_packets_app, volume_of_app).
  assert (0 <= sent (λ _, true) [o]) by (destruct o; cbn in Hso |- *; lia). rewrite Esum in Hb.
  specialize (IH Hs ltac:(lia)). unfold account_ops. rewrite foldl_app. fold (run os no_accounts). cbn [foldl].
  destruct o as [fl tags f sid len|fl tags f sid|].
  - eapply accounts_ok_ext; [|by apply accounts_send; [exact IH|]]. intros sel. rewrite Esum. simpl. lia.
  - eapply accounts_ok_ext; [|apply accounts_receive; exact IH]. intros sel. rewrite Esum. simpl. lia.
  - eapply accounts_ok_ext; [|apply accounts_turn; [exact IH|simpl in *; lia]]. intros sel. rewrite Esum. simpl. lia.
Qed.

Lemma run_exact os :
  in_order os → Forall sized os → Forall (λ y, reported_here net_identity fifo_handler y.1) (arrivals os) →
  sent (λ _, true) os < 2 ^ 30 → ∃ d, exact os d (run os no_accounts).
Proof.
  induction os as [|o os IH] using rev_ind; intros Ho Hs Hr Hb; [by exists []|].
  pose proof (run_accounts_ok (os ++ [o]) Hs Hb) as Hok.
  apply Forall_app in Hs as [Hs Hso]. rewrite Forall_singleton in Hso. rewrite arrivals_app in Hr. apply Forall_app in Hr as [Hr Hro].
  assert (sent (λ _, true) (os ++ [o]) = sent (λ _, true) os + sent (λ _, true) [o]) as Esum
    by (by rewrite !sent_volume, sent_packets_app, volume_of_app).
  assert (0 <= sent (λ _, true) [o]) by (destruct o; cbn in Hso |- *; lia). rewrite Esum in Hb.
  destruct (IH (in_order_app _ _ Ho) Hs Hr ltac:(lia)) as (d & He). pose proof (run_accounts_ok os Hs ltac:(lia)) as Ha.
  unfold account_ops. rewrite foldl_app. fold (run os no_accounts). cbn [foldl].
  destruct o as [fl tags f sid len|fl tags f sid|].
  - exists d. by apply exact_send.
  - exists d. simpl in Hro. rewrite Forall_singleton in Hro. by apply exact_receive.
  - assert (∀ d a, exact os d a → exact (os ++ [TReport]) d a) as Hsame
      by (intros d' a; apply exact_same; [exact (sent_packets_reports 1 os)|exact (arrivals_reports 1 os)]).
    cbn [account_op]. destruct (queued (run os no_accounts)) as [|[f sid] q] eqn:Eq; [exists d; by apply Hsame|].
    exists (d ++ [(f, sid)]). assert (sent (λ _, true) os < 2 ^ 30) by lia.
    by eapply Hsame, exact_report; [exact (in_order_app _ _ Ho)|..].
Qed.

(** Enough reports empty the queue. *)
Lemma reports_drain n a : length (queued (run (reports n) a)) = (length (queued a) - n)%nat.
Proof.
  revert a. induction n as [|n IH]; intros a; [simpl; lia|].
  change (run (reports (S n)) a) with (run (reports n) (account_op net_identity fifo_handler TReport a)). rewrite IH.
  cbn [account_op]. destruct (queued a) as [|[f sid] q] eqn:Eq; [by rewrite Eq|].
  unfold account_report. destruct (account sid _). simpl. lia.
Qed.

(** And then every report is read. *)
Lemma run_read os n :
  in_order os → Forall sized (os ++ reports n) → Forall (λ y, reported_here net_identity fifo_handler y.1) (arrivals os) →
  sent (λ _, true) os < 2 ^ 30 → (length (arrivals os) <= n)%nat →
  exact (os ++ reports n) (arrivals os) (run (os ++ reports n) no_accounts).
Proof.
  intros Ho Hs Hr Hb Hn. pose proof Hs as [Hs1 _]%Forall_app. destruct (run_exact os Ho Hs1 Hr Hb) as (d0 & [Ea0 _ _]).
  destruct (run_exact (os ++ reports n)) as (d & He).
  { by apply in_order_reports. } { done. } { by rewrite arrivals_reports. }
  { by rewrite sent_volume, sent_packets_reports, <- sent_volume. }
  pose proof He as [Ea _ _]. rewrite arrivals_reports in Ea.
  assert (queued (run (os ++ reports n) no_accounts) = []) as Eq.
  { apply length_zero_iff_nil. unfold account_ops. rewrite foldl_app. fold (run os no_accounts).
    pose proof (reports_drain n (run os no_accounts)) as Hd. unfold account_ops in Hd |- *. rewrite Hd.
    apply (f_equal length) in Ea0. rewrite length_app in Ea0. unfold account_ops in Ea0. lia. }
  rewrite Eq, app_nil_r in Ea. by rewrite Ea.
Qed.
End machine.

Lemma filter_ext_in {A} (P Q : A → Prop) `{!∀ a, Decision (P a)} `{!∀ a, Decision (Q a)} (l : list A) :
  (∀ a, a ∈ l → P a ↔ Q a) → filter P l = filter Q l.
Proof.
  induction l as [|a l IH]; intros Hpq; [done|]. rewrite !filter_cons, IH by (intros b Hb; apply Hpq; by right).
  assert (a ∈ a :: l) as Ha by left. specialize (Hpq a Ha). repeat case_decide; tauto.
Qed.

(** Every packet sent arrives or is followed by a packet of its flow that does. *)
Definition flushed os : Prop :=
  Forall (λ x, Exists (λ y, key_compare y.1 x.1 = 0 ∧ x.2.1 <= y.2) (arrivals os)) (sent_packets os).

Lemma lost_or_arrived os x : flushed os → x ∈ sent_packets os → lost_in (arrivals os) x ↔ ¬ arrived os x.
Proof.
  intros Hf Hx. unfold flushed in Hf. rewrite Forall_forall in Hf. specialize (Hf x Hx). unfold lost_in, arrived.
  split; [tauto|]. intros Hno. split; [|done]. apply Exists_exists in Hf as (y & Hy & E & Hle).
  apply Exists_exists. exists y. split; [done|]. split; [done|].
  destruct (decide (y.2 = x.2.1)); [|lia]. exfalso. apply Hno, Exists_exists. by exists y.
Qed.

(** At the end of a flushed run whose reports are read nothing is in flight or
    queued, and the updates tell what was sent and what never arrived. *)
Section drained.
Context {K : Type} `{KeyLaws K} `{!PacketFlow K} (net_identity : Z) (fifo_handler : text).

(** The volume sent for a source, and the volume of its packets that never
    arrived *)
Definition true_volumes os (k : K) : Z * Z :=
  (volume_of (of_source k) (sent_packets os),
   volume_of (of_source k) (filter (λ x, ¬ arrived os x) (sent_packets os))).

Lemma flushed_run os n :
  in_order os → Forall sized (os ++ reports n) → Forall (λ y, reported_here net_identity fifo_handler y.1) (arrivals os) →
  sent (λ _, true) os < 2 ^ 30 → (length (arrivals os) <= n)%nat → flushed os →
  let a := account_ops (K := K) net_identity fifo_handler (os ++ reports n) no_accounts in
  in_flight a = [] ∧ queued a = [] ∧ ∀ k, tally k (updates a) = true_volumes os k.
Proof.
  intros Ho Hs Hr Hb Hn Hf a.
  destruct (run_read (K := K) net_identity fifo_handler os n Ho Hs Hr Hb Hn) as [Ea Ef El]. fold a in Ea, Ef, El.
  rewrite arrivals_reports in Ea. rewrite sent_packets_reports in Ef, El.
  pose proof (run_accounts_ok (K := K) net_identity fifo_handler (os ++ reports n) Hs) as Hok.
  rewrite sent_volume, sent_packets_reports, <- sent_volume in Hok. specialize (Hok Hb).
  fold a in Hok. split_and!.
  - rewrite Ef. apply filter_nothing. unfold flushed in Hf. eapply Forall_impl; [exact Hf|].
    intros x Hx%Exists_exists Hp. destruct Hx as (y & Hy & E & Hle). unfold pending in Hp.
    rewrite Forall_forall in Hp. specialize (Hp y Hy E). lia.
  - apply (app_inv_head (arrivals os)). by rewrite app_nil_r.
  - intros k. destruct (ao_source _ _ Hok k) as (_ & _ & Ev & _). specialize (El k).
    rewrite sent_volume, sent_packets_reports in Ev. destruct (tally k (updates a)) as [v l]. cbn [fst snd] in *. subst v l.
    unfold true_volumes. f_equal. f_equal. apply filter_ext_in. intros x Hx. by apply lost_or_arrived.
Qed.
End drained.

(** ** From the start *)
Section started.
Context {K VI VF FX : Type} `{KeyLaws K}.
Context `{!FlowTable K Z Z VI} `{!FlowTableLaws K Z Z VI} `{!IntTable K VI}.
Context `{!FlowTable K c_float c_float VF} `{!FlowTableLaws K c_float c_float VF}.
Context `{!FixedTable K FX} `{!FixedTableLaws K FX} `{!PacketFlow K}.
Context (setting : cm_experiment_setting_t) (fsize : Z) (tasks : K → option task_t) (datalink : Z).
Context (fsize_ok : int_of_float (fix_loss_map_bucket_size (sender_setting setting)) = Some fsize) (fsize_pos : 0 < fsize).
Context (mkfifo_ok open_ok : text → bool) (mkfifo_works : ∀ name, mkfifo_ok name = true)
  (open_works : ∀ name, open_ok name = true).
Context (sendpacket : list raw_packet → raw_packet → Z).
Context (switches_ok : ∀ k t, tasks k = Some t → Forall (λ id, 1 <= id <= 12) (monitor_switch_ids t)).

(** The flow is of host [i], and not of the network of the receiver. *)
Definition sent_by (i net : Z) f : Prop := GET_SENDER_IDX (f_srcip f) = i - 1 ∧ GET_NET_IDENTITY (f_srcip f) ≠ net.
Lemma sent_by_reported i net f : sent_by i net f → reported_here net (get_sender_fifo_fname i 100) f.
Proof.
  intros [Ei En]. split; [by rewrite Z.lxor_eq_0_iff|]. unfold fifo_of. rewrite Ei. f_equal. lia.
Qed.

(** C8. Every loss is detected, and nothing else.  A sender is started at host
    [i] and a receiver; packets are sent, arrive and are reported in any
    interleaving that keeps the order of the packets of a flow, and every
    flow's last packet arrives.  Once the updator has had as many turns as
    packets arrived, the warehouse holds for every source the volume sent and,
    as its lost volume, the volume of its packets that never arrived; the loss
    rate and the selection of the flow follow from these, or with the fixed-size
    loss map from at most this loss. *)
Theorem losses_detected (i : Z) (ip_prefix_str : text) (k0 : kernel) os (n : nat) :
  let net := u32 (strtol_int ip_prefix_str) in
  let fifo := get_sender_fifo_fname i 100 in
  1 <= i <= NUM_SENDERS → Forall (op_ok datalink) os → sent (λ _, true) os < 2 ^ 30 →
  in_order os → Forall (λ y, sent_by i net y.1) (arrivals os) → flushed os → (length (arrivals os) <= n)%nat →
  ∃ (t0 t : testbed VI VF FX) P m,
    boot setting mkfifo_ok open_ok ip_prefix_str (Some (host_dev i)) (powered_off k0) = Ok (Some (net, fifo), t0) ∧
    do_tbs setting tasks datalink net fifo sendpacket (os ++ reports n) t0 = Ok (tt, t) ∧ wrep fsize [] P (tb_dw t) m ∧
    ∀ k, let v := volume_of (of_source k) (sent_packets os) in
      let l := volume_of (of_source k) (filter (λ x, ¬ arrived os x) (sent_packets os)) in
      m_vi m (Buf flow_volume_map (m_idx m)) k = entry_of v ∧
      m_vi m (Buf flow_loss_volume_map (m_idx m)) k = entry_of l ∧
      ∃ s, 0 <= s <= l ∧ (loss_map_mem_type (sender_setting setting) = INFINITE → s = l) ∧
        m_vf m (m_idx m) k = (if decide (0 < v) then Some (int_ratio s v) else None) ∧
        m_vi m (Buf flow_selected_level_map (m_idx m)) k =
          (if decide (0 < v) then flow_level setting v s (int_ratio s v) else None).
Proof.
  intros net fifo Hi Hos Hb Ho Hr Hf Hn.
  assert (Forall (op_ok datalink) (os ++ reports n)) as Hos'.
  { apply Forall_app. split; [done|]. by apply Forall_replicate. }
  assert (∀ sel, sent sel (os ++ reports n) = volume_of sel (sent_packets os)) as Esent
    by (intros sel; by rewrite sent_volume, sent_packets_reports).
  assert (sent (λ _, true) (os ++ reports n) < 2 ^ 30) as Hb' by (rewrite Esent, <- sent_volume; done).
  destruct (booted_run (VI:=VI) (VF:=VF) (FX:=FX) setting fsize tasks datalink fsize_ok fsize_pos mkfifo_ok
    open_ok mkfifo_works open_works sendpacket switches_ok i ip_prefix_str k0 _ Hi Hos' Hb')
    as (t0 & t & P & m & Eboot & Erun & R & Rec & Hok). fold net fifo in Eboot, Erun, Rec, Hok.
  exists t0, t, P, m. split; [done|]. split; [done|]. split; [done|]. intros k.
  assert (Forall sized (os ++ reports n)) as Hsz.
  { eapply Forall_impl; [exact Hos'|]. intros [fl tags f sid len| |]; simpl; [|done..]. unfold TCPR_IPV4_H. lia. }
  destruct (flushed_run (K := K) net fifo os n Ho Hsz) as (_ & _ & Et); [|exact Hb|done|done|].
  { eapply Forall_impl; [exact Hr|]. intros y. apply sent_by_reported. }
  assert (total (updates (account_ops net fifo (os ++ reports n) no_accounts)) < 2 ^ 31) as Htot.
  { pose proof (ao_total _ _ Hok). pose proof (volume_of_nonneg (λ _, true) _ (ao_nonneg _ _ Hok)). cbn beta in *. lia. }
  pose proof (loss_seen_bounds setting fsize _ _ _ k Rec Htot) as Hseen. destruct Rec as [Rec _ _]. specialize (Rec k).
  rewrite Et in Rec, Hseen. unfold true_volumes in Rec, Hseen. cbn [snd] in Hseen. destruct Rec as (E1 & E2 & E3).
  split_and!; [done|done|]. eexists. split; [exact Hseen|]. split; [apply loss_seen_exact|exact E3].
Qed.
End started.

(** ** Witness *)
(** Three packets are sent and the last two arrive. *)
Definition demo_run : list tb_op :=
  [TSend tcp_filler [0] demo_packet_flow 1 1500; TSend tcp_filler [0] demo_packet_flow 2 100;
   TReceive tcp_filler [0] demo_packet_flow 2; TSend tcp_filler [0] demo_packet_flow 3 64;
   TReceive tcp_filler [0] demo_packet_flow 3].
Lemma demo_run_op_ok : Forall (op_ok 1) demo_run.
Proof.
  destruct (tcp_frame_ok 1) as [Hf1 _]; [by unfold in_u|]. destruct (tcp_frame_ok 2) as [Hf2 Ht]; [by unfold in_u|].
  destruct (tcp_frame_ok 3) as [Hf3 _]; [by unfold in_u|]. unfold demo_run. rewrite !Forall_cons. by split_and!.
Qed.
Lemma demo_run_in_order : in_order demo_run.
Proof. apply (in_order_steps [] demo_run in_order_nil). by apply (bool_decide_unpack _); vm_compute. Qed.

Lemma losses_detected_witness :
  ∃ (t0 t : testbed vi_handle vf_handle fx_handle) P m,
    do_tbs demo_setting demo_tasks 1 11 (get_sender_fifo_fname 1 100) takes_all (demo_run ++ reports 2) t0 = Ok (tt, t) ∧
    wrep 10 [] P (tb_dw t) m ∧
    m_vi m (Buf flow_volume_map (m_idx m)) demo_flow = Some 1664 ∧
    m_vi m (Buf flow_loss_volume_map (m_idx m)) demo_flow = Some 1500 ∧
    m_vi m (Buf flow_selected_level_map (m_idx m)) demo_flow = Some TARGET_LEVEL.
Proof.
  destruct (losses_detected (VI:=vi_handle) (VF:=vf_handle) (FX:=fx_handle) demo_setting 10 demo_tasks 1
    demo_bucket_size ltac:(done) (λ _, true) (λ _, true) ltac:(done) ltac:(done) takes_all) with (i := 1) (ip_prefix_str := [49; 49])
    (k0 := ∅ : kernel) (os := demo_run) (n := 2%nat) as (t0 & t & P & m & _ & E & R & Hk).
  - apply demo_tasks_switches.
  - done.
  - apply demo_run_op_ok.
  - done.
  - apply demo_run_in_order.
  - by repeat constructor.
  - by repeat constructor.
  - done.
  - exists t0, t, P, m. split; [exact E|]. split; [exact R|]. destruct (Hk demo_flow) as (E1 & E2 & sn & _ & Esn & _ & E4).
    rewrite (Esn eq_refl) in E4. rewrite E1, E2, E4. split_and!; lazy; reflexivity.
Defined.
