(* ===== verification/ReceiverProps.v ===== *)
(** * Properties of the receiver

    What the whole program does with the packets it captures: the report of
    every packet of another network goes to the FIFO of its sender. *)
From stdpp Require Import strings.
From S2P Require Import Prelude CMonad CFloat ChainedTable TableSpec FixSizeTable FixSizeIface Flow.
From S2P Require Import PktListTable ObjStore Settings Sample FlowTables Warehouse Bytes VlanTag VlanProps CText TaskManager.
From S2P Require Import Config SendPacket FrameSpec SendProps ConditionSender ConditionWire Fifo Receiver Testbed TestbedSpec TestbedProps.

(** ** What is captured *)
(** A UDP packet without IP options *)
Lemma parse_headers_udp datalink fl tags f seqid tos_on :
  frame_ok datalink fl tags f seqid → fl_pre fl = [] → (length tags <= 1)%nat → fl_ip fl = 69 :: tos_on →
  f_protocol f = 17 → parse_headers (frame fl tags f seqid) = Ok (UdpPacket, frame fl tags f seqid).
Proof.
  intros Hok Hp Hl Hip Hudp. apply wp_exact. unfold parse_headers. wp_step.
  apply (wp_header_len datalink); [done..|]. pose proof Hok as [_ _ _ (_ & _ & _ & _ & _ & _ & L1 & L2 & _)].
  assert (frame fl tags f seqid = (fl_mac fl ++ vlan_hdrs tags) ++ ip_part [8; 0] fl f seqid) as ->
    by (unfold frame, eth_frame; rewrite Hp; cbn [app]; by rewrite app_assoc).
  assert (Z.of_nat (length (fl_mac fl ++ vlan_hdrs tags)) = 12 + 4 * Z.of_nat (length tags)) as Hbase
    by (rewrite length_app, length_vlan_hdrs; lia).
  set (base := fl_mac fl ++ vlan_hdrs tags) in *. clearbody base. rewrite decide_False by lia.
  unfold ip_part. rewrite Hip in *. destruct tos_on as [|x1 [|x2 [|x3 [|x4 [|x5 [|x6 [|x7 [|x8 [|]]]]]]]]]; try done.
  wp_step. eapply (wp_read8_after base _ 2); [lia|lia|reflexivity|]. rewrite decide_False by done.
  wp_step. eapply (wp_read8_after base _ 11); [lia|lia|reflexivity|].
  rewrite Hudp, decide_False, decide_True by done. by apply wp_ret.
Qed.

(** The bytes of a TCP packet of a sender, with its flow and sequence number, or
    of a condition packet *)
Inductive captured : list Z → option (flow_s * Z) → Prop :=
| captured_tcp datalink fl tags f seqid :
    frame_ok datalink fl tags f seqid → tcp_frame fl tags f → from_sender f →
    captured (frame fl tags f seqid) (Some (f, seqid))
| captured_condition c level p b :
    condition_ok c → 0 <= level <= 3 → condition_pkt c level = Ok p → completes p b →
    captured b None.

(** ** What is reported *)
Section receiver.
Context (net_identity : Z).

(** Packets that this host sent itself are not reported. *)
Definition to_report (x : option (flow_s * Z)) : option (flow_s * Z) :=
  r ← x; if decide (Z.lxor (GET_NET_IDENTITY (f_srcip r.1)) net_identity = 0) then None else Some r.
Definition reports_to (name : text) (xs : list (option (flow_s * Z))) : list recv_2_send_proto_t :=
  report_of <$> filter (λ r, fifo_of r.1 = name) (omap to_report xs).
Definition conditions (xs : list (option (flow_s * Z))) : Z := Z.of_nat (length (filter (λ x, ¬ is_Some x) xs)).
Definition packets_reported (xs : list (option (flow_s * Z))) : Z := Z.of_nat (length (omap to_report xs)).

Lemma u32_next a b : u32 (u32 (a + 1) + b) = u32 (a + (1 + b)).
Proof. unfold wrap. rewrite Zplus_mod_idemp_l. f_equal. lia. Qed.

Lemma wp_got_condition c level p b k hs n m (Q : unit → recv_state → Prop) :
  condition_ok c → 0 <= level <= 3 → condition_pkt c level = Ok p → completes p b →
  Q tt (RecvState k hs n (u32 (m + 1))) → wp (got_packet net_identity b) Q (RecvState k hs n m).
Proof.
  intros Hc Hl Ep Hb HQ.
  destruct (condition_is_frame 1 c level p b ltac:(done) Hc Hl Ep Hb) as (fl & dstip & seqid & -> & Hok & _ & Hpre & rest & Hip).
  unfold got_packet. rewrite (parse_headers_udp 1 fl _ _ _ rest) by (done || (simpl; lia)). wp_steps. exact HQ.
Qed.

Lemma wp_got_packets bs xs : Forall2 captured bs xs → ∀ k hs n m (Q : unit → recv_state → Prop),
  fifos_ok k hs → in_u 32 n → in_u 32 m →
  (∀ k', (∀ name q, k !! name = Some q → k' !! name = Some (q ++ reports_to name xs)) →
    Q tt (RecvState k' hs (u32 (n + packets_reported xs)) (u32 (m + conditions xs)))) →
  wp (got_packets net_identity bs) Q (RecvState k hs n m).
Proof.
  induction 1 as [|b x bs xs Hx _ IH]; intros k hs n m Q Hk Hn Hm HQ; cbn [got_packets].
  { apply wp_ret. specialize (HQ k). unfold packets_reported, conditions in HQ. simpl in HQ. rewrite !Z.add_0_r, !wrap_small in HQ by done.
    apply HQ. intros name q Eq. unfold reports_to. simpl. by rewrite app_nil_r. }
  wp_step. destruct Hx as [datalink fl tags f seqid Hok Ht Hf|c level p b Hc Hl Ep Hb].
  - eapply (wp_got_packet _ datalink); [done..| |].
    + intros E. apply IH; [done..|]. intros k' Hk'. unfold packets_reported, conditions, reports_to in *.
      cbn [omap list_omap to_report mbind option_bind fst] in HQ. rewrite decide_True in HQ by done.
      rewrite filter_cons_False in HQ by (intros []; eauto). by apply HQ.
    + intros E q Eq. apply IH; [by apply fifos_ok_insert|by apply wrap_in_u|done|]. intros k' Hk'.
      unfold packets_reported, conditions, reports_to in *.
      cbn [omap list_omap to_report mbind option_bind fst] in HQ. rewrite decide_False in HQ by done.
      rewrite (filter_cons_False (λ x, ¬ is_Some x)) in HQ by (intros []; eauto).
      rewrite u32_next. cbn [length] in HQ. rewrite Nat2Z.inj_succ, <- Z.add_1_l in HQ. apply HQ.
      intros name q' Eq'. destruct (decide (fifo_of f = name)) as [<-|Hne].
      * rewrite filter_cons_True by done. rewrite Eq in Eq'. injection Eq' as <-.
        erewrite Hk' by apply lookup_insert_eq. by rewrite fmap_cons, <- app_assoc.
      * rewrite filter_cons_False by done. apply Hk'. by rewrite lookup_insert_ne.
  - eapply wp_got_condition; [done..|]. apply IH; [done|done|by apply wrap_in_u|]. intros k' Hk'.
    unfold packets_reported, conditions, reports_to in *. cbn [omap list_omap to_report mbind option_bind] in HQ.
    rewrite filter_cons_True in HQ by (by intros []). rewrite u32_next. cbn [length] in HQ.
    rewrite Nat2Z.inj_succ, <- Z.add_1_l in HQ. by apply HQ.
Qed.
End receiver.

(** ** The program *)
Section program.
Context (pcap_lookupdev : option text) (pcap_lookupnet : text → option Z).
Context (pcap_open_live : text → bool) (pcap_compile : text → Z → bool) (pcap_setfilter : text → bool).
Context (open_ok : text → bool) (open_works : ∀ name, open_ok name = true).
Local Abbreviation receiver := (main pcap_lookupdev pcap_lookupnet pcap_open_live pcap_compile pcap_setfilter open_ok).
Local Abbreviation setup := (setup pcap_lookupdev pcap_lookupnet pcap_open_live pcap_compile pcap_setfilter).

(** The FIFOs of all senders have been created. *)
Definition fifos_created (k : kernel) : Prop := ∀ j, 1 <= j <= NUM_SENDERS → is_Some (k !! get_sender_fifo_fname j 100).
Definition all_handlers : list text := (λ j, get_sender_fifo_fname j 100) <$> seqZ 1 NUM_SENDERS.
Lemma receiver_start_ok ip_prefix_str k : fifos_created k →
  receiver_start open_ok ip_prefix_str k = Ok (Some (u32 (strtol_int ip_prefix_str), all_handlers), k).
Proof.
  intros Hk. assert (open_fifos open_ok k = Ok (0, all_handlers, k)) as Eo.
  { unfold open_fifos. rewrite (open_from_ok open_ok); [done|done|]. intros j Hj. apply Hk. unfold NUM_SENDERS in *. lia. }
  unfold receiver_start. by rewrite (bind_ok _ _ _ _ _ Eo).
Qed.
Lemma created_fifos_ok k : fifos_created k → fifos_ok k all_handlers.
Proof.
  intros Hk j Hj. unfold all_handlers, NUM_SENDERS in *. split; [|apply Hk; unfold NUM_SENDERS; lia].
  rewrite list_lookup_fmap, lookup_seqZ_lt by lia. simpl. do 2 f_equal. lia.
Qed.
Lemma wp_receiver_started prog ip_prefix_str bs k (Q : Z → recv_state → Prop) : fifos_created k →
  wp (let '(handle, ret) := setup in
      if decide (ret < 0) then mret (-1) else
      match handle with
      | None => throw NullDeref
      | Some _ => got_packets (u32 (strtol_int ip_prefix_str)) (take PCAP_LOOP_CNT bs);; mret 0
      end) Q (RecvState k all_handlers 0 0) →
  wp (receiver [prog; ip_prefix_str] bs) Q (receiver_off k).
Proof.
  intros Hk HQ. unfold main, on_kernel. wp_step. apply wp_zoom. unfold wp at 1. cbn [receiver_off rc_kernel].
  rewrite receiver_start_ok by done. wp_steps. exact HQ.
Qed.

(** C18. The receiver reports what it captures.  Started with the FIFOs created
    and a device, it returns 0 after at most 90 million packets; each FIFO then
    holds, after what was in it, one report per captured TCP packet of the
    sender of the FIFO, with its flow and sequence number and in the order of
    capture, but none for packets of the receiver's own network; condition
    packets of any kind are only counted, and the counters are right modulo
    2^32. *)
Theorem receiver_reports (prog ip_prefix_str dev : text) (k : kernel) bs xs :
  pcap_lookupdev = Some dev → pcap_open_live dev = true → (∀ net, pcap_compile filter_exp net = true) →
  pcap_setfilter filter_exp = true → fifos_created k → Forall2 captured bs xs →
  let net := u32 (strtol_int ip_prefix_str) in let xs := take PCAP_LOOP_CNT xs in
  ∃ k', receiver [prog; ip_prefix_str] bs (receiver_off k)
      = Ok (0, RecvState k' all_handlers (u32 (packets_reported net xs)) (u32 (conditions xs))) ∧
    ∀ name q, k !! name = Some q → k' !! name = Some (q ++ reports_to net name xs).
Proof.
  intros Edev Eopen Ecomp Efilter Hk Hx net ys.
  assert (wp (receiver [prog; ip_prefix_str] bs) (λ ret s, ∃ k', ret = 0 ∧
    s = RecvState k' all_handlers (u32 (packets_reported net ys)) (u32 (conditions ys)) ∧
    ∀ name q, k !! name = Some q → k' !! name = Some (q ++ reports_to net name ys)) (receiver_off k)) as Hwp.
  { apply wp_receiver_started; [done|]. unfold Receiver.setup. rewrite Edev, Eopen, Ecomp, Efilter. cbn [negb].
    rewrite decide_False by lia. wp_step. eapply wp_got_packets; [by apply Forall2_take|by apply created_fifos_ok|done|done|].
    intros k' Hk'. wp_steps. by exists k'. }
  apply wp_run in Hwp as (ret & s & E & k' & -> & -> & Hk'). by exists k'.
Qed.

(** [setup] returns 2 when the device cannot be opened, but [main] tests for a
    negative result: it hands NULL to [pcap_loop]. *)
Theorem receiver_without_device (prog ip_prefix_str dev : text) (k : kernel) bs :
  pcap_lookupdev = Some dev → pcap_open_live dev = false → fifos_created k →
  receiver [prog; ip_prefix_str] bs (receiver_off k) = Fault NullDeref.
Proof.
  intros Edev Eopen Hk. unfold main. erewrite bind_ok; [|unfold on_kernel, zoom; cbn [receiver_off rc_kernel]; by rewrite receiver_start_ok].
  unfold Receiver.setup. by rewrite Edev, Eopen.
Qed.
End program.

(** ** Witnesses *)
Definition demo_kernel : kernel := list_to_map ((λ j, (get_sender_fifo_fname j 100, [])) <$> seqZ 1 NUM_SENDERS).
Lemma demo_fifos_created : fifos_created demo_kernel.
Proof.
  assert (Forall (λ j, is_Some (demo_kernel !! get_sender_fifo_fname j 100)) (seqZ 1 NUM_SENDERS)) as Hall
    by (by apply (bool_decide_unpack _); vm_compute).
  intros j Hj. rewrite Forall_forall in Hall. apply Hall, elem_of_seqZ. unfold NUM_SENDERS in *. lia.
Qed.
Lemma take_all_captured {A} (xs : list A) : Z.of_nat (length xs) <= 90000000 → take PCAP_LOOP_CNT xs = xs.
Proof. intros Hl. apply take_ge. unfold PCAP_LOOP_CNT. lia. Qed.

(** Two packets of the first host and a condition packet reach a receiver in
    another network. *)
Lemma receiver_reports_witness : ∃ b s,
  main (Some (txt "eth0")) (λ _, Some 0) (λ _, true) (λ _ _, true) (λ _, true) (λ _, true) [txt "receiver"; txt "11"]
    [frame tcp_filler [0] demo_packet_flow 1; b; frame tcp_filler [0] demo_packet_flow 2] (receiver_off demo_kernel) = Ok (0, s) ∧
  rc_kernel s !! get_sender_fifo_fname 1 100 = Some [report_of (demo_packet_flow, 1); report_of (demo_packet_flow, 2)] ∧
  g_received_pkts s = 2 ∧ g_received_condition_pkts s = 1.
Proof.
  assert (∃ p, condition_pkt (flow_condition demo_flow) TARGET_LEVEL = Ok p) as [p E] by (by eexists).
  exists (default 0 <$> p). assert (completes p (default 0 <$> p)) as Hc.
  { vm_compute in E. injection E as <-. unfold completes. simpl. by repeat constructor. }
  destruct (tcp_frame_ok 1) as [Hf1 Ht]; [by unfold in_u|]. destruct (tcp_frame_ok 2) as [Hf2 _]; [by unfold in_u|].
  destruct (receiver_reports (Some (txt "eth0")) (λ _, Some 0) (λ _, true) (λ _ _, true) (λ _, true) (λ _, true) (λ _, eq_refl)
    (txt "receiver") (txt "11") (txt "eth0") demo_kernel
    [frame tcp_filler [0] demo_packet_flow 1; default 0 <$> p; frame tcp_filler [0] demo_packet_flow 2]
    [Some (demo_packet_flow, 1); None; Some (demo_packet_flow, 2)] eq_refl eq_refl (λ _, eq_refl) eq_refl demo_fifos_created)
    as (k' & Em & Hk').
  - repeat (apply Forall2_cons; split); [..|done].
    + by apply (captured_tcp 1).
    + apply (captured_condition (flow_condition demo_flow) TARGET_LEVEL p); [|done|exact E|exact Hc].
      split; [by unfold in_u|]. by vm_compute.
    + by apply (captured_tcp 1).
  - rewrite take_all_captured in Em, Hk' by (simpl; lia). eexists. split; [exact Em|]. cbn [rc_kernel g_received_pkts g_received_condition_pkts].
    split; [|split; by vm_compute]. rewrite (Hk' _ []) by (by vm_compute). by vm_compute.
Defined.

Lemma receiver_without_device_witness :
  main (Some (txt "eth0")) (λ _, Some 0) (λ _, false) (λ _ _, true) (λ _, true) (λ _, true) [txt "receiver"; txt "11"] []
    (receiver_off demo_kernel) = Fault NullDeref.
Proof.
  apply (receiver_without_device (Some (txt "eth0")) (λ _, Some 0) (λ _, false) (λ _ _, true) (λ _, true) (λ _, true)
    (λ _, eq_refl) (txt "receiver") (txt "11") (txt "eth0")); [done|done|exact demo_fifos_created].
Defined.
