(* ===== verification/SettingsFile.v ===== *)
(** * Reading the settings file (public_lib/cm_experiment_setting.c)

    The file of lines [key:value] with comments, read line by line into the
    global [cm_experiment_setting], [strtof] of the C library, and the start
    [init_cm_experiment_setting].  The file is given by its contents. *)
From stdpp Require Import strings.
From S2P Require Import Prelude CMonad CFloat CText Settings.

Definition COLON : Z := 58.

(** ** [strtof(s, NULL)] in the C locale *)
(** [tolower] *)
Definition lower (c : Z) : Z := if decide (65 <= c <= 90) then c + 32 else c.
(** The value of a digit in base 10 or 16 *)
Definition digit_value (base c : Z) : option Z :=
  let v := if isdigit c then c - 48
           else if decide (97 <= lower c <= 102) then lower c - 87 else base in
  if decide (v < base) then Some v else None.
(** The digits at the start of a text: the number read, how many, and the rest *)
Fixpoint scan (base m n : Z) (s : text) : Z * Z * text :=
  match s with
  | c :: s' =>
      match digit_value base c with
      | Some v => scan base (m * base + v) (n + 1) s'
      | None => (m, n, s)
      end
  | [] => (m, n, [])
  end.
(** Digits with an optional point: the number without the point, the number of
    digits and of digits behind the point, and the rest *)
Definition scan_number (base : Z) (s : text) : Z * Z * Z * text :=
  let '(m, n, r) := scan base 0 0 s in
  match r with
  | c :: r' =>
      if decide (c = 46) then
        let '(m, n', r) := scan base m 0 r' in (m, n + n', n', r)
      else (m, n, 0, r)
  | [] => (m, n, 0, [])
  end.
(** The exponent behind its mark, 0 without one *)
Definition exponent (mark : Z) (s : text) : Z :=
  match s with
  | c :: s =>
      if decide (lower c = mark) then
        match s with
        | c' :: s' => if decide (c' = 45) then - digits 0 s'
                      else if decide (c' = 43) then digits 0 s' else digits 0 s
        | [] => 0
        end
      else 0
  | [] => 0
  end.
(** The float nearest to [m * 2 ^ e] and to [m * 10 ^ e] *)
Definition float_of_binary (sg : bool) (m e : Z) : c_float :=
  match m with Zpos p => binary_round 24 128 sg p e | _ => S754_zero sg end.
Definition float_of_decimal (sg : bool) (m e : Z) : c_float :=
  if decide (0 <= e) then float_of_binary sg (m * 10 ^ e) 0
  else if decide (m = 0) then S754_zero sg
  else let '(q, e', l) := SFdiv_core_binary 24 128 m 0 (10 ^ (- e)) 0 in
       binary_round_aux 24 128 sg q e' l.
(** A prefix, without regard to case *)
Fixpoint starts (p s : text) : bool :=
  match p, s with
  | [], _ => true
  | c :: p, x :: s => bool_decide (lower x = c) && starts p s
  | _ :: _, [] => false
  end.
Definition strtof_unsigned (sg : bool) (s : text) : c_float :=
  if starts (txt "inf") s then S754_infinity sg
  else if starts (txt "nan") s then S754_nan
  else if starts (txt "0x") s then
    let '(m, n, f, r) := scan_number 16 (drop 2 s) in
    if decide (n = 0) then S754_zero sg else float_of_binary sg m (exponent 112 r - 4 * f)
  else
    let '(m, n, f, r) := scan_number 10 s in
    if decide (n = 0) then S754_zero false else float_of_decimal sg m (exponent 101 r - f).
Definition strtof (s : text) : c_float :=
  match skip_space s with
  | c :: s' => if decide (c = 45) then strtof_unsigned true s'
               else if decide (c = 43) then strtof_unsigned false s'
               else strtof_unsigned false (c :: s')
  | [] => strtof_unsigned false []
  end.

(** ** The conversions to the types of the settings *)
Definition bool_of_long (n : Z) : bool := bool_decide (n ≠ 0).
Definition switch_mem_type_of_long (n : Z) : switch_mem_type_e :=
  match u32 n with 0 => UNIFORM | 1 => DIVERSE | n => OTHER_SWITCH_MEM_TYPE n end.
Definition sender_mem_type_of_long (n : Z) : sender_mem_type_e :=
  match u32 n with 0 => INFINITE | 1 => FIXED | n => OTHER_SENDER_MEM_TYPE n end.
Definition host_switch_sample_of_long (n : Z) : host_switch_sample_e :=
  match u32 n with 0 => HOST_SAMPLE | 1 => SWITCH_SAMPLE | n => OTHER_HOST_SWITCH_SAMPLE n end.
Definition inject_tag_pkt_of_long (n : Z) : inject_tag_pkt_e :=
  match u32 n with 0 => INJECT_PKT_AS_CONDITION | 1 => TAG_PKT_AS_CONDITION | n => OTHER_INJECT_TAG_PKT n end.

(** ** Assignments to the fields of the settings *)
Definition set_interval_msec_len (v : Z) (s : cm_experiment_setting_t) :=
  ExperimentSetting v (condition_msec_freq s) (replacement s) (switch_mem_type s)
    (switch_memory_times s) (switch_drop_rate s) (host_or_switch_sample s) (inject_or_tag_packet s)
    (sample_hold_setting s) (target_flow_setting s) (sender_setting s).
Definition set_condition_msec_freq (v : Z) (s : cm_experiment_setting_t) :=
  ExperimentSetting (interval_msec_len s) v (replacement s) (switch_mem_type s)
    (switch_memory_times s) (switch_drop_rate s) (host_or_switch_sample s) (inject_or_tag_packet s)
    (sample_hold_setting s) (target_flow_setting s) (sender_setting s).
Definition set_replacement (v : bool) (s : cm_experiment_setting_t) :=
  ExperimentSetting (interval_msec_len s) (condition_msec_freq s) v (switch_mem_type s)
    (switch_memory_times s) (switch_drop_rate s) (host_or_switch_sample s) (inject_or_tag_packet s)
    (sample_hold_setting s) (target_flow_setting s) (sender_setting s).
Definition set_switch_mem_type (v : switch_mem_type_e) (s : cm_experiment_setting_t) :=
  ExperimentSetting (interval_msec_len s) (condition_msec_freq s) (replacement s) v
    (switch_memory_times s) (switch_drop_rate s) (host_or_switch_sample s) (inject_or_tag_packet s)
    (sample_hold_setting s) (target_flow_setting s) (sender_setting s).
Definition set_switch_memory_times (v : c_float) (s : cm_experiment_setting_t) :=
  ExperimentSetting (interval_msec_len s) (condition_msec_freq s) (replacement s) (switch_mem_type s)
    v (switch_drop_rate s) (host_or_switch_sample s) (inject_or_tag_packet s)
    (sample_hold_setting s) (target_flow_setting s) (sender_setting s).
Definition set_switch_drop_rate (v : c_float) (s : cm_experiment_setting_t) :=
  ExperimentSetting (interval_msec_len s) (condition_msec_freq s) (replacement s) (switch_mem_type s)
    (switch_memory_times s) v (host_or_switch_sample s) (inject_or_tag_packet s)
    (sample_hold_setting s) (target_flow_setting s) (sender_setting s).
Definition set_host_or_switch_sample (v : host_switch_sample_e) (s : cm_experiment_setting_t) :=
  ExperimentSetting (interval_msec_len s) (condition_msec_freq s) (replacement s) (switch_mem_type s)
    (switch_memory_times s) (switch_drop_rate s) v (inject_or_tag_packet s)
    (sample_hold_setting s) (target_flow_setting s) (sender_setting s).
Definition set_inject_or_tag_packet (v : inject_tag_pkt_e) (s : cm_experiment_setting_t) :=
  ExperimentSetting (interval_msec_len s) (condition_msec_freq s) (replacement s) (switch_mem_type s)
    (switch_memory_times s) (switch_drop_rate s) (host_or_switch_sample s) v
    (sample_hold_setting s) (target_flow_setting s) (sender_setting s).
Definition on_sample_hold (f : sample_hold_setting_t → sample_hold_setting_t) (s : cm_experiment_setting_t) :=
  ExperimentSetting (interval_msec_len s) (condition_msec_freq s) (replacement s) (switch_mem_type s)
    (switch_memory_times s) (switch_drop_rate s) (host_or_switch_sample s) (inject_or_tag_packet s)
    (f (sample_hold_setting s)) (target_flow_setting s) (sender_setting s).
Definition on_target_flow (f : target_flow_setting_t → target_flow_setting_t) (s : cm_experiment_setting_t) :=
  ExperimentSetting (interval_msec_len s) (condition_msec_freq s) (replacement s) (switch_mem_type s)
    (switch_memory_times s) (switch_drop_rate s) (host_or_switch_sample s) (inject_or_tag_packet s)
    (sample_hold_setting s) (f (target_flow_setting s)) (sender_setting s).
Definition on_sender (f : sender_setting_t → sender_setting_t) (s : cm_experiment_setting_t) :=
  ExperimentSetting (interval_msec_len s) (condition_msec_freq s) (replacement s) (switch_mem_type s)
    (switch_memory_times s) (switch_drop_rate s) (host_or_switch_sample s) (inject_or_tag_packet s)
    (sample_hold_setting s) (target_flow_setting s) (f (sender_setting s)).
Definition set_volume_threshold (v : Z) := on_target_flow (λ t,
  TargetFlowSetting v (loss_rate_threshold t) (loss_volume_threshold t) (selected_loss_volume_threshold t)).
Definition set_loss_rate_threshold (v : c_float) := on_target_flow (λ t,
  TargetFlowSetting (volume_threshold t) v (loss_volume_threshold t) (selected_loss_volume_threshold t)).
Definition set_loss_volume_threshold (v : Z) := on_target_flow (λ t,
  TargetFlowSetting (volume_threshold t) (loss_rate_threshold t) v (selected_loss_volume_threshold t)).
Definition set_selected_loss_volume_threshold (v : Z) := on_target_flow (λ t,
  TargetFlowSetting (volume_threshold t) (loss_rate_threshold t) (loss_volume_threshold t) v).
Definition set_target_flow_volume_in_sampling (v : Z) := on_sample_hold (λ h,
  SampleHoldSetting v (switches_interval_volume h) (max_switch_interval_volume h)
    (uniform_mem_ratio_to_diverse_mem h) (default_byte_sampling_rate h)).
Definition set_switch_interval_volume (i : nat) (v : Z) := on_sample_hold (λ h,
  SampleHoldSetting (target_flow_volume_in_sampling h) (<[i := v]> (switches_interval_volume h))
    (max_switch_interval_volume h) (uniform_mem_ratio_to_diverse_mem h) (default_byte_sampling_rate h)).
Definition set_loss_map_mem_type (v : sender_mem_type_e) := on_sender (λ e,
  SenderSetting v (fix_loss_map_bucket_size e) (default_loss_byte_sampling_rate e)).
Definition set_fix_loss_map_bucket_size (v : c_float) := on_sender (λ e,
  SenderSetting (loss_map_mem_type e) v (default_loss_byte_sampling_rate e)).

(** ** [read_cm_experiment_setting_from_file] *)

(** What the text behind the colon is assigned to, for each key *)
Definition assignments : list (string * (text → cm_experiment_setting_t → cm_experiment_setting_t)) :=
  [("interval_msec_len"%string, λ v, set_interval_msec_len (strtol_int v));
   ("condition_msec_freq"%string, λ v, set_condition_msec_freq (strtol_int v));
   ("replacement"%string, λ v, set_replacement (bool_of_long (strtol v)));
   ("switch_mem_type"%string, λ v, set_switch_mem_type (switch_mem_type_of_long (strtol v)));
   ("switch_memory_times"%string, λ v, set_switch_memory_times (strtof v));
   ("switch_drop_rate"%string, λ v, set_switch_drop_rate (strtof v));
   ("host_or_switch_sample"%string, λ v, set_host_or_switch_sample (host_switch_sample_of_long (strtol v)));
   ("inject_or_tag_packet"%string, λ v, set_inject_or_tag_packet (inject_tag_pkt_of_long (strtol v)));
   ("target_flow_volume"%string, λ v, set_volume_threshold (strtol_int v));
   ("target_flow_loss_rate"%string, λ v, set_loss_rate_threshold (strtof v));
   ("target_flow_loss_volume"%string, λ v, set_loss_volume_threshold (strtol_int v));
   ("selected_loss_volume_threshold"%string, λ v, set_selected_loss_volume_threshold (strtol_int v));
   ("target_flow_volume_in_sampling"%string, λ v, set_target_flow_volume_in_sampling (strtol_int v));
   ("sender_loss_map_mem_type"%string, λ v, set_loss_map_mem_type (sender_mem_type_of_long (strtol v)));
   ("fix_loss_map_bucket_size"%string, λ v, set_fix_loss_map_bucket_size (float_of_int (strtol v)));
   ("switch1_interval_volume"%string, λ v, set_switch_interval_volume 0 (u64 (strtol v)));
   ("switch2_interval_volume"%string, λ v, set_switch_interval_volume 1 (u64 (strtol v)));
   ("switch3_interval_volume"%string, λ v, set_switch_interval_volume 2 (u64 (strtol v)));
   ("switch4_interval_volume"%string, λ v, set_switch_interval_volume 3 (u64 (strtol v)));
   ("switch5_interval_volume"%string, λ v, set_switch_interval_volume 4 (u64 (strtol v)));
   ("switch6_interval_volume"%string, λ v, set_switch_interval_volume 5 (u64 (strtol v)));
   ("switch7_interval_volume"%string, λ v, set_switch_interval_volume 6 (u64 (strtol v)));
   ("switch8_interval_volume"%string, λ v, set_switch_interval_volume 7 (u64 (strtol v)));
   ("switch9_interval_volume"%string, λ v, set_switch_interval_volume 8 (u64 (strtol v)));
   ("switch10_interval_volume"%string, λ v, set_switch_interval_volume 9 (u64 (strtol v)));
   ("switch11_interval_volume"%string, λ v, set_switch_interval_volume 10 (u64 (strtol v)));
   ("switch12_interval_volume"%string, λ v, set_switch_interval_volume 11 (u64 (strtol v)))].

(** [if (strcmp(tokens[0], key) == 0 && tokens[1]) ...] *)
Definition assign_if (key0 : text) (value : option text) (s : cm_experiment_setting_t)
    (a : string * (text → cm_experiment_setting_t → cm_experiment_setting_t)) : cm_experiment_setting_t :=
  match value with
  | Some v => if decide (key0 = txt a.1) then a.2 v s else s
  | None => s
  end.
(** All the [if]s on the tokens of one line *)
Definition assign_tokens (tokens : list text) (s : cm_experiment_setting_t) : res cm_experiment_setting_t :=
  match tokens with
  | [] => Fault NullDeref
  | key0 :: rest => Ok (foldl (assign_if key0 (head rest)) s assignments)
  end.

(** The loop over the lines; [mem] tells for the [i]-th line split whether the
    array of its tokens can be allocated *)
Fixpoint read_setting_lines (mem : nat → bool) (i : nat) (ls : list text) (s : cm_experiment_setting_t)
    : res cm_experiment_setting_t :=
  match ls with
  | [] => Ok s
  | line_buffer :: ls =>
      if decide (head line_buffer = Some HASH) then read_setting_lines mem i ls s else
      match str_split line_buffer COLON (mem i) with
      | Fault e => Fault e
      | Ok None => read_setting_lines mem (S i) ls s
      | Ok (Some tokens) =>
          match assign_tokens tokens s with
          | Fault e => Fault e
          | Ok s => read_setting_lines mem (S i) ls s
          end
      end
  end.

(** The returned 0 or -1 and the settings; [None] when the file cannot be opened *)
Definition read_cm_experiment_setting_from_file (file : option text) (mem : nat → bool)
    (s : cm_experiment_setting_t) : res (Z * cm_experiment_setting_t) :=
  match file with
  | None => Ok (-1, s)
  | Some f =>
      match read_setting_lines mem 0 (lines f) s with
      | Fault e => Fault e
      | Ok s => Ok (0, s)
      end
  end.

(** [init_cm_experiment_setting]; [init_other_experiment_setting] always returns 0 *)
Definition init_cm_experiment_setting (file : option text) (mem : nat → bool)
    (s : cm_experiment_setting_t) : res (Z * cm_experiment_setting_t) :=
  match read_cm_experiment_setting_from_file file mem s with
  | Fault e => Fault e
  | Ok (ret, s) =>
      if decide (ret ≠ 0) then Ok (-1, s) else
      let s := init_other_experiment_setting s in
      if decide (check_value_correct s ≠ 0) then Ok (-1, s) else Ok (0, s)
  end.

(** The global before the program starts: every byte is 0 *)
Definition zero_setting : cm_experiment_setting_t :=
  ExperimentSetting 0 0 false UNIFORM (S754_zero false) (S754_zero false) HOST_SAMPLE INJECT_PKT_AS_CONDITION
    (SampleHoldSetting 0 (replicate 12 0) 0 (S754_zero false) (S754_zero false))
    (TargetFlowSetting 0 (S754_zero false) 0 0)
    (SenderSetting INFINITE (S754_zero false) (S754_zero false)).
