(* ===== verification/SettingsProps.v ===== *)
(** * What the settings file means

    The settings a file gives: each key has the last value assigned to it, in
    whatever order the keys come; and the types and checks of the settings the
    program starts with, whatever the file holds. *)
From stdpp Require Import strings.
From S2P Require Import Prelude CMonad CFloat CText Settings SettingsFile.

(** ** The newline behind a value is not read *)
Lemma digits_nl acc s : digits acc (s ++ [NL]) = digits acc s.
Proof. revert acc. induction s as [|c s IH]; intros acc; simpl; [done|]. by destruct (isdigit c). Qed.

Lemma skip_space_nl s :
  skip_space (s ++ [NL]) = match skip_space s with [] => [] | t => t ++ [NL] end.
Proof. induction s as [|c s IH]; simpl; [done|]. by destruct (isspace c). Qed.

Lemma strtol_nl s : strtol (s ++ [NL]) = strtol s.
Proof.
  unfold strtol. rewrite skip_space_nl. destruct (skip_space s) as [|c t]; [done|].
  assert (∀ c, digits 0 (c :: t ++ [NL]) = digits 0 (c :: t)) as E.
  { intros c'. exact (digits_nl 0 (c' :: t)). }
  cbn [app]. destruct c as [|p|p]; [by rewrite E| |by rewrite E].
  do 6 (try (destruct p as [p|p|]; try by rewrite E)); by rewrite (digits_nl 0 t).
Qed.

Lemma scan_nl base m n s :
  scan base m n (s ++ [NL]) = let '(m, n, r) := scan base m n s in (m, n, r ++ [NL]).
Proof.
  revert m n. induction s as [|c s IH]; intros m n; cbn [app scan].
  - assert (digit_value base NL = None) as ->; [|done].
    unfold digit_value. simpl. by rewrite decide_False by lia.
  - by destruct (digit_value base c).
Qed.

Lemma scan_number_nl base s :
  scan_number base (s ++ [NL]) = let '(m, n, f, r) := scan_number base s in (m, n, f, r ++ [NL]).
Proof.
  unfold scan_number. rewrite scan_nl. destruct (scan base 0 0 s) as [[m n] [|c r]]; [done|].
  cbn [app]. case_decide; [|done]. rewrite scan_nl. by destruct (scan base m 0 r) as [[??]?].
Qed.

Lemma exponent_nl mark r : mark ≠ NL → exponent mark (r ++ [NL]) = exponent mark r.
Proof.
  intros Hm. destruct r as [|c r]; cbn [app exponent].
  - by rewrite decide_False by (unfold lower; simpl; done).
  - case_decide; [|done]. destruct r as [|c' r]; [done|]. cbn [app].
    rewrite (digits_nl 0 r). change (c' :: r ++ [NL]) with ((c' :: r) ++ [NL]). by rewrite digits_nl.
Qed.

Lemma starts_nl p s : NL ∉ p → starts p (s ++ [NL]) = starts p s.
Proof.
  revert s. induction p as [|c p IH]; intros s Hp; [by destruct s|].
  destruct s as [|x s]; cbn [app starts].
  - rewrite bool_decide_false; [done|]. unfold lower. simpl. set_solver.
  - rewrite IH; [done|set_solver].
Qed.

Lemma starts_length p s : starts p s = true → (length p <= length s)%nat.
Proof.
  revert s. induction p as [|c p IH]; intros [|x s]; simpl; intros Hs; try (done || lia).
  apply andb_true_iff in Hs as [_ Hs%IH]. lia.
Qed.

Lemma strtof_unsigned_nl sg s : strtof_unsigned sg (s ++ [NL]) = strtof_unsigned sg s.
Proof.
  unfold strtof_unsigned. rewrite !starts_nl by (by apply (bool_decide_unpack _)).
  destruct (starts (txt "inf") s); [done|]. destruct (starts (txt "nan") s); [done|].
  destruct (starts (txt "0x") s) eqn:E.
  - apply starts_length in E. rewrite drop_app_le by done. rewrite scan_number_nl.
    destruct (scan_number 16 (drop 2 s)) as [[[m n] f] r]. by rewrite exponent_nl.
  - rewrite scan_number_nl. destruct (scan_number 10 s) as [[[m n] f] r]. by rewrite exponent_nl.
Qed.

Lemma strtof_nl s : strtof (s ++ [NL]) = strtof s.
Proof.
  unfold strtof. rewrite skip_space_nl. destruct (skip_space s) as [|c t]; [done|].
  cbn [app]. rewrite (strtof_unsigned_nl true t), (strtof_unsigned_nl false t).
  change (c :: t ++ [NL]) with ((c :: t) ++ [NL]). by rewrite strtof_unsigned_nl.
Qed.

Lemma strtol_int_nl s : strtol_int (s ++ [NL]) = strtol_int s.
Proof. unfold strtol_int. by rewrite strtol_nl. Qed.

(** ** Files of assignments *)
Inductive entry :=
| Comment (t : text)
| Assign (key : string) (value : text).
Definition entry_ok (e : entry) : Prop :=
  match e with
  | Comment t => NL ∉ t
  | Assign k v => token_ok COLON (txt k) ∧ (NL ∉ txt k) ∧ (head (txt k) ≠ Some HASH) ∧
                  (COLON ∉ v) ∧ NL ∉ v
  end.
#[export] Instance entry_ok_dec e : Decision (entry_ok e).
Proof. destruct e; unfold entry_ok, token_ok; apply _. Defined.
Definition line_of (e : entry) : text :=
  match e with Comment t => HASH :: t | Assign k v => txt k ++ COLON :: v end.
Definition file_of (es : list entry) : text := mjoin ((λ e, line_of e ++ [NL]) <$> es).

(** The last value assigned to a key *)
Definition value_in (k : string) (e : entry) : option text :=
  match e with Assign k' v => if decide (k' = k) then Some v else None | Comment _ => None end.
Fixpoint last_value (es : list entry) (k : string) : option text :=
  match es with
  | [] => None
  | e :: es => match last_value es k with Some v => Some v | None => value_in k e end
  end.

(** The settings that the values of the keys give, those of [s] for the keys
    without one *)
Definition switch_keys : list string :=
  ["switch1_interval_volume"%string; "switch2_interval_volume"%string; "switch3_interval_volume"%string;
   "switch4_interval_volume"%string; "switch5_interval_volume"%string; "switch6_interval_volume"%string;
   "switch7_interval_volume"%string; "switch8_interval_volume"%string; "switch9_interval_volume"%string;
   "switch10_interval_volume"%string; "switch11_interval_volume"%string; "switch12_interval_volume"%string].
Definition configured_volumes (get : string → option text) (l : list Z) : list Z :=
  imap (λ i x, from_option (λ v, u64 (strtol v)) x (switch_keys !! i ≫= get)) l.
Definition configured (get : string → option text) (s : cm_experiment_setting_t) : cm_experiment_setting_t :=
  let h := sample_hold_setting s in let t := target_flow_setting s in let e := sender_setting s in
  ExperimentSetting
    (from_option strtol_int (interval_msec_len s) (get "interval_msec_len"%string))
    (from_option strtol_int (condition_msec_freq s) (get "condition_msec_freq"%string))
    (from_option (bool_of_long ∘ strtol) (replacement s) (get "replacement"%string))
    (from_option (switch_mem_type_of_long ∘ strtol) (switch_mem_type s) (get "switch_mem_type"%string))
    (from_option strtof (switch_memory_times s) (get "switch_memory_times"%string))
    (from_option strtof (switch_drop_rate s) (get "switch_drop_rate"%string))
    (from_option (host_switch_sample_of_long ∘ strtol) (host_or_switch_sample s)
       (get "host_or_switch_sample"%string))
    (from_option (inject_tag_pkt_of_long ∘ strtol) (inject_or_tag_packet s)
       (get "inject_or_tag_packet"%string))
    (SampleHoldSetting
       (from_option strtol_int (target_flow_volume_in_sampling h) (get "target_flow_volume_in_sampling"%string))
       (configured_volumes get (switches_interval_volume h))
       (max_switch_interval_volume h) (uniform_mem_ratio_to_diverse_mem h) (default_byte_sampling_rate h))
    (TargetFlowSetting
       (from_option strtol_int (volume_threshold t) (get "target_flow_volume"%string))
       (from_option strtof (loss_rate_threshold t) (get "target_flow_loss_rate"%string))
       (from_option strtol_int (loss_volume_threshold t) (get "target_flow_loss_volume"%string))
       (from_option strtol_int (selected_loss_volume_threshold t)
          (get "selected_loss_volume_threshold"%string)))
    (SenderSetting
       (from_option (sender_mem_type_of_long ∘ strtol) (loss_map_mem_type e)
          (get "sender_loss_map_mem_type"%string))
       (from_option (float_of_int ∘ strtol) (fix_loss_map_bucket_size e)
          (get "fix_loss_map_bucket_size"%string))
       (default_loss_byte_sampling_rate e)).

(** *** Composition *)
Lemma from_option_compose {A} (f : text → A) x (a b : option text) :
  from_option f (from_option f x b) a = from_option f x (match a with Some v => Some v | None => b end).
Proof. by destruct a. Qed.

Lemma configured_volumes_compose g h l :
  configured_volumes g (configured_volumes h l) =
  configured_volumes (λ k, match g k with Some v => Some v | None => h k end) l.
Proof.
  unfold configured_volumes. apply list_eq. intros i. rewrite !list_lookup_imap.
  destruct (l !! i); [|done]. simpl. f_equal. destruct (switch_keys !! i); [|done]. simpl.
  apply from_option_compose.
Qed.

Lemma configured_compose g h s :
  configured g (configured h s) = configured (λ k, match g k with Some v => Some v | None => h k end) s.
Proof.
  unfold configured. cbn -[from_option configured_volumes].
  by rewrite configured_volumes_compose, !from_option_compose.
Qed.

Lemma configured_volumes_none l : configured_volumes (λ _, None) l = l.
Proof.
  unfold configured_volumes. apply list_eq. intros i. rewrite list_lookup_imap.
  destruct (l !! i); [|done]. simpl. by destruct (switch_keys !! i).
Qed.
Lemma configured_none s : configured (λ _, None) s = s.
Proof.
  unfold configured. simpl. rewrite configured_volumes_none.
  by destruct s as [????????[] [] []].
Qed.

Lemma configured_ext g h s : (∀ k, g k = h k) → configured g s = configured h s.
Proof.
  intros E. unfold configured. rewrite !E.
  assert (configured_volumes g (switches_interval_volume (sample_hold_setting s)) =
          configured_volumes h (switches_interval_volume (sample_hold_setting s))) as ->; [|done].
  apply imap_ext. intros i x _. f_equal. destruct (switch_keys !! i); [apply E|done].
Qed.

(** *** One line *)
Lemma txt_inj k k' : txt k = txt k' → k = k'.
Proof.
  unfold txt. revert k'. induction k as [|a k IH]; intros [|a' k']; simpl; try done.
  intros [= Ea Ek]. f_equal; [|by apply IH].
  apply N2Z.inj in Ea. rewrite <- (Ascii.ascii_N_embedding a), <- (Ascii.ascii_N_embedding a'). by rewrite Ea.
Qed.

Lemma foldl_assign_none k v s (l : list (string * _)) :
  k ∉ l.*1 → foldl (assign_if (txt k) v) s l = s.
Proof.
  revert s. induction l as [|a l IH]; intros s Hk; simpl; [done|].
  simpl in Hk. apply not_elem_of_cons in Hk as [Hne Hk]. rewrite IH by done. unfold assign_if.
  destruct v; [|done]. rewrite decide_False; [done|]. intros E. by apply txt_inj in E.
Qed.

Lemma foldl_assign k v s (l : list (string * (text → cm_experiment_setting_t → cm_experiment_setting_t))) f :
  NoDup l.*1 → (k, f) ∈ l → foldl (assign_if (txt k) (Some v)) s l = f v s.
Proof.
  revert s. induction l as [|a l IH]; intros s Hnd Hin; [by apply elem_of_nil in Hin|].
  simpl in Hnd. apply NoDup_cons in Hnd as [Ha Hnd]. simpl. apply elem_of_cons in Hin as [<-|Hin].
  - rewrite foldl_assign_none by done. unfold assign_if. by rewrite decide_True.
  - rewrite IH by done. f_equal. unfold assign_if. rewrite decide_False; [done|].
    intros E%txt_inj. apply Ha. rewrite <- E. apply list_elem_of_fmap. by exists (k, f).
Qed.

Lemma imap_single (ks : list string) (f : text → Z) k v i l :
  NoDup ks → ks !! i = Some k →
  imap (λ j x, from_option f x (ks !! j ≫= λ k', value_in k' (Assign k v))) l = <[i := f v]> l.
Proof.
  intros Hnd Hi. apply list_eq. intros j. rewrite list_lookup_imap.
  destruct (decide (i = j)) as [<-|Hij].
  - rewrite Hi. destruct (l !! i) eqn:El.
    + rewrite list_lookup_insert_eq by (by eapply lookup_lt_Some). simpl. by rewrite decide_True.
    + rewrite list_insert_ge by (by apply lookup_ge_None). by rewrite El.
  - rewrite list_lookup_insert_ne by done. destruct (l !! j) as [x|]; [|done]. simpl.
    destruct (ks !! j) as [k'|] eqn:Ek; [|done]. simpl. rewrite decide_False; [done|].
    intros ->. by eapply Hij, (NoDup_lookup ks).
Qed.

Lemma assignments_nodup : NoDup assignments.*1.
Proof. apply (bool_decide_unpack _). by vm_compute. Qed.
Lemma switch_keys_nodup : NoDup switch_keys.
Proof. apply (bool_decide_unpack _). by vm_compute. Qed.

Lemma configured_volumes_other k v l :
  k ∉ switch_keys → configured_volumes (λ k', value_in k' (Assign k v)) l = l.
Proof.
  intros Hk. unfold configured_volumes. apply list_eq. intros i. rewrite list_lookup_imap.
  destruct (l !! i); [|done]. simpl. destruct (switch_keys !! i) as [k'|] eqn:E; [|done]. simpl.
  rewrite decide_False; [done|]. intros ->. by eapply Hk, list_elem_of_lookup_2.
Qed.

(** Each [if] of the chain sets the field the specification names *)
Lemma switch_assignment_configures k v i s :
  switch_keys !! i = Some k →
  set_switch_interval_volume i (u64 (strtol v)) s = configured (λ k', value_in k' (Assign k v)) s.
Proof.
  intros Hi. unfold configured, configured_volumes.
  rewrite (imap_single switch_keys (λ v, u64 (strtol v)) k v i _ switch_keys_nodup Hi).
  do 12 (destruct i as [|i]; [injection Hi as <-; by destruct s as [????????[] [] []]|]). done.
Qed.

(** Case analysis on which assignment it is *)
Ltac each_assignment Hin tac :=
  unfold assignments in Hin;
  repeat (apply elem_of_cons in Hin as [Hin|Hin];
    [injection Hin as -> ->; cbv beta; rewrite ?strtol_int_nl, ?strtol_nl, ?strtof_nl; tac|]);
  by apply elem_of_nil in Hin.
Ltac by_computation := apply (bool_decide_unpack _); by vm_compute.

Lemma assignment_configures k v f s :
  (k, f) ∈ assignments → f (v ++ [NL]) s = configured (λ k', value_in k' (Assign k v)) s.
Proof.
  intros Hin. destruct (decide (k ∈ switch_keys)) as [Hs|Hs].
  - each_assignment Hin ltac:(first
      [by apply switch_assignment_configures | exfalso; revert Hs; by_computation]).
  - unfold configured. rewrite configured_volumes_other by done.
    each_assignment Hin ltac:(first
      [by destruct s as [????????[] [] []] | exfalso; apply Hs; by_computation]).
Qed.

Lemma unknown_configures k v s :
  k ∉ assignments.*1 → configured (λ k', value_in k' (Assign k v)) s = s.
Proof.
  intros Hk. rewrite <- (configured_none s) at 2.
  assert (∀ k', k' ∈ assignments.*1 → value_in k' (Assign k v) = None) as Hne.
  { intros k' Hk'. simpl. rewrite decide_False; [done|]. by intros ->. }
  unfold configured. rewrite configured_volumes_none, configured_volumes_other.
  - rewrite !Hne by by_computation. done.
  - intros Hs. apply Hk. revert k Hs Hk Hne.
    assert (Forall (λ k, k ∈ assignments.*1) switch_keys) as Hall by by_computation.
    intros k Hs _ _. by apply (proj1 (Forall_forall _ _) Hall).
Qed.

Lemma assign_line k v s :
  foldl (assign_if (txt k) (Some (v ++ [NL]))) s assignments = configured (λ k', value_in k' (Assign k v)) s.
Proof.
  destruct (decide (k ∈ assignments.*1)) as [Hk|Hk].
  - apply list_elem_of_fmap in Hk as ([k' f] & -> & Hin). cbn [fst].
    rewrite (foldl_assign k' (v ++ [NL]) s assignments f); [by apply assignment_configures|apply assignments_nodup|done].
  - by rewrite foldl_assign_none, unknown_configures.
Qed.

(** ** The whole file *)
Lemma split_line k v :
  entry_ok (Assign k v) →
  str_split (line_of (Assign k v) ++ [NL]) COLON true = Ok (Some [txt k; v ++ [NL]]).
Proof.
  intros (Hk & _ & _ & Hv & _).
  change (line_of (Assign k v) ++ [NL]) with ((txt k ++ COLON :: v) ++ [NL]).
  rewrite <- app_assoc. change ((COLON :: v) ++ [NL]) with (COLON :: (v ++ [NL])).
  change (txt k ++ COLON :: (v ++ [NL])) with (join COLON [txt k; v ++ [NL]]).
  apply str_split_join; [done|]. repeat constructor; try apply Hk.
  - by destruct v.
  - set_solver.
Qed.

Lemma read_entries mem i es s :
  (∀ j, mem j = true) → Forall entry_ok es →
  read_setting_lines mem i ((λ e, line_of e ++ [NL]) <$> es) s = Ok (configured (last_value es) s).
Proof.
  intros Hm Hes. revert i s. induction Hes as [|e es He Hes IH]; intros i s.
  - cbn [fmap list_fmap read_setting_lines last_value]. by rewrite configured_none.
  - cbn [fmap list_fmap read_setting_lines last_value]. destruct e as [t|k v].
    + rewrite decide_True by done. rewrite IH. f_equal. apply configured_ext. intros k.
      by destruct (last_value es k).
    + rewrite decide_False.
      2:{ destruct He as (_ & _ & Hh & _). simpl. by destruct (txt k). }
      rewrite Hm, split_line by done. cbn [assign_tokens head].
      rewrite assign_line, IH. f_equal. apply configured_compose.
Qed.

(** C27. A file of comments and of assignments [key:value] is read into the
    settings in which every key has the last value assigned to it, whatever
    the order of the keys, unknown keys are ignored, and the rest is as it was:
    none of the tests of a line takes it for another key. *)
Theorem settings_read es s :
  Forall entry_ok es →
  read_cm_experiment_setting_from_file (Some (file_of es)) (λ _, true) s = Ok (0, configured (last_value es) s).
Proof.
  intros Hes. unfold read_cm_experiment_setting_from_file, file_of.
  assert (lines (mjoin ((λ e, line_of e ++ [NL]) <$> es)) = (λ e, line_of e ++ [NL]) <$> es) as ->.
  { pose proof (lines_concat (line_of <$> es)) as Hl. rewrite <- !list_fmap_compose in Hl. apply Hl.
    apply Forall_fmap. eapply Forall_impl; [exact Hes|]. intros [t|k v] He; simpl in *.
    - set_solver.
    - set_solver. }
  by rewrite read_entries.
Qed.

(** ** Whatever the file holds *)
Definition switch_mem_type_ok (t : switch_mem_type_e) : Prop :=
  match t with OTHER_SWITCH_MEM_TYPE n => in_u 32 n ∧ 2 <= n | _ => True end.
Definition sender_mem_type_ok (t : sender_mem_type_e) : Prop :=
  match t with OTHER_SENDER_MEM_TYPE n => in_u 32 n ∧ 2 <= n | _ => True end.
Definition host_switch_sample_ok (t : host_switch_sample_e) : Prop :=
  match t with OTHER_HOST_SWITCH_SAMPLE n => in_u 32 n ∧ 2 <= n | _ => True end.
Definition inject_tag_pkt_ok (t : inject_tag_pkt_e) : Prop :=
  match t with OTHER_INJECT_TAG_PKT n => in_u 32 n ∧ 2 <= n | _ => True end.

(** The fields are values of their types in C. *)
Record setting_ok (s : cm_experiment_setting_t) : Prop := SettingOk {
  so_interval : in_s 32 (interval_msec_len s);
  so_freq : in_s 32 (condition_msec_freq s);
  so_mem : switch_mem_type_ok (switch_mem_type s);
  so_sample : host_switch_sample_ok (host_or_switch_sample s);
  so_inject : inject_tag_pkt_ok (inject_or_tag_packet s);
  so_in_sampling : in_s 32 (target_flow_volume_in_sampling (sample_hold_setting s));
  so_volumes_length : length (switches_interval_volume (sample_hold_setting s)) = 12%nat;
  so_volumes : Forall (in_u 64) (switches_interval_volume (sample_hold_setting s));
  so_max : in_u 64 (max_switch_interval_volume (sample_hold_setting s));
  so_volume : in_s 32 (volume_threshold (target_flow_setting s));
  so_loss_volume : in_s 32 (loss_volume_threshold (target_flow_setting s));
  so_selected : in_s 32 (selected_loss_volume_threshold (target_flow_setting s));
  so_loss_map : sender_mem_type_ok (loss_map_mem_type (sender_setting s))
}.

Lemma strtol_int_in_s v : in_s 32 (strtol_int v).
Proof. unfold strtol_int. by apply swrap_in_s. Qed.
Lemma strtol_u64_in_u v : in_u 64 (u64 (strtol v)).
Proof. by apply wrap_in_u. Qed.

Lemma enum_other n : in_u 32 (u32 n).
Proof. by apply wrap_in_u. Qed.
Ltac enum_of_long n :=
  generalize (enum_other n); destruct (u32 n) as [|p|p]; intros Hn;
  [exact I | destruct p; [split; [done|lia]|split; [done|lia]|exact I] | unfold in_u in *; lia].
Lemma switch_mem_type_of_long_ok n : switch_mem_type_ok (switch_mem_type_of_long n).
Proof. unfold switch_mem_type_of_long. enum_of_long n. Qed.
Lemma sender_mem_type_of_long_ok n : sender_mem_type_ok (sender_mem_type_of_long n).
Proof. unfold sender_mem_type_of_long. enum_of_long n. Qed.
Lemma host_switch_sample_of_long_ok n : host_switch_sample_ok (host_switch_sample_of_long n).
Proof. unfold host_switch_sample_of_long. enum_of_long n. Qed.
Lemma inject_tag_pkt_of_long_ok n : inject_tag_pkt_ok (inject_tag_pkt_of_long n).
Proof. unfold inject_tag_pkt_of_long. enum_of_long n. Qed.

Create HintDb setting.
#[export] Hint Resolve strtol_int_in_s strtol_u64_in_u switch_mem_type_of_long_ok
  sender_mem_type_of_long_ok host_switch_sample_of_long_ok inject_tag_pkt_of_long_ok Forall_insert : setting.

Lemma assignments_ok k f v s : (k, f) ∈ assignments → setting_ok s → setting_ok (f v s).
Proof.
  intros Hin []. each_assignment Hin ltac:(split; cbn -[in_u in_s]; rewrite ?length_insert; auto with setting).
Qed.

Lemma assign_all_ok key0 value l s :
  (∀ k f, (k, f) ∈ l → (k, f) ∈ assignments) → setting_ok s → setting_ok (foldl (assign_if key0 value) s l).
Proof.
  revert s. induction l as [|[k f] l IH]; intros s Hl Hs; [done|]. cbn [foldl]. apply IH.
  - intros k' f' Hin. apply Hl. by apply list_elem_of_further.
  - unfold assign_if. destruct value as [v|]; [|done]. case_decide; [|done].
    apply (assignments_ok k); [apply Hl, list_elem_of_here|done].
Qed.

(** A line has a token whenever the assertions of [str_split] hold. *)
Lemma str_split_tokens s d mem tokens :
  s ≠ [] → str_split s d mem = Ok (Some tokens) → tokens ≠ [].
Proof.
  intros Hs. unfold str_split. destruct mem; [|done]. case_decide as E; [|done]. intros [= <-] Ht.
  rewrite Ht in E. simpl in E. unfold count_delims, ends_with_token in E.
  destruct (last s) as [c|] eqn:El; [|destruct s; [done|by apply last_None in El]].
  apply last_Some in El as [l ->]. rewrite filter_app, length_app in E.
  destruct (decide (c = d)) as [->|Hc].
  - rewrite filter_cons_True in E by done. cbn [length] in E. case_bool_decide; lia.
  - rewrite bool_decide_true in E by done. lia.
Qed.

Lemma lines_from_nonempty cur s : Forall (λ l, l ≠ []) (lines_from cur s).
Proof.
  revert cur. induction s as [|c s IH]; intros cur; simpl.
  - case_decide; repeat constructor; done.
  - case_decide; [|apply IH]. constructor; [by destruct cur|apply IH].
Qed.

Lemma read_lines_ok mem i ls s :
  Forall (λ l, l ≠ []) ls → setting_ok s →
  match read_setting_lines mem i ls s with Ok s => setting_ok s | Fault e => e = AssertFail end.
Proof.
  intros Hls. revert i s. induction Hls as [|l ls Hl Hls IH]; intros i s Hs; [done|].
  cbn [read_setting_lines]. case_decide; [by apply IH|].
  destruct (str_split l COLON (mem i)) as [[tokens|]|e] eqn:E.
  - destruct tokens as [|t tokens]; [by apply str_split_tokens in E|]. cbn [assign_tokens].
    apply IH, assign_all_ok; auto.
  - by apply IH.
  - revert E. unfold str_split. destruct (mem i); [|done]. case_decide; [done|]. by intros [= <-].
Qed.

(** [max_switch_interval_volume] is the largest of the volumes. *)
Lemma max_volume l acc :
  0 <= acc.2 →
  let m := (foldl add_switch_volume acc l).2 in
  acc.2 <= m ∧ Forall (λ v, v <= m) l ∧ (m = acc.2 ∨ m ∈ l).
Proof.
  cbv zeta. revert acc. induction l as [|v l IH]; intros acc Ha; cbn [foldl].
  - split_and!; [lia|constructor|by left].
  - destruct (IH (add_switch_volume acc v)) as (H1 & H2 & H3); unfold add_switch_volume in *; cbn [fst snd] in *.
    + case_decide; lia.
    + split_and!.
      * case_decide; lia.
      * constructor; [case_decide; lia|done].
      * case_decide; [destruct H3 as [->|H3]; right; set_solver|destruct H3; [by left|right; set_solver]].
Qed.

Lemma init_other_ok s : setting_ok s → setting_ok (init_other_experiment_setting s).
Proof.
  intros []. unfold init_other_experiment_setting, init_sample_hold, init_sender.
  destruct (foldl add_switch_volume (0, 0) _) as [total m] eqn:E.
  destruct (max_volume (switches_interval_volume (sample_hold_setting s)) (0, 0)) as (H1 & _ & H3); [done|].
  rewrite E in *. cbn [snd] in *.
  split; cbn -[in_u in_s]; try done.
  - destruct H3 as [->|H3]; [done|]. by apply (proj1 (Forall_forall _ _) so_volumes0).
  - by case_decide.
Qed.

(** What the settings the program starts with satisfy *)
Record accepted (s : cm_experiment_setting_t) : Prop := Accepted {
  ac_interval : interval_msec_len s ≠ 0;
  ac_freq : condition_msec_freq s ≠ 0;
  ac_times : float_is_zero (switch_memory_times s) = false;
  ac_volumes : Forall (λ v, 0 < v <= max_switch_interval_volume (sample_hold_setting s))
                 (switches_interval_volume (sample_hold_setting s));
  ac_max : max_switch_interval_volume (sample_hold_setting s) ∈ switches_interval_volume (sample_hold_setting s)
}.

Lemma init_other_max s :
  max_switch_interval_volume (sample_hold_setting (init_other_experiment_setting s)) =
    (foldl add_switch_volume (0, 0) (switches_interval_volume (sample_hold_setting s))).2 ∧
  switches_interval_volume (sample_hold_setting (init_other_experiment_setting s)) =
    switches_interval_volume (sample_hold_setting s).
Proof.
  unfold init_other_experiment_setting, init_sample_hold. by destruct (foldl add_switch_volume _ _).
Qed.

Lemma check_accepted s :
  setting_ok s → check_value_correct (init_other_experiment_setting s) = 0 →
  accepted (init_other_experiment_setting s).
Proof.
  intros Hs Hc. destruct (init_other_max s) as [Em Ev].
  destruct (max_volume (switches_interval_volume (sample_hold_setting s)) (0, 0)) as (H1 & H2 & H3); [done|].
  unfold check_value_correct in Hc. rewrite Ev in Hc.
  repeat (case_decide; [done|]). destruct (float_is_zero (switch_memory_times _)) eqn:Et; [done|].
  destruct (_ && _ && _); [done|]. destruct (existsb _ _) eqn:Ex; [done|].
  assert (Forall (λ v, 0 < v) (switches_interval_volume (sample_hold_setting s))) as Hpos.
  { apply Forall_forall. intros v Hv. pose proof (proj1 (Forall_forall _ _) (so_volumes s Hs) v Hv) as Hu.
    unfold in_u in Hu. assert (v ≠ 0); [|lia]. intros ->.
    assert (existsb (Z.eqb 0) (switches_interval_volume (sample_hold_setting s)) = true) as E; [|by rewrite E in Ex].
    apply existsb_exists. exists 0. split; [by apply list_elem_of_In|done]. }
  split; try done; rewrite Em, Ev.
  - apply Forall_and. by split.
  - destruct H3 as [E|H3]; [|done]. exfalso.
    pose proof (so_volumes_length s Hs). destruct (switches_interval_volume (sample_hold_setting s)) as [|v l]; [done|].
    rewrite E in H2. apply Forall_cons_1 in H2, Hpos. cbn [snd] in H2. lia.
Qed.

(** C28. Whatever the settings file holds and whichever allocations fail,
    [init_cm_experiment_setting] either stops in the assertion of [str_split]
    or returns 0 or -1 with settings of the types of their fields, and with 0
    only settings with an interval, a condition frequency, memory for the
    switches and a volume for every switch, the largest of which it has found. *)
Theorem settings_typed file mem s0 :
  setting_ok s0 →
  match init_cm_experiment_setting file mem s0 with
  | Ok (ret, s) => setting_ok s ∧ (ret = 0 ∧ accepted s ∨ ret = -1)
  | Fault e => e = AssertFail
  end.
Proof.
  intros Hs. unfold init_cm_experiment_setting, read_cm_experiment_setting_from_file.
  destruct file as [f|]; [|by rewrite decide_True by done; auto].
  pose proof (read_lines_ok mem 0 (lines f) s0 (lines_from_nonempty [] f) Hs) as Hr.
  destruct (read_setting_lines mem 0 (lines f) s0) as [s|e]; [|done].
  rewrite decide_False by (intros E; by apply E). case_decide as E.
  - split; [by apply init_other_ok|by right].
  - split; [by apply init_other_ok|left]. split; [done|]. by apply check_accepted.
Qed.

(** ** The file of the repository (public_lib/cm_experiment_setting.txt),
    without most of its comments *)
Definition shipped : list entry :=
  [Comment (txt "for experiment, one interval len, each sender sends 1.5 million packets");
   Assign "interval_msec_len" (txt "3750000");
   Comment (txt "interval_msec_len:7500000");
   Assign "condition_msec_freq" (txt "500");
   Assign "replacement" (txt "1");
   Comment (txt "UNIFORM:0 DIVERSE:1");
   Assign "switch_mem_type" (txt "0");
   Assign "switch_memory_times" (txt "1");
   Assign "switch_drop_rate" (txt "0.014");
   Assign "host_or_switch_sample" (txt "0");
   Assign "inject_or_tag_packet" (txt "1");
   Assign "target_flow_volume" (txt "0");
   Assign "target_flow_loss_rate" (txt "0");
   Assign "target_flow_loss_volume" (txt "6000");
   Assign "selected_loss_volume_threshold" (txt "6000");
   Assign "target_flow_volume_in_sampling" (txt "120000");
   Assign "sender_loss_map_mem_type" (txt "1");
   Assign "fix_loss_map_bucket_size" (txt "4166");
   Assign "switch1_interval_volume" (txt "21850000000");
   Assign "switch2_interval_volume" (txt "22150000000");
   Assign "switch3_interval_volume" (txt "31390000000");
   Assign "switch4_interval_volume" (txt "37710000000");
   Assign "switch5_interval_volume" (txt "34800000000");
   Assign "switch6_interval_volume" (txt "42700000000");
   Assign "switch7_interval_volume" (txt "39770000000");
   Assign "switch8_interval_volume" (txt "42020000000");
   Assign "switch9_interval_volume" (txt "19720000000");
   Assign "switch10_interval_volume" (txt "37000000000");
   Assign "switch11_interval_volume" (txt "34390000000");
   Assign "switch12_interval_volume" (txt "20930000000");
   Comment (txt "switch1_interval_volume:2185000000")].

(** The settings of the file: 0.014 is the float 15032386 / 2^30 *)
Lemma settings_read_witness :
  ∃ s, read_cm_experiment_setting_from_file (Some (file_of shipped)) (λ _, true) zero_setting = Ok (0, s) ∧
       interval_msec_len s = 3750000 ∧ switch_drop_rate s = S754_finite false 15032386 (-30) ∧
       fix_loss_map_bucket_size (sender_setting s) = float_of_int 4166 ∧
       loss_map_mem_type (sender_setting s) = FIXED ∧
       switches_interval_volume (sample_hold_setting s) !! 5%nat = Some 42700000000.
Proof.
  exists (configured (last_value shipped) zero_setting). split.
  - apply (settings_read shipped zero_setting). apply (bool_decide_unpack _). by vm_compute.
  - split_and!; by vm_compute.
Defined.

(** Numbers as [strtof] reads them *)
Example strtof_tenth : strtof (txt "0.1") = float_of_double (double_div (double_of_int 1) (double_of_int 10)).
Proof. by vm_compute. Qed.
Example strtof_exponent : strtof (txt " -12.5e-1x") = strtof (txt "-1.25").
Proof. by vm_compute. Qed.
Example strtof_hex : strtof (txt "0x1.8p+3") = float_of_int 12.
Proof. by vm_compute. Qed.
Example strtof_special :
  (strtof (txt "-Infinity"), strtof (txt "NaN"), strtof (txt "none"), strtof (txt "1e40"), strtof (txt "1e-50")) =
  (S754_infinity true, S754_nan, S754_zero false, S754_infinity false, S754_zero false).
Proof. by vm_compute. Qed.

(** The program starts with these settings, and stops on a line with an empty
    value between two colons. *)
Lemma settings_typed_witness :
  setting_ok zero_setting ∧
  (∃ s, init_cm_experiment_setting (Some (file_of shipped)) (λ _, true) zero_setting = Ok (0, s) ∧
        accepted s ∧ max_switch_interval_volume (sample_hold_setting s) = 42700000000) ∧
  init_cm_experiment_setting (Some (txt "a::b")) (λ _, true) zero_setting = Fault AssertFail.
Proof.
  assert (setting_ok zero_setting) as Hs.
  { split; try done; apply (bool_decide_unpack _); by vm_compute. }
  pose proof (settings_typed (Some (file_of shipped)) (λ _, true) zero_setting Hs) as Ht.
  split; [done|]. split; [|done].
  destruct (init_cm_experiment_setting (Some (file_of shipped)) (λ _, true) zero_setting) as [[ret s]|e] eqn:E;
    vm_compute in E; [|done].
  injection E as <- <-. destruct Ht as [_ [[_ Ha]|Hr]]; [|done].
  eexists. split; [reflexivity|]. split; [exact Ha|reflexivity].
Defined.
