(* ===== verification/Generator.v ===== *)
(** * The trace generator (pcapFileGenerator)

    It turns a recorded trace, in text files, into one trace per host: every
    address of the record is mapped to an address of a host, every packet gets
    the next sequence number of its source, and the headers of the packet go to
    the file of the host that sends it.  Writing a file in the pcap format is
    libpcap's; a file is the list of the packets given to it.  The buffer a
    packet is laid out in is assumed to be allocated. *)
From stdpp Require Import strings.
From S2P Require Import Prelude CMonad CFloat ChainedTable TableSpec FixSizeTable FixSizeIface.
From S2P Require Import Flow HashTableFlow PktListTable ObjStore Settings Sample FlowTables Warehouse.
From S2P Require Import Bytes VlanTag CText TaskManager Fifo ConditionSender.

(** ** main.c: one line of a recorded trace *)
Definition MAX_PAYLOAD_SIZE : Z := 5000 - 58.

(** What [parse_one_line] assigns for the [ith_token]-th token, from 1 *)
Definition parse_token (ith_token : Z) (tok : text) (p : packet_t) : packet_t :=
  let 'Packet srcip dstip src_port dst_port protocol seqid len sampled selected_level := p in
  if decide (ith_token = 2) then
    Packet (u32 (strtoul tok)) dstip src_port dst_port protocol seqid len sampled selected_level
  else if decide (ith_token = 3) then
    Packet srcip (u32 (strtoul tok)) src_port dst_port protocol seqid len sampled selected_level
  else if decide (ith_token = 4) then
    Packet srcip dstip (u16 (strtol tok)) dst_port protocol seqid len sampled selected_level
  else if decide (ith_token = 5) then
    Packet srcip dstip src_port (u16 (strtol tok)) protocol seqid len sampled selected_level
  else if decide (ith_token = 6) then
    Packet srcip dstip src_port dst_port (u8 (u16 (strtol tok))) seqid len sampled selected_level
  else if decide (ith_token = 7) then
    Packet srcip dstip src_port dst_port protocol seqid (u16 (strtoul tok)) sampled selected_level
  else p.
Fixpoint parse_tokens (ith_token : Z) (toks : list text) (p : packet_t) : Z * packet_t :=
  match toks with
  | [] => (ith_token, p)
  | tok :: toks => parse_tokens (ith_token + 1) toks (parse_token (ith_token + 1) tok p)
  end.
(** [parse_one_line]; [mem] tells whether [str_split] gets its array *)
Definition parse_one_line (mem : bool) (line_buffer : text) (p : packet_t) : res (Z * packet_t) :=
  match str_split line_buffer 44 mem with
  | Fault e => Fault e
  | Ok tokens =>
      let '(ith_token, p) := parse_tokens 0 (default [] tokens) p in
      Ok (if decide (ith_token < 7 ∨ p_len p > MAX_PAYLOAD_SIZE) then -1 else 0, p)
  end.

(** ** The packet *)
(** [generate_one_packet], given the sequence number: the three headers, which
    are cleared first *)
Definition ethernet_header_vlan : list Z :=
  CONDITION_MAC ++ CONDITION_MAC ++ mem16 (ntohs 33024) ++ [0; 0] ++ mem16 (ntohs 2048).
Definition ip_header (p : packet_t) : list Z :=
  [69; 0]                          (* ip_v, ip_hl; ip_tos *)
  ++ mem16 (ntohs (20 + 20))       (* ip_len *)
  ++ [0; 0] ++ mem16 16384         (* ip_id; ip_off, in host order *)
  ++ [64; 6; 0; 0]                 (* ip_ttl, ip_p, ip_sum *)
  ++ mem32 (ntohl (p_srcip p)) ++ mem32 (ntohl (p_dstip p)).
Definition tcp_header (p : packet_t) (seqid : Z) : list Z :=
  mem16 (ntohs (p_src_port p)) ++ mem16 (ntohs (p_dst_port p)) ++ mem32 (ntohl seqid)
  ++ [0; 0; 0; 0]                  (* th_ack *)
  ++ [80; 0] ++ [0; 0; 0; 0; 0; 0] (* th_off; flags, window, sum and urgent pointer *).
Definition packet_bytes (p : packet_t) (seqid : Z) : list Z :=
  ethernet_header_vlan ++ ip_header p ++ tcp_header p seqid.

(** The line of a plain-text trace *)
Definition trace_line (p : packet_t) : text :=
  txt "," ++ join 44 (dec <$> [p_srcip p; p_dstip p; p_src_port p; p_dst_port p; p_protocol p; p_len p]) ++ [NL].

Section generator.
Context {K VI : Type} `{KeyOps K} `{!FlowTable K Z Z VI} `{!PacketFlow K}.
(** [rand], and what the variable [flow] of [get_seqid_of_flow] holds before it
    is assigned, at each call *)
Context (rand : nat → Z) (indeterminate : nat → flow_s).

(** The global variables, the files of the hosts, and main's [packet] *)
Record gen_state := GenState {
  srcip_to_node_idx_map : VI; srcip_to_node_srcip_map : VI;
  dstip_to_node_idx_map : VI; dstip_to_node_dstip_map : VI;
  unique_ip_num : Z; flow_seqid_hashmap : kf_state; seqid_calls : nat; rand_calls : nat;
  pdumper : Z → list pcap_pkt; fp : Z → list text; g_packet : packet_t
}.
Definition on_idx_map {A} (c : cmd VI A) : cmd gen_state A :=
  zoom srcip_to_node_idx_map (λ h s, GenState h (srcip_to_node_srcip_map s) (dstip_to_node_idx_map s)
    (dstip_to_node_dstip_map s) (unique_ip_num s) (flow_seqid_hashmap s) (seqid_calls s) (rand_calls s)
    (pdumper s) (fp s) (g_packet s)) c.
Definition on_srcip_map {A} (c : cmd VI A) : cmd gen_state A :=
  zoom srcip_to_node_srcip_map (λ h s, GenState (srcip_to_node_idx_map s) h (dstip_to_node_idx_map s)
    (dstip_to_node_dstip_map s) (unique_ip_num s) (flow_seqid_hashmap s) (seqid_calls s) (rand_calls s)
    (pdumper s) (fp s) (g_packet s)) c.
(** The two tables for destinations, which are only made and destroyed *)
Definition on_dst_map (idx : bool) {A} (c : cmd VI A) : cmd gen_state A :=
  zoom (λ s, if idx then dstip_to_node_idx_map s else dstip_to_node_dstip_map s)
    (λ h s, GenState (srcip_to_node_idx_map s) (srcip_to_node_srcip_map s)
      (if idx then h else dstip_to_node_idx_map s) (if idx then dstip_to_node_dstip_map s else h)
      (unique_ip_num s) (flow_seqid_hashmap s) (seqid_calls s) (rand_calls s) (pdumper s) (fp s) (g_packet s)) c.
Definition on_seqids {A} (c : cmd kf_state A) : cmd gen_state A :=
  zoom flow_seqid_hashmap (λ h s, GenState (srcip_to_node_idx_map s) (srcip_to_node_srcip_map s)
    (dstip_to_node_idx_map s) (dstip_to_node_dstip_map s) (unique_ip_num s) h (seqid_calls s) (rand_calls s)
    (pdumper s) (fp s) (g_packet s)) c.
Definition set_counts (u : Z) (n r : nat) (s : gen_state) : gen_state :=
  GenState (srcip_to_node_idx_map s) (srcip_to_node_srcip_map s) (dstip_to_node_idx_map s)
    (dstip_to_node_dstip_map s) u (flow_seqid_hashmap s) n r (pdumper s) (fp s) (g_packet s).
Definition set_packet (p : packet_t) (s : gen_state) : gen_state :=
  GenState (srcip_to_node_idx_map s) (srcip_to_node_srcip_map s) (dstip_to_node_idx_map s)
    (dstip_to_node_dstip_map s) (unique_ip_num s) (flow_seqid_hashmap s) (seqid_calls s) (rand_calls s)
    (pdumper s) (fp s) p.
Definition set_files (node_idx : Z) (pkts : list pcap_pkt) (lines : list text) (s : gen_state) : gen_state :=
  GenState (srcip_to_node_idx_map s) (srcip_to_node_srcip_map s) (dstip_to_node_idx_map s)
    (dstip_to_node_dstip_map s) (unique_ip_num s) (flow_seqid_hashmap s) (seqid_calls s) (rand_calls s)
    (λ i, if decide (i = node_idx) then pdumper s i ++ pkts else pdumper s i)
    (λ i, if decide (i = node_idx) then fp s i ++ lines else fp s i) (g_packet s).

(** ** srcip_dstip_to_b4_srcip_dstip.c *)

(** [ITH_SENDER_START_IP] of an unsigned number *)
Definition node_start_ip (i : Z) : Z := u32 (START_IP + u32 (ONE_SENDER_IP_NUM * i)).

(** [get_mapped_info]: [*p_mapped_nodeid] and [*p_mapped_ip] *)
Definition get_mapped_info (ip : Z) : cmd gen_state (Z * Z) :=
  let flow := packet_flow_src ip 0 in
  ret ← on_idx_map (ft_get flow);
  if decide (ret < 0) then
    modify (λ s, set_counts (u64 (unique_ip_num s + 1)) (seqid_calls s) (rand_calls s) s);;
    n ← gets unique_ip_num;
    let mapped_nodeid := u32 (n mod NUM_SENDERS) in
    on_idx_map (ft_set flow mapped_nodeid);;
    let num_ip_per_node := i32 (u64 (n - 1) / NUM_SENDERS) in
    let mapped_ip := u32 (node_start_ip mapped_nodeid + num_ip_per_node) in
    on_srcip_map (ft_set flow mapped_ip);;
    mret (mapped_nodeid, mapped_ip)
  else
    ip ← on_srcip_map (ft_get flow);
    mret (u32 ret, u32 ip).

(** [get_mapped_nodeid] and [get_mapped_ip], on the table they are given; the
    first with its counter *)
Definition get_mapped_nodeid (ip : Z) : cmd (VI * Z) Z :=
  let flow := packet_flow_src ip 0 in
  ret ← zoom fst (λ h s, (h, s.2)) (ft_get flow);
  if decide (ret < 0) then
    modify (λ s, (s.1, u64 (s.2 + 1)));;
    n ← gets snd;
    let node_idx := i32 (n mod NUM_SENDERS) in
    zoom fst (λ h s, (h, s.2)) (ft_set flow (u32 node_idx));;
    mret (u32 node_idx)
  else mret (u32 ret).
Definition get_mapped_ip (ip unique_ip_num : Z) : cmd VI Z :=
  let flow := packet_flow_src ip 0 in
  ret ← ft_get flow;
  if decide (ret < 0) then
    let node_idx := i32 (unique_ip_num mod NUM_SENDERS) in
    let num_ip_per_node := i32 (u64 (unique_ip_num - 1) / NUM_SENDERS) in
    start ← ITH_SENDER_START_IP node_idx;
    mapped_ip ← int_add start num_ip_per_node;
    let mapped_ip := u32 mapped_ip in
    ft_set flow mapped_ip;;
    mret mapped_ip
  else mret (u32 ret).

(** ** writePacketToPcapFile.c *)

(** [get_seqid_of_flow]; only the source address of the key is assigned *)
Definition seqid_key (n : nat) (p : packet_t) : flow_s :=
  let flow := indeterminate n in
  Flow (p_srcip p) (f_dstip flow) (f_src_port flow) (f_dst_port flow) (f_protocol flow).
Definition next_seqid (flow : flow_s) : cmd kf_state Z :=
  r ← ht_kf_get flow;
  (if decide (r < 0) then ht_kf_set flow 0 else mret tt);;
  r ← ht_kf_get flow;
  seqid ← int_add r 1;
  let seqid := u32 seqid in
  ht_kf_set flow seqid;;
  mret seqid.
Definition get_seqid_of_flow (p : packet_t) : cmd gen_state Z :=
  n ← gets seqid_calls;
  modify (λ s, set_counts (unique_ip_num s) (S n) (rand_calls s) s);;
  on_seqids (next_seqid (seqid_key n p)).

(** [generate_one_pcap_pkt] *)
Definition generate_one_pcap_pkt (p : packet_t) (node_idx : Z) : cmd gen_state unit :=
  seqid ← get_seqid_of_flow p;
  let packet_buffer := packet_bytes p seqid in
  let pkt_pcap_len := Z.of_nat (length packet_buffer) in
  if decide (0 <= node_idx < NUM_SENDERS) then
    modify (set_files node_idx [PcapPkt pkt_pcap_len (pkt_pcap_len + p_len p) packet_buffer] [trace_line p])
  else throw OutOfBounds.

(** ** The loop of [main] *)
Definition rand_port : cmd gen_state Z :=
  n ← gets rand_calls;
  modify (λ s, set_counts (unique_ip_num s) (seqid_calls s) (S n) s);;
  mret (u16 (Z.rem (rand n) 65536)).
(** From 2.2 on: the packet that was parsed *)
Definition map_packet : cmd gen_state unit :=
  packet ← gets g_packet;
  '(srcip_mapped_nodeid, srcip_mapped_srcip) ← get_mapped_info (p_srcip packet);
  '(dstip_mapped_nodeid, dstip_mapped_dstip) ← get_mapped_info (p_dstip packet);
  if decide (Z.lxor (GET_SENDER_IDX srcip_mapped_srcip) (GET_SENDER_IDX dstip_mapped_dstip) = 0) then mret tt else
  src_port ← rand_port;
  dst_port ← rand_port;
  let packet := Packet srcip_mapped_srcip dstip_mapped_dstip src_port dst_port (p_protocol packet)
                  (p_seqid packet) (p_len packet) (p_sampled packet) (p_selected_level packet) in
  modify (set_packet packet);;
  generate_one_pcap_pkt packet (i32 srcip_mapped_nodeid).
Definition generate_line (line_buffer : text) : cmd gen_state unit :=
  packet ← gets g_packet;
  '(ret, packet) ← lift (parse_one_line true line_buffer packet);
  modify (set_packet packet);;
  if decide (ret < 0) then mret tt else map_packet.
Fixpoint generate_lines (lines : list text) : cmd gen_state unit :=
  match lines with [] => mret tt | line :: lines => generate_line line;; generate_lines lines end.

(** The files 130000, 130100, ..., 140100; [None]: it cannot be opened *)
Fixpoint generate_files (files : list (option text)) : cmd gen_state unit :=
  match files with
  | [] => mret tt
  | None :: files => generate_files files
  | Some in_file :: files => generate_lines (lines in_file);; generate_files files
  end.
Definition filenos : list Z := (λ i, 130000 + 100 * i) <$> seqZ 0 102.

(** [init], given which tables get memory and whether the files can be opened,
    and [destory] *)
Definition gen_zero (mallocs : list bool) (packet : packet_t) : gen_state :=
  GenState (ft_create false) (ft_create false) (ft_create false) (ft_create false) 0
    (KfState PNull mallocs 0) 0 0 (λ _, []) (λ _, []) packet.
Definition init_srcip_dstip_to_b4_srcip_dstip (m1 m2 m3 m4 : bool) : cmd gen_state Z :=
  modify (λ s, GenState (ft_create m1) (ft_create m2) (ft_create m3) (ft_create m4) (unique_ip_num s)
    (flow_seqid_hashmap s) (seqid_calls s) (rand_calls s) (pdumper s) (fp s) (g_packet s));;
  if negb (m1 && m2 && m3 && m4) then mret (-1) else
  modify (λ s, set_counts 0 (seqid_calls s) (rand_calls s) s);;
  mret 0.
Definition init_write_pkts_to_files (files_ok : bool) : cmd gen_state Z :=
  on_seqids (ht_kf_create HASH_MAP_SIZE);;
  h ← gets (λ s, kf_table (flow_seqid_hashmap s));
  match h with
  | PNull => mret (-1)
  | _ => mret (if files_ok then 0 else -1)
  end.
Definition init (m1 m2 m3 m4 files_ok : bool) : cmd gen_state Z :=
  r ← init_srcip_dstip_to_b4_srcip_dstip m1 m2 m3 m4;
  if decide (r ≠ 0) then mret (-1) else
  r ← init_write_pkts_to_files files_ok;
  if decide (r ≠ 0) then mret (-1) else mret 0.
Definition destory_srcip_dstip_to_b4_srcip_dstip : cmd gen_state unit :=
  on_idx_map ft_destory;; on_srcip_map ft_destory;;
  on_dst_map true ft_destory;; on_dst_map false ft_destory.
(** Closing the files is libpcap's and the C library's. *)
Definition close_write_pkts_to_files : cmd gen_state unit := on_seqids (ht_kf_destory HASH_MAP_SIZE).
Definition destory : cmd gen_state unit := destory_srcip_dstip_to_b4_srcip_dstip;; close_write_pkts_to_files.
Definition main (m1 m2 m3 m4 files_ok : bool) (file : Z → option text) : cmd gen_state Z :=
  r ← init m1 m2 m3 m4 files_ok;
  if decide (r < 0) then mret (-1) else
  generate_files (file <$> filenos);;
  destory;;
  mret 0.
End generator.
