(* ===== verification/GeneratorSpec.v ===== *)
(** * What the trace generator keeps

    The mapping of addresses: the [n]-th new address goes to host [n mod 12].
    The sequence numbers: each source's packets are numbered from 1. *)
From S2P Require Import Prelude CMonad CFloat ChainedTable ChainSpec TableSpec FixSizeTable FixSizeIface.
From S2P Require Import Flow HashTableFlow PktListTable ObjStore Settings Sample FlowTables Warehouse WarehouseSpec.
From S2P Require Import Bytes VlanTag CText TaskManager SendPacket FrameSpec Fifo Receiver ConditionSender ConditionWire Generator.

(** ** The mapping of addresses *)
Definition node_of (n : Z) : Z := n mod NUM_SENDERS.
Definition addr_of (n : Z) : Z := START_IP + ONE_SENDER_IP_NUM * node_of n + (n - 1) / NUM_SENDERS.
(** The number of an address among those that have appeared, from 1 *)
Definition rank (ips : list Z) (ip : Z) : option Z := (λ x, Z.of_nat x.1 + 1) <$> list_find (.= ip) ips.
Definition appear (ips : list Z) (ip : Z) : list Z := if decide (ip ∈ ips) then ips else ips ++ [ip].
(** The hosts have room for so many addresses. *)
Definition MAX_IPS : Z := NUM_SENDERS * ONE_SENDER_IP_NUM.

Lemma addr_bounds n : 1 <= n <= MAX_IPS →
  0 <= node_of n < NUM_SENDERS ∧ 0 <= (n - 1) / NUM_SENDERS < ONE_SENDER_IP_NUM ∧ 0 <= addr_of n < 2 ^ 31.
Proof.
  unfold MAX_IPS, addr_of, node_of, NUM_SENDERS, ONE_SENDER_IP_NUM, START_IP. intros Hn.
  pose proof (Z.mod_pos_bound n 12). assert (0 <= (n - 1) / 12 < 16777216); [|lia].
  split; [apply Z.div_pos; lia|apply Z.div_lt_upper_bound; lia].
Qed.
Lemma addr_inj n n' : 1 <= n <= MAX_IPS → 1 <= n' <= MAX_IPS → addr_of n = addr_of n' → n = n'.
Proof.
  intros Hn Hn'. pose proof (addr_bounds n Hn) as (H1 & H2 & _). pose proof (addr_bounds n' Hn') as (H1' & H2' & _).
  unfold addr_of, node_of, NUM_SENDERS, ONE_SENDER_IP_NUM in *. intros E.
  assert (n mod 12 = n' mod 12) as Em by lia. assert ((n - 1) / 12 = (n' - 1) / 12) as Ed by lia.
  pose proof (Z.div_mod (n - 1) 12 ltac:(lia)). pose proof (Z.div_mod (n' - 1) 12 ltac:(lia)).
  pose proof (Z.mod_pos_bound (n - 1) 12). pose proof (Z.mod_pos_bound (n' - 1) 12).
  pose proof (Z.div_mod n 12 ltac:(lia)). pose proof (Z.div_mod n' 12 ltac:(lia)).
  pose proof (Z.mod_pos_bound n 12). pose proof (Z.mod_pos_bound n' 12). lia.
Qed.
Lemma land_mask_high ip : 0 <= ip < 2 ^ 32 → Z.shiftr (Z.land ip IP_MASK) 24 = ip / ONE_SENDER_IP_NUM.
Proof.
  intros Hip. rewrite Z.shiftr_land. change (Z.shiftr IP_MASK 24) with (Z.ones 8).
  rewrite Z.shiftr_div_pow2 by lia. change (2 ^ 24) with ONE_SENDER_IP_NUM. rewrite Z.land_ones by lia.
  apply Z.mod_small. unfold ONE_SENDER_IP_NUM. split; [apply Z.div_pos; lia|apply Z.div_lt_upper_bound; lia].
Qed.
(** A mapped address is one of its host's network. *)
Lemma addr_network n : 1 <= n <= MAX_IPS → GET_SENDER_IDX (addr_of n) = node_of n.
Proof.
  intros Hn. destruct (addr_bounds n Hn) as (Hnode & Hoff & Ha). unfold GET_SENDER_IDX.
  rewrite land_mask_high by lia. change (Z.shiftr FIRST_SENDER_IP_PREFIX 24) with 10.
  assert (addr_of n / ONE_SENDER_IP_NUM = 10 + node_of n) as ->.
  { unfold addr_of. symmetry. apply (Z.div_unique _ _ _ ((n - 1) / NUM_SENDERS)); [lia|].
    unfold START_IP, ONE_SENDER_IP_NUM. lia. }
  unfold NUM_SENDERS in *. rewrite wrap_small by (unfold in_u; lia). lia.
Qed.

Lemma rank_elem ips ip : ip ∈ ips → ∃ n, rank ips ip = Some n ∧ 1 <= n <= Z.of_nat (length ips).
Proof.
  intros Hip. unfold rank. destruct (list_find (.= ip) ips) as [[i x]|] eqn:E; simpl.
  - apply list_find_Some in E as (E & _). apply lookup_lt_Some in E. eexists. split; [done|]. lia.
  - apply list_find_None in E. rewrite Forall_forall in E. by destruct (E ip Hip).
Qed.
Lemma rank_None ips ip : ip ∉ ips → rank ips ip = None.
Proof.
  intros Hip. unfold rank. destruct (list_find (.= ip) ips) as [[i x]|] eqn:E; [|done].
  apply list_find_Some in E as (E & -> & _). by apply list_elem_of_lookup_2 in E.
Qed.
Lemma rank_Some ips ip n : rank ips ip = Some n → ips !! Z.to_nat (n - 1) = Some ip ∧ 1 <= n.
Proof.
  unfold rank. intros E. apply fmap_Some in E as ([i x] & (Ex & -> & _)%list_find_Some & ->). simpl.
  split; [|lia]. by replace (Z.to_nat (Z.of_nat i + 1 - 1)) with i by lia.
Qed.
Lemma rank_inj ips ip ip' n : rank ips ip = Some n → rank ips ip' = Some n → ip = ip'.
Proof. intros [E _]%rank_Some [E' _]%rank_Some. congruence. Qed.
Lemma rank_app ips ip ips' n : rank ips ip = Some n → rank (ips ++ ips') ip = Some n.
Proof.
  unfold rank. intros E. apply fmap_Some in E as ([i x] & E & ->). by rewrite (list_find_app_l _ _ _ _ _ E).
Qed.
Lemma rank_snoc ips ip ip' : ip ∉ ips →
  rank (ips ++ [ip]) ip' = if decide (ip' = ip) then Some (Z.of_nat (length ips) + 1) else rank ips ip'.
Proof.
  intros Hip. case_decide as E.
  - subst ip'. unfold rank. rewrite list_find_app_r; simpl.
    + by destruct (decide (ip = ip)).
    + apply list_find_None, Forall_forall. by intros x Hx ->.
  - destruct (decide (ip' ∈ ips)) as [Hin|Hin].
    + destruct (rank_elem ips ip' Hin) as (n & En & _). rewrite En. by apply rank_app.
    + rewrite (rank_None ips) by done. apply rank_None. set_solver.
Qed.
Lemma rank_appear ips ip : ∃ n, rank (appear ips ip) ip = Some n ∧ 1 <= n <= Z.of_nat (length (appear ips ip)).
Proof. apply rank_elem. unfold appear. case_decide; set_solver. Qed.

Ltac gen_cbn := unfold set_counts, set_packet; cbn [srcip_to_node_idx_map srcip_to_node_srcip_map dstip_to_node_idx_map
  dstip_to_node_dstip_map unique_ip_num flow_seqid_hashmap seqid_calls rand_calls pdumper fp g_packet].

Section mapping.
Context {K VI : Type} `{KeyLaws K} `{!FlowTable K Z Z VI} `{!FlowTableLaws K Z Z VI} `{!IntTable K VI} `{!PacketFlow K}.
Context (flow_inj : ∀ ip ip', key_compare (packet_flow_src ip 0) (packet_flow_src (K := K) ip' 0) = 0 → ip = ip').
Implicit Types (s : gen_state (VI := VI)) (ips : list Z).

(** The tables hold the mapping of the addresses that have appeared. *)
Record ips_ok s ips : Prop := {
  ip_idx : ∃ N ps, ft_view (srcip_to_node_idx_map s) N ps ∧
    ∀ ip, N (packet_flow_src ip 0) = node_of <$> rank ips ip;
  ip_addr : ∃ I ps, ft_view (srcip_to_node_srcip_map s) I ps ∧
    ∀ ip, I (packet_flow_src ip 0) = addr_of <$> rank ips ip;
  ip_num : unique_ip_num s = Z.of_nat (length ips)
}.
(** Only the mapping may differ. *)
Definition same_but_ips s s' : Prop :=
  flow_seqid_hashmap s' = flow_seqid_hashmap s ∧ seqid_calls s' = seqid_calls s ∧ rand_calls s' = rand_calls s ∧
  pdumper s' = pdumper s ∧ fp s' = fp s ∧ g_packet s' = g_packet s.

Lemma kupd_flow {V} ip ip' (o : option V) (m : kmap K V) :
  kupd (packet_flow_src ip 0) o m (packet_flow_src ip' 0) = if decide (ip' = ip) then o else m (packet_flow_src ip' 0).
Proof.
  unfold kupd. destruct (decide (ip' = ip)) as [->|Hne].
  - by rewrite decide_True by apply compare_refl.
  - rewrite decide_False; [done|]. intros E. apply Hne. by apply flow_inj.
Qed.

Lemma wp_get_mapped_info s ips ip (Q : Z * Z → gen_state → Prop) :
  ips_ok s ips → Z.of_nat (length (appear ips ip)) <= MAX_IPS →
  (∀ s' n, ips_ok s' (appear ips ip) → same_but_ips s s' → rank (appear ips ip) ip = Some n →
     Q (node_of n, addr_of n) s') →
  wp (get_mapped_info ip) Q s.
Proof.
  intros [(N & ps & HN & EN) (I & qs & HI & EI) Hu] Hb HQ. unfold get_mapped_info. wp_step.
  unfold on_idx_map at 1. apply wp_zoom. eapply ft_get_ok; [exact HN|]. rewrite EN, int_table_ret.
  unfold appear in *. destruct (decide (ip ∈ ips)) as [Hip|Hip].
  - destruct (rank_elem ips ip Hip) as (n & En & Hn). rewrite En in *. simpl.
    destruct (addr_bounds n ltac:(lia)) as (Hnode & _ & Ha). unfold NUM_SENDERS in Hnode.
    rewrite i32_of_u32_low, decide_False by lia. wp_step. unfold on_srcip_map. apply wp_zoom. cbn [srcip_to_node_srcip_map].
    eapply ft_get_ok; [exact HI|]. rewrite EI, En, int_table_ret. simpl. rewrite i32_of_u32_low by lia. apply wp_ret.
    rewrite !wrap_small by (unfold in_u; lia). apply HQ; [|by split_and!|done].
    split; [by exists N, ps|by exists I, qs|done].
  - rewrite (rank_None ips ip Hip). simpl. rewrite length_app in Hb. simpl in Hb. set (n := Z.of_nat (length ips) + 1) in *.
    pose proof (addr_bounds n ltac:(lia)) as (Hnode & Hoff & Ha).
    assert (u64 (unique_ip_num s + 1) = n) as En.
    { rewrite Hu. apply wrap_small. unfold in_u, MAX_IPS, NUM_SENDERS, ONE_SENDER_IP_NUM in *. lia. }
    wp_step. wp_step. wp_step. wp_step. gen_cbn. rewrite En.
    assert (u32 (n mod NUM_SENDERS) = node_of n) as -> by (apply wrap_small; unfold in_u, node_of, NUM_SENDERS in *; lia).
    assert (u64 (n - 1) = n - 1) as -> by (apply wrap_small; unfold in_u, MAX_IPS, NUM_SENDERS, ONE_SENDER_IP_NUM in *; lia).
    assert (u32 (node_start_ip (node_of n) + i32 ((n - 1) / NUM_SENDERS)) = addr_of n) as ->.
    { unfold ONE_SENDER_IP_NUM in Hoff. rewrite i32_of_u32_low by lia. unfold node_start_ip.
      rewrite (wrap_small 32 (ONE_SENDER_IP_NUM * node_of n)) by (unfold in_u, ONE_SENDER_IP_NUM, NUM_SENDERS in *; lia).
      rewrite (wrap_small 32 (START_IP + _)) by (unfold in_u, START_IP, ONE_SENDER_IP_NUM, NUM_SENDERS in *; lia).
      apply wrap_small. unfold in_u. unfold addr_of in *. lia. }
    wp_step. unfold on_idx_map. apply wp_zoom. gen_cbn. eapply ft_set_ok; [exact HN|]. intros h1 ps1 HN1 _.
    wp_step. unfold on_srcip_map. apply wp_zoom. gen_cbn. eapply ft_set_ok; [exact HI|]. intros h2 qs1 HI1 _.
    apply wp_ret. apply HQ; [|by split_and!|by rewrite rank_snoc, decide_True].
    split; cbn.
    + exists (kupd (packet_flow_src ip 0) (Some (node_of n)) N), ps1. split; [done|]. intros ip'.
      rewrite kupd_flow, rank_snoc by done. case_decide; [done|apply EN].
    + exists (kupd (packet_flow_src ip 0) (Some (addr_of n)) I), qs1. split; [done|]. intros ip'.
      rewrite kupd_flow, rank_snoc by done. case_decide; [done|apply EI].
    + rewrite length_app. simpl. lia.
Qed.
End mapping.

(** ** Sequence numbers *)
Implicit Types (m : kmap flow_s Z).
Lemma wp_next_seqid (s : kf_state) m key c (Q : Z → kf_state → Prop) :
  kf_rep s m → m key = (if decide (c = 0) then None else Some c) → 0 <= c < 2 ^ 31 - 1 →
  (∀ s' m', kf_rep s' m' → m' ≡ kupd key (Some (c + 1)) m → Q (c + 1) s') →
  wp (next_seqid key) Q s.
Proof.
  intros R Em Hc HQ. unfold next_seqid. wp_step. eapply wp_kf_get; [exact R|]. rewrite Em.
  assert (∀ s1 m1, kf_rep s1 m1 → m1 key = Some c → m1 ≡ m ∨ m1 = kupd key (Some 0) m →
    wp (r ← ht_kf_get key; seqid ← int_add r 1; ht_kf_set key (u32 seqid);; mret (u32 seqid)) Q s1) as Hrest.
  { intros s1 m1 R1 E1 Hm1. wp_step. eapply wp_kf_get; [exact R1|]. rewrite E1. simpl. rewrite i32_of_u32_low by lia.
    wp_step. apply wp_int_add; [unfold in_s; lia|]. rewrite wrap_small by (unfold in_u; lia). wp_step.
    eapply wp_kf_set; [exact R1|]. intros s2 R2. apply wp_ret. eapply HQ; [exact R2|].
    intros k. unfold kupd. destruct (decide (key_compare k key = 0)) as [E|E]; [done|]. destruct Hm1 as [Hm1| ->]; [apply Hm1|].
    unfold kupd. by rewrite decide_False. }
  destruct (decide (c = 0)) as [->|Hne].
  - simpl. wp_step. eapply wp_kf_set; [exact R|]. intros s1 R1. eapply Hrest; [exact R1|by rewrite kupd_eq|by right].
  - simpl. rewrite i32_of_u32_low by lia. rewrite decide_False by lia. wp_step. apply wp_ret.
    eapply Hrest; [exact R|done|by left].
Qed.

(** ** The packets generated: the host, the flow, the sequence number and the
    length on the wire *)
Abbreviation generated := (list (Z * (flow_s * (Z * Z)))).
Implicit Types (out : generated).
Definition packets_of (a : Z) out : Z := Z.of_nat (length (filter (λ x, f_srcip x.2.1 = a) out)).
Definition of_node (i : Z) out : list (flow_s * (Z * Z)) := snd <$> filter (λ x, x.1 = i) out.

(** The headers of a generated packet *)
Definition gen_filler : filler :=
  Filler [] (CONDITION_MAC ++ CONDITION_MAC) [69; 0; 0; 40; 0; 0; 0; 64; 64] [0; 0] [0; 0; 0; 0; 80; 0; 0; 0; 0; 0; 0; 0].
Definition pcap_of (x : flow_s * (Z * Z)) : pcap_pkt :=
  PcapPkt 58 x.2.2 (frame gen_filler [0] x.1 x.2.1).
Definition packet_flow (p : packet_t) : flow_s := Flow (p_srcip p) (p_dstip p) (p_src_port p) (p_dst_port p) 6.

Lemma packet_bytes_frame p seqid :
  flow_ok (packet_flow p) → in_u 32 seqid → packet_bytes p seqid = frame gen_filler [0] (packet_flow p) seqid.
Proof.
  intros (H1 & H2 & H3 & H4 & _) Hs. unfold packet_bytes, ip_header, tcp_header.
  cbn [packet_flow f_srcip f_dstip f_src_port f_dst_port] in *.
  rewrite (mem32_ntohl (p_srcip p)), (mem32_ntohl (p_dstip p)), (mem32_ntohl seqid), (mem16_ntohs (p_src_port p)),
    (mem16_ntohs (p_dst_port p)) by done.
  unfold frame, eth_frame, ip_part. cbn [packet_flow f_srcip f_dstip f_src_port f_dst_port f_protocol gen_filler fl_pre fl_mac fl_ip fl_sum fl_rest].
  change (ethernet_header_vlan) with ((CONDITION_MAC ++ CONDITION_MAC) ++ [129; 0; 0; 0; 8; 0]).
  change (mem16 (ntohs (20 + 20))) with [0; 40]. change (mem16 16384) with [0; 64].
  rewrite !app_nil_l. by rewrite <- !app_assoc.
Qed.

(** A line of a recorded trace: what its first field is does not matter. *)
Record record := Record' {
  rc_time : text; rc_srcip : Z; rc_dstip : Z; rc_src_port : Z; rc_dst_port : Z; rc_protocol : Z; rc_len : Z
}.
Definition record_ok (r : record) : Prop :=
  token_ok 44 (rc_time r) ∧ in_u 32 (rc_srcip r) ∧ in_u 32 (rc_dstip r) ∧ in_u 16 (rc_src_port r) ∧
  in_u 16 (rc_dst_port r) ∧ byte (rc_protocol r) ∧ 0 <= rc_len r <= MAX_PAYLOAD_SIZE.
Definition record_numbers (r : record) : list Z :=
  [rc_srcip r; rc_dstip r; rc_src_port r; rc_dst_port r; rc_protocol r; rc_len r].
Definition record_line (r : record) : text := join 44 (rc_time r :: map dec (record_numbers r)) ++ [NL].

Record pkt_ok (x : Z * (flow_s * (Z * Z))) : Prop := {
  po_flow : flow_ok x.2.1;
  po_tcp : f_protocol x.2.1 = 6;
  po_node : 0 <= x.1 < NUM_SENDERS;
  po_src : GET_SENDER_IDX (f_srcip x.2.1) = x.1;
  po_net : GET_NET_IDENTITY (f_srcip x.2.1) = 10 + x.1;
  po_dst : GET_SENDER_IDX (f_dstip x.2.1) ≠ x.1;
  po_len : 58 <= x.2.2.2 <= 58 + MAX_PAYLOAD_SIZE
}.
(** The packets of a source are numbered from 1. *)
Definition numbered out : Prop := ∀ out1 x out2,
  out = out1 ++ x :: out2 → x.2.2.1 = packets_of (f_srcip x.2.1) out1 + 1.

Lemma packets_of_snoc a out x :
  packets_of a (out ++ [x]) = packets_of a out + if decide (f_srcip x.2.1 = a) then 1 else 0.
Proof. unfold packets_of. rewrite filter_app, length_app, filter_cons. case_decide; simpl; lia. Qed.
Lemma packets_of_le a out : 0 <= packets_of a out <= Z.of_nat (length out).
Proof. unfold packets_of. pose proof (length_filter (λ x : Z * (flow_s * (Z * Z)), f_srcip x.2.1 = a) out). lia. Qed.
Lemma numbered_snoc out x : numbered out → x.2.2.1 = packets_of (f_srcip x.2.1) out + 1 → numbered (out ++ [x]).
Proof.
  intros Hn Hx out1 y out2 E. destruct out2 as [|z out2 _] using rev_ind; [by apply app_inj_tail in E as [<- <-]|].
  rewrite app_comm_cons, app_assoc in E. apply app_inj_tail in E as [E _]. by eapply Hn.
Qed.

Lemma addr_shiftr n : 1 <= n <= MAX_IPS → Z.shiftr (addr_of n) 24 = 10 + node_of n.
Proof.
  intros Hn. destruct (addr_bounds n Hn) as (Hnode & Hoff & Ha). rewrite Z.shiftr_div_pow2 by lia.
  change (2 ^ 24) with ONE_SENDER_IP_NUM. unfold addr_of. symmetry.
  apply (Z.div_unique _ _ _ ((n - 1) / NUM_SENDERS)); [lia|]. unfold START_IP, ONE_SENDER_IP_NUM. lia.
Qed.

(** What a record adds: to the addresses that have appeared, the packets
    generated and the random numbers drawn *)
Definition port (rand : nat → Z) (n : nat) : Z := u16 (Z.rem (rand n) 65536).
Definition mapped (ips : list Z) (ip : Z) : Z := from_option addr_of 0 (rank ips ip).
Definition spec_packet (rand : nat → Z) (srcip dstip len : Z) (g : list Z * generated * nat) : list Z * generated * nat :=
  let '(ips, out, r) := g in
  let ips' := appear (appear ips srcip) dstip in
  let src := mapped ips' srcip in
  let dst := mapped ips' dstip in
  let node := GET_SENDER_IDX src in
  if decide (node = GET_SENDER_IDX dst) then (ips', out, r)
  else (ips', out ++ [(node, (Flow src dst (port rand r) (port rand (S r)) 6, (packets_of src out + 1, 58 + len)))], S (S r)).
Definition spec_record (rand : nat → Z) (r : record) := spec_packet rand (rc_srcip r) (rc_dstip r) (rc_len r).
Definition spec_records (rand : nat → Z) (rs : list record) (g : list Z * generated * nat) := foldl (λ g r, spec_record rand r g) g rs.

(** ** One packet *)
Section lines.
Context {K VI : Type} `{KeyLaws K} `{!FlowTable K Z Z VI} `{!FlowTableLaws K Z Z VI} `{!IntTable K VI} `{!PacketFlow K}.
Context (flow_inj : ∀ ip ip', key_compare (packet_flow_src ip 0) (packet_flow_src (K := K) ip' 0) = 0 → ip = ip').
Context (rand : nat → Z) (indeterminate : nat → flow_s) (steady : ∀ n, indeterminate n = indeterminate 0%nat).
Implicit Types (s : gen_state (VI := VI)) (ips : list Z) (p : packet_t).

Definition key_of (a : Z) : flow_s :=
  let flow := indeterminate 0%nat in Flow a (f_dstip flow) (f_src_port flow) (f_dst_port flow) (f_protocol flow).
Lemma key_of_inj a a' : key_compare (key_of a) (key_of a') = 0 ↔ a = a'.
Proof. unfold key_of. split; [by intros (E & _)%flow_compare_eq|intros ->; apply compare_refl]. Qed.

Record gen_inv s ips out : Prop := {
  gi_ips : ips_ok s ips;
  gi_seqids : ∃ m, kf_rep (flow_seqid_hashmap s) m ∧
    ∀ a, m (key_of a) = if decide (packets_of a out = 0) then None else Some (packets_of a out);
  gi_ok : Forall pkt_ok out;
  gi_numbered : numbered out;
  gi_files i : pdumper s i = pcap_of <$> of_node i out
}.

Lemma gen_inv_frame s s' ips ips' out :
  gen_inv s ips out → ips_ok s' ips' → flow_seqid_hashmap s' = flow_seqid_hashmap s → pdumper s' = pdumper s →
  gen_inv s' ips' out.
Proof. intros [_ Hm Ho Hn Hf] Hi Es Ed. split; [done|by rewrite Es|done|done|by rewrite Ed]. Qed.
Lemma ips_ok_frame s s' ips :
  ips_ok s ips → srcip_to_node_idx_map s' = srcip_to_node_idx_map s →
  srcip_to_node_srcip_map s' = srcip_to_node_srcip_map s → unique_ip_num s' = unique_ip_num s → ips_ok s' ips.
Proof. intros [Hi Ha Hn] E1 E2 E3. split; [by rewrite E1|by rewrite E2|by rewrite E3]. Qed.

Lemma wp_generate_one_pcap_pkt s ips out p (Q : unit → gen_state (VI := VI) → Prop) :
  gen_inv s ips out → Z.of_nat (length out) < 2 ^ 31 - 1 → flow_ok (packet_flow p) →
  let node := GET_SENDER_IDX (p_srcip p) in
  0 <= node < NUM_SENDERS → GET_NET_IDENTITY (p_srcip p) = 10 + node → GET_SENDER_IDX (p_dstip p) ≠ node →
  0 <= p_len p <= MAX_PAYLOAD_SIZE →
  (∀ s', gen_inv s' ips (out ++ [(node, (packet_flow p, (packets_of (p_srcip p) out + 1, 58 + p_len p)))]) →
     rand_calls s' = rand_calls s → Q tt s') →
  wp (generate_one_pcap_pkt indeterminate p node) Q s.
Proof.
  intros [Hi (m & R & Em) Ho Hn Hf] Hb Hfl node Hnode Hnet Hdst Hlen HQ. unfold generate_one_pcap_pkt, get_seqid_of_flow.
  wp_steps. unfold on_seqids. apply wp_zoom. gen_cbn.
  assert (seqid_key indeterminate (seqid_calls s) p = key_of (p_srcip p)) as -> by (unfold seqid_key, key_of; by rewrite steady).
  pose proof (packets_of_le (p_srcip p) out) as Hc. set (c := packets_of (p_srcip p) out) in *.
  eapply (wp_next_seqid _ m _ c); [exact R|apply Em|lia|]. intros kf' m' R' Em'.
  rewrite packet_bytes_frame by (done || (unfold in_u; lia)). rewrite decide_True by done. apply wp_modify. gen_cbn.
  apply HQ; [|done].
  assert (length (frame gen_filler [0] (packet_flow p) (c + 1)) = 58%nat) as Elen by done.
  split; unfold set_files; gen_cbn.
  - by eapply ips_ok_frame.
  - exists m'. split; [done|]. intros a. rewrite Em', packets_of_snoc. cbn [snd fst packet_flow f_srcip]. unfold kupd.
    pose proof (packets_of_le a out). destruct (decide (p_srcip p = a)) as [<-|Hne].
    + rewrite decide_True by by apply key_of_inj. by rewrite decide_False by lia.
    + rewrite decide_False by (intros E; apply (proj1 (key_of_inj _ _)) in E; congruence). by rewrite Em, Z.add_0_r.
  - apply Forall_app. split; [done|]. constructor; [|constructor]. split; cbn [fst snd packet_flow f_srcip f_dstip f_protocol]; try done. lia.
  - by apply numbered_snoc.
  - intros i. rewrite Hf. unfold of_node. rewrite filter_app, filter_cons. cbn [fst].
    destruct (decide (i = node)) as [->|Hne].
    + rewrite (decide_True (P := node = node)) by done. rewrite !fmap_app. done.
    + rewrite decide_False by congruence. by rewrite app_nil_r.
Qed.

Lemma wp_map_packet s ips out (Q : unit → gen_state (VI := VI) → Prop) :
  gen_inv s ips out → Z.of_nat (length ips) + 2 <= MAX_IPS → Z.of_nat (length out) < 2 ^ 31 - 1 →
  0 <= p_len (g_packet s) <= MAX_PAYLOAD_SIZE →
  (∀ s' ips' out', gen_inv s' ips' out' →
     spec_packet rand (p_srcip (g_packet s)) (p_dstip (g_packet s)) (p_len (g_packet s)) (ips, out, rand_calls s)
       = (ips', out', rand_calls s') → Q tt s') →
  wp (map_packet rand indeterminate) Q s.
Proof.
  intros Hinv Hips Hout Hlen HQ. unfold map_packet. wp_step. wp_step. wp_step.
  assert (∀ l a, (length (appear l a) <= length l + 1)%nat) as Happ
    by (intros l a; unfold appear; case_decide; rewrite ?length_app; simpl; lia).
  set (p := g_packet s) in *. pose proof (Happ ips (p_srcip p)) as H1.
  set (ips1 := appear ips (p_srcip p)) in *. pose proof (Happ ips1 (p_dstip p)) as H2. set (ips2 := appear ips1 (p_dstip p)) in *.
  eapply (wp_get_mapped_info flow_inj s ips); [apply Hinv|fold ips1; lia|]. fold ips1.
  intros s1 n1 Hi1 (Ek1 & _ & Er1 & Ed1 & _ & Ep1) En1. wp_step.
  eapply (wp_get_mapped_info flow_inj s1 ips1); [done|fold ips2; lia|]. fold ips2.
  intros s2 n2 Hi2 (Ek2 & _ & Er2 & Ed2 & _ & Ep2) En2.
  assert (spec_packet rand (p_srcip p) (p_dstip p) (p_len p) (ips, out, rand_calls s)
    = if decide (GET_SENDER_IDX (addr_of n1) = GET_SENDER_IDX (addr_of n2)) then (ips2, out, rand_calls s)
      else (ips2, out ++ [(GET_SENDER_IDX (addr_of n1), (Flow (addr_of n1) (addr_of n2) (port rand (rand_calls s))
        (port rand (S (rand_calls s))) 6, (packets_of (addr_of n1) out + 1, 58 + p_len p)))], S (S (rand_calls s)))) as Hspec.
  { unfold spec_packet. fold ips1. fold ips2. unfold mapped. rewrite En2.
    assert (rank ips2 (p_srcip p) = Some n1) as ->; [|done]. unfold ips2, appear. case_decide; [done|by apply rank_app]. }
  assert (gen_inv s2 ips2 out) as Hinv2 by (eapply gen_inv_frame; [exact Hinv|done|congruence|congruence]).
  assert (1 <= n1 <= MAX_IPS) as Hn1.
  { destruct (rank_appear ips (p_srcip p)) as (n & En & Hn). fold ips1 in En, Hn. rewrite En1 in En. injection En as ->. lia. }
  assert (1 <= n2 <= MAX_IPS) as Hn2.
  { destruct (rank_appear ips1 (p_dstip p)) as (n & En & Hn). fold ips2 in En, Hn. rewrite En2 in En. injection En as ->. lia. }
  destruct (addr_bounds n1 Hn1) as (Hnode1 & _ & Ha1). destruct (addr_bounds n2 Hn2) as (Hnode2 & _ & Ha2).
  destruct (decide (Z.lxor (GET_SENDER_IDX (addr_of n1)) (GET_SENDER_IDX (addr_of n2)) = 0)) as [E|Hne].
  - apply wp_ret. eapply HQ; [exact Hinv2|]. rewrite Hspec, decide_True by (by apply Z.lxor_eq_0_iff). by rewrite Er2, Er1.
  - rewrite Z.lxor_eq_0_iff in Hne. unfold rand_port. wp_steps. gen_cbn.
    assert (i32 (node_of n1) = GET_SENDER_IDX (addr_of n1)) as ->
      by (rewrite addr_network by done; apply i32_of_u32_low; unfold NUM_SENDERS in *; lia).
    assert (∀ x, in_u 16 (u16 x)) as Hp16 by (intros x; by apply wrap_in_u).
    eapply (wp_generate_one_pcap_pkt _ ips2 out (Packet _ _ _ _ _ _ _ _ _)); cbn [p_srcip p_dstip p_len packet_flow];
      try rewrite addr_network by done.
    + eapply gen_inv_frame; [exact Hinv2| |done|done]. by eapply ips_ok_frame.
    + lia.
    + repeat split; try apply Hp16; unfold in_u, byte, in_u; simpl; try lia; done.
    + done.
    + unfold GET_NET_IDENTITY. by apply addr_shiftr.
    + rewrite ?(addr_network n2), ?(addr_network n1) in * by done. congruence.
    + done.
    + intros s' Hs' Er. eapply HQ; [exact Hs'|]. rewrite Hspec, decide_False by done. rewrite Er. cbn [rand_calls].
      by rewrite Er2, Er1, (addr_network n1).
Qed.
End lines.
