(* ===== verification/GeneratorProps.v ===== *)
(** * Properties of the trace generator *)
From S2P Require Import Prelude CMonad CFloat ChainedTable ChainSpec TableSpec FixSizeTable FixSizeIface.
From S2P Require Import Flow HashTableFlow PktListTable ObjStore Settings Sample FlowTables Warehouse WarehouseSpec.
From S2P Require Import Config Bytes VlanTag CText TaskManager SendPacket FrameSpec Fifo Receiver ConditionSender.
From S2P Require Import ConditionWire SendPackets Testbed TestbedSpec TestbedProps LossSpec LossProps Generator GeneratorSpec.

(** ** A line of a recorded trace *)
Lemma record_tokens r : record_ok r → ∃ t2 t3 t4 t5 t6 t7,
  str_split (record_line r) 44 true = Ok (Some [rc_time r; t2; t3; t4; t5; t6; t7]) ∧
  strtoul t2 = rc_srcip r ∧ strtoul t3 = rc_dstip r ∧ strtoul t7 = rc_len r.
Proof.
  intros (Ht & Hs & Hd & Hsp & Hdp & Hpr & Hl). unfold record_line.
  assert (∀ n, 0 <= n → token_ok 44 (dec n)) as Htok.
  { intros n Hn. destruct (dec_spec n Hn) as (_ & _ & Hne). split; [done|]. by apply dec_not. }
  assert (∀ n, 0 <= n < 2 ^ 64 → strtoul (dec n) = n) as Hval.
  { intros n Hn. rewrite <- (app_nil_r (dec n)). by apply strtoul_dec. }
  unfold in_u, byte, MAX_PAYLOAD_SIZE in *. unfold in_u in *.
  set (ts := rc_time r :: map dec [rc_srcip r; rc_dstip r; rc_src_port r; rc_dst_port r; rc_protocol r]).
  change (rc_time r :: map dec (record_numbers r)) with (ts ++ [dec (rc_len r)]). rewrite join_snoc_nl.
  do 6 eexists. rewrite str_split_join; [split; [reflexivity|]|done|].
  - split_and!; [apply Hval; lia|apply Hval; lia|]. by apply strtoul_dec; [lia|].
  - unfold ts. simpl. repeat (apply Forall_cons; split; [first [exact Ht|by apply Htok; lia]|]). constructor; [|constructor].
    destruct (Htok (rc_len r) ltac:(lia)) as [Hne Hno]. split; [by destruct (dec (rc_len r))|].
    rewrite not_elem_of_app. split; [done|]. by intros ?%list_elem_of_singleton.
Qed.

Lemma parse_seven t1 t2 t3 t4 t5 t6 t7 p :
  parse_tokens 0 [t1; t2; t3; t4; t5; t6; t7] p
  = (7, Packet (u32 (strtoul t2)) (u32 (strtoul t3)) (u16 (strtol t4)) (u16 (strtol t5)) (u8 (u16 (strtol t6)))
          (p_seqid p) (u16 (strtoul t7)) (p_sampled p) (p_selected_level p)).
Proof. by destruct p. Qed.
Lemma parse_record r p : record_ok r → ∃ p',
  parse_one_line true (record_line r) p = Ok (0, p') ∧
  p_srcip p' = rc_srcip r ∧ p_dstip p' = rc_dstip r ∧ p_len p' = rc_len r.
Proof.
  intros Hr. destruct (record_tokens r Hr) as (t2 & t3 & t4 & t5 & t6 & t7 & Et & E2 & E3 & E7).
  destruct Hr as (_ & Hs & Hd & _ & _ & _ & Hl). unfold parse_one_line. rewrite Et. cbn [default from_option id].
  rewrite parse_seven. cbn [p_len].
  rewrite E2, E3, E7.
  assert (u16 (rc_len r) = rc_len r) as ->
    by (apply wrap_small; unfold in_u, MAX_PAYLOAD_SIZE in *; lia).
  rewrite !wrap_small by done. rewrite decide_False by lia. eexists. split; [done|]. done.
Qed.

(** ** Whole traces *)
Section traces.
Context {K VI : Type} `{KeyLaws K} `{!FlowTable K Z Z VI} `{!FlowTableLaws K Z Z VI} `{!IntTable K VI} `{!PacketFlow K}.
Context (flow_inj : ∀ ip ip', key_compare (packet_flow_src ip 0) (packet_flow_src (K := K) ip' 0) = 0 → ip = ip').
Context (rand : nat → Z) (indeterminate : nat → flow_s) (steady : ∀ n, indeterminate n = indeterminate 0%nat).
Implicit Types (s : gen_state (VI := VI)) (ips : list Z) (out : generated) (rs : list record).

Lemma length_appear ips ip : (length (appear ips ip) <= length ips + 1)%nat.
Proof. unfold appear. case_decide; rewrite ?length_app; simpl; lia. Qed.
Lemma spec_record_length r ips out n ips' out' n' :
  spec_record rand r (ips, out, n) = (ips', out', n') →
  (length ips' <= length ips + 2)%nat ∧ (length out' <= length out + 1)%nat.
Proof.
  unfold spec_record, spec_packet. intros E.
  pose proof (length_appear ips (rc_srcip r)). pose proof (length_appear (appear ips (rc_srcip r)) (rc_dstip r)).
  case_decide; injection E as <- <- <-; rewrite ?length_app; simpl; lia.
Qed.

Lemma wp_generate_line s ips out r (Q : unit → gen_state (VI := VI) → Prop) :
  gen_inv indeterminate s ips out → record_ok r →
  Z.of_nat (length ips) + 2 <= MAX_IPS → Z.of_nat (length out) < 2 ^ 31 - 1 →
  (∀ s' ips' out', gen_inv indeterminate s' ips' out' →
     spec_record rand r (ips, out, rand_calls s) = (ips', out', rand_calls s') → Q tt s') →
  wp (generate_line rand indeterminate (record_line r)) Q s.
Proof.
  intros Hinv Hr Hips Hout HQ. unfold generate_line. wp_step. wp_step. wp_step.
  destruct (parse_record r (g_packet s) Hr) as (p & E & Es & Ed & El). unfold lift, wp at 1. rewrite E.
  destruct Hr as (_ & _ & _ & _ & _ & _ & Hl). do 2 wp_step. rewrite decide_False by lia.
  eapply wp_map_packet; [done..| | | | |].
  - eapply gen_inv_frame; [exact Hinv| |done|done]. by eapply ips_ok_frame; [apply Hinv|..].
  - done.
  - done.
  - cbn [set_packet g_packet]. by rewrite El.
  - intros s' ips' out' Hs'. cbn [set_packet g_packet rand_calls]. rewrite Es, Ed, El. by apply HQ.
Qed.

Lemma wp_generate_lines rs : ∀ s ips out (Q : unit → gen_state (VI := VI) → Prop),
  gen_inv indeterminate s ips out → Forall record_ok rs →
  Z.of_nat (length ips) + 2 * Z.of_nat (length rs) <= MAX_IPS → Z.of_nat (length out) + Z.of_nat (length rs) < 2 ^ 31 →
  (∀ s' ips' out', gen_inv indeterminate s' ips' out' →
     spec_records rand rs (ips, out, rand_calls s) = (ips', out', rand_calls s') → Q tt s') →
  wp (generate_lines rand indeterminate (map record_line rs)) Q s.
Proof.
  induction rs as [|r rs IH]; intros s ips out Q Hinv Hrs Hips Hout HQ; cbn [map generate_lines].
  { apply wp_ret. by eapply HQ. }
  apply Forall_cons in Hrs as [Hr Hrs]. cbn [length] in *. wp_step.
  eapply wp_generate_line; [done..|lia|lia|]. intros s1 ips1 out1 Hinv1 E1.
  destruct (spec_record_length _ _ _ _ _ _ _ E1). eapply IH; [done..|lia|lia|]. intros s2 ips2 out2 Hinv2 E2.
  eapply HQ; [done|]. unfold spec_records in *. cbn [foldl]. by rewrite E1.
Qed.

Lemma wp_init packet (Q : Z → gen_state (VI := VI) → Prop) :
  (∀ s, gen_inv indeterminate s [] [] → rand_calls s = 0%nat → Q 0 s) →
  wp (init true true true true true) Q (gen_zero [] packet).
Proof.
  intros HQ. unfold init, init_srcip_dstip_to_b4_srcip_dstip. do 3 wp_step. cbn [negb andb]. do 3 wp_step.
  rewrite decide_False by (intros []; done). unfold init_write_pkts_to_files. do 2 wp_step. unfold on_seqids. apply wp_zoom.
  gen_cbn. eapply wp_kf_create; [done|done|]. intros kf R. do 2 wp_step. gen_cbn.
  pose proof R as [(t & Et & _) _]. rewrite Et. apply wp_ret.
  rewrite decide_False by (intros []; done). apply wp_ret, HQ; [|done].
  split; gen_cbn; [|by exists kempty|constructor|by intros [|]|done].
  split; gen_cbn; [exists kempty, []; split; [apply ft_create_ok|done]..|done].
Qed.
End traces.

(** ** Replaying a trace *)
(** The packets of the trace of node [i], as the sender of host [i + 1] sends
    them *)
Definition replay (p : list (flow_s * (Z * Z))) : list tb_op :=
  (λ x, TSend gen_filler [0] x.1 x.2.1 x.2.2) <$> p.
Lemma sent_packets_replay p : sent_packets (replay p) = p.
Proof. induction p as [|[f [sid len]] p IH]; [done|]. simpl. by rewrite IH. Qed.
Lemma arrivals_replay p : arrivals (replay p) = [].
Proof. by induction p. Qed.

Lemma gen_frame_length tag f sid : length (frame gen_filler [tag] f sid) = 58%nat.
Proof. done. Qed.
Lemma gen_frame_ok tag f sid : in_u 16 tag → flow_ok f → in_u 32 sid → frame_ok 1 gen_filler [tag] f sid.
Proof.
  intros Ht Hf Hs. assert (Forall bytes_of [fl_mac gen_filler; fl_ip gen_filler; fl_sum gen_filler; fl_rest gen_filler]) as Hall
    by (by apply (bool_decide_unpack _); vm_compute).
  rewrite !Forall_cons in Hall. destruct Hall as (?&?&?&?&_). split; try done; [by constructor|].
  unfold filler_ok. by split_and!; try done; constructor.
Qed.
Lemma gen_tcp_frame f : f_protocol f = 6 → tcp_frame gen_filler [0] f.
Proof. intros E. split; try done; eexists; by split. Qed.

Lemma numbered_le out x : numbered out → x ∈ out → x.2.2.1 <= packets_of (f_srcip x.2.1) out.
Proof.
  intros Hn (out1 & out2 & ->)%list_elem_of_split. rewrite (Hn out1 x out2 eq_refl).
  rewrite (cons_middle x), app_assoc. unfold packets_of. rewrite !filter_app, !length_app, filter_cons, decide_True by done.
  simpl. lia.
Qed.
Lemma of_node_snoc i out x : of_node i (out ++ [x]) = of_node i out ++ if decide (x.1 = i) then [x.2] else [].
Proof. unfold of_node. rewrite filter_app, filter_cons, fmap_app. by case_decide. Qed.
Lemma replay_in_order i out : numbered out → in_order (replay (of_node i out)).
Proof.
  induction out as [|x out IH] using rev_ind; intros Hn; [apply in_order_nil|].
  assert (numbered out) as Hn0 by (intros out1 y out2 ->; apply (Hn out1 y (out2 ++ [x])); by rewrite <- app_assoc).
  rewrite of_node_snoc. case_decide as E; [|by rewrite app_nil_r; apply IH].
  unfold replay. rewrite fmap_app. apply in_order_snoc; [by apply IH|]. cbn [step_in_order].
  fold (replay (of_node i out)). rewrite sent_packets_replay. apply Forall_forall. intros y Hy.
  unfold flow_packets in Hy. apply list_elem_of_fmap in Hy as ([f y'] & -> & [Ef Hz]%list_elem_of_filter).
  unfold of_node in Hz. apply list_elem_of_fmap in Hz as (z & Ez & [_ Hz]%list_elem_of_filter).
  pose proof (numbered_le out z Hn0 Hz) as Hle. rewrite <- Ez in Hle. cbn [fst snd] in *.
  rewrite (Hn out x [] eq_refl). apply flow_compare_eq in Ef as (Es & _). rewrite Es. lia.
Qed.

(** ** The traces *)
Section theorems.
Context {K VI : Type} `{KeyLaws K} `{!FlowTable K Z Z VI} `{!FlowTableLaws K Z Z VI} `{!IntTable K VI} `{!PacketFlow K}.
Context (flow_inj : ∀ ip ip', key_compare (packet_flow_src ip 0) (packet_flow_src (K := K) ip' 0) = 0 → ip = ip').
Implicit Types (s : gen_state (VI := VI)) (out : generated) (rs : list record).

Lemma spec_records_length rand rs : ∀ ips out n ips' out' n',
  spec_records rand rs (ips, out, n) = (ips', out', n') → (length out' <= length out + length rs)%nat.
Proof.
  unfold spec_records. induction rs as [|r rs IH]; intros ips out n ips' out' n' E; cbn [foldl length] in *.
  { injection E as <- <- <-. lia. }
  destruct (spec_record rand r (ips, out, n)) as [[ips1 out1] n1] eqn:E1.
  destruct (spec_record_length _ _ _ _ _ _ _ _ E1). apply IH in E. lia.
Qed.

(** The traces the generator makes, and how they can be replayed *)
Lemma traces_of_records (rand : nat → Z) (indeterminate : nat → flow_s) (packet : packet_t) rs :
  (∀ n, indeterminate n = indeterminate 0%nat) → Forall record_ok rs → Z.of_nat (length rs) < 2 ^ 26 →
  ∃ s0 s ips out n,
    init true true true true true (gen_zero [] packet) = Ok (0, s0) ∧
    generate_lines rand indeterminate (map record_line rs) s0 = Ok (tt, s) ∧
    spec_records rand rs ([], [], 0%nat) = (ips, out, n) ∧
    ∀ i, 0 <= i < NUM_SENDERS →
      pdumper s i = pcap_of <$> of_node i out ∧
      Forall (λ x, GET_SENDER_IDX (f_srcip x.1) = i ∧ GET_NET_IDENTITY (f_srcip x.1) = 10 + i ∧
        GET_SENDER_IDX (f_dstip x.1) ≠ i ∧ frame_ok 1 gen_filler [0] x.1 x.2.1 ∧ tcp_frame gen_filler [0] x.1)
        (of_node i out) ∧
      Forall (op_ok 1) (replay (of_node i out)) ∧ in_order (replay (of_node i out)).
Proof.
  intros Hst Hrs Hb.
  assert (wp (init true true true true true) (λ r s0, r = 0 ∧ gen_inv indeterminate s0 [] [] ∧ rand_calls s0 = 0%nat)
    (gen_zero (VI := VI) [] packet)) as Hi by (by apply (wp_init indeterminate)).
  apply wp_run in Hi as (r0 & s0 & Ei & -> & Hinv & Er).
  assert (wp (generate_lines rand indeterminate (map record_line rs)) (λ _ s, ∃ ips out,
    gen_inv indeterminate s ips out ∧ spec_records rand rs ([], [], 0%nat) = (ips, out, rand_calls s)) s0) as Hg.
  { eapply wp_generate_lines; [done|exact Hst|exact Hinv|done|..].
    - unfold MAX_IPS, NUM_SENDERS, ONE_SENDER_IP_NUM. simpl. lia.
    - simpl. lia.
    - rewrite Er. eauto. }
  apply wp_run in Hg as ([] & s & Eg & ips & out & Hs & Espec).
  exists s0, s, ips, out, (rand_calls s). split; [done|]. split; [done|]. split; [done|]. intros i Hin.
  destruct Hs as [_ _ Ho Hn Hf]. pose proof (spec_records_length _ _ _ _ _ _ _ _ Espec) as Hlen. simpl in Hlen.
  assert (∀ x, x ∈ of_node i out → pkt_ok (i, x) ∧ in_u 32 x.2.1) as Hx.
  { intros x (z & -> & [<- Hz]%list_elem_of_filter)%list_elem_of_fmap. rewrite Forall_forall in Ho.
    split; [destruct z; by apply Ho|]. apply list_elem_of_split in Hz as (o1 & o2 & ->). rewrite (Hn o1 z o2 eq_refl).
    pose proof (packets_of_le (f_srcip z.2.1) o1) as Hle. rewrite length_app in Hlen. simpl in Hlen. unfold in_u. lia. }
  split; [apply Hf|]. split_and!; [| |by apply replay_in_order].
  - apply Forall_forall. intros x Hxo. destruct (Hx x Hxo) as [[H1 H2 H3 H4 H5 H6 H7] Hsid]. cbn [fst snd] in *.
    split_and!; [done..|by apply gen_frame_ok|by apply gen_tcp_frame].
  - unfold replay. apply Forall_fmap, Forall_forall. intros x Hxo. destruct (Hx x Hxo) as [[H1 H2 H3 H4 H5 H6 H7] Hsid].
    unfold MAX_PAYLOAD_SIZE in H7. cbn [fst snd] in *. split; [by apply gen_frame_ok|].
    rewrite gen_frame_length. unfold TCPR_IPV4_H, PKT_BUFFER_LEN. lia.
Qed.

(** C10. The traces the generator makes.  From the start, a trace of well-formed
    records (fewer than 2^26, with a payload of at most 4942 bytes) is turned
    into the packets that [spec_records] gives: the [n]-th new address becomes
    an address of host [n mod 12], a record between two hosts becomes a packet
    of the first, numbered among the packets of its source.  Every host's file
    holds its packets in order, with headers that the sender and the receiver
    can read; all are from the host's network and to another, and replaying the
    file sends the packets of every flow with increasing sequence numbers.  (It
    is assumed that the variable that is only partly assigned in
    [get_seqid_of_flow] holds the same at every call.) *)
Theorem generated_traces (rand : nat → Z) (indeterminate : nat → flow_s) (packet : packet_t) rs :
  (∀ n, indeterminate n = indeterminate 0%nat) → Forall record_ok rs → Z.of_nat (length rs) < 2 ^ 26 →
  ∃ s0 s ips out n,
    init true true true true true (gen_zero [] packet) = Ok (0, s0) ∧
    generate_lines rand indeterminate (map record_line rs) s0 = Ok (tt, s) ∧
    spec_records rand rs ([], [], 0%nat) = (ips, out, n) ∧
    ∀ i, 0 <= i < NUM_SENDERS →
      pdumper s i = pcap_of <$> of_node i out ∧
      Forall (λ x, GET_SENDER_IDX (f_srcip x.1) = i ∧ GET_NET_IDENTITY (f_srcip x.1) = 10 + i ∧
        GET_SENDER_IDX (f_dstip x.1) ≠ i ∧ frame_ok 1 gen_filler [0] x.1 x.2.1 ∧ tcp_frame gen_filler [0] x.1)
        (of_node i out) ∧
      Forall (op_ok 1) (replay (of_node i out)) ∧ in_order (replay (of_node i out)).
Proof. exact (traces_of_records rand indeterminate packet rs). Qed.

(** The addresses of a trace, mapped one after the other *)
Fixpoint map_ips (l : list Z) : cmd (gen_state (VI := VI)) (list (Z * Z)) :=
  match l with [] => mret [] | ip :: l => a ← get_mapped_info ip; r ← map_ips l; mret (a :: r) end.
Definition appear_all (ips l : list Z) : list Z := foldl appear ips l.
Definition mapped_info (ips : list Z) (ip : Z) : Z * Z := let n := default 0 (rank ips ip) in (node_of n, addr_of n).

Lemma appear_all_app l : ∀ ips, ∃ ips', appear_all ips l = ips ++ ips'.
Proof.
  induction l as [|ip l IH]; intros ips; simpl; [exists []; by rewrite app_nil_r|].
  destruct (IH (appear ips ip)) as [ips' E]. unfold appear_all in *. simpl. rewrite E. unfold appear.
  case_decide; [by eexists|]. rewrite <- app_assoc. by eexists.
Qed.
Lemma length_appear_all l : ∀ ips, (length (appear_all ips l) <= length ips + length l)%nat.
Proof.
  unfold appear_all. induction l as [|ip l IH]; intros ips; simpl; [lia|]. pose proof (length_appear ips ip).
  specialize (IH (appear ips ip)). lia.
Qed.
Lemma wp_map_ips l : ∀ s ips, ips_ok s ips → Z.of_nat (length ips) + Z.of_nat (length l) <= MAX_IPS →
  wp (map_ips l) (λ r s', r = mapped_info (appear_all ips l) <$> l) s.
Proof.
  induction l as [|ip l IH]; intros s ips Hs Hb; cbn [map_ips]; [by apply wp_ret|]. cbn [length] in Hb.
  pose proof (length_appear ips ip) as Hl. wp_step. eapply (wp_get_mapped_info flow_inj); [exact Hs|lia|].
  intros s1 n Hs1 _ En. wp_step. eapply wp_mono; [apply (IH _ _ Hs1); lia|]. intros r s2 ->. apply wp_ret.
  destruct (appear_all_app l (appear ips ip)) as [ips' E]. cbn [fmap list_fmap]. f_equal.
  unfold mapped_info, appear_all in *. cbn [foldl]. rewrite E. by rewrite (rank_app _ _ ips' n En).
Qed.

Lemma elem_appear_all l : ∀ ips ip, ip ∈ ips ∨ ip ∈ l → ip ∈ appear_all ips l.
Proof.
  unfold appear_all. induction l as [|ip' l IH]; intros ips ip Hin; simpl; [set_solver|]. apply IH.
  unfold appear. case_decide; set_solver.
Qed.

(** C31. The mapping of addresses: through any sequence of at most 12 * 2^24
    addresses, an address is always mapped to the same pair, different
    addresses to different ones, and the address given lies in the network of
    the host given, the [n]-th new address in that of host [n mod 12]. *)
Theorem ip_mapping (packet : packet_t) (l : list Z) :
  Z.of_nat (length l) <= MAX_IPS →
  ∃ s0 s, init true true true true true (gen_zero [] packet) = Ok (0, s0) ∧
    map_ips l s0 = Ok (mapped_info (appear_all [] l) <$> l, s) ∧
    ∀ ip ip', ip ∈ l → ip' ∈ l →
      let '(node, addr) := mapped_info (appear_all [] l) ip in
      0 <= node < NUM_SENDERS ∧ GET_SENDER_IDX addr = node ∧ in_u 32 addr ∧
      (addr = (mapped_info (appear_all [] l) ip').2 → ip = ip').
Proof.
  intros Hb. assert (wp (init true true true true true) (λ r s0, r = 0 ∧ ips_ok s0 [])
    (gen_zero (VI := VI) [] packet)) as Hi.
  { apply (wp_init (λ _, Flow 0 0 0 0 0)). intros s [Hi _ _ _ _] _. done. }
  apply wp_run in Hi as (r0 & s0 & Ei & -> & Hs0).
  pose proof (wp_map_ips l s0 [] Hs0) as Hm. simpl in Hm. specialize (Hm Hb).
  apply wp_run in Hm as (r & s & Em & ->). exists s0, s. split; [done|]. split; [done|]. intros ip ip' Hip Hip'.
  pose proof (length_appear_all l []) as Hlen. simpl in Hlen.
  destruct (rank_elem (appear_all [] l) ip) as (n & En & Hn); [apply elem_appear_all; by right|].
  destruct (rank_elem (appear_all [] l) ip') as (n' & En' & Hn'); [apply elem_appear_all; by right|].
  unfold mapped_info. rewrite En, En'. simpl. destruct (addr_bounds n ltac:(lia)) as (Hnode & _ & Ha).
  split; [lia|]. split; [apply addr_network; lia|]. split; [unfold in_u; lia|].
  intros E. apply addr_inj in E; [|lia|lia]. subst n'. by eapply rank_inj.
Qed.
End theorems.

(** Otherwise the numbers need not be per flow: when what the variable holds
    differs, the second packet of a flow gets the number of the first. *)
Lemma seqid_repeats (rand : nat → Z) (indeterminate : nat → flow_s) p (kf : kf_state) m :
  kf_rep kf m → m (seqid_key indeterminate 0 p) = None → m (seqid_key indeterminate 1 p) = None →
  key_compare (seqid_key indeterminate 1 p) (seqid_key indeterminate 0 p) ≠ 0 →
  wp (a ← next_seqid (seqid_key indeterminate 0 p); b ← next_seqid (seqid_key indeterminate 1 p); mret (a, b))
    (λ r _, r = (1, 1)) kf.
Proof.
  intros R E0 E1 Hne. wp_step. eapply (wp_next_seqid _ m _ 0); [exact R|by rewrite E0|lia|]. intros s1 m1 R1 Em1.
  wp_step. eapply (wp_next_seqid _ m1 _ 0); [exact R1| |lia|].
  - rewrite Em1, decide_True by done. by rewrite kupd_ne.
  - intros s2 m2 _ _. by apply wp_ret.
Qed.

(** ** Witnesses *)
Lemma flow_src_inj ip ip' :
  key_compare (packet_flow_src ip 0) (packet_flow_src (K := flow_src) ip' 0) = 0 → ip = ip'.
Proof. by intros [= E]%flow_src_dst_compare_eq. Qed.
(** Two packets of a flow and one back *)
Definition demo_records : list record :=
  [Record' [49] 1111 2222 80 443 6 1000; Record' [50] 1111 2222 80 443 6 40; Record' [51] 2222 1111 443 80 17 4942].
Definition demo_rand (n : nat) : Z := Z.of_nat n.
Definition demo_garbage (_ : nat) : flow_s := Flow 7 7 7 7 7.
Lemma demo_records_ok : Forall record_ok demo_records.
Proof.
  assert (∀ c, token_ok 44 [c] ↔ c ≠ 44) as Ht by (intros c; unfold token_ok; set_solver).
  unfold demo_records, record_ok, in_u, byte, in_u, MAX_PAYLOAD_SIZE. rewrite !Forall_cons. cbn.
  rewrite !Ht. split_and!; try lia; constructor.
Qed.

Lemma generated_traces_witness :
  ∃ s0 s : gen_state (VI := vi_handle),
    generate_lines demo_rand demo_garbage (map record_line demo_records) s0 = Ok (tt, s) ∧
    pdumper s 1 = pcap_of <$> [(Flow 184549376 201326592 0 1 6, (1, 1058)); (Flow 184549376 201326592 2 3 6, (2, 98))].
Proof.
  destruct (generated_traces (VI := vi_handle) flow_src_inj demo_rand demo_garbage (Packet 0 0 0 0 0 0 0 false 0) demo_records)
    as (s0 & s & ips & out & n & _ & E & Espec & Hf); [done|apply demo_records_ok|done|].
  exists s0, s. split; [exact E|]. destruct (Hf 1 ltac:(done)) as (-> & _).
  assert (of_node 1 out = of_node 1 (spec_records demo_rand demo_records ([], [], 0%nat)).1.2) as -> by (by rewrite Espec).
  reflexivity.
Defined.

Lemma ip_mapping_witness :
  ∃ s0 s : gen_state (VI := vi_handle), map_ips [1111; 2222; 1111] s0 = Ok ([(1, 184549376); (2, 201326592); (1, 184549376)], s).
Proof.
  destruct (ip_mapping (VI := vi_handle) flow_src_inj (Packet 0 0 0 0 0 0 0 false 0) [1111; 2222; 1111])
    as (s0 & s & _ & E & _); [done|]. exists s0, s. exact E.
Defined.
