(* ===== verification/System.v ===== *)
(** * The system: a host with its threads, the network and a receiver

    [main] of tcpreplay/src/tcpreplay.c reads the settings, fills the warehouse
    and starts the threads; here all of them run: the sender's replay, the
    updator, the interval rotator and the condition sender, with a receiver and
    the FIFOs.  A turn of a thread is one step, and the steps interleave in any
    order.  The abstract machine keeps the accounts of [Testbed.v] interval by
    interval. *)
From stdpp Require Import strings.
From S2P Require Import Prelude CMonad CFloat ChainedTable TableSpec FixSizeTable FixSizeIface.
From S2P Require Import Flow PktListTable ObjStore Settings SettingsFile Sample FlowTables Warehouse.
From S2P Require Import WarehouseSpec WarehouseRecords WarehouseProps CText TaskManager SendPacket Fifo Receiver FlowInforUpdator.
From S2P Require Import ConditionSender SendPackets IntervalRotator Testbed.

(** What happens: an event of the test bed, the end of an interval, a turn of
    the condition sender *)
Inductive sys_op :=
| STestbed (o : tb_op)
| SRotate (current_msec : Z)
| SCondition.

(** [main] starts the condition sender only for injected conditions of sampling
    hosts under replacement. *)
Definition starts_condition_sender (s : cm_experiment_setting_t) : bool :=
  bool_decide (inject_or_tag_packet s = INJECT_PKT_AS_CONDITION) &&
  bool_decide (host_or_switch_sample s = HOST_SAMPLE) && replacement s.

(** What the sender runs with *)
Record sender := Sender {
  sd_setting : cm_experiment_setting_t; sd_tasks : task_manager_t; sd_condition_sender : bool
}.

Section programs.
Context {K VI VF FX : Type} `{KeyOps K} `{!FlowTable K Z Z VI}.
Context `{!FlowTable K c_float c_float VF} `{!FixedTable K FX} `{!PacketFlow K} `{!FlowCondition K}.

(** The test bed and the file of target flows; the packets on the wire *)
Record system := System { sy_testbed : testbed VI VF FX; sy_file : list (report_line K) }.
Definition sy_wire (s : system) : list raw_packet := tb_wire (sy_testbed s).
Definition on_testbed {A} (c : cmd (testbed VI VF FX) A) : cmd system A :=
  zoom sy_testbed (λ t s, System t (sy_file s)) c.
Definition set_dw (t : testbed VI VF FX) (d : data_warehouse_t VI VF FX) (w : list raw_packet) : testbed VI VF FX :=
  TB d (tb_sending t) w (tb_lost t) (tb_kernel t) (tb_handlers t) (tb_pkts t) (tb_conditions t).
Definition at_rotator {A} (c : cmd (rot_state K VI VF FX) A) : cmd system A :=
  zoom (λ s, RotState (tb_dw (sy_testbed s)) (sy_file s))
    (λ r s, System (set_dw (sy_testbed s) (rs_dw r) (sy_wire s)) (rs_file r)) c.
Definition at_condition_sender {A} (c : cmd (cond_state VI VF FX) A) : cmd system A :=
  zoom (λ s, CondState (tb_dw (sy_testbed s)) (sy_wire s))
    (λ r s, System (set_dw (sy_testbed s) (cs_dw r) (cs_wire r)) (sy_file s)) c.

(** ** The start *)
(** [main] from the settings to the threads, given the contents of the settings
    file and the task file, the device, the allocations of the reader, the time and
    whether each thread can be created; [None] when [main] returns 1 *)
Definition start_sender (settings_file task_file dev : option text) (mem : nat → bool) (time : Z)
    (creates_updator creates_rotator creates_condition_sender : bool) : cmd system (option sender) :=
  match init_cm_experiment_setting settings_file mem zero_setting with
  | Fault e => throw e
  | Ok (ret, setting) =>
      if decide (ret ≠ 0) then mret None else
      match init_tasks_info dev task_file with
      | Fault e => throw e
      | Ok (tasks_info, tasks) =>
          on_testbed (at_updator (on_udw (set_rand (srand48_r time))));;
          r ← on_testbed (at_updator (on_udw (data_warehouse_init setting tasks_info)));
          if decide (r ≠ 0) then mret None
          else if negb creates_updator then mret None
          else if negb creates_rotator then mret None
          else if starts_condition_sender setting then
            if creates_condition_sender then mret (Some (Sender setting tasks true)) else mret None
          else mret (Some (Sender setting tasks false))
      end
  end.

(** The whole start: the sender, the FIFOs and the receiver, the updator's FIFO
    and the rotator's file; the sender, the receiver's network and the FIFO *)
Definition boot_system (settings_file task_file dev : option text) (mem : nat → bool) (time : Z)
    (mkfifo_ok open_ok : text → bool) (ip_prefix_str : text) (columns : list string)
    : cmd system (option (sender * Z * text)) :=
  s ← start_sender settings_file task_file dev mem time true true true;
  match s with
  | None => mret None
  | Some sd =>
      n ← on_testbed (boot_network mkfifo_ok open_ok ip_prefix_str dev);
      match n, init_target_flow_file (K:=K) columns dev true with
      | _, Fault e => throw e
      | Some (net, fifo), Ok (Some file) =>
          modify (λ s, System (sy_testbed s) file);; mret (Some (sd, net, fifo))
      | _, _ => mret None
      end
  end.
Definition system_off (k : kernel) : system := System (powered_off k) [].

(** ** The steps *)
Section steps.
Context (setting : cm_experiment_setting_t) (tasks : K → option task_t) (datalink net_identity : Z).
Context (fifo_handler : text) (intf1 : bool) (sendpacket : list raw_packet → raw_packet → Z) (fuel : nat).

(** A turn of the condition sender that fails ends its thread, with its mutexes
    locked. *)
Definition do_sys (o : sys_op) : cmd system unit :=
  match o with
  | STestbed o => on_testbed (do_tb setting tasks datalink net_identity fifo_handler sendpacket o)
  | SRotate current_msec => at_rotator (rotate_turn setting tasks fuel current_msec)
  | SCondition =>
      at_condition_sender (send_conditions intf1 sendpacket fuel);; mret tt
  end.
Fixpoint do_syss (os : list sys_op) : cmd system unit :=
  match os with [] => mret tt | o :: os => do_sys o;; do_syss os end.
End steps.
End programs.
Arguments system K VI VF FX : clear implicits.

(** ** The accounts, interval by interval *)
Section machine.
Context {K : Type} `{KeyOps K} `{!PacketFlow K} (net_identity : Z) (fifo_handler : text).

(** The accounts with the updates of the current interval, and the updates of
    the intervals before it *)
Record intervals := Intervals { iv_now : accounts K; iv_past : list (list (update K)) }.
Definition end_interval (a : intervals) : intervals :=
  Intervals (Accounts (in_flight (iv_now a)) (queued (iv_now a)) [])
    (iv_past a ++ [updates (iv_now a)]).
Definition interval_step (o : sys_op) (a : intervals) : intervals :=
  match o with
  | STestbed o => Intervals (account_op net_identity fifo_handler o (iv_now a)) (iv_past a)
  | SRotate _ => end_interval a
  | SCondition => a
  end.
Definition interval_steps (os : list sys_op) (a : intervals) : intervals := foldl (λ a o, interval_step o a) a os.
Definition no_intervals : intervals := Intervals no_accounts [].

(** The volumes recorded and in flight stay in the range of their types. *)
Definition in_range (a : intervals) : Prop :=
  total (updates (iv_now a)) < 2 ^ 31 ∧ volume_of (λ _, true) (in_flight (iv_now a)) < 2 ^ 31.
Definition always_in_range (os : list sys_op) (a : intervals) : Prop :=
  ∀ os1 os2, os = os1 ++ os2 → in_range (interval_steps os1 a).
End machine.
Arguments intervals K : clear implicits.
