(* ===== verification/SystemSpec.v ===== *)
(** * The accounts of a run of the system

    How the accounts of [System.v] go on interval by interval: their ranges,
    intervals that are complete, in which every report is read before the
    rotation, and reports that come after it. *)
From stdpp Require Import strings.
From S2P Require Import Prelude CMonad CFloat ChainedTable ChainSpec TableSpec Listing FixSizeTable FixSizeSpec FixSizeIface.
From S2P Require Import Flow PktListTable PktListSpec PktListProps ObjStore Settings SettingsFile SettingsProps Sample FlowTables.
From S2P Require Import Warehouse WarehouseSpec WarehouseIter WarehouseRecords WarehouseProps Config Bytes VlanTag CText TaskManager TaskProps SendPacket FrameSpec.
From S2P Require Import SendProps ConditionSender ConditionSpec ConditionWire ConditionProps IntervalRotator RotatorSpec RotatorProps.
From S2P Require Import Fifo Receiver FlowInforUpdator Testbed TestbedSpec LossSpec TestbedProps LossProps System.

(** ** The accounts of any run *)
Section accounts.
Context {K : Type} `{KeyLaws K} `{!PacketFlow K} (net_identity : Z) (fifo_handler : text) (datalink : Z).
Implicit Types (a : accounts K) (v : intervals K) (o : tb_op) (os : list sys_op).

Local Abbreviation op := (account_op (K := K) net_identity fifo_handler).

(** The packets in flight have a volume, and no update is empty. *)
Definition well_sized a : Prop :=
  Forall (λ x, 0 <= x.2.2) (in_flight a) ∧ Z.of_nat (length (updates a)) <= total (updates a).

Lemma well_sized_none : well_sized no_accounts.
Proof. by split. Qed.
Lemma well_sized_op o a : op_ok datalink o → well_sized a → well_sized (op o a).
Proof.
  intros Ho [Hf Hu]. unfold well_sized. destruct o as [fl tags f sid len|fl tags f sid|]; cbn [account_op].
  - destruct Ho as [_ [Hl _]]. assert (0 < len) as Hpos by (unfold TCPR_IPV4_H in Hl; lia). clear Hl.
    cbn [in_flight updates]. rewrite total_snoc, length_app. cbn [length amount]. split; [|lia].
    apply Forall_app. split; [done|]. apply Forall_singleton. cbn [snd]. lia.
  - by case_decide.
  - destruct (queued a) as [|[f sid] q]; [done|]. unfold account_report. destruct (account sid _) as [r l'].
    cbn [in_flight updates]. split; [by apply drop_packets_nonneg|]. case_decide; [|by rewrite app_nil_r].
    rewrite total_snoc, length_app. cbn [length amount]. lia.
Qed.

Lemma updates_grow o a : (length (updates a) <= length (updates (op o a)))%nat.
Proof.
  destruct o as [fl tags f sid len|fl tags f sid|]; cbn [account_op updates].
  - rewrite length_app. lia.
  - by case_decide.
  - destruct (queued a) as [|[f sid] q]; [done|]. unfold account_report. destruct (account sid _).
    cbn [updates]. rewrite length_app. lia.
Qed.

(** *** Ranges *)
Lemma always_in_range_now os v : always_in_range net_identity fifo_handler os v → in_range v.
Proof. intros Hr. by apply (Hr [] os). Qed.
Lemma always_in_range_step (o : sys_op) os v :
  always_in_range net_identity fifo_handler (o :: os) v →
  always_in_range net_identity fifo_handler os (interval_step net_identity fifo_handler o v).
Proof. intros Hr os1 os2 ->. by apply (Hr (o :: os1) os2). Qed.
Lemma always_in_range_cons (o : sys_op) os v :
  in_range v → always_in_range net_identity fifo_handler os (interval_step net_identity fifo_handler o v) →
  always_in_range net_identity fifo_handler (o :: os) v.
Proof. intros Hv Hr [|o' os1] os2 E; [done|]. injection E as <- E. by apply (Hr os1 os2). Qed.
Lemma always_in_range_nil v : in_range v → always_in_range net_identity fifo_handler [] v.
Proof. intros Hv [|o os1] os2 E; [done|]. discriminate E. Qed.
Lemma always_in_range_app os os' v :
  always_in_range net_identity fifo_handler os v →
  always_in_range net_identity fifo_handler os' (interval_steps net_identity fifo_handler os v) →
  always_in_range net_identity fifo_handler (os ++ os') v.
Proof.
  intros Hr Hr' os1 os2 E. apply app_eq_inv in E as [(k & -> & ->)|(k & -> & ->)].
  - by apply (Hr os1 k).
  - unfold interval_steps. rewrite foldl_app. by apply (Hr' k os2).
Qed.
End accounts.

(** ** Intervals *)
(** The events of the test bed, in their order *)
Definition tb_ops (os : list sys_op) : list tb_op :=
  omap (λ o, match o with STestbed o => Some o | _ => None end) os.
Definition sys_op_ok (datalink : Z) (o : sys_op) : Prop := match o with STestbed o => op_ok datalink o | _ => True end.
Definition is_rotation (o : sys_op) : Prop := match o with SRotate _ => True | _ => False end.
Lemma tb_ops_app os os' : tb_ops (os ++ os') = tb_ops os ++ tb_ops os'.
Proof. apply omap_app. Qed.
Lemma sys_ops_ok datalink os : Forall (op_ok datalink) (tb_ops os) → Forall (sys_op_ok datalink) os.
Proof.
  induction os as [|o os IH]; [constructor|]. destruct o as [o|msec|]; cbn; [|by constructor; [|apply IH]..].
  intros [Ho Hos]%Forall_cons. constructor; [exact Ho|by apply IH].
Qed.

(** An interval of host [i] in which every report is read: its packets are sent,
    arrive and are reported in any interleaving that keeps the order of the
    packets of a flow, every flow's last packet arrives, and the last [n] of its
    events are enough turns of the updator; the condition sender turns at any
    time. *)
Record complete_interval (datalink i net : Z) (os : list sys_op) : Prop := {
  ci_no_rotation : Forall (λ o, ¬ is_rotation o) os;
  ci_ok : Forall (op_ok datalink) (tb_ops os);
  ci_sent : sent (λ _, true) (tb_ops os) < 2 ^ 30;
  ci_order : in_order (tb_ops os);
  ci_source : Forall (λ y, sent_by i net y.1) (arrivals (tb_ops os));
  ci_flushed : flushed (tb_ops os);
  ci_read : ∃ os1 n, tb_ops os = os1 ++ reports n ∧ (length (arrivals os1) <= n)%nat
}.

(** *** Parts of a run *)
Section parts.
Context {K : Type} `{KeyLaws K} `{!PacketFlow K} (net_identity : Z) (fifo_handler : text).
Implicit Types (a : accounts K) (us : list (update K)) (o : tb_op) (os : list tb_op).
Local Abbreviation op := (account_op (K := K) net_identity fifo_handler).
Local Abbreviation run os a := (account_ops (K := K) net_identity fifo_handler os a).

Definition is_sent (u : update K) : Prop := match u with Sent _ _ => True | Lost _ _ => False end.
Lemma tally_sent k us : Forall is_sent us → (tally k us).2 = 0.
Proof.
  induction us as [|u us IH] using rev_ind; [done|]. intros [Hus Hu]%Forall_app. rewrite Forall_singleton in Hu.
  rewrite tally_snoc. specialize (IH Hus). destruct u; [|done]. destruct (tally k us). simpl in *. by case_decide.
Qed.
Lemma tally_lost k us : Forall (λ u, ¬ is_sent u) us → tally k us = (0, 0).
Proof.
  induction us as [|u us IH] using rev_ind; [done|]. intros [Hus Hu]%Forall_app. rewrite Forall_singleton in Hu.
  rewrite tally_snoc, IH by done. destruct u; [by destruct (Hu I)|]. simpl. rewrite decide_False; [done|]. simpl. lia.
Qed.

(** Without reports only volumes are recorded, *)
Lemma run_unreported os : TReport ∉ os → Forall is_sent (updates (run os no_accounts)).
Proof.
  induction os as [|o os IH] using rev_ind; [constructor|]. rewrite not_elem_of_app, list_elem_of_singleton.
  intros [Hos Ho]. unfold account_ops. rewrite foldl_app. fold (run os no_accounts). cbn [foldl]. specialize (IH Hos).
  destruct o; cbn [account_op]; [|by case_decide|done]. apply Forall_app. by split; [|constructor].
Qed.
(** and reports record only losses. *)
Lemma run_reports n a : Forall (λ u, ¬ is_sent u) (updates a) → Forall (λ u, ¬ is_sent u) (updates (run (reports n) a)).
Proof.
  revert a. induction n as [|n IH]; intros a Ha; [done|].
  change (run (reports (S n)) a) with (run (reports n) (op TReport a)). apply IH. cbn [account_op].
  destruct (queued a) as [|[f sid] q]; [done|]. unfold account_report. destruct (account sid _). cbn [updates].
  apply Forall_app. split; [done|]. case_decide; repeat constructor. by intros [].
Qed.

(** The accounts do not look at the updates. *)
Definition after (pre : list (update K)) a : accounts K := Accounts (in_flight a) (queued a) (pre ++ updates a).
Lemma run_after pre os a : run os (after pre a) = after pre (run os a).
Proof.
  revert a. induction os as [|o os IH]; intros a; [done|].
  change (run (o :: os) (after pre a)) with (run os (op o (after pre a))).
  change (run (o :: os) a) with (run os (op o a)). rewrite <- (IH (op o a)). f_equal.
  unfold after. destruct o; cbn [account_op in_flight queued updates]; [by rewrite <- app_assoc|by case_decide|].
  destruct (queued a) as [|[f s] q] eqn:E; [by rewrite E|].
  unfold account_report. destruct (account s _). cbn [in_flight queued updates]. by rewrite <- app_assoc.
Qed.
Lemma total_after pre us : total us <= total (pre ++ us).
Proof. induction pre as [|u pre IH]; [done|]. simpl. unfold amount. case_match; lia. Qed.
End parts.

Section intervals.
Context {K : Type} `{KeyLaws K} `{!PacketFlow K} (datalink i net : Z).
Local Abbreviation fifo := (get_sender_fifo_fname i 100).
Local Abbreviation steps := (interval_steps (K := K) net fifo).
Implicit Types (os : list sys_op).

(** Within an interval the accounts follow the test bed. *)
Lemma steps_within os past a :
  Forall (λ o, ¬ is_rotation o) os →
  steps os (Intervals a past) = Intervals (account_ops net fifo (tb_ops os) a) past.
Proof.
  unfold interval_steps. intros Hos. revert a. induction Hos as [|o os Ho _ IH]; intros a; [done|].
  cbn [foldl]. destruct o as [o|msec|]; [|by destruct (Ho I)|]; apply IH.
Qed.

(** The events [os] of an interval that begins after the events [pre] *)
Lemma within_in_range pre os us0 a past :
  Forall (λ o, ¬ is_rotation o) os → Forall (op_ok datalink) (pre ++ tb_ops os) → sent (λ _, true) (pre ++ tb_ops os) < 2 ^ 30 →
  account_ops (K := K) net fifo pre no_accounts = after us0 a →
  always_in_range (K := K) net fifo os (Intervals a past).
Proof.
  intros Hn Hok Hb Ea os1 os2 ->. rewrite tb_ops_app, app_assoc in *.
  apply Forall_app in Hn as [Hn _]. apply Forall_app in Hok as [Hok Hok2].
  rewrite steps_within by done. unfold in_range. cbn [iv_now].
  assert (∀ os1 os2 : list tb_op, sent (λ _, true) (os1 ++ os2) = sent (λ _, true) os1 + sent (λ _, true) os2) as E
    by (intros; by rewrite !sent_volume, sent_packets_app, volume_of_app).
  rewrite E in Hb. pose proof (sent_nonneg datalink (λ _, true) (tb_ops os2) Hok2).
  pose proof (run_accounts_ok (K := K) net fifo (pre ++ tb_ops os1) (op_sized _ _ Hok) ltac:(lia)) as Ha.
  unfold account_ops in Ea, Ha. rewrite foldl_app, Ea in Ha. fold (account_ops net fifo (tb_ops os1) (after us0 a)) in Ha.
  rewrite run_after in Ha. pose proof (ao_total _ _ Ha) as Ht. pose proof (ao_nonneg _ _ Ha) as Hv. unfold after in Ht, Hv.
  set (a' := account_ops _ _ _ _) in *. cbn [in_flight updates] in Ht, Hv. apply (volume_of_nonneg (λ _, true)) in Hv.
  pose proof (total_after us0 (updates a')). pose proof (total_nonneg (updates a')). clearbody a'. lia.
Qed.

Lemma after_nothing (a : accounts K) : a = after [] a.
Proof. by destruct a. Qed.
Lemma complete_in_range os past :
  complete_interval datalink i net os → always_in_range (K := K) net fifo os (Intervals no_accounts past).
Proof. intros [Hn Hok Hb _ _ _ _]. by apply (within_in_range [] os []). Qed.

(** The rotation at the end of an interval *)
Lemma rotation_in_range os msec v :
  always_in_range (K := K) net fifo os v → always_in_range (K := K) net fifo (os ++ [SRotate msec]) v.
Proof.
  intros Hr. apply always_in_range_app; [done|]. pose proof (Hr os [] ltac:(by rewrite app_nil_r)) as Hend.
  intros os1 os2 Eos. destruct os1 as [|o os1]; [exact Hend|]. injection Eos as <- Enil. destruct os1; [|done].
  split; [|exact (proj2 Hend)]. done.
Qed.

(** A complete interval and its rotation leave the accounts as at the start;
    the interval's updates tell its true volumes. *)
Lemma complete_steps os msec past :
  complete_interval datalink i net os → ∃ us,
    steps (os ++ [SRotate msec]) (Intervals no_accounts past) = Intervals no_accounts (past ++ [us]) ∧
    ∀ k, tally k us = true_volumes (tb_ops os) k.
Proof.
  intros [Hn Hok Hb Ho Hs Hf (os1 & n & E & Hl)]. rewrite E in *.
  rewrite arrivals_reports in Hs. unfold flushed in Hf. rewrite arrivals_reports, sent_packets_reports in Hf.
  destruct (flushed_run (K := K) net fifo os1 n) as (Ef & Eq & Et).
  - by eapply in_order_app.
  - by eapply op_sized.
  - eapply Forall_impl; [exact Hs|]. intros y. apply sent_by_reported.
  - by rewrite sent_volume, sent_packets_reports, <- sent_volume in Hb.
  - done.
  - exact Hf.
  - unfold interval_steps. rewrite foldl_app. fold (steps os (Intervals no_accounts past)). rewrite steps_within, E by done.
    cbn [foldl interval_step]. unfold end_interval. cbn [iv_now iv_past]. rewrite Ef, Eq.
    eexists. split; [reflexivity|]. intros k. rewrite Et. unfold true_volumes. rewrite sent_packets_reports. f_equal.
    f_equal. apply filter_ext_in. intros x _. unfold arrived. by rewrite arrivals_reports.
Qed.

(** The intervals of a run, each with the time of its rotation *)
Lemma complete_run (segs : list (list sys_op * Z)) past :
  Forall (λ seg, complete_interval datalink i net seg.1) segs →
  let os := segs ≫= λ seg, seg.1 ++ [SRotate seg.2] in
  always_in_range (K := K) net fifo os (Intervals no_accounts past) ∧ ∃ uss,
    steps os (Intervals no_accounts past) = Intervals no_accounts (past ++ uss) ∧
    Forall2 (λ seg us, ∀ k, tally k us = true_volumes (tb_ops seg.1) k) segs uss.
Proof.
  intros Hs. revert past. induction Hs as [|[os msec] segs Hc _ IH]; intros past; cbn zeta.
  - split; [|by exists []; rewrite app_nil_r]. intros os1 os2 E. by destruct os1.
  - cbn [fst snd mbind list_bind] in *. destruct (complete_steps os msec past Hc) as (us & E & Et).
    destruct (IH (past ++ [us])) as (Hr & uss & E' & Ht). split.
    + apply always_in_range_app; [by apply rotation_in_range, complete_in_range|by rewrite E].
    + exists (us :: uss). split; [|by constructor].
      unfold interval_steps in E, E' |- *. rewrite foldl_app, E. rewrite E'. by rewrite <- app_assoc.
Qed.

(** Reports that come after the rotation *)
Lemma late_run os n msec1 msec2 :
  Forall (λ o, ¬ is_rotation o) os → Forall (op_ok datalink) (tb_ops os) → sent (λ _, true) (tb_ops os) < 2 ^ 30 →
  TReport ∉ tb_ops os →
  let all := (os ++ [SRotate msec1]) ++ (STestbed <$> reports n) ++ [SRotate msec2] in
  always_in_range (K := K) net fifo all no_intervals ∧ ∃ us1 us2,
    iv_past (steps all no_intervals) = [us1; us2] ∧
    (∀ k, tally k us1 = (volume_of (of_source k) (sent_packets (tb_ops os)), 0)) ∧
    ∀ k, tally k us2 = (0, 0).
Proof.
  intros Hn Hok Hb Hno all. set (a := account_ops (K := K) net fifo (tb_ops os) no_accounts).
  set (a' := Accounts (in_flight a) (queued a) [] : accounts K).
  assert (a = after (updates a) a') as Ea by (unfold after; simpl; rewrite app_nil_r; by destruct a).
  assert (tb_ops (STestbed <$> reports n) = reports n) as Er by (unfold reports; clear; induction n; [done|]; simpl; by f_equal).
  assert (Forall (λ o, ¬ is_rotation o) (STestbed <$> reports n)) as Hn' by (apply Forall_fmap, Forall_replicate; by intros []).
  assert (steps (os ++ [SRotate msec1]) no_intervals = Intervals a' [updates a]) as E1.
  { unfold interval_steps. rewrite foldl_app. fold (steps os no_intervals). unfold no_intervals. by rewrite steps_within. }
  split.
  - apply always_in_range_app; [|rewrite E1; apply rotation_in_range].
    + by apply rotation_in_range, (within_in_range [] os []).
    + eapply (within_in_range (tb_ops os) _ (updates a)); [done| |rewrite Er|exact Ea].
      * rewrite Er. apply Forall_app. split; [done|]. by apply Forall_replicate.
      * by rewrite sent_volume, sent_packets_reports, <- sent_volume.
  - exists (updates a), (updates (account_ops (K := K) net fifo (reports n) a')). split_and!.
    + unfold all, interval_steps. rewrite foldl_app. fold (steps (os ++ [SRotate msec1]) no_intervals). rewrite E1.
      rewrite foldl_app. fold (steps (STestbed <$> reports n) (Intervals a' [updates a])). by rewrite steps_within, Er.
    + intros k. pose proof (run_accounts_ok (K := K) net fifo (tb_ops os) (op_sized _ _ Hok) Hb) as Ha. fold a in Ha.
      destruct (ao_source _ _ Ha k) as (_ & _ & Ev & _). rewrite sent_volume in Ev.
      pose proof (tally_sent k (updates a) (run_unreported net fifo _ Hno)). destruct (tally k (updates a)). simpl in *. by subst.
    + intros k. by apply tally_lost, run_reports.
Qed.
End intervals.
