(* ===== verification/WireSpec.v ===== *)
(** * What is on the wire

    The sender's interface is offered the conditions of the condition sender and
    the packets of the replay; it keeps those it sends whole. *)
From S2P Require Import Prelude CMonad CFloat ChainedTable ChainSpec TableSpec FixSizeTable FixSizeIface.
From S2P Require Import Flow PktListTable ObjStore Settings Sample FlowTables Warehouse.
From S2P Require Import WarehouseSpec Bytes VlanTag CText TaskManager SendPacket FrameSpec.
From S2P Require Import SendProps ConditionSender ConditionSpec ConditionProps SendPackets SendPacketsSpec.
From S2P Require Import Fifo Receiver FlowInforUpdator Testbed TestbedSpec TestbedProps System SystemSpec.

Section offers.
Context {K : Type} `{!FlowCondition K} (intf1 : bool) (sendpacket : list raw_packet → raw_packet → Z).
Implicit Types (w : list raw_packet).

Inductive offer := OCondition (c : condition K) | OPacket (pkt : raw_packet).
Definition offer_step w (o : offer) : list raw_packet :=
  match o with OCondition c => wire_step intf1 sendpacket w c | OPacket pkt => put_step sendpacket w pkt end.
Definition offered w (ofs : list offer) : list raw_packet := foldl offer_step w ofs.
Definition conditions_of (ofs : list offer) : list (condition K) :=
  omap (λ o, match o with OCondition c => Some c | OPacket _ => None end) ofs.
Definition packets_of_offers (ofs : list offer) : list raw_packet :=
  omap (λ o, match o with OCondition _ => None | OPacket pkt => Some pkt end) ofs.

Lemma offered_app w ofs ofs' : offered w (ofs ++ ofs') = offered (offered w ofs) ofs'.
Proof. apply foldl_app. Qed.
Lemma conditions_of_app ofs ofs' : conditions_of (ofs ++ ofs') = conditions_of ofs ++ conditions_of ofs'.
Proof. apply omap_app. Qed.
Lemma packets_of_app ofs ofs' : packets_of_offers (ofs ++ ofs') = packets_of_offers ofs ++ packets_of_offers ofs'.
Proof. apply omap_app. Qed.
Lemma offered_conditions w (cs : list (condition K)) : offered w (OCondition <$> cs) = wire_after intf1 sendpacket w cs.
Proof. unfold offered, wire_after. revert w. induction cs as [|c cs IH]; intros w; [done|]. apply IH. Qed.
Definition offer_pkt (o : offer) : raw_packet := match o with OCondition c => pkt_of c | OPacket pkt => pkt end.
Lemma packets_of_conditions (cs : list (condition K)) : packets_of_offers (OCondition <$> cs) = [].
Proof. by induction cs. Qed.
Lemma conditions_of_conditions (cs : list (condition K)) : conditions_of (OCondition <$> cs) = cs.
Proof. induction cs as [|c cs IH]; [done|]. unfold conditions_of in *. cbn. by rewrite IH. Qed.
End offers.
Arguments offer K : clear implicits.
(** With an interface that takes every packet *)
Lemma offered_all {K} `{!FlowCondition K} w (ofs : list (offer K)) : offered true takes_all w ofs = w ++ (offer_pkt <$> ofs).
Proof.
  revert w. induction ofs as [|o ofs IH]; intros w; [by rewrite app_nil_r|]. unfold offered in *. cbn [foldl]. rewrite IH.
  destruct o as [c|pkt]; cbn [offer_step offer_pkt]; unfold wire_step, put_step, takes_all;
    (rewrite bool_decide_true by lia); cbn [andb]; by rewrite <- app_assoc.
Qed.

(** The packets sent in a run, and how one is carried on the wire: with its
    length after it, and the tag its task asks for *)
Definition sends (os : list sys_op) : list (filler * list Z * (flow_s * (Z * Z))) :=
  omap (λ o, match o with STestbed (TSend fl tags f sid len) => Some (fl, tags, (f, (sid, len))) | _ => None end) os.
Lemma sends_app os os' : sends (os ++ os') = sends os ++ sends os'.
Proof. apply omap_app. Qed.
Definition carried {K} `{!PacketFlow K} (tasks : K → option task_t) (x : filler * list Z * (flow_s * (Z * Z)))
    (pkt : raw_packet) : Prop :=
  let '(fl, tags, (f, (sid, len))) := x in sent_as tasks fl tags f sid len pkt.

(** ** Reading a packet back *)
Lemma tcp_frame_followed fl r tags tags' f :
  length tags' = length tags → tcp_frame fl tags f → tcp_frame (followed fl r) tags' f.
Proof.
  intros El [Hp Hl Ht Hi (off & Eo & Ho)]. split; cbn [followed fl_pre fl_ip fl_rest]; [done|by rewrite El|done|done|].
  exists off. split; [|done]. by apply lookup_app_l_Some.
Qed.

(** What a packet on the wire says: to the parser of the sender, to the
    receiver, and in its last four bytes *)
Definition reads_back (datalink : Z) (x : filler * list Z * (flow_s * (Z * Z))) (pkt : raw_packet) : Prop :=
  let '(fl, tags, (f, (sid, len))) := x in ∃ b, pkt = set b ∧
    parse_ipv4 datalink b = Ok (Some (f, sid), b) ∧
    (tcp_frame fl tags f → parse_headers b = Ok (TcpPacket (report_of (f, sid)), b)) ∧
    read32 (Z.of_nat (length b) - 4) b = Ok (len, b).

Lemma parse_ipv4_frame datalink fl tags f sid :
  frame_ok datalink fl tags f sid → parse_ipv4 datalink (frame fl tags f sid) = Ok (Some (f, sid), frame fl tags f sid).
Proof.
  intros Hok. apply wp_exact. apply (wp_parse datalink 8 0 fl tags f sid); try apply Hok; [done..|].
  by rewrite decide_True.
Qed.

Lemma carried_reads_back {K} `{!PacketFlow K} (tasks : K → option task_t) datalink fl tags f sid len pkt :
  (∀ k t, tasks k = Some t → Forall (λ id, 1 <= id <= 12) (monitor_switch_ids t)) →
  op_ok datalink (TSend fl tags f sid len) → sent_as tasks fl tags f sid len pkt →
  reads_back datalink (fl, tags, (f, (sid, len))) pkt.
Proof.
  intros Hsw (Hok & Hlen & _) (g & Hg & ->). exists (frame (with_length fl len) (retag g tags) f sid). split; [done|].
  assert (frame_ok datalink (with_length fl len) (retag g tags) f sid) as Hok'.
  { apply frame_ok_retag; [apply frame_ok_followed; [apply bytes_mem32|done]|].
    intros x. eapply task_tag_in_u; [apply Hsw|exact Hg]. }
  split; [by apply parse_ipv4_frame|]. split.
  - intros Ht. apply (parse_headers_frame datalink); [done|]. eapply tcp_frame_followed; [apply length_retag|exact Ht].
  - unfold with_length. rewrite frame_followed, length_app, length_mem32, Nat2Z.inj_add, Z.add_simpl_r.
    apply wp_exact, mem32_value; [|done]. unfold in_u, TCPR_IPV4_H in *. lia.
Qed.

Lemma sends_in os x : x ∈ sends os → let '(fl, tags, (f, (sid, len))) := x in STestbed (TSend fl tags f sid len) ∈ os.
Proof.
  unfold sends. rewrite list_elem_of_omap. intros ([[fl tags f sid len| |]|msec|] & Ho & E); try done. by injection E as <-.
Qed.
Lemma run_reads_back {K} `{!PacketFlow K} (tasks : K → option task_t) datalink os pkts :
  (∀ k t, tasks k = Some t → Forall (λ id, 1 <= id <= 12) (monitor_switch_ids t)) →
  Forall (sys_op_ok datalink) os → Forall2 (carried tasks) (sends os) pkts →
  Forall2 (λ x pkt, carried tasks x pkt ∧ reads_back datalink x pkt) (sends os) pkts.
Proof.
  intros Hsw Hos Hc. rewrite Forall_forall in Hos.
  assert (∀ x, x ∈ sends os → let '(fl, tags, (f, (sid, len))) := x in op_ok datalink (TSend fl tags f sid len)) as Hin.
  { intros x Hx%sends_in. destruct x as [[fl tags] [f [sid len]]]. exact (Hos _ Hx). }
  clear Hos. induction Hc as [|x pkt xs pkts Hx _ IH]; [constructor|]. constructor; [|apply IH; intros y Hy; apply Hin; by right].
  split; [done|]. specialize (Hin x ltac:(by left)). destruct x as [[fl tags] [f [sid len]]]. by eapply carried_reads_back.
Qed.
