(* ===== verification/TraceSpec.v ===== *)
(** * Playing a generated trace

    A sender that plays the trace the generator made for it, over a network
    that loses packets, gives the intervals on which [SystemProps.v] says what
    is reported. *)
From S2P Require Import Prelude CMonad CFloat ChainedTable ChainSpec TableSpec FixSizeTable FixSizeSpec FixSizeIface.
From S2P Require Import Generator GeneratorSpec GeneratorProps.
From S2P Require Import Flow PktListTable PktListSpec PktListProps ObjStore Settings Sample FlowTables Warehouse.
From S2P Require Import WarehouseSpec WarehouseRecords WarehouseProps Bytes VlanTag CText TaskManager SendPacket FrameSpec SendPackets SendPacketsSpec.
From S2P Require Import Fifo Receiver FlowInforUpdator Testbed TestbedSpec LossSpec TestbedProps LossProps System SystemSpec WireSpec.

Implicit Types (f : flow_s) (os : list tb_op) (p : list (flow_s * (Z * Z))).

(** ** The network *)
(** The packets sent are the generator's.  One that arrives is one that has been
    sent, as it is on the wire: its length follows it and its VLAN header holds
    some tag; and none of its flow has overtaken it. *)
Record plays os : Prop := {
  pl_sends fl tags f sid len : TSend fl tags f sid len ∈ os → fl = gen_filler ∧ tags = [0];
  pl_arrives os1 fl tags f sid os2 : os = os1 ++ TReceive fl tags f sid :: os2 →
    (∃ len, fl = with_length gen_filler len ∧ (f, (sid, len)) ∈ sent_packets os1) ∧ (∃ tag, tags = [tag] ∧ in_u 16 tag) ∧
    Forall (λ y, key_compare f y.1 = 0 → y.2 < sid) (arrivals os1)
}.

(** An interval: of every flow that sends in it the last packet arrives, and
    every report is read. *)
Record played_interval (os : list sys_op) : Prop := {
  pi_no_rotation : Forall (λ o, ¬ is_rotation o) os;
  pi_plays : plays (tb_ops os);
  pi_sent : sent (λ _, true) (tb_ops os) < 2 ^ 30;
  pi_flushed : flushed (tb_ops os);
  pi_read : ∃ os1 n, tb_ops os = os1 ++ reports n ∧ (length (arrivals os1) <= n)%nat
}.
(** The intervals, with the times of the rotations that end them, play the trace
    or a part of it from its start. *)
Definition played p (segs : list (list sys_op * Z)) : Prop :=
  (segs ≫= λ seg, sent_packets (tb_ops seg.1)) `prefix_of` p ∧ Forall (λ seg, played_interval seg.1) segs.

(** ** The trace *)
(** What the generator makes for host [i] *)
Record trace_of (i : Z) p : Prop := {
  tr_from : Forall (λ x, GET_SENDER_IDX (f_srcip x.1) = i - 1 ∧ GET_NET_IDENTITY (f_srcip x.1) = 9 + i) p;
  tr_tcp : Forall (λ x, tcp_frame gen_filler [0] x.1) p;
  tr_ok : Forall (op_ok 1) (replay p);
  tr_order : in_order (replay p)
}.

Lemma sent_packets_in os x : x ∈ sent_packets os ↔ ∃ fl tags, TSend fl tags x.1 x.2.1 x.2.2 ∈ os.
Proof.
  induction os as [|o os IH]; simpl.
  - split; [by intros ?%not_elem_of_nil|]. by intros (? & ? & ?%not_elem_of_nil).
  - destruct o as [fl tags f sid len| |]; rewrite ?elem_of_cons, IH.
    + split.
      * intros [->|(fl' & tags' & Hin)]; [exists fl, tags; by left|exists fl', tags'; by right].
      * intros (fl' & tags' & [[= -> -> <- <- <-]|Hin]%elem_of_cons); [left; by destruct x as [? []]|right; by eexists _, _].
    + split; intros (fl' & tags' & Hin); exists fl', tags'; [by right|by apply elem_of_cons in Hin as [|]].
    + split; intros (fl' & tags' & Hin); exists fl', tags'; [by right|by apply elem_of_cons in Hin as [|]].
Qed.

Lemma arrivals_in os y : y ∈ arrivals os → ∃ fl tags, TReceive fl tags y.1 y.2 ∈ os.
Proof.
  induction os as [|o os IH]; simpl; [by intros ?%not_elem_of_nil|]. destruct o as [fl tags f sid len|fl tags f sid|].
  - intros (fl' & tags' & Hin)%IH. exists fl', tags'. by right.
  - intros [->|(fl' & tags' & Hin)%IH]%elem_of_cons; [exists fl, tags; by left|exists fl', tags'; by right].
  - intros (fl' & tags' & Hin)%IH. exists fl', tags'. by right.
Qed.

Section trace.
Context (i net : Z) (a_host : 1 <= i <= NUM_SENDERS) (other_network : net ≠ 9 + i).
Context p (p_ok : trace_of i p) os (os_plays : plays os) (p1 p2 : list (flow_s * (Z * Z))).
Context (p_split : p = p1 ++ sent_packets os ++ p2).

Lemma packet_of_trace x : x ∈ sent_packets os → x ∈ p.
Proof. rewrite p_split, !elem_of_app. tauto. Qed.
Lemma trace_send_ok f sid len : (f, (sid, len)) ∈ sent_packets os → op_ok 1 (TSend gen_filler [0] f sid len).
Proof.
  intros Hx%packet_of_trace. pose proof (tr_ok _ _ p_ok) as Hok. unfold replay in Hok.
  rewrite Forall_fmap, Forall_forall in Hok. exact (Hok _ Hx).
Qed.
(** What arrives *)
Lemma trace_arrival os1 fl tags f sid os2 : os = os1 ++ TReceive fl tags f sid :: os2 →
  ∃ len, fl = with_length gen_filler len ∧ (f, (sid, len)) ∈ sent_packets os1 ∧ (f, (sid, len)) ∈ sent_packets os.
Proof.
  intros E. destruct (pl_arrives _ os_plays _ _ _ _ _ _ E) as ((len & Efl & Hin) & _). exists len. split; [done|]. split; [done|].
  rewrite E, sent_packets_app. apply elem_of_app. by left.
Qed.
Lemma trace_op_ok : Forall (op_ok 1) os.
Proof.
  apply Forall_forall. intros o Ho. apply list_elem_of_split in Ho as (os1 & os2 & E). destruct o as [fl tags f sid len|fl tags f sid|].
  - destruct (pl_sends _ os_plays fl tags f sid len) as [-> ->]; [rewrite E; apply elem_of_app; right; by left|].
    apply trace_send_ok, sent_packets_in. exists gen_filler, [0]. rewrite E. apply elem_of_app. right. by left.
  - destruct (pl_arrives _ os_plays _ _ _ _ _ _ E) as (_ & (tag & -> & Ht) & _).
    destruct (trace_arrival _ _ _ _ _ _ E) as (len & -> & _ & Hin). destruct (trace_send_ok _ _ _ Hin) as [[_ Hf Hs _] _].
    apply packet_of_trace in Hin. destruct p_ok as [Hfrom Htcp _ _]. rewrite Forall_forall in Hfrom, Htcp.
    destruct (Hfrom _ Hin) as [Ei _]. cbn [fst] in *.
    split; [apply frame_ok_followed; [apply bytes_mem32|by apply gen_frame_ok]|].
    split; [by apply (tcp_frame_followed _ _ [0]), (Htcp _ Hin)|]. unfold from_sender. unfold NUM_SENDERS in *. lia.
  - done.
Qed.
Lemma trace_in_order : in_order os.
Proof.
  intros os1 o os2 E. destruct o as [fl tags f sid len|fl tags f sid|]; [| |done].
  - assert (replay p = replay (p1 ++ sent_packets os1) ++ TSend gen_filler [0] f sid len :: replay (sent_packets os2 ++ p2)) as Er.
    { rewrite p_split, E, sent_packets_app. unfold replay. cbn [sent_packets]. rewrite !fmap_app, fmap_cons.
      by rewrite <- !app_assoc. }
    pose proof (tr_order _ _ p_ok _ _ _ Er) as Hs. cbn [step_in_order] in *.
    rewrite sent_packets_replay, flow_packets_app in Hs. by apply Forall_app in Hs as [_ Hs].
  - destruct (pl_arrives _ os_plays _ _ _ _ _ _ E) as ((len & _ & Hin) & _ & Hl). split; [|done].
    apply list_elem_of_fmap. exists (sid, len). split; [done|]. unfold flow_packets. apply list_elem_of_fmap.
    exists (f, (sid, len)). split; [done|]. apply list_elem_of_filter. split; [|done]. by apply flow_compare_eq.
Qed.
Lemma trace_sent_by : Forall (λ y, sent_by i net y.1) (arrivals os).
Proof.
  apply Forall_forall. intros y (fl & tags & (os1 & os2 & E)%list_elem_of_split)%arrivals_in.
  destruct (trace_arrival _ _ _ _ _ _ E) as (len & _ & _ & Hy%packet_of_trace).
  pose proof (tr_from _ _ p_ok) as Hf. rewrite Forall_forall in Hf. destruct (Hf _ Hy) as [Ei En]. cbn [fst] in *.
  split; [done|]. by rewrite En.
Qed.
End trace.

Lemma played_complete i net p segs : 1 <= i <= NUM_SENDERS → net ≠ 9 + i → trace_of i p → played p segs →
  Forall (λ seg, complete_interval 1 i net seg.1) segs.
Proof.
  intros Hi Hnet Hp [[rest E] Hsegs]. apply Forall_forall. intros seg Hin. rewrite Forall_forall in Hsegs.
  destruct (Hsegs seg Hin) as [H1 H2 H3 H4 H5]. apply list_elem_of_split in Hin as (l1 & l2 & ->).
  rewrite bind_app, bind_cons, <- !app_assoc in E. split; [done| |done| | |done|done].
  - by eapply (trace_op_ok i).
  - by eapply (trace_in_order i).
  - by eapply (trace_sent_by i).
Qed.

(** The trace of the generator for host [i] is one. *)
Lemma generated_trace i p :
  Forall (λ x, GET_SENDER_IDX (f_srcip x.1) = i - 1 ∧ GET_NET_IDENTITY (f_srcip x.1) = 10 + (i - 1) ∧
    GET_SENDER_IDX (f_dstip x.1) ≠ i - 1 ∧ frame_ok 1 gen_filler [0] x.1 x.2.1 ∧ tcp_frame gen_filler [0] x.1) p →
  Forall (op_ok 1) (replay p) → in_order (replay p) → trace_of i p.
Proof.
  intros Hp Hok Ho. split; [| |done|done]; (eapply Forall_impl; [exact Hp|]); intros x (E1 & E2 & _ & _ & Ht); [|done].
  split; [done|lia].
Qed.

(** ** Packets that are alone in their flow *)
(** No two packets have the same addresses and ports: this is what a trace looks
    like when the random ports of its packets differ. *)
Definition lone p : Prop := ∀ f, (length (flow_packets f p) <= 1)%nat.
(** What arrives has been sent. *)
Definition arrivals_sent os : Prop := ∀ os1 fl tags f sid os2,
  os = os1 ++ TReceive fl tags f sid :: os2 → sid ∈ (flow_packets f (sent_packets os1)).*1.

Lemma arrivals_sent_app os1 os2 : arrivals_sent (os1 ++ os2) → arrivals_sent os1.
Proof. intros Ha p fl tags f sid q ->. apply (Ha p fl tags f sid (q ++ os2)). by rewrite <- app_assoc. Qed.
Lemma lone_app p q : lone (p ++ q) → lone p.
Proof. intros Hl f. specialize (Hl f). rewrite flow_packets_app, length_app in Hl. lia. Qed.
Lemma lone_unique p f y z : lone p → y ∈ flow_packets f p → z ∈ flow_packets f p → y = z.
Proof.
  intros Hl. specialize (Hl f). destruct (flow_packets f p) as [|a [|]]; [by intros ?%not_elem_of_nil| |simpl in Hl; lia].
  by intros ->%list_elem_of_singleton ->%list_elem_of_singleton.
Qed.

(** The report of a packet alone in its flow reveals no loss. *)
Lemma account_alone sid l : Forall (λ y : Z * Z, y.1 = sid) l → lost_volume (account sid l).1 = 0.
Proof.
  destruct l as [|[s v] l]; [done|]. intros [E _]%Forall_cons. cbn [fst] in E. subst s. unfold account.
  simpl. rewrite !(decide_False (P := sid < sid)) by lia. simpl. by rewrite decide_True.
Qed.
Lemma drop_packets_incl f n p x : x ∈ drop_packets f n p → x ∈ p.
Proof.
  revert n. induction p as [|y p IH]; intros n; simpl; [done|]. rewrite elem_of_cons. case_decide.
  - destruct n; [by intros ?%elem_of_cons|]. intros Hx. right. by eapply IH.
  - intros [->|Hx]%elem_of_cons; [by left|right; by eapply IH].
Qed.

Section alone.
Context {K : Type} `{KeyLaws K} `{!PacketFlow K} (net_identity : Z) (fifo_handler : text).
Implicit Types (a : accounts K).
Local Abbreviation op := (account_op (K := K) net_identity fifo_handler).
Local Abbreviation run os a := (account_ops (K := K) net_identity fifo_handler os a).

(** After the packets [p] have been sent *)
Record alone p a : Prop := {
  al_flight x : x ∈ in_flight a → x ∈ p;
  al_queued f sid : (f, sid) ∈ queued a → sid ∈ (flow_packets f p).*1;
  al_updates : Forall is_sent (updates a)
}.
Lemma elem_of_flow_packets f p y : y ∈ flow_packets f p ↔ ∃ g, key_compare f g = 0 ∧ (g, y) ∈ p.
Proof.
  unfold flow_packets. rewrite list_elem_of_fmap. split.
  - intros ([g y'] & -> & [E Hin]%list_elem_of_filter). by exists g.
  - intros (g & E & Hin). exists (g, y). split; [done|]. by apply list_elem_of_filter.
Qed.

Lemma alone_step pre o a : alone (sent_packets pre) a → arrivals_sent (pre ++ [o]) → lone (sent_packets pre) →
  alone (sent_packets (pre ++ [o])) (op o a).
Proof.
  intros [Hf Hq Hu] Ha Hl. rewrite sent_packets_app. destruct o as [fl tags f sid len|fl tags f sid|]; cbn [sent_packets account_op].
  - split; cbn [in_flight queued updates].
    + intros x. rewrite !elem_of_app. intros [Hx|Hx]; [left; by apply Hf|by right].
    + intros g s Hin. rewrite flow_packets_app, fmap_app, elem_of_app. left. by apply Hq.
    + apply Forall_app. by split; [|constructor].
  - rewrite app_nil_r. case_decide; [|by split]. split; cbn [in_flight queued updates]; [done| |done].
    intros g s [Hin|[= -> ->]%list_elem_of_singleton]%elem_of_app; [by apply Hq|]. exact (Ha pre fl tags f sid [] eq_refl).
  - rewrite app_nil_r. destruct (queued a) as [|[f sid] q] eqn:Eq; [split; [done|by rewrite Eq|done]|].
    unfold account_report. pose proof (account_alone sid (flow_packets f (in_flight a))) as Hz.
    destruct (account sid (flow_packets f (in_flight a))) as [v l']. cbn [fst] in Hz. rewrite Hz.
    + rewrite decide_False, app_nil_r by lia. split; cbn [in_flight queued updates]; [|intros g s Hin; apply Hq; by right|done].
      intros x Hx%drop_packets_incl. by apply Hf.
    + assert (sid ∈ (flow_packets f (sent_packets pre)).*1) as (z & -> & Hz')%list_elem_of_fmap by (apply Hq; by left).
      apply Forall_forall. intros y (g & E & Hy)%elem_of_flow_packets.
      rewrite (lone_unique _ f y z Hl); [done| |done]. apply elem_of_flow_packets. exists g. split; [done|]. by apply Hf.
Qed.
Lemma alone_run os pre a : alone (sent_packets pre) a → arrivals_sent (pre ++ os) → lone (sent_packets (pre ++ os)) →
  alone (sent_packets (pre ++ os)) (run os a).
Proof.
  revert pre a. induction os as [|o os IH]; intros pre a Hi Ha Hl; [by rewrite app_nil_r|].
  rewrite cons_middle, app_assoc in *. change (run (o :: os) a) with (run os (op o a)). apply IH; [|done..].
  apply alone_step; [done|by eapply arrivals_sent_app|]. rewrite <- app_assoc, sent_packets_app in Hl. by eapply lone_app.
Qed.

(** The volumes recorded are those sent. *)
Lemma tally_volume k os a : Forall sized os →
  (tally k (updates (run os a))).1 = (tally k (updates a)).1 + volume_of (of_source k) (sent_packets os).
Proof.
  intros Hos. revert a. induction Hos as [|o os Ho _ IH]; intros a; [simpl; lia|].
  change (run (o :: os) a) with (run os (op o a)). rewrite IH. destruct o as [fl tags f sid len|fl tags f sid|]; cbn [account_op].
  - cbn [updates]. rewrite tally_snoc. destruct (tally k (updates a)) as [v l]. unfold sized in Ho.
    assert (volume_of (of_source k) (sent_packets (TSend fl tags f sid len :: os))
      = (if of_source k f then len else 0) + volume_of (of_source k) (sent_packets os)) as -> by done.
    unfold of_source at 2. rewrite bool_decide_decide. cbn [tally_step fst snd].
    destruct (decide (key_compare k (src f) = 0)); [rewrite decide_True by done|rewrite decide_False by tauto]; simpl; lia.
  - by case_decide.
  - destruct (queued a) as [|[f sid] q]; [done|]. unfold account_report. destruct (account sid _) as [v l']. cbn [updates].
    case_decide; [|by rewrite app_nil_r]. rewrite tally_snoc. destruct (tally k (updates a)). simpl. by case_decide.
Qed.
End alone.

Section hidden.
Context {K : Type} `{KeyLaws K} `{!PacketFlow K} (datalink i net : Z).
Local Abbreviation fifo := (get_sender_fifo_fname i 100).
Local Abbreviation steps := (interval_steps (K := K) net fifo).

Lemma tb_ops_intervals (segs : list (list sys_op * Z)) :
  tb_ops (segs ≫= λ seg, seg.1 ++ [SRotate seg.2]) = flat_map (λ seg, tb_ops seg.1) segs.
Proof.
  induction segs as [|seg segs IH]; [done|]. rewrite bind_cons, !tb_ops_app, IH. cbn [tb_ops omap list_omap flat_map]. by rewrite app_nil_r.
Qed.

(** No interval records a loss. *)
Lemma hidden_run (segs : list (list sys_op * Z)) : ∀ pre (a : accounts K) past,
  let all := flat_map (λ seg, tb_ops seg.1) segs in
  alone (sent_packets pre) a → updates a = [] → arrivals_sent (pre ++ all) → lone (sent_packets (pre ++ all)) →
  Forall (op_ok datalink) all → Forall (λ seg, Forall (λ o, ¬ is_rotation o) seg.1) segs →
  ∃ a' uss, steps (segs ≫= λ seg, seg.1 ++ [SRotate seg.2]) (Intervals a past) = Intervals a' (past ++ uss) ∧
    Forall2 (λ seg us, ∀ k, tally k us = (volume_of (of_source k) (sent_packets (tb_ops seg.1)), 0)) segs uss.
Proof.
  induction segs as [|[os msec] segs IH]; intros pre a past all Hi Ea Ha Hl Hok Hn.
  { exists a, []. by rewrite app_nil_r. }
  subst all. cbn [flat_map fst snd] in *. rewrite bind_cons. cbn [fst snd]. rewrite app_assoc in Ha, Hl.
  apply Forall_cons in Hn as [Hn Hns]. apply Forall_app in Hok as [Hok Hoks].
  pose proof (alone_run net fifo (tb_ops os) pre a Hi (arrivals_sent_app _ _ Ha)) as Hi'.
  pose proof Hl as Hl'. rewrite sent_packets_app in Hl'. specialize (Hi' (lone_app _ _ Hl')). set (a1 := account_ops net fifo (tb_ops os) a) in *.
  destruct (IH (pre ++ tb_ops os) (Accounts (in_flight a1) (queued a1) []) (past ++ [updates a1])) as (a' & uss & E & Hus); [|done..|].
  { destruct Hi'. by split; [..|constructor]. }
  exists a', (updates a1 :: uss). split.
  - unfold interval_steps in *. rewrite !foldl_app. fold (steps os (Intervals a past)). rewrite steps_within by done.
    cbn [foldl interval_step]. unfold end_interval. cbn [iv_now iv_past]. fold a1. rewrite E. by rewrite <- app_assoc.
  - constructor; [|done]. intros k. cbn [fst].
    pose proof (tally_volume net fifo k (tb_ops os) a (op_sized datalink _ Hok)) as Hv. fold a1 in Hv. rewrite Ea in Hv.
    pose proof (tally_sent k (updates a1) (al_updates _ _ Hi')) as Hz. destruct (tally k (updates a1)). cbn [fst snd tally foldl] in *.
    by subst.
Qed.
End hidden.
