(* ===== verification/ReplayProps.v ===== *)
(** * Properties of the replay

    The loop of [send_packets] takes one step of the test bed per packet until
    the trace ends, the limit is reached or the user interrupts it. *)
From stdpp Require Import strings.
From S2P Require Import Prelude CMonad CFloat ChainedTable ChainSpec TableSpec FixSizeTable FixSizeSpec FixSizeIface.
From S2P Require Import Generator GeneratorSpec GeneratorProps.
From S2P Require Import Flow PktListTable PktListSpec PktListProps ObjStore Settings Sample FlowTables Warehouse.
From S2P Require Import WarehouseSpec WarehouseRecords WarehouseProps Config Bytes VlanTag CText TaskManager SendPacket FrameSpec.
From S2P Require Import ConditionSender ConditionProps SendProps SendPackets SendPacketsSpec Fifo Receiver FlowInforUpdator.
From S2P Require Import Testbed TestbedSpec LossSpec TestbedProps LossProps System SystemSpec WireSpec TraceSpec.

(** A packet of a trace, as in [WireSpec.sends]: the step that sends it, and what
    [get_next_packet] gives for it *)
Abbreviation trace_packet := (filler * list Z * (flow_s * (Z * Z)))%type.
Definition send_of (x : trace_packet) : tb_op := let '(fl, tags, (f, (sid, len))) := x in TSend fl tags f sid len.
Definition pkt_of_send (x : trace_packet) : pcap_pkt := let '(fl, tags, (f, (sid, len))) := x in frame_pkt fl tags f sid len.
(** The bytes it has on the wire *)
Definition wire_bytes (x : trace_packet) : Z :=
  let '(fl, tags, (f, (sid, len))) := x in Z.of_nat (length (frame fl tags f sid)) + 4.
Definition total_wire_bytes (xs : list trace_packet) : Z := foldr (λ x n, wire_bytes x + n) 0 xs.

(** The files of the generator hold such packets. *)
Lemma generated_file (p : list (flow_s * (Z * Z))) : pcap_of <$> p = pkt_of_send <$> ((λ x, (gen_filler, [0], x)) <$> p).
Proof. rewrite <- list_fmap_compose. apply list_fmap_ext. by intros _ [f [sid len]] _. Qed.

Lemma sent_packets_sends (xs : list trace_packet) : sent_packets (send_of <$> xs) = xs.*2.
Proof. induction xs as [|[[fl tags] [f [sid len]]] xs IH]; [done|]. cbn. by rewrite IH. Qed.

Lemma sends_report_nothing (xs : list trace_packet) : TReport ∉ send_of <$> xs.
Proof. intros ([[fl tags] [f [sid len]]] & E & _)%list_elem_of_fmap. done. Qed.

Section replay.
Context {K VI VF FX : Type} `{KeyLaws K}.
Context `{!FlowTable K Z Z VI} `{!FlowTableLaws K Z Z VI} `{!IntTable K VI}.
Context `{!FlowTable K c_float c_float VF} `{!FlowTableLaws K c_float c_float VF}.
Context `{!FixedTable K FX} `{!FixedTableLaws K FX} `{!PacketFlow K}.
Context (setting : cm_experiment_setting_t) (fsize : Z) (tasks : K → option task_t) (datalink net_identity : Z).
Context (fifo_handler : text) (sendpacket : list raw_packet → raw_packet → Z).
Context (switches_ok : ∀ k t, tasks k = Some t → Forall (λ id, 1 <= id <= 12) (monitor_switch_ids t)).
Context (limit_send : Z) (limit_int : in_s 32 limit_send) (interrupted : nat → bool).
Implicit Types (t : testbed VI VF FX) (xs : list trace_packet) (a : accounts K).

Local Abbreviation loop num pcap := (at_sender (send_packets setting tasks datalink sendpacket limit_send interrupted num pcap)).
Local Abbreviation steps os := (do_tbs setting tasks datalink net_identity fifo_handler sendpacket os).

(** The loop sends [n] of [len] packets, from packet [num] on and after [sent]
    packets have been sent. *)
Record stops (num : nat) (sent : Z) (len n : nat) : Prop := {
  st_len : (n <= len)%nat;
  st_sends j : (j < n)%nat → interrupted (num + j) = false ∧ (0 < limit_send → sent + Z.of_nat j < limit_send);
  st_stop : (n < len)%nat → interrupted (num + n) = true ∨ 0 < limit_send <= sent + Z.of_nat n
}.

(** [t'] is [t] but for the flags of the replay. *)
Definition same_but_flags t t' : Prop := ∃ ab it,
  t' = TB (tb_dw t) (Sending (g_pkt_temporary_buffer (tb_sending t)) ab (pkts_sent (tb_sending t)) (bytes_sent (tb_sending t)) it)
     (tb_wire t) (tb_lost t) (tb_kernel t) (tb_handlers t) (tb_pkts t) (tb_conditions t).

Lemma at_sender_bind {A B} (c : cmd (replay_state VI VF FX) A) (f : A → cmd (replay_state VI VF FX) B) t r t1 :
  at_sender c t = Ok (r, t1) → at_sender (c ≫= f) t = at_sender (f r) t1.
Proof.
  unfold at_sender, zoom, mbind, cmd_bind. destruct (c _) as [[r' s]|]; [|done]. intros [= <- <-]. cbn. by destruct s.
Qed.

(** One turn of the loop *)
Lemma loop_sends num x pcap t t1 :
  abort (tb_sending t) = false → interrupted num = false →
  (0 < limit_send → pkts_sent (tb_sending t) < limit_send) →
  steps [send_of x] t = Ok (tt, t1) → loop num (pkt_of_send x :: pcap) t = loop (S num) pcap t1.
Proof.
  intros Ea Ei Hl E. assert (at_sender (send_packet setting tasks datalink sendpacket (pkt_of_send x)) t = Ok (tt, t1)) as Es.
  { destruct x as [[fl tags] [f [sid len]]]. cbn [send_of do_tbs do_tb] in E. unfold mbind, cmd_bind in E.
    cbn [pkt_of_send]. by destruct (at_sender _ t) as [[[] t2]|]. }
  rewrite <- (at_sender_bind _ (λ _, send_packets setting tasks datalink sendpacket limit_send interrupted (S num) pcap) _ _ _ Es).
  unfold at_sender, zoom. cbn [send_packets]. rewrite Ei. unfold mbind at 1, cmd_bind at 1, mret, cmd_ret.
  unfold mbind at 1, cmd_bind at 1, gets. cbn [rp_sending]. rewrite Ea.
  destruct (decide (limit_send > 0 ∧ pkts_sent (tb_sending t) >= u64 limit_send)) as [[H1 H2]|]; [|done].
  rewrite wrap_small in H2; [lia|]. unfold in_s, in_u in *. change (2 ^ (32 - 1)) with (2 ^ 31) in *. lia.
Qed.
Lemma loop_stops num x pcap t :
  interrupted num = true ∨ 0 < limit_send <= pkts_sent (tb_sending t) →
  ∃ t', loop num (x :: pcap) t = Ok (tt, t') ∧ same_but_flags t t' ∧ abort (tb_sending t') = true.
Proof.
  intros Hstop. unfold at_sender, zoom. cbn [send_packets]. unfold on_sending, zoom.
  assert (0 < limit_send → u64 limit_send = limit_send) as Eu.
  { intros Hpos. apply wrap_small. unfold in_s, in_u in *. change (2 ^ (32 - 1)) with (2 ^ 31) in *. lia. }
  destruct (interrupted num) eqn:Ei; unfold mbind, cmd_bind, gets, modify, mret, cmd_ret; cbn [rp_sending set_abort abort].
  - eexists. split; [reflexivity|]. split; [|done]. by exists true, (iteration (tb_sending t)).
  - destruct Hstop as [|Hlim]; [done|]. destruct (abort (tb_sending t)) eqn:Ea.
    + eexists. split; [reflexivity|]. split; [|by cbn]. exists true, (iteration (tb_sending t)). destruct t as [? [] ? ? ? ? ? ?]. cbn in *. by subst.
    + rewrite decide_True by (rewrite Eu; lia). cbn. eexists. split; [reflexivity|]. split; [|done].
      by exists true, (u32 (iteration (tb_sending t) + 1)).
Qed.

(** What the loop has done after [n] packets, [pkts] being what was offered *)
Record replayed L a t xs (n : nat) (pkts : list raw_packet) t1 : Prop := {
  rd_steps : steps (send_of <$> take n xs) t = Ok (tt, t1);
  rd_inv : tb_inv setting fsize fifo_handler L (account_ops net_identity fifo_handler (send_of <$> take n xs) a) t1;
  rd_carried : Forall2 (carried tasks) (take n xs) pkts;
  rd_wire : tb_wire t1 = foldl (put_step sendpacket) (tb_wire t) pkts;
  rd_pkts : pkts_sent (tb_sending t1) = pkts_sent (tb_sending t) + Z.of_nat n;
  rd_bytes : bytes_sent (tb_sending t1) = u64 (bytes_sent (tb_sending t) + total_wire_bytes (take n xs))
}.
Lemma replayed_none L a t xs :
  tb_inv setting fsize fifo_handler L a t → in_u 64 (bytes_sent (tb_sending t)) → replayed L a t xs 0 [] t.
Proof.
  intros Ht Hb. split; rewrite ?take_0; [done|exact Ht|constructor|done|lia|].
  cbn. rewrite Z.add_0_r. symmetry. by apply wrap_small.
Qed.

(** One packet *)
Lemma replay_step L a t x :
  tb_inv setting fsize fifo_handler L a t → op_ok datalink (send_of x) → total (updates a) + x.2.2.2 < 2 ^ 31 →
  ∃ t1 pkt, steps [send_of x] t = Ok (tt, t1) ∧
    tb_inv setting fsize fifo_handler L (account_op net_identity fifo_handler (send_of x) a) t1 ∧ carried tasks x pkt ∧
    tb_wire t1 = put_step sendpacket (tb_wire t) pkt ∧ counted 1 (wire_bytes x) (tb_sending t) (tb_sending t1).
Proof.
  destruct x as [[fl tags] [f [sid len]]]. cbn [send_of wire_bytes snd carried]. intros Ht Ho Hb.
  assert (wp (steps [TSend fl tags f sid len]) (λ _ t1, ∃ pkt,
    tb_inv setting fsize fifo_handler L (account_op net_identity fifo_handler (TSend fl tags f sid len) a) t1 ∧
    sent_as tasks fl tags f sid len pkt ∧ tb_wire t1 = put_step sendpacket (tb_wire t) pkt ∧
    counted 1 (Z.of_nat (length (frame fl tags f sid)) + 4) (tb_sending t) (tb_sending t1)) t) as Hw.
  { cbn [do_tbs]. wp_step. eapply (step_send_packet setting fsize tasks datalink net_identity fifo_handler sendpacket switches_ok L);
      [exact Ht|exact Ho|destruct Ho as (_ & Hl & _); unfold TCPR_IPV4_H in Hl; rewrite total_snoc; cbn [amount]; lia|]. intros t1 pkt H1 H2 H3 H4. apply wp_ret. by exists pkt. }
  apply wp_run in Hw as ([] & t1 & E & pkt & Hrest). by exists t1, pkt.
Qed.

Lemma stops_cons num sent len n :
  ¬ (interrupted num = true ∨ 0 < limit_send <= sent) → stops (S num) (sent + 1) len n → stops num sent (S len) (S n).
Proof.
  intros Hs [S1 S2 S3]. assert (interrupted num = false) by (destruct (interrupted num); tauto). split; [lia| |].
  - intros [|j] Hj; [rewrite Nat.add_0_r, Z.add_0_r; split; [done|lia]|].
    rewrite <- Nat.add_succ_comm. destruct (S2 j ltac:(lia)) as [??]. split; [done|lia].
  - intros Hn. rewrite <- Nat.add_succ_comm. destruct (S3 ltac:(lia)); [by left|right; lia].
Qed.
Lemma replayed_cons L a t x xs n pkt pkts t1 t2 :
  steps [send_of x] t = Ok (tt, t1) → carried tasks x pkt → tb_wire t1 = put_step sendpacket (tb_wire t) pkt →
  pkts_sent (tb_sending t1) = pkts_sent (tb_sending t) + 1 →
  bytes_sent (tb_sending t1) = u64 (bytes_sent (tb_sending t) + wire_bytes x) →
  replayed L (account_op net_identity fifo_handler (send_of x) a) t1 xs n pkts t2 →
  replayed L a t (x :: xs) (S n) (pkt :: pkts) t2.
Proof.
  intros E1 Hc Ew Ep Eb [R1 R2 R3 R4 R5 R6]. split; cbn [take fmap list_fmap].
  - cbn [do_tbs] in *. unfold mbind, cmd_bind in *. destruct (do_tb _ _ _ _ _ _ _ t) as [[[] t']|]; [|done].
    by injection E1 as ->.
  - exact R2.
  - by constructor.
  - cbn [foldl]. by rewrite <- Ew.
  - lia.
  - rewrite R6, Eb. cbn [total_wire_bytes foldr]. unfold wrap. rewrite Zplus_mod_idemp_l. f_equal. unfold total_wire_bytes. lia.
Qed.
Lemma sends_nonneg xs : Forall (op_ok datalink) (send_of <$> xs) → Forall (λ y : flow_s * (Z * Z), 0 <= y.2.2) (xs.*2).
Proof.
  induction xs as [|[[fl tags] [f [sid len]]] xs IH]; [constructor|]. intros [[_ Ho] Hok]%Forall_cons.
  constructor; [|by apply IH]. unfold TCPR_IPV4_H in Ho. simpl. lia.
Qed.

Lemma run_replay L xs : ∀ num a t,
  tb_inv setting fsize fifo_handler L a t → Forall (op_ok datalink) (send_of <$> xs) →
  total (updates a) + volume_of (λ _, true) (xs.*2) < 2 ^ 31 → abort (tb_sending t) = false →
  0 <= pkts_sent (tb_sending t) → pkts_sent (tb_sending t) + Z.of_nat (length xs) < 2 ^ 64 → in_u 64 (bytes_sent (tb_sending t)) →
  ∃ t1 t2 n pkts, loop num (pkt_of_send <$> xs) t = Ok (tt, t2) ∧ same_but_flags t1 t2 ∧
    stops num (pkts_sent (tb_sending t)) (length xs) n ∧ replayed L a t xs n pkts t1 ∧
    abort (tb_sending t2) = bool_decide (n < length xs)%nat.
Proof.
  induction xs as [|x xs IH]; intros num a t Ht Hok Hv Ea Hp0 Hp Hb.
  { eexists t, _, 0%nat, []. split; [reflexivity|]. split; [by exists false, (u32 (iteration (tb_sending t) + 1)); cbn; rewrite <- Ea|].
    split; [by split; cbn; lia|]. split; [by apply replayed_none|exact Ea]. }
  rewrite fmap_cons in Hok. apply Forall_cons in Hok as [Ho Hok]. cbn [length fmap list_fmap] in Hp, Hv |- *.
  cbn [volume_of foldr] in Hv. fold (volume_of (λ _, true) (xs.*2)) in Hv.
  pose proof (volume_of_nonneg (λ _, true) _ (sends_nonneg xs Hok)) as Hvn.
  destruct (decide (interrupted num = true ∨ 0 < limit_send <= pkts_sent (tb_sending t))) as [Hs|Hs].
  { destruct (loop_stops num (pkt_of_send x) (pkt_of_send <$> xs) t Hs) as (t' & E & Hsame & Ea').
    exists t, t', 0%nat, []. split; [exact E|]. split; [exact Hsame|].
    split; [by split; [lia|lia|rewrite Nat.add_0_r, Z.add_0_r]|]. split; [by apply replayed_none|].
    by rewrite bool_decide_true by lia. }
  destruct (replay_step L a t x Ht Ho ltac:(lia)) as (t1 & pkt & E1 & Ht1 & Hc & Ew & Ep & Eb & Ea1 & _).
  rewrite wrap_small in Ep by (unfold in_u; lia).
  destruct (IH (S num) _ t1 Ht1 Hok) as (t2 & t3 & n & pkts & El & Hsame & Hst & Hr & Ea3).
  { destruct x as [[fl tags] [f [sid len]]]. destruct Ho as (_ & Hl & _). unfold TCPR_IPV4_H in Hl.
    cbn [send_of account_op updates]. rewrite total_snoc. cbn [amount fst snd] in *. lia. }
  { congruence. } { lia. } { lia. } { rewrite Eb. by apply wrap_in_u. }
  exists t2, t3, (S n), (pkt :: pkts). rewrite Ep in Hst.
  rewrite (loop_sends num x _ t t1) by (done || lia || (destruct (interrupted num); tauto)).
  split; [exact El|]. split; [exact Hsame|]. split; [by apply stops_cons|].
  split; [by eapply replayed_cons|]. rewrite Ea3. apply bool_decide_ext. lia.
Qed.
End replay.

(** ** From the start *)
Section started.
Context {K VI VF FX : Type} `{KeyLaws K}.
Context `{!FlowTable K Z Z VI} `{!FlowTableLaws K Z Z VI} `{!IntTable K VI}.
Context `{!FlowTable K c_float c_float VF} `{!FlowTableLaws K c_float c_float VF}.
Context `{!FixedTable K FX} `{!FixedTableLaws K FX} `{!PacketFlow K}.
Context (setting : cm_experiment_setting_t) (fsize : Z) (tasks : K → option task_t) (datalink : Z).
Context (fsize_ok : int_of_float (fix_loss_map_bucket_size (sender_setting setting)) = Some fsize) (fsize_pos : 0 < fsize).
Context (mkfifo_ok open_ok : text → bool) (mkfifo_works : ∀ name, mkfifo_ok name = true)
  (open_works : ∀ name, open_ok name = true).
Context (sendpacket : list raw_packet → raw_packet → Z).
Context (switches_ok : ∀ k t, tasks k = Some t → Forall (λ id, 1 <= id <= 12) (monitor_switch_ids t)).
Context (limit_send : Z) (limit_int : in_s 32 limit_send) (interrupted : nat → bool).
Implicit Types (xs : list trace_packet).

(** C11. The replay of a trace.  A sender is started and replays a trace of IPv4
    packets that fit the buffer, of less than 2^30 bytes together.  The loop
    ends; it sends the packets before the limit and before the user interrupts
    it, in their order, and takes exactly the steps of the test bed for them.
    The interface is offered each packet with its tag and its length, the
    statistics count the packets and the bytes offered, the replay is aborted if
    and only if packets are left, and the warehouse records for every source the
    volume of its packets sent, at their original lengths, and no loss. *)
Theorem replay_sends (i : Z) (ip_prefix_str : text) (k0 : kernel) xs :
  1 <= i <= NUM_SENDERS → Forall (op_ok datalink) (send_of <$> xs) → volume_of (λ _, true) (xs.*2) < 2 ^ 30 →
  let net := u32 (strtol_int ip_prefix_str) in
  let fifo := get_sender_fifo_fname i 100 in
  ∃ (t0 t1 t : testbed VI VF FX) n pkts P m,
    boot setting mkfifo_ok open_ok ip_prefix_str (Some (host_dev i)) (powered_off k0) = Ok (Some (net, fifo), t0) ∧
    at_sender (send_packets setting tasks datalink sendpacket limit_send interrupted 0 (pkt_of_send <$> xs)) t0 = Ok (tt, t) ∧
    stops limit_send interrupted 0 0 (length xs) n ∧
    do_tbs setting tasks datalink net fifo sendpacket (send_of <$> take n xs) t0 = Ok (tt, t1) ∧ same_but_flags t1 t ∧
    Forall2 (carried tasks) (take n xs) pkts ∧ tb_wire t = foldl (put_step sendpacket) [] pkts ∧
    pkts_sent (tb_sending t) = Z.of_nat n ∧ bytes_sent (tb_sending t) = u64 (total_wire_bytes (take n xs)) ∧
    abort (tb_sending t) = bool_decide (n < length xs)%nat ∧ wrep fsize [] P (tb_dw t) m ∧
    ∀ k, m_vi m (Buf flow_volume_map (m_idx m)) k = entry_of (volume_of (of_source k) ((take n xs).*2)) ∧
      m_vi m (Buf flow_loss_volume_map (m_idx m)) k = None.
Proof.
  intros Hi Hok Hv net fifo.
  pose proof (wp_boot (VI:=VI) (VF:=VF) (FX:=FX) setting fsize tasks fsize_ok fsize_pos mkfifo_ok open_ok mkfifo_works open_works
    i ip_prefix_str k0 Hi) as Hb.
  apply wp_run in Hb as (r & t0 & E0 & -> & Hinv & Ew0 & Es0).
  assert (Z.of_nat (length xs) <= volume_of (λ _, true) (xs.*2)) as Hlen.
  { clear -Hok. induction xs as [|[[fl tags] [f [sid len]]] xs IH]; [done|]. apply Forall_cons in Hok as [(_ & Hl & _) Hok].
    specialize (IH Hok). unfold TCPR_IPV4_H in Hl. cbn in IH |- *. unfold volume_of in IH. lia. }
  destruct (run_replay setting fsize tasks datalink net fifo sendpacket switches_ok limit_send limit_int interrupted kempty xs 0
    no_accounts t0 Hinv Hok) as (t1 & t & n & pkts & E & Hsame & Hst & [R1 R2 R3 R4 R5 R6] & Ea);
    [cbn [updates no_accounts total foldr]; lia|by rewrite Es0|by rewrite Es0|rewrite Es0; cbn; lia|by rewrite Es0|].
  rewrite Es0 in Hst, R5, R6. rewrite Ew0 in R4.
  destruct (ti_model _ _ _ _ _ _ R2) as (P & m & s & pm & R & _ & Rec & _).
  exists t0, t1, t, n, pkts, P, m. destruct Hsame as (ab & it & ->). cbn [tb_wire tb_sending tb_dw pkts_sent bytes_sent abort] in *.
  split_and!; try done; [by exists ab, it|].
  intros k. pose proof (rc_flow _ _ _ _ _ Rec k) as Hk.
  assert (Forall (op_ok datalink) (send_of <$> take n xs)) as Hok' by (rewrite fmap_take; by apply Forall_take).
  pose proof (tally_volume (K := K) net fifo k _ no_accounts (op_sized datalink _ Hok')) as Evol.
  pose proof (tally_sent k _ (run_unreported (K := K) net fifo (send_of <$> take n xs) (sends_report_nothing _))) as Eloss.
  destruct (tally k _) as [v l]. cbn [fst snd] in Evol, Eloss. subst v l. rewrite sent_packets_sends in Hk.
  destruct Hk as (E1 & E2 & _). by split.
Qed.
End started.

(** ** Packets the loop cannot handle *)
Section bad_packets.
Context {K VI VF FX : Type} `{KeyOps K} `{!FlowTable K Z Z VI}.
Context `{!FlowTable K c_float c_float VF} `{!FixedTable K FX} `{!PacketFlow K}.
Context (setting : cm_experiment_setting_t) (tasks : K → option task_t) (datalink : Z).
Context (sendpacket : list raw_packet → raw_packet → Z).

(** C25. Too long a packet overruns the buffer.  Whatever the state, if a packet
    has been captured with more than 14996 bytes, the loop writes past the end of
    [g_pkt_temporary_buffer]: the packet and the four bytes of its length are
    copied without a look at the size of the buffer. *)
Theorem oversized_packet_overflows (p : pcap_pkt) (s : replay_state VI VF FX) :
  Z.of_nat (length (g_pkt_temporary_buffer (rp_sending s))) = PKT_BUFFER_LEN →
  0 <= ph_caplen p <= Z.of_nat (length (ph_data p)) → PKT_BUFFER_LEN < ph_caplen p + 4 →
  send_packet setting tasks datalink sendpacket p s = Fault OutOfBounds.
Proof.
  intros Hb Hp Hl. unfold send_packet, on_buffer, on_sending, mbind, cmd_bind, zoom.
  by rewrite fill_buffer_overflow by lia.
Qed.
End bad_packets.

(** An Ethernet frame that ends with its IP header *)
Definition ip_only (fl : filler) (tags : list Z) (srcip dstip protocol : Z) : list Z :=
  (fl_pre fl ++ fl_mac fl) ++ vlan_hdrs tags ++ [8; 0] ++ fl_ip fl ++ [protocol] ++ fl_sum fl ++ be32 srcip ++ be32 dstip.
Lemma mem32_be x : mem32 x = be16 (ntohs (u16 x)) ++ be16 (ntohs (u16 (Z.shiftr x 16))).
Proof.
  assert (∀ y, in_u 16 y → mem16 y = be16 (ntohs y)) as E; [|unfold mem32; by rewrite !E by (by apply wrap_in_u)].
  intros y [H0 H1]. unfold mem16, be16. change (2 ^ 16) with 65536 in H1.
  assert (y = u8 y + Z.shiftl (u8 (Z.shiftr y 8)) 8) as Ey.
  { rewrite Z.shiftr_div_pow2, Z.shiftl_mul_pow2 by lia. unfold wrap. change (2 ^ 8) with 256.
    rewrite (Z.mod_small (y / 256)) by (split; [apply Z.div_pos; lia|apply Z.div_lt_upper_bound; lia]).
    pose proof (Z.div_mod y 256 ltac:(lia)). lia. }
  rewrite Ey at 3 4. pose proof (wrap_in_u 8 y ltac:(lia)) as Hlo. pose proof (wrap_in_u 8 (Z.shiftr y 8) ltac:(lia)) as Hhi.
  rewrite ntohs_bytes by done. unfold in_u in *. change (2 ^ 8) with 256 in *.
  f_equal; [|f_equal]; [apply (Z.div_unique _ _ _ (u8 (Z.shiftr y 8))); lia|apply (Z.mod_unique _ _ (u8 y)); lia].
Qed.

(** C26. A packet without its TCP header is taken for one.  If a packet ends with
    its IP header, the handler reads the ports out of the length that has been
    written after it, and the sequence number out of what the packets before it
    have left in the buffer, without a look at the captured length. *)
Theorem cut_off_packet_misread datalink fl tags srcip dstip protocol len old sid rest :
  let f := Flow srcip dstip (ntohs (u16 len)) (ntohs (u16 (Z.shiftr len 16))) protocol in
  let b := ip_only fl tags srcip dstip protocol in
  drop (length b + 4) old = be32 sid ++ rest → Z.of_nat (length b) + 4 <= Z.of_nat (length old) < 2 ^ 32 →
  frame_ok datalink (Filler (fl_pre fl) (fl_mac fl) (fl_ip fl) (fl_sum fl) rest) tags f sid →
  (fill_buffer (PcapPkt (Z.of_nat (length b)) len b);; parse_ipv4 datalink) old
  = Ok (Some (f, sid), b ++ mem32 len ++ be32 sid ++ rest).
Proof.
  intros f b Eold Hl Hok. apply wp_exact. wp_step. apply wp_fill_buffer; [lia..|].
  unfold filled. rewrite Eold.
  assert (b ++ mem32 len ++ be32 sid ++ rest
    = frame (Filler (fl_pre fl) (fl_mac fl) (fl_ip fl) (fl_sum fl) rest) tags f sid) as ->.
  { rewrite mem32_be. unfold b, ip_only, frame, eth_frame, ip_part.
    cbn [fl_pre fl_mac fl_ip fl_sum fl_rest f f_protocol f_srcip f_dstip f_src_port f_dst_port]. by rewrite <- !app_assoc. }
  unfold wp. by rewrite parse_ipv4_frame.
Qed.

(** ** Witnesses *)
Definition demo_trace : list (flow_s * (Z * Z)) := [(demo_packet_flow, (1, 1058)); (demo_packet_flow, (2, 98))].
Lemma demo_trace_ok : Forall (op_ok 1) (send_of <$> ((λ x, (gen_filler, [0], x)) <$> demo_trace)).
Proof.
  assert (flow_ok demo_packet_flow) as Hf by (unfold flow_ok, byte, in_u; simpl; lia).
  cbn [demo_trace fmap list_fmap send_of]. rewrite !Forall_cons. split_and!; [| |constructor];
    (split; [by apply gen_frame_ok|]; split; [done|]; rewrite gen_frame_length; by unfold PKT_BUFFER_LEN; lia).
Qed.
(** Two packets of a generated file, and a limit of one *)
Lemma replay_sends_witness :
  ∃ (t0 t : testbed vi_handle vf_handle fx_handle) P m,
    at_sender (send_packets demo_setting demo_tasks 1 takes_all 1 (λ _, false) 0 (pcap_of <$> demo_trace)) t0 = Ok (tt, t) ∧
    pkts_sent (tb_sending t) = 1 ∧ bytes_sent (tb_sending t) = 62 ∧ abort (tb_sending t) = true ∧ length (tb_wire t) = 1%nat ∧
    wrep 10 [] P (tb_dw t) m ∧ m_vi m (Buf flow_volume_map (m_idx m)) demo_flow = Some 1058.
Proof.
  destruct (replay_sends (VI:=vi_handle) (VF:=vf_handle) (FX:=fx_handle) demo_setting 10 demo_tasks 1
    demo_bucket_size ltac:(done) (λ _, true) (λ _, true) ltac:(done) ltac:(done) takes_all demo_tasks_switches 1
    ltac:(done) (λ _, false) 1 [49; 49] ∅ ((λ x, (gen_filler, [0], x)) <$> demo_trace))
    as (t0 & t1 & t & n & pkts & P & m & _ & E & [S1 S2 S3] & _ & _ & Hc & Ew & Ep & Eb & Ea & R & Hk);
    [done|exact demo_trace_ok|done|].
  rewrite <- generated_file in E. change (length _) with 2%nat in S1, S3.
  assert (n = 1%nat) as ->.
  { destruct n as [|[|n]]; [destruct S3 as [|[]]; [lia|done|lia]|done|]. destruct (S2 1%nat ltac:(lia)) as [_ Hlt].
    specialize (Hlt ltac:(lia)). lia. }
  exists t0, t, P, m. split; [exact E|]. destruct (Hk demo_flow) as [Hv _]. rewrite Ep, Eb, Ea, Hv.
  split_and!; try done. rewrite Ew. apply Forall2_cons_inv_l in Hc as (pkt & pkts' & _ & Hc & ->).
  apply Forall2_nil_inv_l in Hc as ->. cbn [foldl]. unfold put_step, takes_all. by rewrite bool_decide_true by lia.
Defined.

Lemma oversized_packet_overflows_witness :
  let s : replay_state vi_handle vf_handle fx_handle := Replay (dw_zero []) not_sending [] in
  let p := PcapPkt 14998 14998 (replicate (Z.to_nat 14998) 0) in
  send_packet demo_setting demo_tasks 1 takes_all p s = Fault OutOfBounds.
Proof.
  apply oversized_packet_overflows; cbn [rp_sending ph_caplen ph_data].
  - apply not_sending_ok.
  - rewrite length_replicate, Z2Nat.id by lia. lia.
  - unfold PKT_BUFFER_LEN. lia.
Defined.

(** The sequence number 7 is one a packet before has left. *)
Lemma cut_off_packet_misread_witness :
  let b := ip_only tcp_filler [0] 167772161 184549377 6 in
  ∃ b', (fill_buffer (PcapPkt (Z.of_nat (length b)) 1500 b);; parse_ipv4 1) (frame tcp_filler [0] demo_packet_flow 7)
  = Ok (Some (Flow 167772161 184549377 56325 0 6, 7), b').
Proof.
  intros b. eexists.
  apply (cut_off_packet_misread 1 tcp_filler [0] 167772161 184549377 6 1500 _ 7 [0; 0; 0; 0; 80; 16]); [reflexivity|done|].
  destruct (tcp_frame_ok 7) as [[H1 _ H3 H4] _]; [done|]. split; [done| |done|exact H4].
  unfold flow_ok. apply (bool_decide_unpack _). by vm_compute.
Defined.
