(* ===== verification/SystemSteps.v ===== *)
(** * The system follows its accounts

    The invariant of the running system, that every step keeps it, and that it
    holds from the start on. *)
From stdpp Require Import strings.
From S2P Require Import Prelude CMonad CFloat ChainedTable ChainSpec TableSpec Listing FixSizeTable FixSizeSpec FixSizeIface.
From S2P Require Import Flow PktListTable PktListSpec PktListProps ObjStore Settings SettingsFile SettingsProps Sample FlowTables.
From S2P Require Import Warehouse WarehouseSpec WarehouseIter WarehouseRecords WarehouseProps Config Bytes VlanTag CText TaskManager TaskProps SendPacket FrameSpec.
From S2P Require Import SendProps SendPackets SendPacketsSpec ConditionSender ConditionSpec ConditionWire ConditionProps IntervalRotator RotatorSpec RotatorProps.
From S2P Require Import Fifo Receiver FlowInforUpdator Testbed TestbedSpec LossSpec TestbedProps LossProps System SystemSpec WireSpec.

(** ** The steps *)
Section steps.
Context {K VI VF FX : Type} `{KeyLaws K}.
Context `{!FlowTable K Z Z VI} `{!FlowTableLaws K Z Z VI} `{!IntTable K VI}.
Context `{!FlowTable K c_float c_float VF} `{!FlowTableLaws K c_float c_float VF}.
Context `{!FixedTable K FX} `{!FixedTableLaws K FX} `{!PacketFlow K} `{!FlowCondition K}.
Context (setting : cm_experiment_setting_t) (fsize : Z) (tasks : K → option task_t) (datalink net_identity : Z).
Context (fifo_handler : text) (intf1 : bool) (sendpacket : list raw_packet → raw_packet → Z) (fuel : nat).
Context (fsize_ok : int_of_float (fix_loss_map_bucket_size (sender_setting setting)) = Some fsize) (fsize_pos : 0 < fsize).
Context (switches_ok : ∀ k t, tasks k = Some t → Forall (λ id, 1 <= id <= 12) (monitor_switch_ids t)).
Context (task_respects : ∀ k k', key_compare k k' = 0 → tasks k = tasks k').
(** The loops of the threads have fuel for as many flows as an [int] counts. *)
Context (enough_fuel : 2 ^ 31 <= Z.of_nat fuel).
Implicit Types (m : wmodel K) (a : accounts K) (v : intervals K) (t : testbed VI VF FX) (s : system K VI VF FX).
Implicit Types (Q : unit → system K VI VF FX → Prop).

Local Abbreviation follows := (tb_inv (VI:=VI) (VF:=VF) (FX:=FX) setting fsize fifo_handler).
Local Abbreviation step := (interval_step (K:=K) net_identity fifo_handler).
Local Abbreviation sys := (do_sys setting tasks datalink net_identity fifo_handler intf1 sendpacket fuel).

(** What the file says of the intervals that have ended *)
Definition tells (file0 file : list (report_line K)) (past : list (list (update K))) : Prop :=
  ∃ chunks, file = file0 ++ mjoin chunks ∧
    Forall2 (λ us lines, lines_follow setting tasks us lines) past chunks.
Lemma tells_none file0 : tells file0 file0 [].
Proof. exists []. split; [by rewrite app_nil_r|constructor]. Qed.
Lemma tells_snoc file0 file past us lines :
  tells file0 file past → lines_follow setting tasks us lines → tells file0 (file ++ lines) (past ++ [us]).
Proof.
  intros (chunks & -> & Hc) Hl. exists (chunks ++ [lines]). split; [|by apply Forall2_app; [|constructor]].
  assert (mjoin (chunks ++ [lines]) = mjoin chunks ++ lines) as ->; [|by rewrite app_assoc].
  clear. induction chunks as [|c cs IH]; [apply app_nil_r|]. simpl. by rewrite IH, app_assoc.
Qed.

(** The packets on the wire are those of the events [h]; the conditions that
    came after [ofs0] tell the levels [L]. *)
Definition wire_tells (h : list sys_op) (ofs0 : list (offer K)) (w : list raw_packet) (L : kmap K Z) : Prop :=
  ∃ ofs, w = offered intf1 sendpacket [] (ofs0 ++ ofs) ∧ Forall2 (carried tasks) (sends h) (packets_of_offers (ofs0 ++ ofs)) ∧
    apply_conditions kempty (conditions_of ofs) ≡ L.
Lemma wire_tells_none : wire_tells [] [] [] kempty.
Proof. exists []. by split; [|split; [constructor|]]. Qed.
Lemma wire_tells_same h o ofs0 w L : sends [o] = [] → wire_tells h ofs0 w L → wire_tells (h ++ [o]) ofs0 w L.
Proof. intros E (ofs & Ew & Hs & HL). exists ofs. by rewrite sends_app, E, app_nil_r. Qed.
Lemma wire_tells_send h ofs0 w L fl tags f sid len pkt :
  sent_as tasks fl tags f sid len pkt → wire_tells h ofs0 w L →
  wire_tells (h ++ [STestbed (TSend fl tags f sid len)]) ofs0 (put_step sendpacket w pkt) L.
Proof.
  intros Hp (ofs & -> & Hs & HL). exists (ofs ++ [OPacket pkt]). rewrite app_assoc.
  split; [by rewrite (offered_app _ _ [] (ofs0 ++ ofs))|].
  rewrite sends_app, packets_of_app, conditions_of_app. split; [|by rewrite app_nil_r].
  apply Forall2_app; [done|]. by constructor.
Qed.
Lemma wire_tells_turn h o ofs0 w cs (L L' : kmap K Z) :
  sends [o] = [] → wire_tells h ofs0 w L → apply_conditions L cs ≡ L' →
  wire_tells (h ++ [o]) ofs0 (wire_after intf1 sendpacket w cs) L'.
Proof.
  intros Eo (ofs & -> & Hs & E) E'. exists (ofs ++ (OCondition <$> cs)). rewrite app_assoc.
  split; [by rewrite (offered_app _ _ [] (ofs0 ++ ofs)), offered_conditions|].
  rewrite sends_app, Eo, packets_of_app, packets_of_conditions, !app_nil_r. split; [done|].
  rewrite conditions_of_app, conditions_of_conditions.
  rewrite apply_conditions_app. etrans; [|exact E']. by apply apply_conditions_proper.
Qed.
Lemma wire_tells_restart h o ofs0 w L : sends [o] = [] → wire_tells h ofs0 w L →
  ∃ ofs1, w = offered intf1 sendpacket [] ofs1 ∧ wire_tells (h ++ [o]) ofs1 w kempty.
Proof.
  intros Eo (ofs & -> & Hs & _). exists (ofs0 ++ ofs). split; [done|]. exists [].
  by rewrite app_nil_r, sends_app, Eo, app_nil_r.
Qed.

(** The system follows the accounts of the events [h]; [ofs0] had been offered
    to the interface by the last rotation. *)
Record sys_inv (file0 : list (report_line K)) (h : list sys_op) (ofs0 : list (offer K)) v s : Prop := {
  si_testbed : ∃ L, fuel_for (S (length (updates (iv_now v)))) L ∧ levels_of L ∧ wire_tells h ofs0 (sy_wire s) L ∧
    follows L (iv_now v) (sy_testbed s);
  si_sized : well_sized (iv_now v);
  si_file : tells file0 (sy_file s) (iv_past v)
}.

Lemma updates_fuel v s file0 h ofs0 : sys_inv file0 h ofs0 v s → in_range v → (S (length (updates (iv_now v))) <= fuel)%nat.
Proof. intros Hs [Hr _]. destruct (si_sized _ _ _ _ _ Hs) as [_ Hu]. lia. Qed.

Lemma fuel_for_grows (L : kmap K Z) (us us' : list (update K)) :
  (length us <= length us')%nat → fuel_for (S (length us)) L → fuel_for (S (length us')) L.
Proof. intros Hl. apply fuel_for_mono. lia. Qed.

Lemma sys_step_testbed file0 h ofs0 o v s Q :
  sys_inv file0 h ofs0 v s → op_ok datalink o → in_range v → in_range (step (STestbed o) v) →
  (∀ s', sys_inv file0 (h ++ [STestbed o]) ofs0 (step (STestbed o) v) s' → Q tt s') → wp (sys (STestbed o)) Q s.
Proof.
  intros Hs Ho Hr [Hr' _] HQ. pose proof Hs as [(L & HL & HLl & Hw & Ht) Hz Hf]. cbn [do_sys]. unfold on_testbed. apply wp_zoom.
  cbn [step iv_now iv_past interval_step] in Hr', HQ. unfold sy_wire in Hw.
  assert (∀ t', follows L (account_op net_identity fifo_handler o (iv_now v)) t' →
    wire_tells (h ++ [STestbed o]) ofs0 (tb_wire t') L → Q tt (System t' (sy_file s))) as HQ'.
  { intros t' Ht' Hw'. apply HQ. split; cbn [iv_now iv_past sy_testbed sy_file]; [|by eapply well_sized_op|done].
    exists L. split; [eapply fuel_for_grows, HL; apply updates_grow|]. split; [exact HLl|]. split; [exact Hw'|exact Ht']. }
  assert (∀ t', follows L (account_op net_identity fifo_handler o (iv_now v)) t' → tb_wire t' = tb_wire (sy_testbed s) →
    sends [STestbed o] = [] → Q tt (System t' (sy_file s))) as Hkept.
  { intros t' Ht' Ew Eo. apply HQ'; [exact Ht'|]. rewrite Ew. by apply wire_tells_same. }
  destruct o as [fl tags f sid len|fl tags f sid|].
  - eapply (step_send_packet setting fsize tasks datalink net_identity fifo_handler sendpacket switches_ok L);
      [exact Ht|exact Ho|exact Hr'|]. intros t' pkt Ht' Hp Ew _. apply HQ'; [exact Ht'|]. rewrite Ew. by apply wire_tells_send.
  - eapply (step_receive setting fsize tasks datalink net_identity fifo_handler sendpacket L); [exact Ht|exact Ho|].
    intros t' Ht' Ew. by apply Hkept.
  - eapply (step_report setting fsize tasks datalink net_identity fifo_handler sendpacket L);
      [exact Ht|apply Hz|apply Hr|exact Hr'|]. intros t' Ht' Ew. by apply Hkept.
Qed.

(** The end of an interval: its line in the file, and a fresh warehouse *)
Lemma sys_step_rotate file0 h ofs0 msec v s Q :
  sys_inv file0 h ofs0 v s → in_range v →
  (∀ s' ofs1, sys_inv file0 (h ++ [SRotate msec]) ofs1 (step (SRotate msec) v) s' →
     sy_wire s' = offered intf1 sendpacket [] ofs1 → Q tt s') → wp (sys (SRotate msec)) Q s.
Proof.
  intros Hs Hr HQ. pose proof (updates_fuel v s file0 h ofs0 Hs Hr) as Hfuel. pose proof Hs as [(L & HL & HLl & Hw & Ht) Hz Hf].
  destruct Ht as [(P & m & st & pm & R & Hlv & Rec & El & Hv & Hp & [EL Rest]) Hk Hq Hbuf].
  pose proof (wr_idx_ok _ _ _ _ _ R) as Hi.
  assert (records setting fsize (past (spec_rotate m)) (updates (iv_now v)) (spec_rotate m)) as Rec'.
  { unfold past. cbn [spec_rotate m_set_idx m_idx]. rewrite other_other by done. by apply records_set_idx. }
  cbn [do_sys]. unfold at_rotator. apply wp_zoom.
  eapply (wp_rotate_turn setting fsize tasks fsize_ok fsize_pos fuel (S (length (updates (iv_now v)))));
    [exact R|by apply (records_few setting fsize tasks)|done|destruct Hr, Hz; lia|].
  intros P' d' lines R' Hl. cbn [rs_dw rs_file].
  destruct (wire_tells_restart h (SRotate msec) ofs0 _ L eq_refl Hw) as (ofs1 & Ew & Hw'). apply (HQ _ ofs1); [|exact Ew].
  destruct (fresh_rotated setting fsize m Hi Rest) as (Hi' & Ra & Ro).
  split; cbn [sy_testbed sy_file iv_now iv_past step interval_step end_interval updates].
  - exists kempty. split; [exact (fuel_for_lists kempty [] lists_empty)|]. split; [intros k; apply list_elem_of_here|].
    split; [exact Hw'|].
    split; cbn [set_dw tb_dw tb_kernel tb_handlers tb_sending in_flight queued updates]; [|done|done|exact Hbuf].
    exists P', (spec_reset (spec_rotate m)), st, pm. split_and!; try done. intros k i. cbn [spec_reset m_vi].
    case_decide; [by left|apply Hlv].
  - by split; [apply Hz|].
  - eapply tells_snoc; [done|]. by eapply (reported_lines_follow setting fsize tasks task_respects); [exact Rec'|apply Hr|exact Hl].
Qed.

(** A turn of the condition sender tells the levels of now. *)
Definition levels_told us (sw : kmap K Z) : Prop := ∃ vl, seen_of setting us vl ∧
  ∀ k, sw k = if decide (0 < (vl k).1) then flow_level setting (vl k).1 (vl k).2 (int_ratio (vl k).2 (vl k).1) else None.

Lemma records_levels us m :
  records setting fsize (m_idx m) us m → total us < 2 ^ 31 → levels_told us (m_vi m (sel_owner m)).
Proof.
  intros R Hb. exists (λ k, ((tally k us).1, loss_seen setting fsize (m_idx m) (tally k us).2 k m)). split.
  - intros k. cbn [fst snd]. split; [done|]. split; [by apply (loss_seen_bounds _ _ _ _ _ k R)|].
    intros Hinf. rewrite loss_seen_exact by done. by destruct (tally k us).
  - intros k. cbn [fst snd]. pose proof (rc_flow _ _ _ _ _ R k) as Rk. unfold sel_owner. destruct (tally k us). apply Rk.
Qed.
Lemma levels_told_equiv us (sw sw' : kmap K Z) : sw ≡ sw' → levels_told us sw' → levels_told us sw.
Proof. intros E (vl & Hs & Hl). exists vl. split; [exact Hs|]. intros k. by rewrite (E k). Qed.

Lemma sys_step_condition file0 h ofs0 v s Q :
  sys_inv file0 h ofs0 v s → in_range v →
  (∀ s', sys_inv file0 (h ++ [SCondition]) ofs0 v s' →
     (∃ ofs, sy_wire s' = offered intf1 sendpacket (offered intf1 sendpacket [] ofs0) ofs ∧
        levels_told (updates (iv_now v)) (apply_conditions kempty (conditions_of ofs))) → Q tt s') →
  wp (sys SCondition) Q s.
Proof.
  intros Hs Hr HQ. pose proof (updates_fuel v s file0 h ofs0 Hs Hr) as Hfuel. pose proof Hs as [(L & HL & HLl & Hw & Ht) Hz Hf].
  destruct Ht as [(P & m & st & pm & R & Hlv & Rec & El & Hv & Hp & [EL Rest]) Hk Hq Hbuf].
  pose proof (wr_idx_ok _ _ _ _ _ R) as Hi.
  assert (fuel_for (S (length (updates (iv_now v)))) (m_vi m (sel_owner m))) as Hsel.
  { destruct (records_few setting fsize tasks (updates (iv_now v)) (spec_rotate m)) as [Hf' _].
    - unfold past. cbn [spec_rotate m_set_idx m_idx]. rewrite other_other by done. by apply records_set_idx.
    - unfold past in Hf'. cbn [spec_rotate m_set_idx m_idx m_vi] in Hf'. by rewrite other_other in Hf'. }
  assert (levels_known m) as Hknown by (split; [by intros k; apply Hlv|by rewrite EL]).
  cbn [do_sys]. unfold at_condition_sender. wp_step. apply wp_zoom.
  eapply wp_send_conditions; [exact R|apply Hknown|by eapply fuel_for_mono|by rewrite EL; eapply fuel_for_mono|].
  intros P' d' cs Hcs R'. wp_steps. cbn [cs_dw cs_wire].
  destruct (turn_of_facts fsize P _ m [] cs R Hknown Hcs) as (Hsync & _). rewrite EL in Hsync.
  assert (wire_tells (h ++ [SCondition]) ofs0 (wire_after intf1 sendpacket (sy_wire s) cs) (m_vi m (sel_owner m))) as Hw'
    by (by eapply wire_tells_turn).
  apply HQ.
  2:{ destruct Hw' as (ofs & E & _ & E'). exists ofs. rewrite offered_app in E. split; [exact E|]. eapply levels_told_equiv; [exact E'|].
    by apply records_levels; [|apply Hr]. }
  destruct (count_conditions_same cs m) as (E1 & E2 & E3 & E4 & E5 & _ & E7).
  assert (∀ f i, m_vi (spec_turn cs m) (Buf f i) = m_vi m (Buf f i)) as Ebuf.
  { intros f i. cbn [spec_turn m_set_vi m_vi]. by rewrite decide_False, E1. }
  assert (∀ j us, records setting fsize j us m → records setting fsize j us (spec_turn cs m)) as Hrec.
  { intros j us. apply records_same. split; [done|..]; cbn [spec_turn m_set_vi m_vf m_fx m_coll]; congruence. }
  split; cbn [sy_testbed sy_file sy_wire]; [|done|done].
  exists (m_vi m (sel_owner m)). split; [done|]. split; [apply Hknown|]. split; [exact Hw'|].
  split; cbn [set_dw tb_dw tb_kernel tb_handlers tb_sending]; [|done|done|exact Hbuf].
  exists P', (spec_turn cs m), st, pm. split; [exact R'|]. split; [by intros k i; rewrite Ebuf|].
  assert (m_idx (spec_turn cs m) = m_idx m) as Ei by exact E5.
  rewrite Ei. split; [by apply Hrec|].
  split; [cbn [spec_turn m_set_vi m_list]; by rewrite E7|]. split_and!; [done|done|].
  split; [|rewrite Ei; by apply Hrec]. cbn [spec_turn m_set_vi m_vi]. by rewrite decide_True.
Qed.

(** Any run *)
Local Abbreviation syss os := (do_syss setting tasks datalink net_identity fifo_handler intf1 sendpacket fuel os).
Lemma run_syss file0 os : ∀ h ofs0 v s,
  sys_inv file0 h ofs0 v s → Forall (sys_op_ok datalink) os → always_in_range net_identity fifo_handler os v →
  wp (syss os) (λ _ s', ∃ ofs1, sys_inv file0 (h ++ os) ofs1 (interval_steps net_identity fifo_handler os v) s' ∧
       (Forall (λ o, ¬ is_rotation o) os → ofs1 = ofs0)) s.
Proof.
  induction os as [|o os IH]; intros h ofs0 v s Hs Hos Hr; cbn [do_syss]; [apply wp_ret; exists ofs0; by rewrite app_nil_r|].
  apply Forall_cons in Hos as [Ho Hos]. pose proof (always_in_range_now _ _ _ _ Hr) as Hnow.
  apply always_in_range_step in Hr. pose proof (always_in_range_now _ _ _ _ Hr) as Hnext. rewrite cons_middle, app_assoc.
  assert (∀ s' ofs, sys_inv file0 (h ++ [o]) ofs (step o v) s' → (¬ is_rotation o → ofs = ofs0) →
    wp (syss os) (λ _ s', ∃ ofs1, sys_inv file0 ((h ++ [o]) ++ os) ofs1 (interval_steps net_identity fifo_handler (o :: os) v) s' ∧
       (Forall (λ o, ¬ is_rotation o) (o :: os) → ofs1 = ofs0)) s') as Hrest.
  { intros s' ofs Hs' Eo. eapply wp_mono; [by apply IH|]. intros _ s'' (ofs1 & Hs'' & Ew). exists ofs1. split; [done|].
    intros [Hn Hns]%Forall_cons. rewrite Ew by done. by apply Eo. }
  wp_step. destruct o as [o|msec|].
  - eapply sys_step_testbed; [exact Hs|exact Ho|exact Hnow|exact Hnext|]. intros s' Hs'. by apply (Hrest s' ofs0).
  - eapply sys_step_rotate; [exact Hs|exact Hnow|]. intros s' ofs1 Hs' _. apply (Hrest s' ofs1 Hs'). by intros [].
  - eapply sys_step_condition; [exact Hs|exact Hnow|]. intros s' Hs' _. by apply (Hrest s' ofs0).
Qed.

Lemma wp_syss_app os os' s Q :
  wp (do_syss setting tasks datalink net_identity fifo_handler intf1 sendpacket fuel os)
    (λ _ s', wp (do_syss setting tasks datalink net_identity fifo_handler intf1 sendpacket fuel os') Q s') s →
  wp (do_syss setting tasks datalink net_identity fifo_handler intf1 sendpacket fuel (os ++ os')) Q s.
Proof.
  revert s. induction os as [|o os IH]; intros s Hw; [exact Hw|]. cbn [app do_syss] in *.
  unfold wp, mbind, cmd_bind in Hw |- *. destruct (do_sys _ _ _ _ _ _ _ _ o s) as [[[] s']|]; [by apply IH|done].
Qed.

(** At the start of an interval *)
Definition at_interval_start (os : list sys_op) : Prop := os = [] ∨ ∃ os' msec, os = os' ++ [SRotate msec].
Lemma run_to_rotation file0 os v s :
  at_interval_start os → sys_inv file0 [] [] v s → sy_wire s = [] → Forall (sys_op_ok datalink) os →
  always_in_range net_identity fifo_handler os v →
  wp (syss os) (λ _ s', ∃ ofs0, sys_inv file0 os ofs0 (interval_steps net_identity fifo_handler os v) s' ∧
     sy_wire s' = offered intf1 sendpacket [] ofs0) s.
Proof.
  intros [->|(os' & msec & ->)] Hs Hw Hos Hr; [apply wp_ret; by exists []|].
  apply Forall_app in Hos as [Hos _]. apply wp_syss_app.
  assert (always_in_range net_identity fifo_handler os' v) as Hr'
    by (intros os1 os2 ->; apply (Hr os1 (os2 ++ [SRotate msec])); by rewrite app_assoc).
  eapply wp_mono; [by apply (run_syss file0)|]. intros _ s' (ofs1 & Hs' & _). cbn [do_syss]. wp_step.
  eapply sys_step_rotate; [exact Hs'|by apply (Hr os' [SRotate msec])|]. intros s'' ofs2 Hs'' Ew. apply wp_ret.
  exists ofs2. split; [|exact Ew]. unfold interval_steps. rewrite foldl_app. exact Hs''.
Qed.

(** What the invariant says at the end *)
Lemma sys_inv_records file0 h ofs0 v s : sys_inv file0 h ofs0 v s → ∃ P m,
  wrep fsize [] P (tb_dw (sy_testbed s)) m ∧ records setting fsize (m_idx m) (updates (iv_now v)) m.
Proof. intros [(L & _ & _ & _ & [(P & m & st & pm & R & _ & Rec & _) _ _ _]) _ _]. by exists P, m. Qed.
(** The packets on the wire *)
Lemma sys_inv_wire file0 h ofs0 v s : sys_inv file0 h ofs0 v s → ∃ ofs,
  sy_wire s = offered intf1 sendpacket [] ofs ∧ Forall2 (carried tasks) (sends h) (packets_of_offers ofs).
Proof. intros [(L & _ & _ & (ofs & Ew & Hs & _) & _) _ _]. by exists (ofs0 ++ ofs). Qed.
End steps.

(** ** From the start *)
Section started.
Context {K VI VF FX : Type} `{KeyLaws K}.
Context `{!FlowTable K Z Z VI} `{!FlowTableLaws K Z Z VI} `{!IntTable K VI}.
Context `{!FlowTable K c_float c_float VF} `{!FlowTableLaws K c_float c_float VF}.
Context `{!FixedTable K FX} `{!FixedTableLaws K FX} `{!PacketFlow K} `{!FlowCondition K}.
Context (settings_file task_file : option text) (mem : nat → bool) (time : Z) (ip_prefix_str : text) (columns : list string).
Context (setting : cm_experiment_setting_t) (fsize : Z) (ts : task_manager_t) (tasks : K → option task_t).
Context (datalink i : Z) (intf1 : bool) (sendpacket : list raw_packet → raw_packet → Z) (fuel : nat).
Context (mkfifo_ok open_ok : text → bool) (mkfifo_works : ∀ name, mkfifo_ok name = true)
  (open_works : ∀ name, open_ok name = true).
Context (settings_given : init_cm_experiment_setting settings_file mem zero_setting = Ok (0, setting)).
Context (tasks_given : init_tasks_info (Some (host_dev i)) task_file = Ok (0, ts)).
Context (a_host : 1 <= i <= NUM_SENDERS).
Context (fsize_ok : int_of_float (fix_loss_map_bucket_size (sender_setting setting)) = Some fsize) (fsize_pos : 0 < fsize).
Context (switches_ok : ∀ k t, tasks k = Some t → Forall (λ id, 1 <= id <= 12) (monitor_switch_ids t)).
Context (task_respects : ∀ k k', key_compare k k' = 0 → tasks k = tasks k').
Context (enough_fuel : 2 ^ 31 <= Z.of_nat fuel).
Implicit Types (s : system K VI VF FX).

Local Abbreviation net := (u32 (strtol_int ip_prefix_str)).
Local Abbreviation fifo := (get_sender_fifo_fname i 100).
Local Abbreviation inv := (sys_inv (VI:=VI) (VF:=VF) (FX:=FX) setting fsize tasks fifo intf1 sendpacket [RHeader columns]).

Lemma wp_boot_system (k0 : kernel) :
  wp (boot_system settings_file task_file (Some (host_dev i)) mem time mkfifo_ok open_ok ip_prefix_str columns)
    (λ r s, r = Some (Sender setting ts (starts_condition_sender setting), net, fifo) ∧ inv [] [] no_intervals s ∧ sy_wire s = [])
    (system_off (K:=K) (VI:=VI) (VF:=VF) (FX:=FX) k0).
Proof.
  unfold boot_system, start_sender. rewrite settings_given, tasks_given. unfold on_testbed, at_updator, on_udw.
  assert (init_target_flow_file (K:=K) columns (Some (host_dev i)) true = Ok (Some [RHeader columns])) as Efile.
  { revert tasks_given. unfold init_tasks_info, init_target_flow_file.
    destruct (get_mininet_host_name _) as [[name|]|]; done. }
  wp_step. rewrite decide_False by (intros []; done). unfold set_rand. wp_steps.
  cbn [system_off powered_off sy_testbed sy_file sy_wire us_dw us_kernel total_lost_pkt_num tb_dw tb_lost tb_kernel tb_handlers tb_pkts tb_conditions].
  eapply wp_mono; [by apply (init_seeded setting fsize fsize_ok fsize_pos (srand48_r time))|]. intros r d [-> [P R]]. rewrite decide_False by (intros []; done).
  cbn [negb]. cbn [us_dw us_kernel total_lost_pkt_num tb_dw tb_lost tb_kernel tb_handlers tb_pkts tb_conditions].
  assert (∀ b : bool, (if b then mret (Some (Sender setting ts true)) else mret (Some (Sender setting ts false))) =
    (mret (Some (Sender setting ts b)) : cmd (system K VI VF FX) _)) as Eb by (by intros []).
  rewrite Eb. wp_steps. cbn [sy_testbed].
  eapply wp_mono; [eapply (wp_boot_network setting fsize tasks fsize_ok fsize_pos mkfifo_ok open_ok
    mkfifo_works open_works i _ ip_prefix_str d P); [done|exact R|done|exact not_sending_ok]|]. intros n t (-> & Ht & Ew & _). rewrite Efile. wp_steps.
  split; [done|]. cbn [tb_wire] in Ew. split; [|exact Ew]. split; cbn [sy_testbed sy_file sy_wire no_intervals iv_now iv_past].
  - exists kempty. split; [exact (fuel_for_lists kempty [] lists_empty)|]. split; [intros k; apply list_elem_of_here|].
    unfold sy_wire. cbn [sy_testbed]. rewrite Ew. split; [apply wire_tells_none|exact Ht].
  - apply well_sized_none.
  - apply tells_none.
Qed.

(** A run from the start, and a part of it within an interval *)
Local Abbreviation run os := (do_syss setting tasks datalink net fifo intf1 sendpacket fuel os).
Lemma booted_system (k0 : kernel) (os : list sys_op) :
  Forall (sys_op_ok datalink) os → always_in_range (K:=K) net fifo os no_intervals →
  ∃ s0 s ofs1,
    boot_system settings_file task_file (Some (host_dev i)) mem time mkfifo_ok open_ok ip_prefix_str columns
      (system_off (K:=K) (VI:=VI) (VF:=VF) (FX:=FX) k0)
    = Ok (Some (Sender setting ts (starts_condition_sender setting), net, fifo), s0) ∧
    run os s0 = Ok (tt, s) ∧
    inv os ofs1 (interval_steps net fifo os no_intervals) s.
Proof.
  intros Hos Hr. pose proof (wp_boot_system k0) as Hb. apply wp_run in Hb as (r & s0 & Eb & -> & Hi & _).
  pose proof (run_syss setting fsize tasks datalink net fifo intf1 sendpacket fuel fsize_ok fsize_pos
    switches_ok task_respects enough_fuel [RHeader columns] os [] [] no_intervals s0 Hi Hos Hr) as Hrun.
  apply wp_run in Hrun as ([] & s & Er & ofs1 & Hs & _). by exists s0, s, ofs1.
Qed.

(** The conditions of the current interval *)
Lemma booted_conditions (k0 : kernel) (os seg : list sys_op) :
  at_interval_start os → Forall (λ o, ¬ is_rotation o) seg →
  Forall (sys_op_ok datalink) (os ++ seg) → always_in_range (K:=K) net fifo (os ++ seg) no_intervals →
  let v := interval_steps (K:=K) net fifo (os ++ seg) no_intervals in
  ∃ (s0 s1 s : system K VI VF FX) ofs,
    boot_system settings_file task_file (Some (host_dev i)) mem time mkfifo_ok open_ok ip_prefix_str columns
      (system_off (K:=K) (VI:=VI) (VF:=VF) (FX:=FX) k0)
    = Ok (Some (Sender setting ts (starts_condition_sender setting), net, fifo), s0) ∧
    run os s0 = Ok (tt, s1) ∧ run (seg ++ [SCondition]) s1 = Ok (tt, s) ∧
    sy_wire s = offered intf1 sendpacket (sy_wire s1) ofs ∧
    levels_told setting (updates (iv_now v)) (apply_conditions kempty (conditions_of ofs)).
Proof.
  intros Hstart Hseg [Hos Hsegok]%Forall_app Hr v. pose proof (wp_boot_system k0) as Hb.
  apply wp_run in Hb as (r & s0 & Eb & -> & Hi & Ew0).
  assert (always_in_range (K:=K) net fifo os no_intervals) as Hr1
    by (intros os1 os2 ->; apply (Hr os1 (os2 ++ seg)); by rewrite app_assoc).
  assert (always_in_range (K:=K) net fifo seg (interval_steps net fifo os no_intervals)) as Hr2.
  { intros os1 os2 ->. pose proof (Hr (os ++ os1) os2) as Hx. unfold interval_steps in *. rewrite foldl_app in Hx.
    apply Hx. by rewrite app_assoc. }
  pose proof (run_to_rotation setting fsize tasks datalink net fifo intf1 sendpacket fuel fsize_ok fsize_pos
    switches_ok task_respects enough_fuel [RHeader columns] os no_intervals s0 Hstart Hi Ew0 Hos Hr1) as Hrun.
  apply wp_run in Hrun as ([] & s1 & Er & ofs0 & Hs1 & Ew1).
  assert (wp (run (seg ++ [SCondition])) (λ _ s, ∃ ofs, sy_wire s = offered intf1 sendpacket (sy_wire s1) ofs ∧
    levels_told setting (updates (iv_now v)) (apply_conditions kempty (conditions_of ofs))) s1) as Hrun.
  { apply wp_syss_app. eapply wp_mono; [by apply (run_syss setting fsize tasks datalink net fifo intf1 sendpacket fuel
      fsize_ok fsize_pos switches_ok task_respects enough_fuel [RHeader columns] seg os ofs0 _ s1 Hs1)|].
    intros _ s2 (ofs1 & Hs2 & Ew). rewrite (Ew Hseg) in Hs2. cbn [do_syss]. wp_step.
    unfold interval_steps in Hs2. rewrite <- foldl_app in Hs2.
    eapply (sys_step_condition setting fsize tasks datalink net fifo intf1 sendpacket fuel enough_fuel); [exact Hs2| |].
    - apply (Hr (os ++ seg) []). by rewrite app_nil_r.
    - intros s' _ Hcs. apply wp_ret. rewrite Ew1. exact Hcs. }
  apply wp_run in Hrun as ([] & s & Er' & ofs & Ew & Hl). by exists s0, s1, s, ofs.
Qed.
End started.
