(* ===== verification/SystemProps.v ===== *)
(** * Properties of the system

    From the files the program reads to the lines it writes and the packets it
    sends: what the threads do together, in any order of their turns. *)
From stdpp Require Import strings.
From S2P Require Import Prelude CMonad CFloat ChainedTable ChainSpec TableSpec Listing FixSizeTable FixSizeSpec FixSizeIface.
From S2P Require Import Generator GeneratorSpec GeneratorProps.
From S2P Require Import Flow PktListTable PktListSpec PktListProps ObjStore Settings SettingsFile SettingsProps Sample FlowTables.
From S2P Require Import Warehouse WarehouseSpec WarehouseIter WarehouseRecords WarehouseProps Config Bytes VlanTag CText TaskManager TaskProps SendPacket FrameSpec.
From S2P Require Import SendProps SendPackets SendPacketsSpec ConditionSender ConditionSpec ConditionWire ConditionProps IntervalRotator RotatorSpec RotatorProps.
From S2P Require Import Fifo Receiver FlowInforUpdator Testbed TestbedSpec LossSpec TestbedProps LossProps System SystemSpec WireSpec TraceSpec SystemSteps.

(** ** The sender of the FLOW_SRC_DST build *)
(** A flow at the target level reaches the thresholds. *)
Lemma flow_level_target setting v l r : flow_level setting v l r = Some TARGET_LEVEL →
  volume_threshold (target_flow_setting setting) <= v ∧ loss_volume_threshold (target_flow_setting setting) <= l.
Proof.
  unfold flow_level. destruct (bool_decide (v >= _)) eqn:Ev; [|done]. apply bool_decide_eq_true in Ev.
  cbn [andb]. case_match; [|done]. case_decide; [|by case_decide]. lia.
Qed.

Section sender_build.
Context (settings_file task_file : option text) (mem : nat → bool) (time : Z) (ip_prefix_str : text).
Context (setting : cm_experiment_setting_t) (fsize : Z) (ts : task_manager_t) (datalink i : Z).
Context (intf1 : bool) (sendpacket : list raw_packet → raw_packet → Z) (fuel : nat).
Context (mkfifo_ok open_ok : text → bool) (mkfifo_works : ∀ name, mkfifo_ok name = true)
  (open_works : ∀ name, open_ok name = true).
(** The files give settings and tasks that monitor existing switches. *)
Context (settings_given : init_cm_experiment_setting settings_file mem zero_setting = Ok (0, setting)).
Context (fsize_ok : int_of_float (fix_loss_map_bucket_size (sender_setting setting)) = Some fsize) (fsize_pos : 0 < fsize).
Context (tasks_given : init_tasks_info (Some (host_dev i)) task_file = Ok (0, ts)).
Context (monitors_ok : Forall (λ t, Forall (λ id, 1 <= id <= 12) (monitor_switch_ids t)) ts).
Context (a_host : 1 <= i <= NUM_SENDERS) (enough_fuel : 2 ^ 31 <= Z.of_nat fuel).

Local Abbreviation tasks := (get_task_of_traffic ts).
Local Abbreviation net := (u32 (strtol_int ip_prefix_str)).
Local Abbreviation fifo := (get_sender_fifo_fname i 100).
Local Abbreviation sender_system := (system flow_src vi_handle vf_handle fx_handle).
Local Abbreviation boot_it k0 := (boot_system settings_file task_file (Some (host_dev i)) mem time mkfifo_ok open_ok
  ip_prefix_str flow_src_dst_columns (system_off k0)).
Local Abbreviation run os := (do_syss setting tasks datalink net fifo intf1 sendpacket fuel os).
Local Abbreviation started_sender := (Sender setting ts (starts_condition_sender setting)).

Lemma monitors_of_traffic k t : tasks k = Some t → Forall (λ id, 1 <= id <= 12) (monitor_switch_ids t).
Proof. intros Ht%task_in_list. rewrite Forall_forall in monitors_ok. by apply monitors_ok. Qed.

(** A run and what it leaves in the file *)
Lemma sender_run (k0 : kernel) (os : list sys_op) :
  Forall (sys_op_ok datalink) os → always_in_range (K := flow_src) net fifo os no_intervals →
  let v := interval_steps (K := flow_src) net fifo os no_intervals in
  ∃ (s0 s : sender_system) chunks P m,
    boot_it k0 = Ok (Some (started_sender, net, fifo), s0) ∧ run os s0 = Ok (tt, s) ∧
    sy_file s = RHeader flow_src_dst_columns :: mjoin chunks ∧
    Forall2 (λ us lines, lines_follow setting tasks us lines) (iv_past v) chunks ∧
    wrep fsize [] P (tb_dw (sy_testbed s)) m ∧ records setting fsize (m_idx m) (updates (iv_now v)) m.
Proof.
  intros Hos Hr v.
  destruct (booted_system (VI:=vi_handle) (VF:=vf_handle) (FX:=fx_handle) settings_file task_file mem time ip_prefix_str
    flow_src_dst_columns setting fsize ts tasks datalink i intf1 sendpacket fuel mkfifo_ok open_ok mkfifo_works
    open_works settings_given tasks_given a_host fsize_ok fsize_pos monitors_of_traffic
    (get_task_respects ts) enough_fuel k0 os Hos Hr) as (s0 & s & ofs1 & Eb & Er & Hs).
  destruct (sys_inv_records _ _ _ _ _ _ _ _ _ _ _ Hs) as (P & m & R & Rec).
  destruct (si_file _ _ _ _ _ _ _ _ _ _ _ Hs) as (chunks & Ef & Hc). by exists s0, s, chunks, P, m.
Qed.

(** C2. The file of target flows tells what the accounts say, interval by
    interval, in any interleaving of the threads.  The sender is started from
    its files, with a receiver and the FIFOs; then packets are sent, arrive and
    are reported, the interval ends and the condition sender turns, all in any
    order.  As long as the volumes recorded and in flight fit an [int], nothing
    faults, every thread ends its turn, and the file holds the header and then,
    for every interval that has ended, a line for each flow over the thresholds
    that some task is interested in, with the volumes of the updates of that
    interval, and no line for other flows; the warehouse records the updates of
    the current interval. *)
Theorem system_reports (k0 : kernel) (os : list sys_op) :
  Forall (sys_op_ok datalink) os → always_in_range (K := flow_src) net fifo os no_intervals →
  let v := interval_steps (K := flow_src) net fifo os no_intervals in
  ∃ (s0 s : sender_system) chunks P m,
    boot_it k0 = Ok (Some (started_sender, net, fifo), s0) ∧ run os s0 = Ok (tt, s) ∧
    sy_file s = RHeader flow_src_dst_columns :: mjoin chunks ∧
    Forall2 (λ us lines, lines_follow setting tasks us lines) (iv_past v) chunks ∧
    wrep fsize [] P (tb_dw (sy_testbed s)) m ∧ records setting fsize (m_idx m) (updates (iv_now v)) m.
Proof. exact (sender_run k0 os). Qed.

(** A run of intervals in which every report is read *)
Lemma complete_reports (k0 : kernel) (segs : list (list sys_op * Z)) :
  Forall (λ seg, complete_interval datalink i net seg.1) segs →
  ∃ (s0 s : sender_system) chunks,
    boot_it k0 = Ok (Some (started_sender, net, fifo), s0) ∧
    run (segs ≫= λ seg, seg.1 ++ [SRotate seg.2]) s0 = Ok (tt, s) ∧
    sy_file s = RHeader flow_src_dst_columns :: mjoin chunks ∧
    Forall2 (λ seg lines, ∃ us, (∀ k, tally k us = true_volumes (tb_ops seg.1) k) ∧ lines_follow setting tasks us lines)
      segs chunks.
Proof.
  intros Hs. destruct (complete_run (K := flow_src) datalink i net segs [] Hs) as (Hr & uss & E & Ht).
  destruct (sender_run k0 (segs ≫= λ seg, seg.1 ++ [SRotate seg.2])) as (s0 & s & chunks & _ & _ & Eb & Er & Ef & Hc & _);
    [|exact Hr|].
  - apply Forall_bind. eapply Forall_impl; [exact Hs|]. intros seg Hseg. apply Forall_app. split; [|by constructor].
    exact (sys_ops_ok datalink _ (ci_ok _ _ _ _ Hseg)).
  - exists s0, s, chunks. split_and!; [exact Eb|exact Er|exact Ef|].
    unfold no_intervals in Hc. rewrite E in Hc. cbn [iv_past app] in Hc.
    clear - Hc Ht. revert chunks Hc. induction Ht as [|seg us segs uss Hk _ IH]; intros chunks Hc.
    + by apply Forall2_nil_inv_l in Hc as ->.
    + apply Forall2_cons_inv_l in Hc as (lines & chunks' & Hl & Hc & ->). constructor; [by exists us|by apply IH].
Qed.

(** They are exact without the fixed-size loss map. *)
Lemma exact_reports (k0 : kernel) (segs : list (list sys_op * Z)) :
  loss_map_mem_type (sender_setting setting) = INFINITE →
  Forall (λ seg, complete_interval datalink i net seg.1) segs →
  ∃ (s0 s : sender_system) chunks,
    boot_it k0 = Ok (Some (started_sender, net, fifo), s0) ∧
    run (segs ≫= λ seg, seg.1 ++ [SRotate seg.2]) s0 = Ok (tt, s) ∧
    sy_file s = RHeader flow_src_dst_columns :: mjoin chunks ∧
    Forall2 (λ seg lines, lines_tell setting tasks (true_volumes (tb_ops seg.1)) lines) segs chunks.
Proof.
  intros Hinf Hs. destruct (complete_reports k0 segs Hs) as (s0 & s & chunks & Eb & Er & Ef & Hc).
  exists s0, s, chunks. split_and!; [exact Eb|exact Er|exact Ef|]. eapply Forall2_impl; [exact Hc|].
  intros seg lines (us & Hk & Hl). apply (lines_follow_exact _ _ _ _ Hinf) in Hl.
  eapply lines_tell_ext; [exact Hk|exact Hl].
Qed.

(** C1. The program tells the truth, with the infinite loss map: from its settings
    and task file to the lines it writes.  The sender of host [i] and a receiver
    are started, and then come any number of intervals, all [complete_interval]:
    less than 2^30 bytes are sent, and packets are sent, arrive and are reported
    and the condition sender turns in any interleaving in which the packets that
    arrive are of this host and keep the order of their flow, every flow's last
    packet arrives and every report is read before the rotation.  Then the file
    holds, for each interval, a line for exactly those flows some task is
    interested in whose true volume and true loss (the volume of the packets that
    were sent in the interval and never arrived) are over the thresholds, and the
    line shows them.  ([late_losses_dropped] is what becomes of reports read
    after the rotation, [no_false_alarms] what is left with the fixed-size loss
    map.) *)
Theorem true_losses_reported (k0 : kernel) (segs : list (list sys_op * Z)) :
  loss_map_mem_type (sender_setting setting) = INFINITE →
  Forall (λ seg, complete_interval datalink i net seg.1) segs →
  ∃ (s0 s : sender_system) chunks,
    boot_it k0 = Ok (Some (started_sender, net, fifo), s0) ∧
    run (segs ≫= λ seg, seg.1 ++ [SRotate seg.2]) s0 = Ok (tt, s) ∧
    sy_file s = RHeader flow_src_dst_columns :: mjoin chunks ∧
    Forall2 (λ seg lines, lines_tell setting tasks (true_volumes (tb_ops seg.1)) lines) segs chunks.
Proof. exact (exact_reports k0 segs). Qed.

(** C3. From a recorded trace to the report.  The generator turns any well-formed
    records, fewer than 2^26, into a trace for every host.  Play the one of host
    [i] on Ethernet to a receiver in another network, in intervals of less than
    2^30 bytes each and with the threads interleaved in any way, over a network
    that loses any packets but lets none of a flow overtake another, such that of
    every flow that sends in an interval the last packet of the interval
    arrives; and let every report be read before the rotation.
    Then the file holds, for each interval, a line for exactly those flows some
    task is interested in whose true volume and true loss are over the
    thresholds, and the line shows them.  (With the infinite loss map, and as in
    [GeneratorProps.generated_traces] with the partly assigned variable the same
    at every call.) *)
Theorem trace_losses_reported (rand : nat → Z) (indeterminate : nat → flow_s) (packet : packet_t) (rs : list record) :
  loss_map_mem_type (sender_setting setting) = INFINITE → datalink = 1 → net ≠ 9 + i →
  (∀ n, indeterminate n = indeterminate 0%nat) → Forall record_ok rs → Z.of_nat (length rs) < 2 ^ 26 →
  ∃ (g0 g : gen_state (VI := vi_handle)) ips out n,
    init (K := flow_src) true true true true true (gen_zero [] packet) = Ok (0, g0) ∧
    generate_lines (K := flow_src) rand indeterminate (map record_line rs) g0 = Ok (tt, g) ∧
    spec_records rand rs ([], [], 0%nat) = (ips, out, n) ∧ pdumper g (i - 1) = pcap_of <$> of_node (i - 1) out ∧
    ∀ k0 segs, played (of_node (i - 1) out) segs →
      ∃ (s0 s : sender_system) chunks,
        boot_it k0 = Ok (Some (started_sender, net, fifo), s0) ∧
        run (segs ≫= λ seg, seg.1 ++ [SRotate seg.2]) s0 = Ok (tt, s) ∧
        sy_file s = RHeader flow_src_dst_columns :: mjoin chunks ∧
        Forall2 (λ seg lines, lines_tell setting tasks (true_volumes (tb_ops seg.1)) lines) segs chunks.
Proof.
  intros Hinf Hdl Hnet Hst Hrs Hb.
  destruct (traces_of_records (VI := vi_handle) flow_src_inj rand indeterminate packet rs Hst Hrs Hb)
    as (g0 & g & ips & out & n & E0 & E & Es & Hout).
  destruct (Hout (i - 1)) as (Ef & Hp & Hok & Ho); [lia|]. exists g0, g, ips, out, n.
  split; [exact E0|]. split; [exact E|]. split; [exact Es|]. split; [exact Ef|]. intros k0 segs Hpl.
  apply (exact_reports k0 segs Hinf). rewrite Hdl.
  apply (played_complete i net (of_node (i - 1) out)); [done|done| |done]. by apply generated_trace.
Qed.

(** C5. No false alarms, also with the fixed-size loss map, which the settings
    that come with the program ask for.  In any run of intervals that are
    [complete_interval] (less than 2^30 bytes are sent, the packets that arrive
    are of this host and keep the order of their flow, every flow's last packet
    arrives and every report is read before the rotation), a flow that has a line
    for an interval is one some task is interested in; the line shows its true
    volume and a loss that is not higher than the true one, and both true values
    reach the thresholds of the target flows.  (A packet that another one of its
    flow overtakes would count as lost, [TestbedProps.losses_accounted].) *)
Theorem no_false_alarms (k0 : kernel) (segs : list (list sys_op * Z)) :
  Forall (λ seg, complete_interval datalink i net seg.1) segs →
  ∃ (s0 s : sender_system) chunks,
    boot_it k0 = Ok (Some (started_sender, net, fifo), s0) ∧
    run (segs ≫= λ seg, seg.1 ++ [SRotate seg.2]) s0 = Ok (tt, s) ∧
    sy_file s = RHeader flow_src_dst_columns :: mjoin chunks ∧
    Forall2 (λ seg lines, ∀ x, x ∈ lines → is_flow_line x →
      ∃ k ns sent_out l, let '(volume, loss) := true_volumes (tb_ops seg.1) k in
        x = line_of (VF := vf_handle) setting (volume, l) k ns sent_out ∧ is_Some (tasks k) ∧
        0 <= l <= loss ∧ volume_threshold (target_flow_setting setting) <= volume ∧
        loss_volume_threshold (target_flow_setting setting) <= l) segs chunks.
Proof.
  intros Hs. destruct (complete_reports k0 segs Hs) as (s0 & s & chunks & Eb & Er & Ef & Hc).
  exists s0, s, chunks. split_and!; [exact Eb|exact Er|exact Ef|]. eapply Forall2_impl; [exact Hc|].
  intros seg lines (us & Hk & vl & Hseen & [Hl _]) x Hx Hf. destruct (Hl x Hx Hf) as (k & ns & sent_out & -> & [Hv Ho] & Ht).
  exists k, ns, sent_out, (vl k).2. destruct (Hseen k) as (E1 & E2 & _). rewrite Hk in E1, E2.
  destruct (true_volumes _ k) as [volume loss]. cbn [fst snd] in *. rewrite <- E1.
  apply flow_level_target in Ho as [Hvt Hlt]. split_and!; [by destruct (vl k)|done|lia..].
Qed.

(** C4. Random ports hide the losses.  The sender looks for missing sequence
    numbers among the packets of the same addresses and ports, but the generator
    gives every packet random ports.  Whenever no two packets sent have the same
    addresses and ports, then in any run whatsoever, with any losses, the file
    says for every interval that every flow has lost nothing. *)
Theorem random_ports_hide_losses (k0 : kernel) (segs : list (list sys_op * Z)) :
  let os := segs ≫= λ seg, seg.1 ++ [SRotate seg.2] in
  Forall (λ seg, Forall (λ o, ¬ is_rotation o) seg.1) segs →
  Forall (op_ok datalink) (tb_ops os) → always_in_range (K := flow_src) net fifo os no_intervals →
  arrivals_sent (tb_ops os) → lone (sent_packets (tb_ops os)) →
  ∃ (s0 s : sender_system) chunks,
    boot_it k0 = Ok (Some (started_sender, net, fifo), s0) ∧ run os s0 = Ok (tt, s) ∧
    sy_file s = RHeader flow_src_dst_columns :: mjoin chunks ∧
    Forall2 (λ seg lines,
      lines_tell setting tasks (λ k, (volume_of (of_source k) (sent_packets (tb_ops seg.1)), 0)) lines) segs chunks.
Proof.
  intros os Hn Hok Hr Ha Hl. destruct (sender_run k0 os (sys_ops_ok datalink _ Hok) Hr)
    as (s0 & s & chunks & _ & _ & Eb & Er & Ef & Hc & _).
  exists s0, s, chunks. split_and!; [exact Eb|exact Er|exact Ef|].
  unfold os in Hc, Hok, Ha, Hl. rewrite tb_ops_intervals in Hok, Ha, Hl.
  destruct (hidden_run (K := flow_src) datalink i net segs [] no_accounts []) as (a' & uss & E & Hus);
    [by split; [intros x ?%not_elem_of_nil|intros f sid ?%not_elem_of_nil|constructor]|done..|].
  unfold no_intervals in Hc. rewrite E in Hc. cbn [iv_past app] in Hc. clear - Hus Hc. revert chunks Hc.
  induction Hus as [|seg us segs uss Hk _ IH]; intros chunks Hc; [by apply Forall2_nil_inv_l in Hc as ->|].
  apply Forall2_cons_inv_l in Hc as (lines & chunks' & Hl & Hc & ->). constructor; [|by apply IH].
  apply lines_follow_lossless in Hl; [|intros k; by rewrite Hk]. exact (lines_tell_ext _ _ _ _ _ Hk Hl).
Qed.

(** C6. The switches are told what the accounts say.  In any interleaving of
    the threads, from the start of an interval to a turn of the condition sender
    within it, what is offered to the interface are packets of the trace and the
    packets of a list of conditions which, applied in order to a switch that
    knows of no flow, give every flow the level that its volume and the loss seen
    of it so far in the interval have; the volume is exact, and the loss too
    without the fixed-size loss map. *)
Theorem conditions_tell_levels (k0 : kernel) (os seg : list sys_op) :
  at_interval_start os → Forall (λ o, ¬ is_rotation o) seg →
  Forall (sys_op_ok datalink) (os ++ seg) → always_in_range (K := flow_src) net fifo (os ++ seg) no_intervals →
  let v := interval_steps (K := flow_src) net fifo (os ++ seg) no_intervals in
  ∃ (s0 s1 s : sender_system) ofs,
    boot_it k0 = Ok (Some (started_sender, net, fifo), s0) ∧
    run os s0 = Ok (tt, s1) ∧ run (seg ++ [SCondition]) s1 = Ok (tt, s) ∧
    sy_wire s = offered intf1 sendpacket (sy_wire s1) ofs ∧
    levels_told setting (updates (iv_now v)) (apply_conditions kempty (conditions_of ofs)).
Proof.
  exact (booted_conditions (VI:=vi_handle) (VF:=vf_handle) (FX:=fx_handle) settings_file task_file mem time ip_prefix_str
    flow_src_dst_columns setting fsize ts tasks datalink i intf1 sendpacket fuel mkfifo_ok open_ok mkfifo_works
    open_works settings_given tasks_given a_host fsize_ok fsize_pos monitors_of_traffic
    (get_task_respects ts) enough_fuel k0 os seg).
Qed.

(** C7. What is on the wire.  In any run of the system, the interface is offered
    the packets that the replay sends, in their order, and between them the
    packets of conditions, and keeps those it sends whole.  A packet of the replay
    is offered as it was in the trace, with the tag its task asks for in its first
    VLAN header and its length in four bytes after it, whatever was in the buffer
    before; from it the sender's parser and, if it is a TCP packet, the receiver
    read its flow and its sequence number, and its last four bytes give the
    length. *)
Theorem packets_on_wire (k0 : kernel) (os : list sys_op) :
  Forall (sys_op_ok datalink) os → always_in_range (K := flow_src) net fifo os no_intervals →
  ∃ (s0 s : sender_system) ofs,
    boot_it k0 = Ok (Some (started_sender, net, fifo), s0) ∧ run os s0 = Ok (tt, s) ∧
    sy_wire s = offered intf1 sendpacket [] ofs ∧
    Forall2 (λ x pkt, carried tasks x pkt ∧ reads_back datalink x pkt) (sends os) (packets_of_offers ofs).
Proof.
  intros Hos Hr.
  destruct (booted_system (VI:=vi_handle) (VF:=vf_handle) (FX:=fx_handle) settings_file task_file mem time ip_prefix_str
    flow_src_dst_columns setting fsize ts tasks datalink i intf1 sendpacket fuel mkfifo_ok open_ok mkfifo_works
    open_works settings_given tasks_given a_host fsize_ok fsize_pos monitors_of_traffic
    (get_task_respects ts) enough_fuel k0 os Hos Hr) as (s0 & s & ofs1 & Eb & Er & Hs).
  destruct (sys_inv_wire _ _ _ _ _ _ _ _ _ _ _ Hs) as (ofs & Ew & Hc). exists s0, s, ofs. split_and!; [done..|].
  apply run_reads_back; [exact monitors_of_traffic|done|exact Hc].
Qed.

(** C19. Losses that are reported late are lost twice.  If packets are sent and
    arrive in an interval, in any order, and the updator reads their reports only
    after the rotation, then whatever was lost the file says that every flow
    has lost nothing, and the next interval has no line for any flow: its
    volumes are gone, and the loss is dropped. *)
Theorem late_losses_dropped (k0 : kernel) (os : list sys_op) (n : nat) (msec1 msec2 : Z) :
  Forall (λ o, ¬ is_rotation o) os → Forall (op_ok datalink) (tb_ops os) → sent (λ _, true) (tb_ops os) < 2 ^ 30 →
  TReport ∉ tb_ops os →
  ∃ (s0 s : sender_system) lines1 lines2,
    boot_it k0 = Ok (Some (started_sender, net, fifo), s0) ∧
    run ((os ++ [SRotate msec1]) ++ (STestbed <$> reports n) ++ [SRotate msec2]) s0 = Ok (tt, s) ∧
    sy_file s = RHeader flow_src_dst_columns :: lines1 ++ lines2 ∧
    lines_tell setting tasks (λ k, (volume_of (of_source k) (sent_packets (tb_ops os)), 0)) lines1 ∧
    ∀ x, x ∈ lines2 → ¬ is_flow_line x.
Proof.
  intros Hn Hok Hb Hno. destruct (late_run (K := flow_src) datalink i net os n msec1 msec2 Hn Hok Hb Hno)
    as (Hr & us1 & us2 & Ep & E1 & E2).
  destruct (sender_run k0 ((os ++ [SRotate msec1]) ++ (STestbed <$> reports n) ++ [SRotate msec2]))
    as (s0 & s & chunks & _ & _ & Eb & Er & Ef & Hc & _); [|exact Hr|].
  - rewrite !Forall_app. split_and!; [by apply sys_ops_ok|by constructor| |by constructor].
    apply Forall_fmap. by apply Forall_replicate.
  - rewrite Ep in Hc. apply Forall2_cons_inv_l in Hc as (lines1 & c1 & H1 & Hc & ->).
    apply Forall2_cons_inv_l in Hc as (lines2 & c2 & H2 & Hc & ->). apply Forall2_nil_inv_l in Hc as ->.
    exists s0, s, lines1, lines2. split; [exact Eb|]. split; [exact Er|]. split; [rewrite Ef; simpl; by rewrite app_nil_r|].
    apply lines_follow_lossless in H1; [|intros k; by rewrite E1]. apply lines_follow_lossless in H2; [|intros k; by rewrite E2].
    split; [exact (lines_tell_ext _ _ _ _ _ E1 H1)|]. intros x Hx Hf. destruct H2 as [H2 _].
    destruct (H2 x Hx Hf) as (k & _ & _ & _ & [Hv _] & _). by rewrite E2 in Hv.
Qed.
End sender_build.

(** ** Witnesses *)
(** Settings as those of [Config.v], with injected conditions, and the task of
    the first host *)
Definition demo_settings_file (loss_map : string) : text := file_of
  ([Assign "interval_msec_len" (txt "5000"); Assign "condition_msec_freq" (txt "100"); Assign "replacement" (txt "1");
    Assign "switch_mem_type" (txt "0"); Assign "switch_memory_times" (txt "1"); Assign "switch_drop_rate" (txt "0");
    Assign "host_or_switch_sample" (txt "0"); Assign "inject_or_tag_packet" (txt "0");
    Assign "target_flow_volume" (txt "1000"); Assign "target_flow_loss_rate" (txt "0.1");
    Assign "target_flow_loss_volume" (txt "200"); Assign "selected_loss_volume_threshold" (txt "100");
    Assign "target_flow_volume_in_sampling" (txt "1000"); Assign "sender_loss_map_mem_type" (txt loss_map);
    Assign "fix_loss_map_bucket_size" (txt "10")] ++ ((λ k, Assign k (txt "1000")) <$> switch_keys)).
Definition setting_of_file (f : text) : cm_experiment_setting_t :=
  match init_cm_experiment_setting (Some f) (λ _, true) zero_setting with Ok (_, s) => s | Fault _ => zero_setting end.
Definition demo_read_setting : cm_experiment_setting_t := Eval vm_compute in setting_of_file (demo_settings_file "0").
Definition demo_fixed_setting : cm_experiment_setting_t := Eval vm_compute in setting_of_file (demo_settings_file "1").
Definition demo_task_file : text := render_file [CommentLine (txt "tasks"); TaskLine (Task 1 1 2 [3] 0 0)].
Definition demo_fuel : nat := Z.to_nat (2 ^ 31).

Lemma demo_settings_given :
  init_cm_experiment_setting (Some (demo_settings_file "0")) (λ _, true) zero_setting = Ok (0, demo_read_setting).
Proof. vm_compute. reflexivity. Qed.
Lemma demo_fixed_given :
  init_cm_experiment_setting (Some (demo_settings_file "1")) (λ _, true) zero_setting = Ok (0, demo_fixed_setting).
Proof. vm_compute. reflexivity. Qed.
Lemma demo_tasks_given : init_tasks_info (Some (host_dev 1)) (Some demo_task_file) = Ok (0, RotatorProps.demo_tasks).
Proof. vm_compute. reflexivity. Qed.
Lemma demo_fuel_enough : 2 ^ 31 <= Z.of_nat demo_fuel.
Proof. unfold demo_fuel. by rewrite Z2Nat.id. Qed.

(** Two intervals: the first packet of three is lost in the first, none in the
    second; the condition sender turns in between. *)
Definition demo_lossy : list sys_op := (STestbed <$> demo_run) ++ SCondition :: (STestbed <$> reports 2) ++ [SCondition].
Definition demo_clean : list sys_op :=
  STestbed <$> [TSend tcp_filler [0] demo_packet_flow 1 1500; TReceive tcp_filler [0] demo_packet_flow 1; TReport].
Lemma demo_lossy_complete : complete_interval 1 1 11 demo_lossy.
Proof.
  assert (tb_ops demo_lossy = demo_run ++ reports 2) as E by done.
  split; rewrite ?E; [by repeat constructor; intros []| |done| |by repeat constructor|by repeat constructor|].
  - apply Forall_app. split; [apply demo_run_op_ok|by repeat constructor].
  - by apply in_order_reports, demo_run_in_order.
  - by exists demo_run, 2%nat.
Qed.
Lemma demo_clean_complete : complete_interval 1 1 11 demo_clean.
Proof.
  destruct (tcp_frame_ok 1) as [Hf Ht]; [by unfold in_u|].
  split; [by repeat constructor; intros []| |done| |by repeat constructor|by repeat constructor|].
  - cbn [demo_clean tb_ops omap list_omap fmap list_fmap]. rewrite !Forall_cons. by split_and!.
  - apply (in_order_steps [] _ in_order_nil). by apply (bool_decide_unpack _); vm_compute.
  - by eexists [_; _], 1%nat.
Qed.

Lemma demo_clean_volumes (k : flow_src) : ¬ over_thresholds demo_read_setting (true_volumes (tb_ops demo_clean) k).
Proof.
  assert (true_volumes (tb_ops demo_clean) k = (if of_source k demo_packet_flow then 1500 else 0, 0)) as ->.
  { unfold true_volumes. f_equal. simpl. by destruct (of_source _ _). }
  intros [Hv Hl]. cbn [fst snd] in *. destruct (of_source _ _); [|done]. by vm_compute in Hl.
Qed.

Lemma true_losses_reported_witness :
  ∃ (s0 s : system flow_src vi_handle vf_handle fx_handle) lines1 lines2 k ns sent_out,
    do_syss demo_read_setting (get_task_of_traffic RotatorProps.demo_tasks) 1 11 (get_sender_fifo_fname 1 100) true
      takes_all demo_fuel ((demo_lossy ++ [SRotate 5000]) ++ demo_clean ++ [SRotate 10000]) s0 = Ok (tt, s) ∧
    sy_file s = RHeader flow_src_dst_columns :: lines1 ++ lines2 ∧
    line_of (VF := vf_handle) demo_read_setting (1664, 1500) k ns sent_out ∈ lines1 ∧ key_compare demo_flow k = 0 ∧
    ∀ x, x ∈ lines2 → ¬ is_flow_line x.
Proof.
  destruct (true_losses_reported (Some (demo_settings_file "0")) (Some demo_task_file) (λ _, true) 1400000000 [49; 49] demo_read_setting 10
    RotatorProps.demo_tasks 1 1 true takes_all demo_fuel (λ _, true) (λ _, true)) with (k0 := ∅ : kernel)
    (segs := [(demo_lossy, 5000); (demo_clean, 10000)]) as (s0 & s & chunks & _ & E & Ef & Hc);
    [done|done|exact demo_settings_given|done|done|exact demo_tasks_given|by repeat constructor|done|exact demo_fuel_enough|done| |].
  { apply Forall_cons. split; [exact demo_lossy_complete|]. apply Forall_singleton. exact demo_clean_complete. }
  apply Forall2_cons_inv_l in Hc as (lines1 & c1 & H1 & Hc & ->).
  apply Forall2_cons_inv_l in Hc as (lines2 & c2 & H2 & Hc & ->). apply Forall2_nil_inv_l in Hc as ->.
  destruct H1 as [_ H1]. destruct (H1 demo_flow) as (k & ns & sent_out & Ek & Hin); [by vm_compute|by vm_compute; eexists|].
  exists s0, s, lines1, lines2, k, ns, sent_out. split; [exact E|]. split; [rewrite Ef; simpl; by rewrite app_nil_r|].
  split; [|split; [exact Ek|]].
  - assert (demo_flow = k) as <- by (by apply flow_src_dst_compare_eq). exact Hin.
  - intros x Hx Hf. destruct H2 as [H2 _]. destruct (H2 x Hx Hf) as (k' & _ & _ & _ & Ho & _).
    by apply (demo_clean_volumes k').
Defined.

(** The trace of the second host, when all packets get the same ports: its first
    packet is lost. *)
Definition trace_task_file : text := render_file [TaskLine (Task 1 2 3 [3] 0 0)].
Definition tasks_of_file (dev file : text) : task_manager_t :=
  match init_tasks_info (Some dev) (Some file) with Ok (_, ts) => ts | Fault _ => [] end.
Definition trace_tasks : task_manager_t := Eval vm_compute in tasks_of_file (host_dev 2) trace_task_file.
Lemma trace_tasks_given : init_tasks_info (Some (host_dev 2)) (Some trace_task_file) = Ok (0, trace_tasks).
Proof. vm_compute. reflexivity. Qed.
Definition trace_flow : flow_s := Flow 184549376 201326592 5 5 6.
Definition demo_playing : list sys_op := STestbed <$>
  [TSend gen_filler [0] trace_flow 1 1058; TSend gen_filler [0] trace_flow 2 98;
   TReceive (with_length gen_filler 98) [8] trace_flow 2; TReport].
Lemma demo_playing_played : played [(trace_flow, (1, 1058)); (trace_flow, (2, 98))] [(demo_playing, 5000)].
Proof.
  split; [by exists []|]. apply Forall_singleton. split; [by repeat constructor; intros []|..].
  - split.
    + intros fl tags f sid len Hin. cbn in Hin. rewrite !elem_of_cons, elem_of_nil in Hin. naive_solver.
    + intros os1 fl tags f sid os2 E. cbn in E. destruct os1 as [|o1 [|o2 [|o3 [|o4 [|]]]]]; simplify_eq/=.
      split; [exists 98; split; [done|right; by left]|]. split; [by exists 8|constructor].
  - done.
  - cbn. repeat constructor; done.
  - by eexists [_; _; _], 1%nat.
Qed.
Lemma trace_losses_reported_witness :
  ∃ (s0 s : system flow_src vi_handle vf_handle fx_handle) lines k ns sent_out,
    do_syss demo_read_setting (get_task_of_traffic trace_tasks) 1 12 (get_sender_fifo_fname 2 100) true
      takes_all demo_fuel (demo_playing ++ [SRotate 5000]) s0 = Ok (tt, s) ∧
    sy_file s = RHeader flow_src_dst_columns :: lines ∧
    line_of (VF := vf_handle) demo_read_setting (1156, 1058) k ns sent_out ∈ lines.
Proof.
  destruct (trace_losses_reported (Some (demo_settings_file "0")) (Some trace_task_file) (λ _, true) 1400000000 [49; 50] demo_read_setting 10
    trace_tasks 1 2 true takes_all demo_fuel (λ _, true) (λ _, true)) with (rand := λ _ : nat, 5) (indeterminate := demo_garbage)
    (packet := Packet 0 0 0 0 0 0 0 false 0) (rs := demo_records) as (g0 & g & ips & out & n & _ & _ & Es & _ & Hp);
    [done|done|exact demo_settings_given|done|done|exact trace_tasks_given|by repeat constructor|done|exact demo_fuel_enough
    |done|done|by vm_compute|done|apply demo_records_ok|done|].
  assert (of_node (2 - 1) out = [(trace_flow, (1, 1058)); (trace_flow, (2, 98))]) as E
    by (change out with (ips, out, n).1.2; rewrite <- Es; by vm_compute). rewrite E in Hp.
  destruct (Hp ∅ [(demo_playing, 5000)] demo_playing_played) as (s0 & s & chunks & _ & Er & Ef & Hc).
  apply Forall2_cons_inv_l in Hc as (lines & c1 & [_ H1] & Hc & ->). apply Forall2_nil_inv_l in Hc as ->.
  destruct (H1 (packet_flow_src 184549376 201326592)) as (k & ns & sent_out & Ek & Hin); [by vm_compute|by vm_compute; eexists|].
  exists s0, s, lines, k, ns, sent_out. split; [exact Er|]. split; [rewrite Ef; simpl; by rewrite app_nil_r|].
  assert (packet_flow_src 184549376 201326592 = k) as <- by (by apply flow_src_dst_compare_eq). exact Hin.
Defined.

(** The same records with ports that differ: again the first packet is lost, and
    nothing says so. *)
Definition random_flow1 : flow_s := Flow 184549376 201326592 0 1 6.
Definition random_flow2 : flow_s := Flow 184549376 201326592 2 3 6.
Lemma demo_random_trace :
  of_node 1 (spec_records demo_rand demo_records ([], [], 0%nat)).1.2 = [(random_flow1, (1, 1058)); (random_flow2, (2, 98))].
Proof. by vm_compute. Qed.
Definition demo_random : list sys_op := STestbed <$>
  [TSend gen_filler [0] random_flow1 1 1058; TSend gen_filler [0] random_flow2 2 98;
   TReceive gen_filler [8] random_flow2 2; TReport].
Lemma demo_random_ok : Forall (op_ok 1) (tb_ops (demo_random ++ [SRotate 5000])).
Proof.
  assert (flow_ok random_flow1 ∧ flow_ok random_flow2) as [H1 H2]
    by (unfold flow_ok, byte, in_u; simpl; lia).
  assert (∀ f tag sid, flow_ok f → in_u 16 tag → in_u 32 sid → frame_ok 1 gen_filler [tag] f sid) as Hf
    by (intros; by apply gen_frame_ok).
  cbn. rewrite !Forall_cons. unfold op_ok. split_and!; try done; try (by apply Hf).
  split; try done; eexists; by split.
Qed.

Lemma random_ports_hide_losses_witness :
  ∃ (s0 s : system flow_src vi_handle vf_handle fx_handle) lines,
    do_syss demo_read_setting (get_task_of_traffic trace_tasks) 1 12 (get_sender_fifo_fname 2 100) true
      takes_all demo_fuel (demo_random ++ [SRotate 5000]) s0 = Ok (tt, s) ∧
    sy_file s = RHeader flow_src_dst_columns :: lines ∧ ∀ x, x ∈ lines → ¬ is_flow_line x.
Proof.
  destruct (random_ports_hide_losses (Some (demo_settings_file "0")) (Some trace_task_file) (λ _, true) 1400000000 [49; 50]
    demo_read_setting 10 trace_tasks 1 2 true takes_all demo_fuel (λ _, true) (λ _, true)) with (k0 := ∅ : kernel)
    (segs := [(demo_random, 5000)]) as (s0 & s & chunks & _ & Er & Ef & Hc);
    [done|done|exact demo_settings_given|done|done|exact trace_tasks_given|by repeat constructor|done|exact demo_fuel_enough
    |by repeat constructor; intros []|exact demo_random_ok| | | |].
  - repeat (apply always_in_range_cons; [by vm_compute|]). apply always_in_range_nil. by vm_compute.
  - intros os1 fl tags f sid os2 E. cbn in E. destruct os1 as [|o1 [|o2 [|o3 [|o4 [|]]]]]; simplify_eq/=.
    by left.
  - intros f. change (sent_packets _) with [(random_flow1, (1, 1058)); (random_flow2, (2, 98))].
    unfold flow_packets. rewrite !filter_cons. repeat case_decide; simpl; try lia.
    cbn [fst] in *. repeat match goal with H : key_compare _ _ = 0 |- _ => apply flow_compare_eq in H as (_ & _ & ? & _) end.
    unfold random_flow1, random_flow2 in *. simpl in *. lia.
  - apply Forall2_cons_inv_l in Hc as (lines & c1 & [H1 _] & Hc & ->). apply Forall2_nil_inv_l in Hc as ->.
    exists s0, s, lines. split; [exact Er|]. split; [rewrite Ef; simpl; by rewrite app_nil_r|].
    intros x Hx Hf. destruct (H1 x Hx Hf) as (k & _ & _ & _ & [_ Hlv] & _). cbn [fst snd] in Hlv.
    apply flow_level_target in Hlv as [_ Hlt]. by vm_compute in Hlt.
Defined.

(** The same intervals with the fixed-size loss map *)
Lemma no_false_alarms_witness :
  ∃ (s0 s : system flow_src vi_handle vf_handle fx_handle) lines1 lines2,
    do_syss demo_fixed_setting (get_task_of_traffic RotatorProps.demo_tasks) 1 11 (get_sender_fifo_fname 1 100) true
      takes_all demo_fuel ((demo_lossy ++ [SRotate 5000]) ++ demo_clean ++ [SRotate 10000]) s0 = Ok (tt, s) ∧
    sy_file s = RHeader flow_src_dst_columns :: lines1 ++ lines2 ∧
    (∀ x, x ∈ lines1 → is_flow_line x → ∃ k ns sent_out l, x = line_of (VF := vf_handle) demo_fixed_setting (1664, l) k ns sent_out ∧ 200 <= l <= 1500) ∧
    ∀ x, x ∈ lines2 → ¬ is_flow_line x.
Proof.
  destruct (no_false_alarms (Some (demo_settings_file "1")) (Some demo_task_file) (λ _, true) 1400000000 [49; 49]
    demo_fixed_setting 10 RotatorProps.demo_tasks 1 1 true takes_all demo_fuel (λ _, true) (λ _, true)) with (k0 := ∅ : kernel)
    (segs := [(demo_lossy, 5000); (demo_clean, 10000)]) as (s0 & s & chunks & _ & E & Ef & Hc);
    [done|done|exact demo_fixed_given|done|done|exact demo_tasks_given|by repeat constructor|done|exact demo_fuel_enough| |].
  { apply Forall_cons. split; [exact demo_lossy_complete|]. apply Forall_singleton. exact demo_clean_complete. }
  apply Forall2_cons_inv_l in Hc as (lines1 & c1 & H1 & Hc & ->).
  apply Forall2_cons_inv_l in Hc as (lines2 & c2 & H2 & Hc & ->). apply Forall2_nil_inv_l in Hc as ->.
  exists s0, s, lines1, lines2. split; [exact E|]. split; [rewrite Ef; simpl; by rewrite app_nil_r|]. split.
  - intros x Hx Hf. destruct (H1 x Hx Hf) as (k & ns & sent_out & l & Hl). exists k, ns, sent_out, l.
    assert (true_volumes (tb_ops demo_lossy) k
      = if of_source k demo_packet_flow then (1664, 1500) else (0, 0)) as Ev
      by (unfold true_volumes; simpl; by destruct (of_source _ _)).
    cbn [fst] in Hl. rewrite Ev in Hl. destruct (of_source _ _).
    + destruct Hl as (-> & _ & Hb & _ & Hlt). simpl in Hlt. split; [done|]. lia.
    + destruct Hl as (_ & _ & _ & Hv & _). by vm_compute in Hv.
  - intros x Hx Hf. destruct (H2 x Hx Hf) as (k & ns & sent_out & l & Hl). cbn [fst] in Hl.
    assert (true_volumes (tb_ops demo_clean) k = (if of_source k demo_packet_flow then 1500 else 0, 0)) as Ev
      by (unfold true_volumes; f_equal; simpl; by destruct (of_source _ _)).
    rewrite Ev in Hl. destruct Hl as (_ & _ & Hb & _ & Hlt). simpl in Hlt. lia.
Defined.

(** The rotation comes between a packet and its report, and the condition sender
    turns in between. *)
Definition demo_overlap : list sys_op :=
  [STestbed (TSend tcp_filler [0] demo_packet_flow 1 1500); STestbed (TSend tcp_filler [0] demo_packet_flow 2 500);
   STestbed (TReceive tcp_filler [0] demo_packet_flow 2); SCondition; SRotate 5000;
   STestbed (TSend tcp_filler [0] demo_packet_flow 3 1600); SCondition; STestbed TReport; SRotate 10000].

Lemma demo_overlap_ok : Forall (sys_op_ok 1) demo_overlap.
Proof.
  destruct (tcp_frame_ok 1) as [Hf1 Ht]; [by unfold in_u|]. destruct (tcp_frame_ok 2) as [Hf2 _]; [by unfold in_u|].
  destruct (tcp_frame_ok 3) as [Hf3 _]; [by unfold in_u|]. unfold demo_overlap. rewrite !Forall_cons. by split_and!.
Qed.
Lemma demo_overlap_in_range :
  always_in_range (K := flow_src) (u32 (strtol_int [49; 49])) (get_sender_fifo_fname 1 100) demo_overlap no_intervals.
Proof. unfold demo_overlap. repeat (apply always_in_range_cons; [by vm_compute|]). apply always_in_range_nil. by vm_compute. Qed.

(** The receiver reads the second of its three packets. *)
Lemma packets_on_wire_witness :
  ∃ (s0 s : system flow_src vi_handle vf_handle fx_handle) ofs b,
    do_syss demo_read_setting (get_task_of_traffic RotatorProps.demo_tasks) 1 11 (get_sender_fifo_fname 1 100) true
      takes_all demo_fuel demo_overlap s0 = Ok (tt, s) ∧
    sy_wire s = offer_pkt <$> ofs ∧ length (packets_of_offers ofs) = 3%nat ∧ packets_of_offers ofs !! 1%nat = Some (set b) ∧
    parse_headers b = Ok (TcpPacket (report_of (demo_packet_flow, 2)), b) ∧ read32 (Z.of_nat (length b) - 4) b = Ok (500, b).
Proof.
  destruct (packets_on_wire (Some (demo_settings_file "0")) (Some demo_task_file) (λ _, true) 1400000000 [49; 49] demo_read_setting 10
    RotatorProps.demo_tasks 1 1 true takes_all demo_fuel (λ _, true) (λ _, true)) with (k0 := ∅ : kernel)
    (os := demo_overlap) as (s0 & s & ofs & _ & E & Ew & Hc);
    [done|done|exact demo_settings_given|done|done|exact demo_tasks_given|by repeat constructor|done|exact demo_fuel_enough
    |exact demo_overlap_ok|exact demo_overlap_in_range|].
  change (sends demo_overlap) with [(tcp_filler, [0], (demo_packet_flow, (1, 1500))); (tcp_filler, [0], (demo_packet_flow, (2, 500)));
    (tcp_filler, [0], (demo_packet_flow, (3, 1600)))] in Hc.
  apply Forall2_cons_inv_l in Hc as (pkt1 & c1 & _ & Hc & Epkts). apply Forall2_cons_inv_l in Hc as (pkt2 & c2 & [_ Hp] & Hc & ->).
  apply Forall2_cons_inv_l in Hc as (pkt3 & c3 & _ & Hc & ->). apply Forall2_nil_inv_l in Hc as ->.
  destruct Hp as (b & -> & _ & Hrecv & Hlen). exists s0, s, ofs, b. split; [exact E|].
  split; [by rewrite Ew, offered_all|]. rewrite Epkts. split_and!; try done. by apply Hrecv, (tcp_frame_ok 2).
Defined.

Lemma system_reports_witness :
  ∃ (s0 s : system flow_src vi_handle vf_handle fx_handle) lines1 lines2 k ns sent_out,
    do_syss demo_read_setting (get_task_of_traffic RotatorProps.demo_tasks) 1 11 (get_sender_fifo_fname 1 100) true
      takes_all demo_fuel demo_overlap s0 = Ok (tt, s) ∧
    sy_file s = RHeader flow_src_dst_columns :: lines1 ++ lines2 ∧
    line_of (VF := vf_handle) demo_read_setting (1600, 1500) k ns sent_out ∈ lines2 ∧ key_compare demo_flow k = 0.
Proof.
  destruct (system_reports (Some (demo_settings_file "0")) (Some demo_task_file) (λ _, true) 1400000000 [49; 49] demo_read_setting 10
    RotatorProps.demo_tasks 1 1 true takes_all demo_fuel (λ _, true) (λ _, true)) with (k0 := ∅ : kernel)
    (os := demo_overlap) as (s0 & s & chunks & P & m & _ & E & Ef & Hc & _);
    [done|done|exact demo_settings_given|done|done|exact demo_tasks_given|by repeat constructor|done|exact demo_fuel_enough| | |].
  { exact demo_overlap_ok. }
  { exact demo_overlap_in_range. }
  apply Forall2_cons_inv_l in Hc as (lines1 & c1 & H1 & Hc & ->).
  apply Forall2_cons_inv_l in Hc as (lines2 & c2 & H2 & Hc & ->). apply Forall2_nil_inv_l in Hc as ->.
  apply lines_follow_exact in H2 as [_ H2]; [|done]. destruct (H2 demo_flow) as (k & ns & sent_out & Ek & Hin); [by vm_compute|by vm_compute; eexists|].
  exists s0, s, lines1, lines2, k, ns, sent_out. split; [exact E|]. split; [rewrite Ef; simpl; by rewrite app_nil_r|].
  split; [|exact Ek]. assert (demo_flow = k) as <- by (by apply flow_src_dst_compare_eq). exact Hin.
Defined.

(** 1500 of 1664 bytes are lost, and no line says so. *)
Lemma late_losses_dropped_witness :
  ∃ (s0 s : system flow_src vi_handle vf_handle fx_handle) lines,
    do_syss demo_read_setting (get_task_of_traffic RotatorProps.demo_tasks) 1 11 (get_sender_fifo_fname 1 100) true
      takes_all demo_fuel (((STestbed <$> demo_run) ++ [SRotate 5000]) ++ (STestbed <$> reports 2) ++ [SRotate 10000]) s0
    = Ok (tt, s) ∧
    sy_file s = RHeader flow_src_dst_columns :: lines ∧ ∀ x, x ∈ lines → ¬ is_flow_line x.
Proof.
  destruct (late_losses_dropped (Some (demo_settings_file "0")) (Some demo_task_file) (λ _, true) 1400000000 [49; 49] demo_read_setting 10
    RotatorProps.demo_tasks 1 1 true takes_all demo_fuel (λ _, true) (λ _, true)) with (k0 := ∅ : kernel)
    (os := STestbed <$> demo_run) (n := 2%nat) (msec1 := 5000) (msec2 := 10000)
    as (s0 & s & lines1 & lines2 & _ & E & Ef & [H1 _] & H2);
    [done|done|exact demo_settings_given|done|done|exact demo_tasks_given|by repeat constructor|done|exact demo_fuel_enough| | | | |].
  - by repeat constructor; intros [].
  - exact demo_run_op_ok.
  - done.
  - cbn. rewrite !not_elem_of_cons. split_and!; try done. apply not_elem_of_nil.
  - exists s0, s, (lines1 ++ lines2). split; [exact E|]. split; [exact Ef|].
    intros x [Hx|Hx]%elem_of_app Hf; [|by apply (H2 x)]. destruct (H1 x Hx Hf) as (k & _ & _ & _ & [Hv Hl] & _).
    assert (volume_of (of_source k) (sent_packets (tb_ops (STestbed <$> demo_run)))
      = if of_source k demo_packet_flow then 1664 else 0) as Ev by (simpl; by destruct (of_source _ _)).
    cbn [fst snd] in *. rewrite Ev in Hv, Hl. destruct (of_source _ _); [|done]. by vm_compute in Hl.
Defined.

(** After the first interval: the second loses its first packet, and a turn of
    the condition sender makes the flow a target. *)
Lemma conditions_tell_levels_witness :
  ∃ (s1 s : system flow_src vi_handle vf_handle fx_handle) ofs,
    do_syss demo_read_setting (get_task_of_traffic RotatorProps.demo_tasks) 1 11 (get_sender_fifo_fname 1 100) true
      takes_all demo_fuel (demo_lossy ++ [SCondition]) s1 = Ok (tt, s) ∧
    sy_wire s = sy_wire s1 ++ (offer_pkt <$> ofs) ∧
    apply_conditions kempty (conditions_of ofs) demo_flow = Some TARGET_LEVEL.
Proof.
  pose proof demo_lossy_complete as Hl. pose proof demo_clean_complete as Hc.
  destruct (complete_run (K := flow_src) 1 1 11 [(demo_clean, 5000)] []) as (Hr & uss & Eu & _);
    [by apply Forall_singleton|]. cbn [mbind list_bind fst snd] in Hr, Eu. rewrite app_nil_r in Hr, Eu.
  destruct (conditions_tell_levels (Some (demo_settings_file "0")) (Some demo_task_file) (λ _, true) 1400000000 [49; 49]
    demo_read_setting 10 RotatorProps.demo_tasks 1 1 true takes_all demo_fuel (λ _, true) (λ _, true)) with (k0 := ∅ : kernel)
    (os := demo_clean ++ [SRotate 5000]) (seg := demo_lossy) as (s0 & s1 & s & ofs & _ & _ & E & Ew & vl & Hseen & Hlv);
    [done|done|exact demo_settings_given|done|done|exact demo_tasks_given|by repeat constructor|done|exact demo_fuel_enough
     |right; by eexists _, _|exact (ci_no_rotation _ _ _ _ Hl)| | |].
  - apply Forall_app. split; [apply Forall_app; split; [exact (sys_ops_ok 1 _ (ci_ok _ _ _ _ Hc))|by constructor]|].
    exact (sys_ops_ok 1 _ (ci_ok _ _ _ _ Hl)).
  - assert (u32 (strtol_int [49; 49]) = 11) as -> by done.
    apply always_in_range_app; [exact Hr|]. unfold no_intervals. rewrite Eu. by apply (complete_in_range 1 1).
  - exists s1, s, ofs. split; [exact E|]. split; [rewrite Ew; apply offered_all|].
    rewrite (Hlv demo_flow). destruct (Hseen demo_flow) as (_ & _ & ->); [done|]. by vm_compute.
Defined.
